(* ===== verification/_CoqProject ===== *)
-Q . S2P
Prelude.v
PyStr.v
Text.v
PyLib.v
Json.v
Models.v
Gen.v
Events.v
World.v
TurnStore.v
Locks.v
Lease.v
Recovery.v
RateLimit.v
TurnStream.v
CodexRemote.v
Services.v
Mappers.v
WebStream.v
TurnRunner.v
Translate.v
Diagnostics.v
Transport.v
Session.v
CodexClient.v
ChatRpc.v
Markdown.v
CodexPrefs.v
McpAuthz.v
OpenTurn.v
Auth.v
TgProgress.v
TgTurn.v
TgOutcome.v
TgAnswer.v
Uploads.v
TgMedia.v
Vault.v
Integrations.v
PyTime.v
Notes.v
Usage.v
TgHandlers.v
TgPolling.v
TgService.v
Admin.v
Errors.v
Process.v
Speech.v
SessionStore.v
