(* ===== verification/Prelude.v ===== *)
(** * Verification of the Codex chat server (src/app)

    The program is an ASGI server and a background worker that let web and Telegram users
    talk to Codex sidecars. A web turn is a row of [turns] in Postgres, a worker job, a
    WebSocket conversation with a sidecar, and a Redis stream the clients tail; a Telegram
    turn runs in the server and edits a message of the chat. Around them are accounts and
    sessions, uploads, notes, integrations, the tools the agent calls back, and the
    processes that all of it runs in.

    ** The parts and their interaction

    An RPC reserves the user's quota ([RateLimit]), inserts the turn ([TurnStore]) and
    enqueues it ([ChatRpc]). The worker ([TurnRunner]) takes the chat's lock ([Locks]) and
    the turn's lease ([Lease]), opens a sidecar client ([OpenTurn] over [CodexClient]) and
    consumes the web pipeline ([WebStream]), which turns the client's events ([Session],
    [Translate], [Diagnostics], over the connection of [Transport]) into protobuf events
    ([Mappers]), stores rows ([Services]) and attachments ([Uploads]) and reacts to steers
    and idle probes ([CodexRemote]). Each event is published on the turn's stream
    ([TurnStream]) and replayed to clients from there. Another process finalises turns
    whose lease or heartbeat expired ([Recovery]).

    A Telegram update reaches the bot by webhook or polling ([TgService], [TgPolling]), its
    handler ([TgHandlers]) and the runner of its chat's session ([SessionStore], [TgTurn]),
    with the message's media stored and shown to Codex ([TgMedia]), the answer streamed by
    [TgProgress] and rendered by [Markdown]. The agent calls tools back ([McpAuthz] tells
    for whom): notes ([Notes]), errors and images ([Errors]).

    ** Files

    - [Prelude] (this file): results, the program monad [prog], frame reasoning
      ([respects], hint database [frame], [solve_frame]), tables as lists.
    - [PyStr] (database [pystr]), [Text], [PyLib], [PyTime], [Json]: Python strings (code
      points below 256, and all of Unicode for the renderer), paths, URLs and base64, dates,
      and the values of [orjson.loads].
    - [Models]: enums and rows of models/*.py, sidecar names, error codes.
    - [Gen]: asynchronous generators as resumable programs, their traces under a consumer
      that may change the world as a relation allows, the weakest precondition [gwp] and
      its rules (database [gwp], [gwp_step]).
    - [Events]: services/codex/events/types.py and collector.py; the protobuf events.
    - [World]: Postgres (committed tables and the open session's working copy), Redis with
      expiry and faults, the bucket and the files, the clock, publications after commit
      (services/chat_activity/service.py).
    - Turns: [TurnStore] (services/turns/service.py, and the abstract lifecycle it refines),
      [Locks] (the interface [OwnedKey] of a Redis key with an owner, and
      services/turns/locks.py), [Lease] (lease.py, two more instances), [Recovery]
      (recovery.py), [TurnStream] (stream.py, over the interface [RedisTrim]), [RateLimit]
      (services/rate_limit, services/runtime_settings), [CodexRemote]
      (services/codex/codex_remote.py, services/turns/probe.py, status_map.py,
      services/bus/bus.py), [Services] (services/chats, messages, events, users).
    - Web: [Mappers] and [WebStream] (rpc/chat/mappers.py, stream.py), [TurnRunner]
      (services/turns/runner.py), [ChatRpc] (rpc/chat/service.py, guards.py), [Usage]
      (services/codex_usage and the push streams), [CodexPrefs] (services/codex_prefs,
      rpc/codex.py).
    - Sidecar: [Translate], [Diagnostics], [Transport], [Session] (services/codex/events,
      diagnostics.py, idle.py, transport.py, thread.py, turn.py, shared.py), [CodexClient]
      (client.py, history.py), [OpenTurn] (runner.py).
    - Telegram: [Markdown], [TgProgress], [TgTurn], [TgOutcome], [TgAnswer] (tg/markdown.py,
      progress.py, output.py, turn/*.py), [TgMedia] (media.py), [SessionStore]
      (services/sessions/store.py), [TgHandlers] (handlers.py, registry.py), [TgPolling]
      (polling.py), [TgService] (service.py, api/tg_webhook.py).
    - Accounts and data: [Auth] (services/auth, services/invites, rpc/auth.py), [Admin]
      (rpc/admin.py, event.py, message.py, user.py, the guards of api/settings),
      [Uploads] (services/uploads, services/storage, rpc/uploads.py, utils/paths.py),
      [Vault] (services/ssh_vault), [Integrations] (services/integrations), [Notes]
      (services/notes, rpc/notes.py, mcp/tools/notes.py).
    - Tools and speech: [McpAuthz] (services/mcp_authz, mcp/authz.py), [Errors]
      (services/errors, mcp/tools/errors.py and show_image.py), [Speech] (services/tts and
      stt behind the classes [TTSBackend], [TTSLaws] and [STTBackend]; rpc/chat/tts.py).
    - [Process]: rpc/router.py, rpc/health.py, worker.py and its health check, the start and
      the shutdown of main.py.

    ** State and operations

    A function of the source is a definition of the same name (a leading underscore
    dropped, and a prefix where two services share a name, as [msg_list]) in
    [prog world exn]: it maps the world to a value or an exception and the new world. An
    async generator is a [gen]. [with_session] is [async with SessionLocal()]: work on a
    copy of the tables, kept by [commit] and dropped otherwise. Each Redis call consumes
    one entry of the world's list of faults: it works, is lost, or works while its reply is
    lost; Lua scripts are single steps, and S3 requests have a list of their own. The
    conversation of [Session] runs in [world * session], where the session holds the
    object's attributes and a scripted sidecar: the answers to its requests in order and
    its notifications with their times. [Transport] is a state with one operation per event
    of the connection. The objects of one process are pairs with the world: the bot's
    sessions ([TgTurn], [TgHandlers]), its connection ([TgService]), the tracker's client and
    cache ([Errors]), the worker's task ([Process]).

    ** What the theorems show

    - Turns: of interleaved finalisations exactly the first one wins; one active turn per
      chat; refinement of the abstract lifecycle; activity is published exactly for
      committed rows. RunTurn never strands a turn and keeps the quota balanced on every
      branch of the turn already active.
    - Ownership: locks, leases, leadership and the polling of Telegram are exclusive within
      the TTL of the last confirmed command, under loss of requests and replies.
    - Recovery: the sweep, the listener and the start of the server fail exactly the stale
      and the expired turns.
    - Quotas: the window bound under interleaving, accounting of reserve and release, on
      the web and in Telegram.
    - Worker and web pipeline: every job that starts an active turn leaves it settled, a
      redelivery is a no-op, one terminal event per stream, coalescing is transparent.
    - Event streams: publication appends, a tail is an ordered prefix without repetition
      and a tail of a finished stream replays it to the end; the push streams deliver what
      is published, decoded as it was before.
    - Sidecar conversation: a turn shows its own notifications only, in order; a turn is
      opened on the chat's thread, and the history is sent exactly when the thread is new.
    - Telegram: the HTML is balanced and escaped, splitting ends and loses nothing; a turn
      is settled whatever happens, its answer is sent and stored whole; media are stored
      before Codex sees them; the bot follows the settings, muted chats are left alone.
    - Accounts: registration is all or nothing, a login's cookie identifies its account,
      administrators' operations are refused to others, an account created works.
    - Data: committed uploads have their objects, only trusted files are read, the agent's
      files say exactly what vault and integrations hold, notes are private.
    - Secrets: the error filter's output does not depend on what it hides, the tools show of
      an event the listed fields only, and only to administrators.
    - Processes: a beating worker stays visible to the health check; requests reach the
      service of their path; temporary recordings are deleted.

    ** Bounds and fuel

    - Integers are unbounded as in Python. Times are milliseconds ([seconds n] is
      [n * 1000]), in [Usage] microseconds.
    - [Session.turn_loop] consumes one notification of the script per unit of fuel, so
      [S (length feed)] is enough ([turn_isolation] shows that it returns). The fuel [wait]
      bounds the deadlines that pass within one wait; one is enough below the idle limit.
    - [Session.list_models_from] consumes one scripted answer per unit.
      [Session.probe_pages] has the source's bound of five pages. [Markdown.split_loop] has
      fuel for the length of the text ([split_chunks_total] shows that it ends).
    - [TurnStream.tail_loop], [Usage.listen], [Process.worker_heartbeat_loop] and the
      listeners recur on the rounds their environment grants, the worker on the events of
      the generator and a schedule; they end as their lists do, and [tail_replays] bounds
      the rounds a finished stream needs.

    ** Modelling decisions

    - Processes interleave at committed transactions and at the points where the source
      awaits something other than its own database session. Foreign keys and database
      errors other than the constraints the code relies on are not modelled; identifiers
      come from a sequence that does not roll back, and random names from the same sequence.
    - Parameters, as code outside src/app or of the environment: [orjson.loads] of nested
      strings, [str()] of containers and floats, MIME guesses, path resolution and home
      directories, presigning, PyJWT (a token decodes to its payload until it expires),
      Argon2 (accepts what it hashed), Fernet (decrypts what it encrypted with the same
      key), the key loaders, the e-mail validator, pydantic's coercions, markdown-it's
      tokens, the full-text rank, JSON texts of dates, collation, creation times, the broker,
      approximate XADD trimming (a class with an exact instance), the answers of Telegram,
      of the providers, of the tracker and of the speech services. Each theorem that needs
      a law of one has a witness with a concrete function.
    - Log lines and message texts of library exceptions are left out. Strings hold code
      points below 256 except in the renderer; the files of the vault and of recordings are
      bytes.

    ** Not modelled

    Generated protobuf code and its wire format; the migrations, which are DDL; the parsing
    of environment variables, logging, the engine's and the cache's connection set-up; the
    servers of FastAPI, Connect and FastMCP and aiogram's dispatch beyond the handlers
    registered; the background tasks of main.py as tasks of one event loop (each is
    modelled by itself in the file of its component). The messages of chats and uploads are
    their rows where the conversion to protobuf copies fields. *)
From stdpp Require Export base option list gmap strings.
From Stdlib Require Export ZArith Lia String Ascii.

(* ------------------------------------------------------------------ *)
(** * Results and programs *)

(** What a Python call ends with: a value, or an exception of type [E]. *)
Inductive result (E A : Type) : Type :=
| Ok (a : A)
| Raise (e : E).
Arguments Ok {E A} a.
Arguments Raise {E A} e.

(** A stateful, fallible coroutine run to completion. *)
Definition prog (W E A : Type) : Type := W -> result E A * W.

Declare Scope prog_scope.
Delimit Scope prog_scope with prog.
Open Scope prog_scope.

Section Programs.
Context {W E : Type}.

Definition pret {A} (a : A) : prog W E A := fun w => (Ok a, w).
Definition praise {A} (e : E) : prog W E A := fun w => (Raise e, w).

Definition pbind {A B} (m : prog W E A) (k : A -> prog W E B) : prog W E B :=
  fun w => match m w with
           | (Ok a, w') => k a w'
           | (Raise e, w') => (Raise e, w')
           end.

(** [except h m]: run [m]; an exception goes to [h], which re-raises the ones it
    does not handle. *)
Definition except {A} (h : E -> prog W E A) (m : prog W E A) : prog W E A :=
  fun w => match m w with
           | (Ok a, w') => (Ok a, w')
           | (Raise e, w') => h e w'
           end.

(** [finally f m]: Python's [try: m finally: f]; an exception of [f] replaces the
    outcome of [m]. *)
Definition finally {A} (f : prog W E unit) (m : prog W E A) : prog W E A :=
  fun w => match m w with
           | (r, w') => match f w' with
                        | (Ok _, w'') => (r, w'')
                        | (Raise e, w'') => (Raise e, w'')
                        end
           end.

Definition get : prog W E W := fun w => (Ok w, w).
Definition gets {A} (f : W -> A) : prog W E A := fun w => (Ok (f w), w).
Definition modify (f : W -> W) : prog W E unit := fun w => (Ok tt, f w).
Definition lift_result {A} (r : result E A) : prog W E A := fun w => (r, w).

Definition when (b : bool) (m : prog W E unit) : prog W E unit :=
  if b then m else pret tt.

Fixpoint for_each {A} (l : list A) (f : A -> prog W E unit) : prog W E unit :=
  match l with
  | [] => pret tt
  | x :: l' => pbind (f x) (fun _ => for_each l' f)
  end.

Lemma pbind_ok {A B} (m : prog W E A) (k : A -> prog W E B) w a w' :
  m w = (Ok a, w') -> pbind m k w = k a w'.
Proof. unfold pbind. by intros ->. Qed.

Lemma pbind_inv {A B} (m : prog W E A) (k : A -> prog W E B) w b w' :
  pbind m k w = (Ok b, w') -> exists a w1, m w = (Ok a, w1) /\ k a w1 = (Ok b, w').
Proof. unfold pbind. destruct (m w) as [[a|e] w1]; [|done]. intros H. by exists a, w1. Qed.
End Programs.

Notation "'let!' x ':=' m 'in' k" := (pbind m (fun x => k))
  (at level 10, x binder, m at level 100, k at level 200) : prog_scope.
Notation "m ;; k" := (pbind m (fun _ => k))
  (at level 100, k at level 200, right associativity) : prog_scope.

(* ------------------------------------------------------------------ *)
(** * Case analysis *)

(** Destruct the scrutinee of a match or conditional of the goal, keeping its equation. *)
Ltac case_goal :=
  match goal with
  | |- context [match ?x with _ => _ end] =>
      lazymatch x with
      | context [match _ with _ => _ end] => fail
      | _ => destruct x eqn:?
      end
  end.

(** The same for a hypothesis. *)
Ltac case_in H :=
  match type of H with
  | context [match ?x with _ => _ end] =>
      lazymatch x with
      | context [match _ with _ => _ end] => fail
      | _ => destruct x eqn:?
      end
  end.

(** Boolean tests of the code as propositions. *)
Ltac to_prop :=
  repeat match goal with
  | H : negb _ = true |- _ => apply negb_true_iff in H
  | H : negb _ = false |- _ => apply negb_false_iff in H
  | H : _ && _ = true |- _ => apply andb_true_iff in H as [? ?]
  | H : _ || _ = false |- _ => apply orb_false_iff in H as [? ?]
  | H : bool_decide _ = true |- _ => apply bool_decide_eq_true in H
  | H : bool_decide _ = false |- _ => apply bool_decide_eq_false in H
  | H : Z.eqb _ _ = true |- _ => apply Z.eqb_eq in H
  | H : Z.eqb _ _ = false |- _ => apply Z.eqb_neq in H
  | H : Z.leb _ _ = true |- _ => apply Z.leb_le in H
  | H : Z.leb _ _ = false |- _ => apply Z.leb_gt in H
  | H : Z.ltb _ _ = true |- _ => apply Z.ltb_lt in H
  | H : Z.ltb _ _ = false |- _ => apply Z.ltb_ge in H
  | H : Nat.leb _ _ = true |- _ => apply Nat.leb_le in H
  | H : Nat.leb _ _ = false |- _ => apply Nat.leb_gt in H
  | H : Nat.ltb _ _ = true |- _ => apply Nat.ltb_lt in H
  | H : Nat.ltb _ _ = false |- _ => apply Nat.ltb_ge in H
  | H : Nat.eqb _ _ = true |- _ => apply Nat.eqb_eq in H
  | H : Nat.eqb _ _ = false |- _ => apply Nat.eqb_neq in H
  | H : String.eqb _ _ = true |- _ => apply String.eqb_eq in H
  | H : String.eqb _ _ = false |- _ => apply String.eqb_neq in H
  end.

(* ------------------------------------------------------------------ *)
(** * Frame reasoning

    [respects R m]: whatever [m] ends with, the world before and after are related by
    the preorder [R]. With [R := fun w w' => proj w = proj w'] it says that [m] leaves
    the part [proj] of the world alone. *)

Definition respects {W E A} (R : W -> W -> Prop) (m : prog W E A) : Prop :=
  forall w, R w (m w).2.

Create HintDb frame.

Section Frames.
Context {W E : Type} (R : W -> W -> Prop) `{!PreOrder R}.

Lemma respects_ret {A} (a : A) : respects R (pret (E := E) a).
Proof. intros w. reflexivity. Qed.

Lemma respects_raise {A} (e : E) : respects R (praise (A := A) e).
Proof. intros w. reflexivity. Qed.

Lemma respects_lift {A} (r : result E A) : respects R (lift_result r).
Proof. intros w. reflexivity. Qed.

Lemma respects_gets {A} (f : W -> A) : respects R (gets (E := E) f).
Proof. intros w. reflexivity. Qed.

Lemma respects_get : respects R (get (E := E)).
Proof. intros w. reflexivity. Qed.

Lemma respects_bind {A B} (m : prog W E A) (k : A -> prog W E B) :
  respects R m -> (forall a, respects R (k a)) -> respects R (pbind m k).
Proof.
  intros Hm Hk w. unfold pbind. specialize (Hm w).
  destruct (m w) as [[a|e] w']; [etransitivity; [exact Hm|apply Hk] | exact Hm].
Qed.

Lemma respects_except {A} h (m : prog W E A) :
  respects R m -> (forall e, respects R (h e)) -> respects R (except h m).
Proof.
  intros Hm Hh w. unfold except. specialize (Hm w).
  destruct (m w) as [[a|e] w']; [exact Hm | etransitivity; [exact Hm|apply Hh]].
Qed.

Lemma respects_finally {A} f (m : prog W E A) :
  respects R m -> respects R f -> respects R (finally f m).
Proof.
  intros Hm Hf w. unfold finally. specialize (Hm w). destruct (m w) as [r w'].
  specialize (Hf w'). destruct (f w') as [[[]|e] w'']; (etransitivity; [exact Hm|exact Hf]).
Qed.

Lemma respects_when b (m : prog W E unit) : respects R m -> respects R (when b m).
Proof. destruct b; [done | intros; apply respects_ret]. Qed.

Lemma respects_for_each {A} (l : list A) (f : A -> prog W E unit) :
  (forall x, respects R (f x)) -> respects R (for_each l f).
Proof.
  intros Hf. induction l as [|x l IH]; [apply respects_ret|].
  apply respects_bind; auto.
Qed.

Lemma respects_modify f : (forall w, R w (f w)) -> respects R (modify (E := E) f).
Proof. intros Hf w. apply Hf. Qed.
End Frames.

#[export] Hint Resolve respects_ret respects_raise respects_lift respects_gets respects_get
  respects_bind respects_except respects_finally respects_when respects_for_each : frame.

(** Keeping a projection of the world is a preorder. *)
Definition same {W P} (proj : W -> P) (w w' : W) : Prop := proj w' = proj w.

#[export] Instance same_preorder {W P} (proj : W -> P) : PreOrder (same proj).
Proof. split; unfold same; [intros w; done | intros a b c; congruence]. Qed.

(** Decompose a program syntactically, using the frame hints at the leaves. *)
Ltac solve_frame :=
  intros;
  repeat first
    [ progress intros
    | solve [eauto 3 with frame typeclass_instances]
    | apply respects_bind; [typeclasses eauto| |]
    | apply respects_finally; [typeclasses eauto| |]
    | apply respects_except; [typeclasses eauto| |]
    | apply respects_when; [typeclasses eauto|]
    | apply respects_for_each; [typeclasses eauto|]
    | case_goal ].

(* ------------------------------------------------------------------ *)
(** * Exception reasoning

    [raises P m]: every exception [m] can end with satisfies [P]. *)

Definition raises {W E A} (P : E -> Prop) (m : prog W E A) : Prop :=
  forall w, match (m w).1 with Ok _ => True | Raise e => P e end.

Create HintDb exns.

Section Exceptions.
Context {W E : Type} (P : E -> Prop).

Lemma raises_ret {A} (a : A) : raises P (pret (W := W) a).
Proof. done. Qed.

Lemma raises_raise {A} e : P e -> raises P (praise (W := W) (A := A) e).
Proof. by intros H w. Qed.

Lemma raises_get : raises P (get (W := W)).
Proof. done. Qed.

Lemma raises_gets {A} (f : W -> A) : raises P (gets f).
Proof. done. Qed.

Lemma raises_modify (f : W -> W) : raises P (modify f).
Proof. done. Qed.

Lemma raises_bind {A B} (m : prog W E A) (k : A -> prog W E B) :
  raises P m -> (forall a, raises P (k a)) -> raises P (pbind m k).
Proof.
  intros Hm Hk w. unfold pbind. specialize (Hm w). destruct (m w) as [[a|e] w']; [apply Hk|exact Hm].
Qed.

Lemma raises_except {A} h (m : prog W E A) :
  (forall e, raises P (h e)) -> raises P (except h m).
Proof. intros Hh w. unfold except. destruct (m w) as [[a|e] w']; [done|apply Hh]. Qed.

(** A handler that re-raises some of what the body raises. *)
Lemma raises_except_body {A} h (m : prog W E A) :
  raises P m -> (forall e, P e -> raises P (h e)) -> raises P (except h m).
Proof.
  intros Hm Hh w. unfold except. specialize (Hm w). destruct (m w) as [[a|e] w']; [done|by apply Hh].
Qed.

Lemma raises_finally {A} f (m : prog W E A) : raises P m -> raises P f -> raises P (finally f m).
Proof.
  intros Hm Hf w. unfold finally. specialize (Hm w). destruct (m w) as [r w']. specialize (Hf w').
  destruct (f w') as [[a|e] w'']; [exact Hm|exact Hf].
Qed.

Lemma raises_for_each {A} (l : list A) (f : A -> prog W E unit) :
  (forall x, raises P (f x)) -> raises P (for_each l f).
Proof. intros Hf. induction l as [|x l IH]; [apply raises_ret|]. apply raises_bind; auto. Qed.
End Exceptions.

#[export] Hint Resolve raises_ret raises_get raises_gets raises_modify raises_for_each : exns.

(** Decompose a program syntactically, using the hints at the leaves. *)
Ltac solve_raises :=
  repeat first
    [ progress intros
    | solve [eauto 3 with exns]
    | apply raises_bind
    | apply raises_finally
    | apply raises_raise; done
    | apply raises_except_body
    | case_goal ].

(* ------------------------------------------------------------------ *)
(** * Lists used as SQL tables *)

Section Tables.
Context {A : Type}.

(** [UPDATE ... SET f WHERE p] and its row count. *)
Definition update_where (p : A -> bool) (f : A -> A) (rows : list A) : list A :=
  map (fun r => if p r then f r else r) rows.

Definition rowcount (p : A -> bool) (rows : list A) : nat := List.length (List.filter p rows).

Lemma update_where_none p f rows :
  rowcount p rows = 0%nat -> update_where p f rows = rows.
Proof.
  unfold rowcount, update_where. induction rows as [|r rows IH]; [done|]; simpl.
  destruct (p r); simpl; [lia|]. intros H. by rewrite IH.
Qed.

Lemma rowcount_zero_iff p rows :
  rowcount p rows = 0%nat <-> forall r, In r rows -> p r = false.
Proof.
  unfold rowcount. induction rows as [|r rows IH]; simpl; [split; [tauto|done]|].
  destruct (p r) eqn:E; simpl.
  - split; [lia|]. intros H. specialize (H r (or_introl eq_refl)). congruence.
  - rewrite IH. split; intros H r'; [intros [->|?]; auto | auto].
Qed.

Lemma rowcount_pos p rows r : In r rows -> p r = true -> (0 < rowcount p rows)%nat.
Proof.
  intros Hin Hp. destruct (rowcount p rows) eqn:E; [|lia].
  apply rowcount_zero_iff with (r := r) in E; [congruence|done].
Qed.

Lemma in_update_where p f rows r' :
  In r' (update_where p f rows) <->
  exists r, In r rows /\ r' = if p r then f r else r.
Proof.
  unfold update_where. rewrite in_map_iff.
  split; intros (r & H1 & H2); exists r; auto.
Qed.

Lemma map_update_where {B} (g : A -> B) p f rows :
  (forall r, g (f r) = g r) -> map g (update_where p f rows) = map g rows.
Proof.
  intros Hg. unfold update_where. rewrite map_map. apply map_ext.
  intros r. by destruct (p r).
Qed.

Lemma find_update_where (key : A -> Z) k p f rows :
  (forall r, key (f r) = key r) ->
  List.find (fun r => key r =? k)%Z (update_where p f rows) =
  (fun r => if p r then f r else r) <$> List.find (fun r => key r =? k)%Z rows.
Proof.
  intros Hk. unfold update_where. induction rows as [|r rows IH]; [done|]; simpl.
  replace (key (if p r then f r else r)) with (key r) by (destruct (p r); auto).
  destruct (key r =? k)%Z; [done|apply IH].
Qed.

(** A key without duplicates identifies a row. *)
Lemma unique_key {K} (key : A -> K) n x l :
  NoDup (map key l) -> In n l -> In x l -> key x = key n -> x = n.
Proof.
  induction l as [|y l IH]; [done|]. simpl. intros [Hni Hnd]%NoDup_cons [->|Hn] [->|Hx] E; auto; exfalso;
    apply Hni, list_elem_of_fmap; [exists x|exists n]; (split; [done|by apply list_elem_of_In]).
Qed.

(** A search through an update that keeps what is searched for, and through one of rows it
    does not find. *)
Lemma find_keyed (q p : A -> bool) f rows :
  (forall r, q (f r) = q r) ->
  List.find q (update_where p f rows) = (fun r => if p r then f r else r) <$> List.find q rows.
Proof.
  intros Hq. unfold update_where. induction rows as [|r rows IH]; [done|]. simpl.
  replace (q (if p r then f r else r)) with (q r) by (destruct (p r); auto). by destruct (q r).
Qed.

Lemma find_skip (q p : A -> bool) f rows :
  (forall r, p r = true -> q r = false /\ q (f r) = false) -> List.find q (update_where p f rows) = List.find q rows.
Proof.
  intros H. unfold update_where. induction rows as [|r rows IH]; [done|]. simpl. destruct (p r) eqn:E.
  - destruct (H r E) as [-> ->]. exact IH.
  - by destruct (q r).
Qed.

Lemma existsb_find (p : A -> bool) l : existsb p l = bool_decide (is_Some (List.find p l)).
Proof. induction l as [|x l IH]; [done|]. simpl. destruct (p x); [by rewrite bool_decide_eq_true_2|exact IH]. Qed.

Lemma find_app_new (p : A -> bool) l x :
  existsb p l = false -> List.find p (l ++ [x])%list = if p x then Some x else None.
Proof. induction l as [|y l IH]; [done|]. simpl. destruct (p y); [done|exact IH]. Qed.

Lemma find_app_other (p : A -> bool) l x : p x = false -> List.find p (l ++ [x])%list = List.find p l.
Proof. intros H. induction l as [|y l IH]; simpl; [by rewrite H|by destruct (p y)]. Qed.

Lemma filter_sublist (p : A -> bool) rows : List.filter p rows `sublist_of` rows.
Proof. induction rows as [|r rows IH]; [constructor|]. simpl. destruct (p r); by constructor. Qed.
End Tables.
