(* ===== verification/PyStr.v ===== *)
(** Python string operations on [string], one [ascii] per code point.

    Only code points below 256 are representable; [str.strip] and [str.isspace] are
    exact on that range, and so is the decimal rendering and parsing of integers. *)
From S2P Require Import Prelude.
From Stdlib Require Import DecimalString DecimalFacts DecimalZ DecimalPos.

Open Scope string_scope.

(** stdpp blocks the reduction of [append]; the lemmas below compute with it. *)
#[global] Arguments String.append !_ _ / : simpl nomatch.

(** [c.isspace()] for a code point below 256. *)
Definition is_space (c : ascii) : bool :=
  let n := nat_of_ascii c in
  existsb (Nat.eqb n) [9; 10; 11; 12; 13; 28; 29; 30; 31; 32; 133; 160]%nat.

Fixpoint lstrip (s : string) : string :=
  match s with
  | EmptyString => EmptyString
  | String c s' => if is_space c then lstrip s' else s
  end.

(** Trailing whitespace removed: a character stays when something non-blank follows. *)
Fixpoint rstrip (s : string) : string :=
  match s with
  | EmptyString => EmptyString
  | String c s' => match rstrip s' with
                   | EmptyString => if is_space c then EmptyString else String c EmptyString
                   | r => String c r
                   end
  end.

Definition strip (s : string) : string := rstrip (lstrip s).

Definition startswith (s p : string) : bool := String.prefix p s.

Fixpoint str_drop (n : nat) (s : string) : string :=
  match n, s with
  | O, _ => s
  | S n', String _ s' => str_drop n' s'
  | S _, EmptyString => EmptyString
  end.

Fixpoint str_take (n : nat) (s : string) : string :=
  match n, s with
  | S n', String c s' => String c (str_take n' s')
  | _, _ => EmptyString
  end.

Definition endswith (s p : string) : bool :=
  (String.length p <=? String.length s)%nat &&
  String.eqb (str_drop (String.length s - String.length p) s) p.

(** [p in s]. *)
Fixpoint str_contains (p s : string) : bool :=
  startswith s p || match s with EmptyString => false | String _ s' => str_contains p s' end.

Definition lower_ascii (c : ascii) : ascii :=
  let n := nat_of_ascii c in
  if ((65 <=? n) && (n <=? 90) || (192 <=? n) && (n <=? 222) && negb (n =? 215))%nat
  then ascii_of_nat (n + 32) else c.

Fixpoint lower (s : string) : string :=
  match s with EmptyString => EmptyString | String c s' => String (lower_ascii c) (lower s') end.

(** [sep.join(l)]. *)
Fixpoint join (sep : string) (l : list string) : string :=
  match l with
  | [] => ""
  | [x] => x
  | x :: l' => x ++ sep ++ join sep l'
  end.

(** Truthiness of a string. *)
Definition nonempty (s : string) : bool := negb (String.eqb s "").

(** [bool(x)] for [x : str | None]. *)
Definition truthy_opt (o : option string) : bool :=
  match o with Some s => nonempty s | None => false end.

(** [len(s.encode("utf-8"))]: code points from 128 to 255 take two bytes. *)
Fixpoint utf8_len (s : string) : nat :=
  match s with
  | EmptyString => 0
  | String c s' => (if nat_of_ascii c <? 128 then 1 else 2) + utf8_len s'
  end%nat.

(* ------------------------------------------------------------------ *)
(** * Integers *)

(** [str(z)]. *)
Definition str_of_Z (z : Z) : string := NilZero.string_of_int (Z.to_int z).

Definition is_digit (c : ascii) : bool :=
  let n := nat_of_ascii c in ((48 <=? n) && (n <=? 57))%nat.

(** The digits of a Python integer literal body, single underscores allowed between
    digits; [None] when the text is not one. *)
Fixpoint clean_digits (after_digit : bool) (s : string) : option string :=
  match s with
  | EmptyString => if after_digit then Some EmptyString else None
  | String c s' =>
      if is_digit c then String c <$> clean_digits true s'
      else if Ascii.eqb c "_" && after_digit then clean_digits false s'
      else None
  end.

Definition Z_of_digits (s : string) : option Z :=
  d ← clean_digits false s; u ← NilZero.uint_of_string d; Some (Z.of_uint u).

(** [int(s)]; [None] stands for [ValueError]. *)
Definition py_int (s : string) : option Z :=
  match strip s with
  | String "-" s' => Z.opp <$> Z_of_digits s'
  | String "+" s' => Z_of_digits s'
  | s' => Z_of_digits s'
  end.

(* ------------------------------------------------------------------ *)
(** * Lemmas *)

Lemma append_nil_r (s : string) : s ++ "" = s.
Proof. induction s as [|c s IH]; simpl; [done | by rewrite IH]. Qed.

Lemma append_assoc (a b c : string) : a ++ (b ++ c) = (a ++ b) ++ c.
Proof. induction a as [|x a IH]; simpl; [done | by rewrite IH]. Qed.

Lemma length_append (a b : string) :
  String.length (a ++ b) = (String.length a + String.length b)%nat.
Proof. induction a as [|x a IH]; simpl; [done | by rewrite IH]. Qed.

Lemma startswith_iff (s p : string) : startswith s p = true <-> exists r, s = p ++ r.
Proof.
  unfold startswith. revert s. induction p as [|c p IH]; intros s; simpl.
  - split; [eauto | intros _; destruct s; reflexivity].
  - destruct s as [|c' s]; simpl; [split; [done | intros [r Hr]; discriminate]|].
    destruct (ascii_dec c c') as [->|Hne].
    + rewrite IH. split; intros [r Hr]; exists r; congruence.
    + split; [done|]. intros [r Hr]. congruence.
Qed.

Lemma startswith_app (p r : string) : startswith (p ++ r) p = true.
Proof. apply startswith_iff. eauto. Qed.

Lemma str_drop_app (a b : string) : str_drop (String.length a) (a ++ b) = b.
Proof. induction a as [|c a IH]; simpl; [by destruct b | done]. Qed.

Lemma str_take_drop n (s : string) : str_take n s ++ str_drop n s = s.
Proof.
  revert s. induction n as [|n IH]; intros [|c s]; simpl; try done. by rewrite IH.
Qed.

Lemma str_drop_drop n m (s : string) : str_drop n (str_drop m s) = str_drop (m + n) s.
Proof.
  revert s. induction m as [|m IH]; intros [|c s]; simpl; try done. by destruct n.
Qed.

Lemma str_drop_all (s : string) : str_drop (String.length s) s = "".
Proof. induction s; done. Qed.

Lemma str_drop_append_l n (a b : string) :
  (n <= String.length a)%nat -> str_drop n (a ++ b) = str_drop n a ++ b.
Proof.
  revert a. induction n as [|n IH]; intros [|c a] H; simpl in *; try done; [lia|].
  apply IH. lia.
Qed.

Lemma endswith_iff (s p : string) : endswith s p = true <-> exists r, s = r ++ p.
Proof.
  unfold endswith. split.
  - intros H. apply andb_true_iff in H as [_ H]. apply String.eqb_eq in H.
    exists (str_take (String.length s - String.length p) s).
    rewrite <- H at 2. symmetry. apply str_take_drop.
  - intros [r ->]. rewrite length_append. apply andb_true_iff. split.
    + apply Nat.leb_le. lia.
    + replace (String.length r + String.length p - String.length p)%nat
        with (String.length r) by lia.
      rewrite str_drop_app. apply String.eqb_refl.
Qed.

Lemma append_inj_l (a b c : string) : a ++ b = a ++ c -> b = c.
Proof. induction a as [|x a IH]; simpl; [done | intros [= H]; auto]. Qed.

Lemma nonempty_true (s : string) : nonempty s = true <-> s <> "".
Proof. unfold nonempty. rewrite negb_true_iff. apply String.eqb_neq. Qed.

Lemma nonempty_false (s : string) : nonempty s = false <-> s = "".
Proof. unfold nonempty. rewrite negb_false_iff. apply String.eqb_eq. Qed.

(** ** Decimal rendering *)

Fixpoint all_digits (s : string) : bool :=
  match s with EmptyString => true | String c s' => is_digit c && all_digits s' end.

Lemma all_digits_uint u : all_digits (NilZero.string_of_uint u) = true.
Proof.
  assert (H : all_digits (NilEmpty.string_of_uint u) = true) by (induction u; done).
  destruct u; done.
Qed.

Lemma clean_digits_id s b :
  all_digits s = true -> (s <> "" \/ b = true) -> clean_digits b s = Some s.
Proof.
  revert b. induction s as [|c s IH]; intros b Hd Hb; simpl in *.
  - destruct Hb as [Hb | ->]; [congruence | done].
  - apply andb_true_iff in Hd as [-> Hd]. rewrite IH; auto.
Qed.

Lemma is_digit_not_space c : is_digit c = true -> is_space c = false.
Proof.
  unfold is_digit, is_space. intros H. apply andb_true_iff in H as [H1 H2].
  apply Nat.leb_le in H1, H2. apply not_true_iff_false. intros H.
  apply existsb_exists in H as (n & Hin & Hn). apply Nat.eqb_eq in Hn.
  simpl in Hin. lia.
Qed.

Fixpoint no_space (s : string) : bool :=
  match s with EmptyString => true | String c s' => negb (is_space c) && no_space s' end.

Lemma no_space_rstrip s : no_space s = true -> rstrip s = s.
Proof.
  induction s as [|c s IH]; [done|]. simpl. intros H. apply andb_true_iff in H as [Hc Hs].
  rewrite (IH Hs). apply negb_true_iff in Hc. rewrite Hc. by destruct s.
Qed.

Lemma no_space_strip s : no_space s = true -> strip s = s.
Proof.
  intros H. unfold strip. destruct s as [|c s]; [done|]. simpl lstrip.
  generalize H. simpl in H. apply andb_true_iff in H as [Hc _].
  apply negb_true_iff in Hc. rewrite Hc. apply no_space_rstrip.
Qed.

Lemma all_digits_no_space s : all_digits s = true -> no_space s = true.
Proof.
  induction s as [|c s IH]; [done|]. simpl. intros H.
  apply andb_true_iff in H as [Hc Hs]. by rewrite is_digit_not_space, IH.
Qed.

Lemma string_of_uint_ne u : NilZero.string_of_uint u <> "".
Proof. by destruct u. Qed.

Lemma Z_of_digits_uint u :
  u <> Decimal.Nil -> Z_of_digits (NilZero.string_of_uint u) = Some (Z.of_uint u).
Proof.
  intros Hu. unfold Z_of_digits.
  rewrite clean_digits_id by (auto using all_digits_uint, string_of_uint_ne).
  simpl. rewrite NilZero.usu by done. done.
Qed.

Lemma to_int_nonnil z :
  match Z.to_int z with Decimal.Pos u | Decimal.Neg u => u <> Decimal.Nil end.
Proof.
  destruct z as [|p|p]; simpl; [done | apply Unsigned.to_uint_nonnil..].
Qed.

Lemma digit_head s : s <> "" -> all_digits s = true ->
  exists c s', s = String c s' /\ is_digit c = true.
Proof.
  destruct s as [|c s]; [done|]. simpl. intros _ H.
  apply andb_true_iff in H as [? _]. eauto.
Qed.

Lemma py_int_digits s : s <> "" -> all_digits s = true -> py_int s = Z_of_digits s.
Proof.
  intros Hne Hd. unfold py_int. rewrite no_space_strip by (by apply all_digits_no_space).
  destruct (digit_head s Hne Hd) as (c & s' & -> & Hc).
  destruct c as [[] [] [] [] [] [] [] []]; try done.
Qed.

(** [int(str(z)) == z]. *)
Lemma py_int_str_of_Z z : py_int (str_of_Z z) = Some z.
Proof.
  pose proof (DecimalZ.of_to z) as Hz. pose proof (to_int_nonnil z) as Hn.
  unfold str_of_Z. destruct (Z.to_int z) as [u|u]; simpl in *.
  - rewrite py_int_digits by (auto using all_digits_uint, string_of_uint_ne).
    rewrite Z_of_digits_uint by done. by rewrite Hz.
  - unfold py_int. rewrite no_space_strip; simpl.
    + rewrite Z_of_digits_uint by done. simpl. by rewrite Hz.
    + apply all_digits_no_space, all_digits_uint.
Qed.

Lemma str_of_Z_inj z z' : str_of_Z z = str_of_Z z' -> z = z'.
Proof. intros H. apply (f_equal py_int) in H. rewrite !py_int_str_of_Z in H. congruence. Qed.

Lemma str_of_Z_eqb z z' : String.eqb (str_of_Z z) (str_of_Z z') = Z.eqb z z'.
Proof.
  destruct (Z.eqb_spec z z') as [->|Hne]; [apply String.eqb_refl|].
  apply String.eqb_neq. intros H. by apply str_of_Z_inj in H.
Qed.

Create Rewrite HintDb pystr.
#[export] Hint Rewrite append_nil_r length_append str_drop_app str_drop_all py_int_str_of_Z
  str_of_Z_eqb String.eqb_refl startswith_app : pystr.

Example py_int_ex : py_int " +1_000 " = Some 1000%Z /\ py_int "1__0" = None /\ py_int "" = None.
Proof. repeat split. Qed.
