(* ===== verification/Text.v ===== *)
(** Python [str] over the whole of Unicode: a list of code points, with the slicing,
    searching and stripping operations that the Telegram renderer uses. *)
From S2P Require Import Prelude PyStr.

Open Scope nat_scope.

Open Scope list_scope.

#[local] Notation length := List.length.

Definition ustr : Type := list Z.

Module U.

(** A Python literal all of whose code points are below 256. *)
Fixpoint lit (s : string) : ustr :=
  match s with
  | EmptyString => []
  | String c s' => Z.of_nat (nat_of_ascii c) :: lit s'
  end.

(** A literal with any characters, from its UTF-8 bytes (the source files are UTF-8). *)
Fixpoint utf8 (s : string) : ustr :=
  let tail c := Z.land (Z.of_nat (nat_of_ascii c)) 63 in
  match s with
  | EmptyString => []
  | String a s1 =>
      let x := Z.of_nat (nat_of_ascii a) in
      if (x <? 128)%Z then x :: utf8 s1
      else match s1 with
           | EmptyString => []
           | String b s2 =>
               if (x <? 224)%Z then (64 * Z.land x 31 + tail b)%Z :: utf8 s2
               else match s2 with
                    | EmptyString => []
                    | String c s3 =>
                        if (x <? 240)%Z then (4096 * Z.land x 15 + 64 * tail b + tail c)%Z :: utf8 s3
                        else match s3 with
                             | EmptyString => []
                             | String d s4 =>
                                 (262144 * Z.land x 7 + 4096 * tail b + 64 * tail c + tail d)%Z :: utf8 s4
                             end
                    end
           end
  end.

Example utf8_literal : utf8 "a⏳ж🔧" = [97; 9203; 1078; 128295]%Z.
Proof. vm_compute. reflexivity. Qed.

(** [c.isspace()]: the bidirectional types WS, B and S and the category Zs. *)
Definition is_space (c : Z) : bool :=
  ((9 <=? c) && (c <=? 13) || (28 <=? c) && (c <=? 32) || (c =? 133) || (c =? 160)
   || (c =? 5760) || (8192 <=? c) && (c <=? 8202) || (c =? 8232) || (c =? 8233)
   || (c =? 8239) || (c =? 8287) || (c =? 12288))%Z.

Fixpoint lstrip (s : ustr) : ustr :=
  match s with
  | [] => []
  | c :: s' => if is_space c then lstrip s' else s
  end.

Definition rstrip (s : ustr) : ustr := reverse (lstrip (reverse s)).
Definition strip (s : ustr) : ustr := rstrip (lstrip s).

(** [s.rstrip("\n")]. *)
Fixpoint lstrip_nl (s : ustr) : ustr :=
  match s with
  | [] => []
  | c :: s' => if (c =? 10)%Z then lstrip_nl s' else s
  end.
Definition rstrip_nl (s : ustr) : ustr := reverse (lstrip_nl (reverse s)).

(** [s[i:].startswith(sub)]. *)
Definition starts_at (sub s : ustr) (i : nat) : bool :=
  bool_decide (take (length sub) (drop i s) = sub).

(** The first of the [k] positions from [i] where [sub] occurs. *)
Fixpoint find_from (k : nat) (sub s : ustr) (i : nat) : option nat :=
  match k with
  | O => None
  | S k' => if starts_at sub s i then Some i else find_from k' sub s (S i)
  end.

(** [s.find(sub, pos)]; [None] stands for [-1]. *)
Definition find (sub s : ustr) (pos : nat) : option nat :=
  find_from (S (length s) - (pos + length sub)) sub s pos.

(** The last position up to [i] where [sub] occurs. *)
Fixpoint rfind_down (sub s : ustr) (i : nat) : option nat :=
  if starts_at sub s i then Some i
  else match i with O => None | S i' => rfind_down sub s i' end.

(** [s.rfind(sub, 0, hi)]: the last occurrence that ends at or before [hi]. *)
Definition rfind (sub s : ustr) (hi : nat) : option nat :=
  if length sub <=? min hi (length s)
  then rfind_down sub s (min hi (length s) - length sub) else None.

(** [s.count(sub)]: non-overlapping occurrences from the left. *)
Fixpoint count_fuel (k : nat) (sub s : ustr) (pos : nat) : nat :=
  match k with
  | O => 0
  | S k' => match find sub s pos with
            | Some i => S (count_fuel k' sub s (i + length sub))
            | None => 0
            end
  end.
Definition count (sub s : ustr) : nat := count_fuel (S (length s)) sub s 0.

(* ------------------------------------------------------------------ *)
(** * Lemmas *)

Lemma length_lit s : length (lit s) = String.length s.
Proof. induction s; simpl; congruence. Qed.

Lemma lit_app a b : lit (a ++ b)%string = lit a ++ lit b.
Proof. induction a; simpl; [done|]. by f_equal. Qed.

(** The characters that survive stripping. *)
Definition inked (s : ustr) : ustr := List.filter (fun c => negb (is_space c)) s.

Lemma inked_app a b : inked (a ++ b) = inked a ++ inked b.
Proof. apply List.filter_app. Qed.

Lemma lstrip_split s : exists p, s = p ++ lstrip s /\ inked p = [].
Proof.
  induction s as [|c s (p & Hp & Hi)]; [by exists []|]. simpl.
  destruct (is_space c) eqn:E; [|by exists []].
  exists (c :: p). simpl. rewrite E. simpl. split; [by f_equal | done].
Qed.

Lemma inked_reverse s : inked (reverse s) = reverse (inked s).
Proof.
  induction s as [|c s IH]; [done|]. rewrite reverse_cons, inked_app, IH. simpl.
  destruct (is_space c); simpl; [by rewrite app_nil_r | by rewrite reverse_cons].
Qed.

Lemma rstrip_split s : exists q, s = rstrip s ++ q /\ inked q = [].
Proof.
  destruct (lstrip_split (reverse s)) as (p & Hp & Hi). exists (reverse p). split.
  - unfold rstrip. rewrite <- reverse_app, <- Hp. by rewrite reverse_involutive.
  - by rewrite inked_reverse, Hi.
Qed.

Lemma inked_lstrip s : inked (lstrip s) = inked s.
Proof.
  destruct (lstrip_split s) as (p & Hp & Hi). rewrite Hp at 2. by rewrite inked_app, Hi.
Qed.

Lemma inked_rstrip s : inked (rstrip s) = inked s.
Proof.
  destruct (rstrip_split s) as (p & Hp & Hi). rewrite Hp at 2.
  by rewrite inked_app, Hi, app_nil_r.
Qed.

Lemma length_lstrip s : length (lstrip s) <= length s.
Proof.
  destruct (lstrip_split s) as (p & Hp & _). rewrite Hp at 2. rewrite length_app. lia.
Qed.

Lemma length_rstrip s : length (rstrip s) <= length s.
Proof.
  destruct (rstrip_split s) as (p & Hp & _). rewrite Hp at 2. rewrite length_app. lia.
Qed.

Lemma lstrip_head s : match lstrip s with [] => True | c :: _ => is_space c = false end.
Proof. induction s as [|c s IH]; [done|]. simpl. by destruct (is_space c) eqn:E. Qed.

(** Stripping on the right stops at the last inked character. *)
Lemma lstrip_app_inked s t : inked s <> [] -> lstrip (s ++ t) = lstrip s ++ t.
Proof.
  induction s as [|c s IH]; [done|]. simpl. by destruct (is_space c) eqn:E; [apply IH|].
Qed.

Lemma lstrip_blank s : inked s = [] -> lstrip s = [].
Proof. induction s as [|c s IH]; [done|]. simpl. by destruct (is_space c). Qed.

Lemma lstrip_app_blank s t : inked s = [] -> lstrip (s ++ t) = lstrip t.
Proof. induction s as [|c s IH]; [done|]. simpl. by destruct (is_space c). Qed.

(** A prefix that ends with an inked character is left whole. *)
Lemma rstrip_keep p c s : is_space c = false -> rstrip ((p ++ [c]) ++ s) = (p ++ [c]) ++ rstrip s.
Proof.
  intros Hc. unfold rstrip. rewrite reverse_app.
  destruct (decide (inked (reverse s) = [])) as [He|Hne].
  - rewrite lstrip_app_blank by done. rewrite (lstrip_blank (reverse s)) by done.
    rewrite reverse_app. simpl. rewrite Hc.
    change (c :: reverse p) with (reverse [c] ++ reverse p). rewrite <- reverse_app.
    by rewrite reverse_involutive, reverse_nil, app_nil_r.
  - rewrite lstrip_app_inked by done. by rewrite reverse_app, reverse_involutive.
Qed.

Lemma rstrip_head c s : is_space c = false -> exists r, rstrip (c :: s) = c :: r.
Proof. intros Hc. exists (rstrip s). apply (rstrip_keep [] c s Hc). Qed.

(* ------------------------------------------------------------------ *)
(** ** Searching *)

Lemma starts_at_iff sub s i :
  starts_at sub s i = true <-> take (length sub) (drop i s) = sub.
Proof. apply bool_decide_eq_true. Qed.

Lemma starts_at_len sub s i : starts_at sub s i = true -> sub = [] \/ i + length sub <= length s.
Proof.
  rewrite starts_at_iff. intros H. apply (f_equal length) in H.
  rewrite length_take, length_drop in H. destruct (decide (length sub = 0)) as [E|E].
  - left. by apply nil_length_inv.
  - right. lia.
Qed.

Lemma starts_at_lookup sub s i k c :
  starts_at sub s i = true -> sub !! k = Some c -> s !! (i + k) = Some c.
Proof.
  rewrite starts_at_iff. intros H Hk. rewrite <- H in Hk.
  apply lookup_take_Some in Hk as [Hk _]. by rewrite lookup_drop in Hk.
Qed.

(** An occurrence that fits into a prefix is an occurrence in the whole string. *)
Lemma starts_at_take sub s i n :
  i + length sub <= n -> starts_at sub (take n s) i = starts_at sub s i.
Proof.
  intros H. unfold starts_at. apply bool_decide_ext.
  by rewrite skipn_firstn_comm, firstn_firstn, Nat.min_l by lia.
Qed.

Lemma find_from_spec k sub s i :
  match find_from k sub s i with
  | Some j => i <= j < i + k /\ starts_at sub s j = true /\
              (forall l, i <= l < j -> starts_at sub s l = false)
  | None => forall l, i <= l < i + k -> starts_at sub s l = false
  end.
Proof.
  revert i. induction k as [|k IH]; intros i; simpl; [lia|].
  destruct (starts_at sub s i) eqn:E; [repeat split; [lia|lia|done|lia]|].
  specialize (IH (S i)). destruct (find_from k sub s (S i)) as [j|].
  - destruct IH as (H1 & H2 & H3). repeat split; [lia|lia|done|].
    intros l Hl. destruct (decide (l = i)) as [->|]; [done | apply H3; lia].
  - intros l Hl. destruct (decide (l = i)) as [->|]; [done | apply IH; lia].
Qed.

Lemma find_some sub s pos j :
  find sub s pos = Some j ->
  pos <= j /\ j + length sub <= length s /\ starts_at sub s j = true /\
  (forall l, pos <= l < j -> starts_at sub s l = false).
Proof.
  unfold find. intros H. pose proof (find_from_spec (S (length s) - (pos + length sub)) sub s pos) as Hs.
  rewrite H in Hs. destruct Hs as (H1 & H2 & H3). repeat split; [lia|lia|done|done].
Qed.

Lemma find_none sub s pos l :
  sub <> [] -> find sub s pos = None -> pos <= l -> starts_at sub s l = false.
Proof.
  unfold find. intros Hne H Hl.
  pose proof (find_from_spec (S (length s) - (pos + length sub)) sub s pos) as Hs. rewrite H in Hs.
  destruct (starts_at sub s l) eqn:E; [|done]. exfalso.
  destruct (starts_at_len _ _ _ E) as [|Hlen]; [done|].
  rewrite Hs in E; [done|lia].
Qed.

Lemma rfind_down_spec sub s i :
  match rfind_down sub s i with
  | Some j => j <= i /\ starts_at sub s j = true /\
              (forall l, j < l <= i -> starts_at sub s l = false)
  | None => forall l, l <= i -> starts_at sub s l = false
  end.
Proof.
  induction i as [|i IH]; simpl.
  - destruct (starts_at sub s 0) eqn:E; [split; [lia | split; [done | intros; lia]]|].
    intros l Hl. by replace l with 0 by lia.
  - destruct (starts_at sub s (S i)) eqn:E; [split; [lia | split; [done | intros; lia]]|].
    destruct (rfind_down sub s i) as [j|].
    + destruct IH as (H1 & H2 & H3). repeat split; [lia|done|].
      intros l Hl. destruct (decide (l = S i)) as [->|]; [done | apply H3; lia].
    + intros l Hl. destruct (decide (l = S i)) as [->|]; [done | apply IH; lia].
Qed.

Lemma rfind_some sub s hi j :
  rfind sub s hi = Some j ->
  j + length sub <= hi /\ j + length sub <= length s /\ starts_at sub s j = true.
Proof.
  unfold rfind. case_match eqn:E; [|done]. apply Nat.leb_le in E. intros H.
  pose proof (rfind_down_spec sub s (min hi (length s) - length sub)) as Hs.
  rewrite H in Hs. destruct Hs as (H1 & H2 & _). repeat split; [lia|lia|done].
Qed.

Lemma rfind_none sub s hi l :
  sub <> [] -> rfind sub s hi = None -> l + length sub <= hi -> starts_at sub s l = false.
Proof.
  unfold rfind. intros Hne H Hl. destruct (starts_at sub s l) eqn:E; [|done]. exfalso.
  destruct (starts_at_len _ _ _ E) as [|Hlen]; [done|].
  rewrite leb_correct in H by lia.
  pose proof (rfind_down_spec sub s (min hi (length s) - length sub)) as Hs.
  rewrite H in Hs. rewrite Hs in E; [done|lia].
Qed.

End U.
