(* ===== verification/PyLib.v ===== *)
(** The parts of Python's standard library that the upload and vault services use: POSIX
    paths ([pathlib], [os.path.splitext]), [urllib.parse] and [base64]. *)
From S2P Require Import Prelude PyStr.
From Stdlib Require Import DecimalString.

Open Scope string_scope.

(* ------------------------------------------------------------------ *)
(** * Characters and strings *)

Definition code (c : ascii) : nat := nat_of_ascii c.

Definition between (a b n : nat) : bool := ((a <=? n) && (n <=? b))%nat.

(** [c.isalnum()] for a code point below 256. *)
Definition isalnum (c : ascii) : bool :=
  let n := code c in
  between 48 57 n || between 65 90 n || between 97 122 n
  || existsb (Nat.eqb n) [170; 178; 179; 181; 185; 186; 188; 189; 190]%nat
  || between 192 214 n || between 216 246 n || between 248 255 n.

(** [c in string.ascii_letters + string.digits]. *)
Definition is_ascii_alnum (c : ascii) : bool :=
  let n := code c in between 48 57 n || between 65 90 n || between 97 122 n.

(** [c in chars]. *)
Fixpoint char_in (c : ascii) (chars : string) : bool :=
  match chars with
  | EmptyString => false
  | String d rest => Ascii.eqb c d || char_in c rest
  end.

Fixpoint all_chars (p : ascii -> bool) (s : string) : bool :=
  match s with EmptyString => true | String c s' => p c && all_chars p s' end.

Fixpoint map_chars (f : ascii -> ascii) (s : string) : string :=
  match s with EmptyString => EmptyString | String c s' => String (f c) (map_chars f s') end.

Fixpoint filter_chars (p : ascii -> bool) (s : string) : string :=
  match s with
  | EmptyString => EmptyString
  | String c s' => if p c then String c (filter_chars p s') else filter_chars p s'
  end.

(** [s.lstrip(chars)], [s.rstrip(chars)], [s.strip(chars)] for the characters of [p]. *)
Fixpoint lstrip_chars (p : ascii -> bool) (s : string) : string :=
  match s with
  | EmptyString => EmptyString
  | String c s' => if p c then lstrip_chars p s' else s
  end.

Fixpoint rstrip_chars (p : ascii -> bool) (s : string) : string :=
  match s with
  | EmptyString => EmptyString
  | String c s' => match rstrip_chars p s' with
                   | EmptyString => if p c then EmptyString else String c EmptyString
                   | r => String c r
                   end
  end.

Definition strip_chars (p : ascii -> bool) (s : string) : string := rstrip_chars p (lstrip_chars p s).

(** [s.partition(c)]: the text before the first [c], whether there is one, the text after. *)
Fixpoint partition_char (c : ascii) (s : string) : string * bool * string :=
  match s with
  | EmptyString => ("", false, "")
  | String d s' => if Ascii.eqb d c then ("", true, s')
                   else let '(a, found, b) := partition_char c s' in (String d a, found, b)
  end.

(** [s.split(c)]. *)
Fixpoint split_char (c : ascii) (s : string) : list string :=
  match s with
  | EmptyString => [""]
  | String d s' =>
      if Ascii.eqb d c then "" :: split_char c s'
      else match split_char c s' with
           | x :: l => String d x :: l
           | [] => [String d ""]
           end
  end.

(** [s.replace(old, new, 1)] for a non-empty [old]. *)
Fixpoint replace_first (old new s : string) : string :=
  if startswith s old then new ++ str_drop (String.length old) s
  else match s with EmptyString => EmptyString | String c s' => String c (replace_first old new s') end.

(* ------------------------------------------------------------------ *)
(** * Paths *)

(** The components of a path: empty ones and [.] are dropped, [..] stays. *)
Definition path_parts (s : string) : list string :=
  List.filter (fun x => nonempty x && negb (String.eqb x ".")) (split_char "/" s).

Definition is_absolute (s : string) : bool := startswith s "/".

(** [Path(s).name]. *)
Definition path_name (s : string) : string := List.last (path_parts s) "".

Fixpoint has_non_dot (s : string) : bool :=
  match s with EmptyString => false | String c s' => negb (Ascii.eqb c ".") || has_non_dot s' end.

(** The last [.] of [s] and what follows, with what precedes. *)
Fixpoint rsplit_dot (s : string) : option (string * string) :=
  match s with
  | EmptyString => None
  | String c s' =>
      match rsplit_dot s' with
      | Some (a, b) => Some (String c a, b)
      | None => if Ascii.eqb c "." then Some ("", s) else None
      end
  end.

(** [Path(s).suffix]: [os.path.splitext(name)[1]]; leading dots are part of the stem. *)
Definition path_suffix (s : string) : string :=
  match rsplit_dot (path_name s) with
  | Some (stem, ext) => if has_non_dot stem then ext else ""
  | None => ""
  end.

(** [path.is_relative_to(root)] for normalised absolute paths. *)
Definition is_relative_to (root path : string) : bool :=
  is_absolute path && bool_decide (path_parts root `prefix_of` path_parts path).

(* ------------------------------------------------------------------ *)
(** * urllib.parse *)

Definition lower_scheme_char (c : ascii) : bool := is_ascii_alnum c || char_in c "+-.".

(** The scheme of [urlsplit(url)] and the rest of the URL. *)
Definition split_scheme (url : string) : string * string :=
  match partition_char ":" url with
  | (String c s, true, rest) =>
      if (between 65 90 (code c) || between 97 122 (code c)) && all_chars lower_scheme_char (String c s)
      then (lower (String c s), rest) else ("", url)
  | _ => ("", url)
  end.

(** The network location after [//]: up to the first of [/?#]. *)
Fixpoint until_delim (s : string) : string :=
  match s with
  | EmptyString => EmptyString
  | String c s' => if char_in c "/?#" then EmptyString else String c (until_delim s')
  end.

(** [urlparse(url).scheme]; [None] stands for the [ValueError] of a malformed IPv6 host.
    [bracketed_ok] is the library's check of a host with both brackets. *)
Definition url_scheme (bracketed_ok : string -> bool) (url : string) : option string :=
  let url := lstrip_chars (fun c => code c <=? 32)%nat url in
  let url := filter_chars (fun c => negb (existsb (Nat.eqb (code c)) [9; 10; 13]%nat)) url in
  let '(scheme, rest) := split_scheme url in
  if startswith rest "//" then
    let netloc := until_delim (str_drop 2 rest) in
    let opened := char_in "[" netloc in
    let closed := char_in "]" netloc in
    if xorb opened closed then None
    else if opened && closed && negb (bracketed_ok netloc) then None
    else Some scheme
  else Some scheme.

Definition hex_digit (n : nat) : ascii :=
  ascii_of_nat (if (n <? 10)%nat then 48 + n else 55 + n).

Definition percent (n : nat) : string :=
  String "%" (String (hex_digit (n / 16)) (String (hex_digit (n mod 16)) "")).

(** [quote(s, safe="")]: unreserved characters stay, the UTF-8 bytes of the others are
    written in hexadecimal. *)
Fixpoint quote (s : string) : string :=
  match s with
  | EmptyString => EmptyString
  | String c s' =>
      (if is_ascii_alnum c || char_in c "_.-~" then String c ""
       else if (code c <? 128)%nat then percent (code c)
       else percent (192 + code c / 64) ++ percent (128 + code c mod 64)) ++ quote s'
  end.

(** [s.encode()]: the UTF-8 bytes, one [ascii] each. *)
Fixpoint encode (s : string) : string :=
  match s with
  | EmptyString => EmptyString
  | String c s' =>
      (if (code c <? 128)%nat then String c ""
       else String (ascii_of_nat (192 + code c / 64)) (String (ascii_of_nat (128 + code c mod 64)) ""))
      ++ encode s'
  end.

Definition hex_value (c : ascii) : option nat :=
  let n := code c in
  if between 48 57 n then Some (n - 48)%nat
  else if between 65 70 n then Some (n - 55)%nat
  else if between 97 102 n then Some (n - 87)%nat else None.

(** [unquote_to_bytes(s)]: an escape that is none stays as it is. *)
Fixpoint unquote (s : string) : string :=
  match s with
  | String c ((String a (String b s')) as r) =>
      if Ascii.eqb c "%" then
        match hex_value a, hex_value b with
        | Some x, Some y => String (ascii_of_nat (16 * x + y)) (unquote s')
        | _, _ => String c (unquote r)
        end
      else String c (unquote r)
  | String c r => String c (unquote r)
  | EmptyString => EmptyString
  end.

(** The text after the last [c], or all of it. *)
Fixpoint after_last (c : ascii) (s : string) : string :=
  match s with
  | EmptyString => EmptyString
  | String d s' => if char_in c s' then after_last c s' else if Ascii.eqb d c then s' else s
  end.

(** [bool(urlparse(url).hostname)], where [url_scheme] finds no error. *)
Definition url_has_host (url : string) : bool :=
  let url := lstrip_chars (fun c => code c <=? 32)%nat url in
  let url := filter_chars (fun c => negb (existsb (Nat.eqb (code c)) [9; 10; 13]%nat)) url in
  let rest := (split_scheme url).2 in
  if startswith rest "//" then
    let host := after_last "@" (until_delim (str_drop 2 rest)) in
    match partition_char "[" host with
    | (_, true, bracketed) => nonempty (partition_char "]" bracketed).1.1
    | _ => nonempty (partition_char ":" host).1.1
    end
  else false.

(* ------------------------------------------------------------------ *)
(** * Sorting *)

(** [sorted] with a total preorder: stable. *)
Fixpoint insert_by {A} (le : A -> A -> bool) (x : A) (l : list A) : list A :=
  match l with
  | [] => [x]
  | y :: l' => if le x y then x :: l else y :: insert_by le x l'
  end.
Definition sort_by {A} (le : A -> A -> bool) (l : list A) : list A := foldr (insert_by le) [] l.

(** Strings are ordered by their code points. *)
Definition sort_on {A} (key : A -> string) : list A -> list A :=
  sort_by (fun x y => String.leb (key x) (key y)).

(* ------------------------------------------------------------------ *)
(** * base64 *)

Definition b64_alphabet : string := "ABCDEFGHIJKLMNOPQRSTUVWXYZabcdefghijklmnopqrstuvwxyz0123456789+/".

Definition b64_char (n : nat) : ascii := default "A"%char (String.get n b64_alphabet).

(** [base64.b64encode(data).decode()]. *)
Fixpoint b64encode (s : string) : string :=
  match s with
  | String a (String b (String c s')) =>
      let '(x, y, z) := (code a, code b, code c) in
      String (b64_char (x / 4)) (String (b64_char (x mod 4 * 16 + y / 16))
        (String (b64_char (y mod 16 * 4 + z / 64)) (String (b64_char (z mod 64)) (b64encode s'))))
  | String a (String b EmptyString) =>
      let '(x, y) := (code a, code b) in
      String (b64_char (x / 4)) (String (b64_char (x mod 4 * 16 + y / 16))
        (String (b64_char (y mod 16 * 4)) "="))
  | String a EmptyString =>
      String (b64_char (code a / 4)) (String (b64_char (code a mod 4 * 16)) "==")
  | EmptyString => EmptyString
  end.

Fixpoint char_index (c : ascii) (s : string) : option nat :=
  match s with
  | EmptyString => None
  | String d s' => if Ascii.eqb c d then Some 0%nat else S <$> char_index c s'
  end.

Definition b64_index (c : ascii) : option nat := char_index c b64_alphabet.

(** [base64.b64decode] on well-formed text; [None] stands for its errors. *)
Fixpoint b64decode (s : string) : option string :=
  match s with
  | EmptyString => Some EmptyString
  | String a (String b (String c (String d s'))) =>
      x ← b64_index a;
      y ← b64_index b;
      if Ascii.eqb d "=" then
        match s' with
        | EmptyString =>
            if Ascii.eqb c "=" then Some (String (ascii_of_nat (x * 4 + y / 16)) "")
            else z ← b64_index c;
                 Some (String (ascii_of_nat (x * 4 + y / 16))
                         (String (ascii_of_nat (y mod 16 * 16 + z / 4)) ""))
        | _ => None
        end
      else
        z ← b64_index c;
        t ← b64_index d;
        rest ← b64decode s';
        Some (String (ascii_of_nat (x * 4 + y / 16)) (String (ascii_of_nat (y mod 16 * 16 + z / 4))
                (String (ascii_of_nat (z mod 4 * 64 + t)) rest)))
  | _ => None
  end.

Example b64_hello : b64encode "hello, world" = "aGVsbG8sIHdvcmxk" /\ b64encode "hi" = "aGk=" /\
  b64decode "aGVsbG8=" = Some "hello".
Proof. vm_compute. done. Qed.

Example suffixes : path_suffix "a/b.tar.gz" = ".gz" /\ path_suffix ".bashrc" = "" /\
  path_suffix "dir.d/file" = "" /\ path_name "../../etc/passwd" = "passwd" /\ path_name "/" = "".
Proof. vm_compute. done. Qed.

Example schemes : url_scheme (fun _ => true) "HTTPS://a/b" = Some "https" /\
  url_scheme (fun _ => true) "/tmp/x.png" = Some "" /\
  url_scheme (fun _ => true) "https://[oops" = None.
Proof. vm_compute. done. Qed.

(* ------------------------------------------------------------------ *)
(** * Lemmas: characters *)

Create HintDb pylib.

Lemma all_chars_app p a b : all_chars p (a ++ b) = all_chars p a && all_chars p b.
Proof. induction a as [|c a IH]; [done|]. simpl. by rewrite IH, andb_assoc. Qed.

Lemma all_chars_impl (p q : ascii -> bool) s :
  (forall c, p c = true -> q c = true) -> all_chars p s = true -> all_chars q s = true.
Proof.
  intros H. induction s as [|c s IH]; [done|]. simpl. rewrite !andb_true_iff. intros [H1 H2]. auto.
Qed.

Lemma all_chars_map p f s : (forall c, p (f c) = true) -> all_chars p (map_chars f s) = true.
Proof. intros H. induction s as [|c s IH]; [done|]. simpl. by rewrite H, IH. Qed.

Lemma all_chars_lstrip p q s : all_chars p s = true -> all_chars p (lstrip_chars q s) = true.
Proof.
  induction s as [|c s IH]; [done|]. simpl. rewrite andb_true_iff. intros [H1 H2].
  destruct (q c); [auto|]. simpl. by rewrite H1, H2.
Qed.

Lemma all_chars_rstrip p q s : all_chars p s = true -> all_chars p (rstrip_chars q s) = true.
Proof.
  induction s as [|c s IH]; [done|]. simpl. rewrite andb_true_iff. intros [H1 H2]. specialize (IH H2).
  destruct (rstrip_chars q s) as [|d r]; [destruct (q c); simpl; by rewrite ?H1|].
  simpl in *. by rewrite H1.
Qed.

Lemma all_chars_strip p q s : all_chars p s = true -> all_chars p (strip_chars q s) = true.
Proof. intros H. by apply all_chars_rstrip, all_chars_lstrip. Qed.

Lemma rstrip_chars_head p c s r : rstrip_chars p (String c s) = r -> p c = false ->
  exists r', r = String c r'.
Proof.
  simpl. intros <- Hc. destruct (rstrip_chars p s); [rewrite Hc|]; by eexists.
Qed.

Lemma lstrip_chars_head p s :
  match lstrip_chars p s with EmptyString => True | String c _ => p c = false end.
Proof. induction s as [|c s IH]; [done|]. simpl. by destruct (p c) eqn:E. Qed.

(** What [strip] leaves does not start with a stripped character. *)
Lemma strip_chars_head p s :
  match strip_chars p s with EmptyString => True | String c _ => p c = false end.
Proof.
  unfold strip_chars. pose proof (lstrip_chars_head p s) as H.
  destruct (lstrip_chars p s) as [|c s'] eqn:E; [done|].
  by destruct (rstrip_chars_head p c s' _ eq_refl H) as [r' ->].
Qed.

(** [c] does not occur in [s]. *)
Definition free_of (c : ascii) (s : string) : Prop := all_chars (fun d => negb (Ascii.eqb d c)) s = true.

Lemma free_of_app c a b : free_of c (a ++ b) <-> free_of c a /\ free_of c b.
Proof. unfold free_of. by rewrite all_chars_app, andb_true_iff. Qed.

Lemma partition_char_app c a b :
  free_of c a -> partition_char c (a ++ String c b) = (a, true, b).
Proof.
  unfold free_of. induction a as [|d a IH]; simpl; [by rewrite Ascii.eqb_refl|].
  rewrite andb_true_iff, negb_true_iff. intros [-> H]. by rewrite IH.
Qed.

Lemma split_char_free c s : Forall (free_of c) (split_char c s).
Proof.
  induction s as [|d s IH]; simpl; [by repeat constructor|].
  destruct (Ascii.eqb d c) eqn:E; [by constructor|].
  destruct (split_char c s) as [|x l]; [constructor; [|done]; unfold free_of; simpl; by rewrite E|].
  apply Forall_cons_1 in IH as [H1 H2]. constructor; [|done]. unfold free_of in *. simpl. by rewrite E.
Qed.

Lemma split_char_single c s : free_of c s -> split_char c s = [s].
Proof.
  unfold free_of. induction s as [|d s IH]; [done|]. simpl. rewrite andb_true_iff, negb_true_iff.
  intros [-> H]. by rewrite IH.
Qed.

Lemma split_char_app c a b :
  free_of c a -> split_char c (a ++ String c b) = a :: split_char c b.
Proof.
  unfold free_of. induction a as [|d a IH]; simpl; [by rewrite Ascii.eqb_refl|].
  rewrite andb_true_iff, negb_true_iff. intros [-> H]. by rewrite IH.
Qed.

Lemma split_char_ne c s : split_char c s <> [].
Proof. destruct s as [|d s]; [done|]. simpl. destruct (Ascii.eqb d c); [done|]. by destruct (split_char c s). Qed.

Lemma split_char_join c a b : split_char c (a ++ String c b) = (split_char c a ++ split_char c b)%list.
Proof.
  induction a as [|d a IH]; simpl; [by rewrite Ascii.eqb_refl|]. rewrite IH.
  destruct (Ascii.eqb d c); [done|]. destruct (split_char c a) eqn:E; [by apply split_char_ne in E|done].
Qed.

(** Signs and digits hold none of the other characters. *)
Lemma free_of_num c z : is_digit c = false -> Ascii.eqb c "-" = false -> free_of c (str_of_Z z).
Proof.
  intros Hc Hm.
  assert (Hd : forall s, all_digits s = true -> free_of c s).
  { unfold free_of. induction s as [|d s IH]; [done|]. simpl. rewrite !andb_true_iff. intros [H1 H2].
    split; [|auto]. apply negb_true_iff, Ascii.eqb_neq. congruence. }
  unfold str_of_Z. destruct (Z.to_int z) as [u|u]; simpl; [by apply Hd, all_digits_uint|].
  unfold free_of. cbn [all_chars]. rewrite Ascii.eqb_sym, Hm. by apply Hd, all_digits_uint.
Qed.

Lemma str_of_Z_ne z : str_of_Z z <> "".
Proof. unfold str_of_Z. destruct (Z.to_int z); simpl; [apply string_of_uint_ne|done]. Qed.

Lemma str_of_Z_dash_inj z z' a b :
  str_of_Z z ++ String "-" a = str_of_Z z' ++ String "-" b -> z = z'.
Proof.
  assert (Hu : forall u u' a b, NilZero.string_of_uint u ++ String "-" a = NilZero.string_of_uint u' ++ String "-" b ->
    NilZero.string_of_uint u = NilZero.string_of_uint u').
  { intros u u' x y H. pose proof (all_digits_uint u) as Hd. pose proof (all_digits_uint u') as Hd'.
    revert H Hd Hd'. generalize (NilZero.string_of_uint u), (NilZero.string_of_uint u').
    induction s as [|c s IH]; intros [|d t]; simpl; [done|..].
    - intros [= <- _] _ [=].
    - intros [= -> _] [=].
    - intros [= -> H] Hd Hd'. apply andb_true_iff in Hd as [_ Hd], Hd' as [_ Hd']. f_equal. by apply IH. }
  assert (Hh : forall u x y, NilZero.string_of_uint u ++ x <> String "-" y).
  { intros u x y. pose proof (all_digits_uint u) as Hd. pose proof (string_of_uint_ne u) as Hn.
    destruct (NilZero.string_of_uint u) as [|c s]; [done|]. simpl in *. intros [= -> _]. done. }
  intros H. apply str_of_Z_inj. unfold str_of_Z in *.
  destruct (Z.to_int z) as [u|u], (Z.to_int z') as [u'|u']; simpl in *.
  - by apply Hu in H.
  - by apply Hh in H.
  - symmetry in H. by apply Hh in H.
  - injection H as H. f_equal. by apply Hu in H.
Qed.

(* ------------------------------------------------------------------ *)
(** * Lemmas: paths *)

Lemma path_parts_free s : Forall (free_of "/") (path_parts s).
Proof.
  unfold path_parts. pose proof (split_char_free "/" s) as H.
  induction H as [|x l Hx H IH]; [constructor|]. simpl. destruct (_ && _); [by constructor|done].
Qed.

(** A component a path keeps. *)
Definition component (s : string) : Prop := free_of "/" s /\ s <> "" /\ s <> ".".

Lemma path_parts_cons a b : component a -> path_parts (a ++ String "/" b) = a :: path_parts b.
Proof.
  intros (H1 & H2 & H3). unfold path_parts. rewrite split_char_app by done. simpl.
  apply nonempty_true in H2. apply String.eqb_neq in H3. by rewrite H2, H3.
Qed.

Lemma path_parts_one a : component a -> path_parts a = [a].
Proof.
  intros (H1 & H2 & H3). unfold path_parts. rewrite split_char_single by done. simpl.
  apply nonempty_true in H2. apply String.eqb_neq in H3. by rewrite H2, H3.
Qed.

Lemma path_parts_join a b : path_parts (a ++ String "/" b) = (path_parts a ++ path_parts b)%list.
Proof. unfold path_parts. by rewrite split_char_join, List.filter_app. Qed.

Lemma path_name_join a b : component b -> path_name (a ++ String "/" b) = b.
Proof. intros H. unfold path_name. by rewrite path_parts_join, (path_parts_one b H), List.last_last. Qed.

Lemma path_name_free s : free_of "/" (path_name s).
Proof.
  unfold path_name. pose proof (path_parts_free s) as H.
  induction H as [|x l Hx H IH]; [done|]. simpl. by destruct l.
Qed.

Lemma rsplit_dot_app s a b : rsplit_dot s = Some (a, b) -> s = a ++ b /\ exists b', b = String "." b'.
Proof.
  revert a b. induction s as [|c s IH]; [done|]. simpl. intros a b.
  destruct (rsplit_dot s) as [[a' b']|].
  - intros [= <- <-]. destruct (IH _ _ eq_refl) as [-> Hb]. done.
  - destruct (Ascii.eqb_spec c "."); [|done]. intros [= <- <-]. subst. eauto.
Qed.

(** A suffix is empty, or starts with a dot and holds no separator. *)
Lemma path_suffix_shape s :
  path_suffix s = "" \/ exists r, path_suffix s = String "." r /\ free_of "/" (path_suffix s).
Proof.
  unfold path_suffix. destruct (rsplit_dot (path_name s)) as [[a b]|] eqn:E; [|by left].
  destruct (has_non_dot a); [|by left]. right.
  destruct (rsplit_dot_app _ _ _ E) as [H [r ->]]. exists r. split; [done|].
  pose proof (path_name_free s) as Hf. rewrite H in Hf. by apply free_of_app in Hf as [_ ?].
Qed.

(* ------------------------------------------------------------------ *)
(** * Lemmas: base64 and quoting *)

Lemma b64_index_char n : (n < 64)%nat -> b64_index (b64_char n) = Some n /\ b64_char n <> "="%char.
Proof.
  intros H. do 64 (destruct n as [|n]; [by vm_compute|]). lia.
Qed.

Lemma b64_char_not_pad n : (n < 64)%nat -> Ascii.eqb (b64_char n) "=" = false.
Proof. intros H. apply Ascii.eqb_neq. by apply b64_index_char. Qed.

Lemma code_bound c : (code c < 256)%nat.
Proof. apply nat_ascii_bounded. Qed.

(** [code] bytes cut into six-bit groups and back. *)
Lemma sextets x y z : (x < 256 -> y < 256 -> z < 256 ->
  (x / 4 < 64 /\ x mod 4 * 16 + y / 16 < 64 /\ y mod 16 * 4 + z / 64 < 64 /\ z mod 64 < 64) /\
  x / 4 * 4 + (x mod 4 * 16 + y / 16) / 16 = x /\
  (x mod 4 * 16 + y / 16) mod 16 * 16 + (y mod 16 * 4 + z / 64) / 4 = y /\
  (y mod 16 * 4 + z / 64) mod 4 * 64 + z mod 64 = z)%nat.
Proof.
  intros Hx Hy Hz.
  assert (y / 16 < 16)%nat by (apply Nat.Div0.div_lt_upper_bound; lia).
  assert (z / 64 < 4)%nat by (apply Nat.Div0.div_lt_upper_bound; lia).
  assert (x / 4 < 64)%nat by (apply Nat.Div0.div_lt_upper_bound; lia).
  pose proof (Nat.mod_upper_bound x 4). pose proof (Nat.mod_upper_bound y 16).
  pose proof (Nat.mod_upper_bound z 64).
  rewrite !Nat.div_add_l, !(Nat.div_small (y / 16)), !(Nat.div_small (z / 64)) by lia.
  rewrite !(Nat.add_comm (_ * _) (_ / _)), !Nat.Div0.mod_add, !(Nat.mod_small (y / 16)),
    !(Nat.mod_small (z / 64)) by lia.
  pose proof (Nat.div_mod_eq x 4). pose proof (Nat.div_mod_eq y 16). pose proof (Nat.div_mod_eq z 64).
  lia.
Qed.

Lemma ascii_code c : ascii_of_nat (code c) = c.
Proof. apply ascii_nat_embedding. Qed.

#[local] Ltac six := cbn -[Nat.div Nat.modulo Nat.mul Nat.add ascii_of_nat].

Lemma b64_roundtrip s : b64decode (b64encode s) = Some s.
Proof.
  revert s. fix IH 1. intros [|a [|b [|c s]]]; [done|..].
  - cbn [b64encode b64decode]. pose proof (code_bound a) as Ha.
    destruct (sextets (code a) 0 0) as ((H1 & H2 & _) & H3 & _); [lia..|].
    rewrite Nat.Div0.div_0_l, Nat.add_0_r in *.
    rewrite (proj1 (b64_index_char _ H1)), (proj1 (b64_index_char _ H2)). six.
    by rewrite H3, ascii_code.
  - cbn [b64encode b64decode]. pose proof (code_bound a). pose proof (code_bound b).
    destruct (sextets (code a) (code b) 0) as ((H1 & H2 & H3 & _) & H4 & H5 & _); [lia..|].
    rewrite Nat.Div0.div_0_l, Nat.add_0_r in *.
    rewrite (proj1 (b64_index_char _ H1)), (proj1 (b64_index_char _ H2)). cbn [mbind option_bind].
    rewrite (b64_char_not_pad _ H3), (proj1 (b64_index_char _ H3)). six.
    by rewrite H4, H5, !ascii_code.
  - cbn [b64encode b64decode]. pose proof (code_bound a) as Ha. pose proof (code_bound b) as Hb. pose proof (code_bound c) as Hc.
    destruct (sextets (code a) (code b) (code c)) as ((H1 & H2 & H3 & H4) & H5 & H6 & H7); [lia..|].
    rewrite (proj1 (b64_index_char _ H1)), (proj1 (b64_index_char _ H2)). cbn [mbind option_bind].
    rewrite (b64_char_not_pad _ H4), (proj1 (b64_index_char _ H3)), (proj1 (b64_index_char _ H4)), IH.
    six. by rewrite H5, H6, H7, !ascii_code.
Qed.

(** The characters a quoted string is made of. *)
Definition quoted_char (c : ascii) : bool := is_ascii_alnum c || char_in c "_.-~%".

Lemma percent_quoted n : (n < 256)%nat -> all_chars quoted_char (percent n) = true.
Proof.
  intros H. assert (Hd : (n / 16 < 16)%nat) by (apply Nat.Div0.div_lt_upper_bound; lia).
  assert (Hm : (n mod 16 < 16)%nat) by (by apply Nat.mod_upper_bound).
  assert (Hq : forall k, (k < 16)%nat -> quoted_char (hex_digit k) = true).
  { intros k Hk. do 16 (destruct k as [|k]; [by vm_compute|]). lia. }
  unfold percent. cbn [all_chars]. by rewrite !Hq.
Qed.

Lemma quote_quoted s : all_chars quoted_char (quote s) = true.
Proof.
  induction s as [|c s IH]; [done|]. cbn [quote]. rewrite all_chars_app, IH, andb_true_r.
  destruct (is_ascii_alnum c || char_in c "_.-~") eqn:E.
  - cbn [all_chars]. rewrite andb_true_r. unfold quoted_char.
    destruct (is_ascii_alnum c); [done|]. simpl in *.
    repeat rewrite orb_false_r in *. destruct (Ascii.eqb c "_"), (Ascii.eqb c "."), (Ascii.eqb c "-"),
      (Ascii.eqb c "~"); done.
  - pose proof (code_bound c).
    destruct (Nat.ltb_spec (code c) 128); [by apply percent_quoted|].
    rewrite all_chars_app, !percent_quoted; [done|..].
    + pose proof (Nat.mod_upper_bound (code c) 64). lia.
    + assert (code c / 64 < 4)%nat by (apply Nat.Div0.div_lt_upper_bound; lia). lia.
Qed.

Lemma hex_value_digit n : (n < 16)%nat -> hex_value (hex_digit n) = Some n.
Proof. intros H. do 16 (destruct n as [|n]; [done|]). lia. Qed.

Lemma unquote_plain c s : Ascii.eqb c "%" = false -> unquote (String c s) = String c (unquote s).
Proof. intros H. destruct s as [|a [|b s]]; [done..|]. cbn [unquote]. by rewrite H. Qed.

Lemma unquote_percent n s : (n < 256)%nat -> unquote (percent n ++ s) = String (ascii_of_nat n) (unquote s).
Proof.
  intros H. assert (Hd : (n / 16 < 16)%nat) by (apply Nat.Div0.div_lt_upper_bound; lia).
  assert (Hm : (n mod 16 < 16)%nat) by (by apply Nat.mod_upper_bound).
  pose proof (Nat.div_mod_eq n 16) as En. unfold percent. revert Hd Hm En.
  generalize (n / 16)%nat (n mod 16)%nat. intros x y Hx Hy ->. cbn [String.append unquote].
  by rewrite !hex_value_digit.
Qed.

(** What a reader of the URL finds are the bytes of the quoted text. *)
Lemma unquote_quote s : unquote (quote s) = encode s.
Proof.
  induction s as [|c s IH]; [done|]. cbn [quote encode]. pose proof (code_bound c) as Hb.
  destruct (is_ascii_alnum c || char_in c "_.-~") eqn:E.
  - assert (Hlt : (code c <? 128)%nat = true /\ Ascii.eqb c "%" = false).
    { split; [|apply Ascii.eqb_neq; by intros ->]. apply orb_true_iff in E as [E|E].
      - unfold is_ascii_alnum, between in E. apply Nat.ltb_lt.
        repeat rewrite ?orb_true_iff, ?andb_true_iff, ?Nat.leb_le in E. lia.
      - cbn [char_in] in E. repeat rewrite orb_true_iff in E.
        by destruct E as [E|[E|[E|[E|E]]]]; try apply Ascii.eqb_eq in E as ->. }
    destruct Hlt as [-> Hp]. simpl append. by rewrite unquote_plain, IH.
  - destruct (Nat.ltb_spec (code c) 128) as [Hlt|Hge].
    + rewrite unquote_percent by lia. by rewrite ascii_code, IH.
    + assert (code c / 64 < 4)%nat by (apply Nat.Div0.div_lt_upper_bound; lia).
      pose proof (Nat.mod_upper_bound (code c) 64).
      rewrite <- append_assoc, !unquote_percent by lia. by rewrite IH.
Qed.

Lemma insert_by_Permutation {A} le (x : A) l : Permutation (insert_by le x l) (x :: l).
Proof.
  induction l as [|y l IH]; [done|]. simpl. destruct (le x y); [done|]. rewrite IH. constructor.
Qed.

Lemma sort_by_Permutation {A} le (l : list A) : Permutation (sort_by le l) l.
Proof. induction l as [|x l IH]; [done|]. simpl. by rewrite insert_by_Permutation, IH. Qed.
