(* ===== verification/Json.v ===== *)
(** Values produced by [orjson.loads] and the [isinstance]/[.get] tests the code
    applies to them. A dict is an association list in insertion order with unique keys;
    a float is a decimal [m * 10^e]. *)
From S2P Require Import Prelude PyStr.

Inductive json : Type :=
| JNull
| JBool (b : bool)
| JNum (z : Z)
| JFloat (m e : Z)
| JStr (s : string)
| JArr (l : list json)
| JObj (o : list (string * json)).

(** [d.get(k)]. *)
Fixpoint assoc {A} (k : string) (o : list (string * A)) : option A :=
  match o with
  | [] => None
  | (k', v) :: o' => if String.eqb k k' then Some v else assoc k o'
  end.

(** [d[k] = v]: in place for an existing key, appended otherwise. *)
Fixpoint assoc_set {A} (k : string) (v : A) (o : list (string * A)) : list (string * A) :=
  match o with
  | [] => [(k, v)]
  | (k', v') :: o' => if String.eqb k k' then (k', v) :: o' else (k', v') :: assoc_set k v o'
  end.

(** [d.pop(k, None)] / [del d[k]]. *)
Fixpoint assoc_del {A} (k : string) (o : list (string * A)) : list (string * A) :=
  match o with
  | [] => []
  | (k', v') :: o' => if String.eqb k k' then o' else (k', v') :: assoc_del k o'
  end.

Definition as_str (j : json) : option string := match j with JStr s => Some s | _ => None end.
Definition as_obj (j : json) : option (list (string * json)) :=
  match j with JObj o => Some o | _ => None end.
Definition as_arr (j : json) : option (list json) := match j with JArr l => Some l | _ => None end.
(** [isinstance(v, int)]: Python's [bool] is a subclass of [int]. *)
Definition as_int (j : json) : option Z :=
  match j with JNum z => Some z | JBool b => Some (if b then 1 else 0)%Z | _ => None end.

(** [bool(v)]. *)
Definition truthy (j : json) : bool :=
  match j with
  | JNull => false
  | JBool b => b
  | JNum z => negb (z =? 0)%Z
  | JFloat m _ => negb (m =? 0)%Z
  | JStr s => nonempty s
  | JArr l => negb (Nat.eqb (List.length l) 0)
  | JObj o => negb (Nat.eqb (List.length o) 0)
  end.

(** The value of a key that may be absent, [None] being JSON null in both cases. *)
Definition get_or_null (k : string) (o : list (string * json)) : json :=
  match assoc k o with Some v => v | None => JNull end.

(** [v if isinstance(v, str) else None] for [v = d.get(k)]. *)
Definition get_str (k : string) (o : list (string * json)) : option string :=
  v ← assoc k o; as_str v.

(** The integer a value is equal to as a dict key ([1 == 1.0 == True]). *)
Definition as_int_key (j : json) : option Z :=
  match j with
  | JNum z => Some z
  | JBool b => Some (if b then 1 else 0)%Z
  | JFloat m e =>
      if (0 <=? e)%Z then Some (m * 10 ^ e)%Z
      else if (m mod 10 ^ (- e) =? 0)%Z then Some (m / 10 ^ (- e))%Z else None
  | _ => None
  end.

Lemma assoc_set_eq {A} k (v : A) o : assoc k (assoc_set k v o) = Some v.
Proof.
  induction o as [|[k' v'] o IH]; simpl; [by rewrite String.eqb_refl|].
  destruct (String.eqb k k') eqn:E; simpl; rewrite E; done.
Qed.

Lemma assoc_set_ne {A} k k' (v : A) o : k <> k' -> assoc k' (assoc_set k v o) = assoc k' o.
Proof.
  intros Hne. induction o as [|[k0 v0] o IH]; simpl.
  - destruct (String.eqb_spec k' k); [congruence | done].
  - destruct (String.eqb_spec k k0) as [->|]; simpl.
    + destruct (String.eqb_spec k' k0); [congruence | done].
    + destruct (String.eqb k' k0); done.
Qed.

Lemma assoc_in {A} k (v : A) o : assoc k o = Some v -> In (k, v) o.
Proof.
  induction o as [|[k' v'] o IH]; simpl; [done|].
  destruct (String.eqb_spec k k') as [->|]; [intros [= ->]; auto | auto].
Qed.

Lemma assoc_unique {A} k (v : A) o : NoDup (map fst o) -> In (k, v) o -> assoc k o = Some v.
Proof.
  induction o as [|[k' v'] o IH]; simpl; [done|]. intros [Hni Hnd]%NoDup_cons [[= -> ->]|Hin].
  - by rewrite String.eqb_refl.
  - destruct (String.eqb_spec k k') as [->|]; [|by apply IH].
    exfalso. apply Hni, list_elem_of_In, in_map_iff. by exists (k', v).
Qed.

Lemma assoc_none {A} k (o : list (string * A)) : assoc k o = None <-> ~ In k (map fst o).
Proof.
  induction o as [|[k' v'] o IH]; simpl; [tauto|].
  destruct (String.eqb_spec k k') as [->|Hne]; [split; [done | tauto]|].
  rewrite IH. intuition congruence.
Qed.

Lemma assoc_del_eq {A} k (o : list (string * A)) :
  NoDup (map fst o) -> assoc k (assoc_del k o) = None.
Proof.
  induction o as [|[k' v'] o IH]; simpl; [done|].
  intros Hnd. apply NoDup_cons in Hnd as [Hni Hnd].
  destruct (String.eqb_spec k k') as [->|Hne]; simpl.
  - apply assoc_none. intros Hin. apply Hni. by apply list_elem_of_In.
  - destruct (String.eqb_spec k k'); [done | auto].
Qed.

Lemma assoc_del_ne {A} k k' (o : list (string * A)) :
  k <> k' -> assoc k' (assoc_del k o) = assoc k' o.
Proof.
  intros Hne. induction o as [|[k0 v0] o IH]; simpl; [done|].
  destruct (String.eqb_spec k k0) as [->|]; simpl.
  - destruct (String.eqb_spec k' k0); [congruence | done].
  - by rewrite IH.
Qed.

Lemma assoc_set_keys {A} k (v : A) o :
  NoDup (map fst o) -> NoDup (map fst (assoc_set k v o)).
Proof.
  intros Hnd. induction o as [|[k' v'] o IH]; simpl.
  - apply NoDup_singleton.
  - apply NoDup_cons in Hnd as [Hni Hnd].
    destruct (String.eqb_spec k k') as [->|Hne]; simpl; apply NoDup_cons; split; auto.
    rewrite list_elem_of_In, in_map_iff. intros ([k1 v1] & <- & Hin).
    apply Hni. simpl in Hne |- *. clear IH Hnd Hni.
    induction o as [|[k2 v2] o IHo]; simpl in *.
    + destruct Hin as [[= <- <-]|[]]. congruence.
    + destruct (String.eqb_spec k k2) as [->|].
      * destruct Hin as [[= <- <-]|Hin]; [set_solver|].
        apply list_elem_of_In. right. by apply in_map with (f := fst) in Hin.
      * destruct Hin as [[= <- <-]|Hin]; set_solver.
Qed.

Lemma assoc_del_keys {A} k (o : list (string * A)) :
  NoDup (map fst o) -> NoDup (map fst (assoc_del k o)).
Proof.
  induction o as [|[k' v'] o IH]; simpl; [done|]. intros Hnd.
  apply NoDup_cons in Hnd as [Hni Hnd].
  destruct (String.eqb k k'); [done|]. simpl. apply NoDup_cons. split; [|auto].
  intros Hin. apply Hni. clear -Hin. induction o as [|[k2 v2] o IHo]; simpl in *; [done|].
  destruct (String.eqb k k2); set_solver.
Qed.

(** The number [m * 10^e] a value stands for; [bool] is a number. *)
Definition as_number (j : json) : option (Z * Z) :=
  match j with
  | JNum z => Some (z, 0)
  | JBool b => Some (if b then 1 else 0, 0)
  | JFloat m e => Some (m, e)
  | _ => None
  end%Z.

Definition number_eqb (x y : Z * Z) : bool :=
  let low := Z.min x.2 y.2 in
  (x.1 * 10 ^ (x.2 - low) =? y.1 * 10 ^ (y.2 - low))%Z.

(** [a == b]: the order of the keys of a dict does not matter. *)
Fixpoint json_eqb (a b : json) : bool :=
  match as_number a, as_number b with
  | Some x, Some y => number_eqb x y
  | _, _ =>
      match a, b with
      | JNull, JNull => true
      | JStr s, JStr t => String.eqb s t
      | JArr l, JArr l' =>
          (fix go (l l' : list json) : bool :=
             match l, l' with
             | [], [] => true
             | x :: l, y :: l' => json_eqb x y && go l l'
             | _, _ => false
             end) l l'
      | JObj o, JObj o' =>
          Nat.eqb (List.length o) (List.length o') &&
          (fix all (o : list (string * json)) : bool :=
             match o with
             | [] => true
             | (k, v) :: o => match assoc k o' with Some v' => json_eqb v v' && all o | None => false end
             end) o
      | _, _ => false
      end
  end.
