(* ===== verification/Models.v ===== *)
(** Enumerations and table rows: [app/models/enums.py], [app/models/*.py], the sidecar
    names, the Codex status literals and the wire error codes. *)
From S2P Require Import Prelude PyStr Json.

Inductive UserRole := Role_USER | Role_ADMIN.
Inductive ChatSource := WEB | TELEGRAM.
Inductive MessageRole := Msg_USER | Msg_ASSISTANT | Msg_TOOL | Msg_SYSTEM.
Inductive EventKind :=
| THREAD_OPENED | THREAD_RESET | THREAD_LOST | TURN_STARTED | TURN_COMPLETED
| TURN_INTERRUPTED | TURN_FAILED | ATTACHMENT_RECEIVED | AUDIO_TRANSCRIBED | EVENT_ERROR.
Inductive TurnStatus := STARTING | RUNNING | COMPLETED | FAILED | CANCELLED.

#[export] Instance UserRole_eq : EqDecision UserRole. Proof. solve_decision. Defined.
#[export] Instance ChatSource_eq : EqDecision ChatSource. Proof. solve_decision. Defined.
#[export] Instance MessageRole_eq : EqDecision MessageRole. Proof. solve_decision. Defined.
#[export] Instance EventKind_eq : EqDecision EventKind. Proof. solve_decision. Defined.
#[export] Instance TurnStatus_eq : EqDecision TurnStatus. Proof. solve_decision. Defined.

(** [TURN_TERMINAL_STATUSES]. *)
Definition is_terminal (s : TurnStatus) : bool :=
  match s with COMPLETED | FAILED | CANCELLED => true | STARTING | RUNNING => false end.

(** The recurring [Turn.status.in_((STARTING, RUNNING))]. *)
Definition is_active (s : TurnStatus) : bool := negb (is_terminal s).

Definition TurnStatus_value (s : TurnStatus) : string :=
  match s with
  | STARTING => "STARTING" | RUNNING => "RUNNING" | COMPLETED => "COMPLETED"
  | FAILED => "FAILED" | CANCELLED => "CANCELLED"
  end.

(** ** Sidecars ([services/codex/sidecar.py]) *)

Inductive SidecarName := ADMIN | GUEST.
#[export] Instance SidecarName_eq : EqDecision SidecarName. Proof. solve_decision. Defined.

Definition SidecarName_value (s : SidecarName) : string :=
  match s with ADMIN => "admin" | GUEST => "guest" end.

Definition SidecarName_of_value (v : string) : option SidecarName :=
  if String.eqb v "admin" then Some ADMIN
  else if String.eqb v "guest" then Some GUEST else None.

Definition normalize (value : option string) : SidecarName :=
  match value with
  | Some v => match SidecarName_of_value v with Some s => s | None => ADMIN end
  | None => ADMIN
  end.

(** ** Codex status literals ([services/turns/status_map.py]) *)

Inductive CodexTurnStatus := IN_PROGRESS | CodexCOMPLETED | INTERRUPTED | CodexFAILED.
Definition CodexTurnStatus_value (s : CodexTurnStatus) : string :=
  match s with
  | IN_PROGRESS => "inProgress" | CodexCOMPLETED => "completed"
  | INTERRUPTED => "interrupted" | CodexFAILED => "failed"
  end.

Inductive CodexThreadStatus := ACTIVE | IDLE | NOT_LOADED.
Definition CodexThreadStatus_value (s : CodexThreadStatus) : string :=
  match s with ACTIVE => "active" | IDLE => "idle" | NOT_LOADED => "notLoaded" end.

Definition TURN_STATUS_MAP : list (string * TurnStatus) :=
  [ (CodexTurnStatus_value IN_PROGRESS, RUNNING);
    (CodexTurnStatus_value CodexCOMPLETED, COMPLETED);
    (CodexTurnStatus_value INTERRUPTED, CANCELLED);
    (CodexTurnStatus_value CodexFAILED, FAILED) ].

Definition map_codex_turn_status (raw : option string) : option TurnStatus :=
  match raw with
  | None => None
  | Some r => assoc r TURN_STATUS_MAP
  end.

Definition map_codex_thread_status (raw : option string) : option CodexThreadStatus :=
  match raw with
  | None => None
  | Some r =>
      if String.eqb r "active" then Some ACTIVE
      else if String.eqb r "idle" then Some IDLE
      else if String.eqb r "notLoaded" then Some NOT_LOADED else None
  end.

(** ** Wire error codes ([services/codex/error_codes.py]) *)

Inductive CodexErrorCode :=
| EMPTY_TEXT | EMPTY_RESPONSE | CODEX_ERROR | TURN_TIMEOUT | TURN_BUSY
| STALE_ACTIVE_TURN | STREAM_DROPPED | RATE_LIMITED.

Definition code_value (c : CodexErrorCode) : string :=
  match c with
  | EMPTY_TEXT => "empty_text" | EMPTY_RESPONSE => "empty_response"
  | CODEX_ERROR => "codex_error" | TURN_TIMEOUT => "turn_timeout"
  | TURN_BUSY => "turn_busy" | STALE_ACTIVE_TURN => "stale_active_turn"
  | STREAM_DROPPED => "stream_dropped" | RATE_LIMITED => "rate_limited"
  end.

(** ** Rows *)

(** [models/turn.py]; the read DTO [TurnRow] has the same columns. *)
Record turn := mk_turn {
  t_id : Z;
  t_chat_id : Z;
  t_user_id : Z;
  t_user_message_id : Z;
  t_assistant_message_id : option Z;
  t_status : TurnStatus;
  t_codex_thread_id : option string;
  t_codex_turn_id : option string;
  t_sidecar : option string;
  t_stream_key : string;
  t_error_code : option string;
  t_error_detail : option string;
  t_last_event_id : option string;
  t_heartbeat_at : Z;
  t_completed_at : option Z
}.

(** [services/turns/schemas.py]. *)
Record TurnCreate := {
  tc_chat_id : Z;
  tc_user_id : Z;
  tc_user_message_id : Z;
  tc_sidecar : SidecarName
}.

(** [models/message.py]. *)
Record message := mk_message {
  m_id : Z;
  m_chat_id : Z;
  m_role : MessageRole;
  m_text : string;
  m_meta : option (list (string * json))
}.

(** [models/event.py]. *)
Record event_row := mk_event_row {
  e_id : Z;
  e_chat_id : option Z;
  e_user_id : option Z;
  e_kind : EventKind;
  e_payload : option (list (string * json))
}.

(** [models/chat.py]. *)
Record chat := mk_chat {
  c_id : Z;
  c_user_id : Z;
  c_source : ChatSource;
  c_tg_chat_id : option Z;
  c_tg_message_thread_id : option Z;
  c_codex_thread_id : option string;
  c_title : option string;
  c_last_msg_at : Z
}.

(** [models/user.py]. *)
Record user := mk_user {
  u_id : Z;
  u_tg_user_id : option Z;
  u_email : option string;
  u_password_hash : option string;
  u_display_name : option string;
  u_tg_username : option string;
  u_role : UserRole
}.

(** [models/invite.py]. *)
Record invite := mk_invite {
  i_id : Z;
  i_token : string;
  i_created_by_user_id : Z;
  i_used_by_user_id : option Z;
  i_expires_at : Z;
  i_used_at : option Z;
  i_created_at : Z
}.

(** [models/upload.py]. *)
Record upload := mk_upload {
  ul_id : Z;
  ul_user_id : Z;
  ul_chat_id : option Z;
  ul_filename : string;
  ul_mime : string;
  ul_size : Z;
  ul_s3_path : string;
  ul_extracted_text : option string;
  ul_created_at : Z
}.

(** [models/note.py]; the search vector is computed by the database. *)
Inductive NotebookKind := PERSONAL.
#[export] Instance NotebookKind_eq : EqDecision NotebookKind. Proof. solve_decision. Defined.

Record notebook := mk_notebook {
  nb_id : Z;
  nb_user_id : Z;
  nb_title : string;
  nb_kind : NotebookKind
}.

Record note := mk_note {
  n_id : Z;
  n_user_id : Z;
  n_notebook_id : Z;
  n_title : string;
  n_body : string;
  n_tags : list string;
  n_created_at : Z;
  n_updated_at : Z
}.

(** [services/integrations/schemas.py] and [models/integration.py], whose [options] are a
    JSON object. *)
Inductive IntegrationKind := IK_GITHUB | IK_GITLAB | IK_SSH | IK_TELEGRAM.

#[export] Instance IntegrationKind_eq_dec : EqDecision IntegrationKind.
Proof. solve_decision. Defined.

Record integration := mk_integration {
  in_id : Z;
  in_name : string;
  in_kind : IntegrationKind;
  in_host : string;
  in_username : string;
  in_secret : string;
  in_enabled : bool;
  in_options : list (string * json);
  in_created_at : Z;
  in_updated_at : Z
}.

(** [TelegramChat] of [models/integration.py]. *)
Record tg_chat := mk_tg_chat {
  tgc_id : Z;
  tgc_bot_id : Z;
  tgc_chat_id : Z;
  tgc_title : string;
  tgc_kind : string;
  tgc_membership : string;
  tgc_replies_enabled : bool;
  tgc_created_at : Z;
  tgc_updated_at : Z
}.

(** ** Runtime limits ([models/runtime_setting.py],
    [services/runtime_settings/schemas.py]) *)

Definition TG_BOT_API_DOWNLOAD_LIMIT_MB : Z := 20.

(** The singleton row. *)
Record RuntimeSetting := mk_runtime_setting {
  web_user_active : Z;
  web_user_hourly : Z;
  tg_guest_active : Z;
  tg_guest_hourly : Z;
  row_max_upload_mb : Z
}.

Record TurnLimits := mk_limits { tl_active : Z; tl_hourly : Z }.

Record RuntimeSettings := mk_settings {
  rs_web_user : TurnLimits;
  rs_tg_guest : TurnLimits;
  rs_max_upload_mb : Z
}.

(** [services/codex_prefs/schemas.py]; the row of [models/codex_preference.py] holds the
    same two columns. [None] is the sidecar's default. *)
Record CodexPreferences := mk_prefs { pr_model : option string; pr_effort : option string }.

Lemma is_active_terminal s : is_active s = negb (is_terminal s).
Proof. done. Qed.

Lemma active_not_terminal s : is_active s = true -> is_terminal s = false.
Proof. by destruct s. Qed.

Lemma normalize_value s : normalize (Some (SidecarName_value s)) = s.
Proof. by destruct s. Qed.

Lemma map_codex_turn_status_value s :
  map_codex_turn_status (Some (CodexTurnStatus_value s)) =
  Some match s with
       | IN_PROGRESS => RUNNING | CodexCOMPLETED => COMPLETED
       | INTERRUPTED => CANCELLED | CodexFAILED => FAILED
       end.
Proof. by destruct s. Qed.
