(* ===== verification/Gen.v ===== *)
(** Asynchronous generators as resumable programs: each [yield] hands a value and the
    world to the consumer, which resumes the generator with the world it has left. What a
    consumer may do to the world in between is a relation [R] (it cannot touch the
    generator's locals, for instance). *)
From S2P Require Import Prelude.

Inductive gen (W E Y A : Type) : Type :=
| GRet (a : A) (w : W)
| GRaise (e : E) (w : W)
| GYield (y : Y) (w : W) (k : W -> gen W E Y A).
Arguments GRet {W E Y A} a w.
Arguments GRaise {W E Y A} e w.
Arguments GYield {W E Y A} y w k.

Definition gprog (W E Y A : Type) : Type := W -> gen W E Y A.

Section Generators.
Context {W E Y : Type}.

Fixpoint gen_bind {A B} (g : gen W E Y A) (k : A -> gprog W E Y B) : gen W E Y B :=
  match g with
  | GRet a w => k a w
  | GRaise e w => GRaise e w
  | GYield y w r => GYield y w (fun w' => gen_bind (r w') k)
  end.

Definition gbind {A B} (m : gprog W E Y A) (k : A -> gprog W E Y B) : gprog W E Y B :=
  fun w => gen_bind (m w) k.

Definition gret {A} (a : A) : gprog W E Y A := fun w => GRet a w.

Definition glift {A} (m : prog W E A) : gprog W E Y A :=
  fun w => match m w with (Ok a, w') => GRet a w' | (Raise e, w') => GRaise e w' end.

Definition gyield (y : Y) : gprog W E Y unit := fun w => GYield y w (fun w' => GRet tt w').

Fixpoint gen_except {A} (h : E -> gprog W E Y A) (g : gen W E Y A) : gen W E Y A :=
  match g with
  | GRet a w => GRet a w
  | GRaise e w => h e w
  | GYield y w r => GYield y w (fun w' => gen_except h (r w'))
  end.

Definition gexcept {A} (h : E -> gprog W E Y A) (m : gprog W E Y A) : gprog W E Y A :=
  fun w => gen_except h (m w).

(** [try: g finally: f] inside a generator that is run to its end. *)
Fixpoint gen_finally {A} (f : prog W E unit) (g : gen W E Y A) : gen W E Y A :=
  match g with
  | GRet a w => match f w with (Ok _, w') => GRet a w' | (Raise e, w') => GRaise e w' end
  | GRaise e w => match f w with (Ok _, w') => GRaise e w' | (Raise e', w') => GRaise e' w' end
  | GYield y w r => GYield y w (fun w' => gen_finally f (r w'))
  end.

Definition gfinally {A} (f : prog W E unit) (m : gprog W E Y A) : gprog W E Y A :=
  fun w => gen_finally f (m w).

(** Everything a generator yields when the consumer applies [env] between resumptions
    (the identity once the list is exhausted), how it ends and in which world. *)
Fixpoint run_gen {A} (g : gen W E Y A) (env : list (W -> W)) : list Y * result E A * W :=
  match g with
  | GRet a w => ([], Ok a, w)
  | GRaise e w => ([], Raise e, w)
  | GYield y w r =>
      let '(f, env') := match env with [] => (fun x => x, []) | f :: env' => (f, env') end in
      let '(ys, res, w') := run_gen (r (f w)) env' in (y :: ys, res, w')
  end.

Section Traces.
Context (R : W -> W -> Prop).

(** [trace R g ys r w]: a consumer that moves the world along [R] sees [ys] and then the
    end [r], in world [w]. *)
Inductive trace {A} : gen W E Y A -> list Y -> result E A -> W -> Prop :=
| TrRet a w : trace (GRet a w) [] (Ok a) w
| TrRaise e w : trace (GRaise e w) [] (Raise e) w
| TrYield y w w' k ys r wf : R w w' -> trace (k w') ys r wf -> trace (GYield y w k) (y :: ys) r wf.

(** The weakest precondition of a generator over all its consumers. *)
Fixpoint gwp {A} (g : gen W E Y A) (Q : list Y -> result E A -> W -> Prop) : Prop :=
  match g with
  | GRet a w => Q [] (Ok a) w
  | GRaise e w => Q [] (Raise e) w
  | GYield y w k => forall w', R w w' -> gwp (k w') (fun ys => Q (y :: ys))
  end.

Lemma gwp_trace {A} (g : gen W E Y A) Q ys r wf : gwp g Q -> trace g ys r wf -> Q ys r wf.
Proof.
  intros H Ht. revert Q H.
  induction Ht as [a w|e w|y w w' k ys r wf Hr Ht IH]; intros Q H; [done..|].
  apply (IH (fun ys => Q (y :: ys))). simpl in H. auto.
Qed.

Lemma trace_gwp {A} (g : gen W E Y A) Q :
  (forall ys r wf, trace g ys r wf -> Q ys r wf) -> gwp g Q.
Proof.
  revert Q. induction g as [a w|e w|y w k IH]; intros Q H; simpl; [apply H; constructor..|].
  intros w' Hr. apply IH. intros ys r wf Ht. apply H. by econstructor.
Qed.

Lemma gwp_mono {A} (g : gen W E Y A) (Q Q' : list Y -> result E A -> W -> Prop) :
  (forall ys r wf, Q ys r wf -> Q' ys r wf) -> gwp g Q -> gwp g Q'.
Proof. intros H Hg. apply trace_gwp. intros. eapply H, gwp_trace; eassumption. Qed.

Lemma gwp_and {A} (g : gen W E Y A) (Q Q' : list Y -> result E A -> W -> Prop) :
  gwp g Q -> gwp g Q' -> gwp g (fun ys r wf => Q ys r wf /\ Q' ys r wf).
Proof. intros H H'. apply trace_gwp. intros. split; eapply gwp_trace; eassumption. Qed.

Lemma gwp_bind {A B} (m : gprog W E Y A) (k : A -> gprog W E Y B) w Q :
  gwp (m w) (fun ys r wf => match r with
                            | Ok a => gwp (k a wf) (fun ys' => Q (ys ++ ys'))
                            | Raise e => Q ys (Raise e) wf
                            end) ->
  gwp (gbind m k w) Q.
Proof.
  unfold gbind. generalize (m w). intros g. revert Q.
  induction g as [a w0|e w0|y w0 r IH]; intros Q H; simpl in *; [done..|].
  intros w' Hr. apply IH. apply H, Hr.
Qed.

Lemma gwp_except {A} h (m : gprog W E Y A) w Q :
  gwp (m w) (fun ys r wf => match r with
                            | Ok a => Q ys (Ok a) wf
                            | Raise e => gwp (h e wf) (fun ys' => Q (ys ++ ys'))
                            end) ->
  gwp (gexcept h m w) Q.
Proof.
  unfold gexcept. generalize (m w). intros g. revert Q.
  induction g as [a w0|e w0|y w0 r IH]; intros Q H; simpl in *; [done..|].
  intros w' Hr. apply IH. apply H, Hr.
Qed.

Lemma gwp_finally {A} f (m : gprog W E Y A) w Q :
  gwp (m w) (fun ys r wf => Q ys (match (f wf).1 with Ok _ => r | Raise e => Raise e end) (f wf).2) ->
  gwp (gfinally f m w) Q.
Proof.
  unfold gfinally. generalize (m w). intros g. revert Q.
  induction g as [a w0|e w0|y w0 r IH]; intros Q H; simpl in *.
  - by destruct (f w0) as [[u|e'] w1].
  - by destruct (f w0) as [[u|e'] w1].
  - intros w' Hr. apply IH. apply H, Hr.
Qed.

Lemma gwp_lift {A} (m : prog W E A) w (Q : list Y -> result E A -> W -> Prop) :
  Q [] (m w).1 (m w).2 -> gwp (glift m w) Q.
Proof. unfold glift. destruct (m w) as [[a|e] w']; exact id. Qed.

(** For a piece that cannot fail, or whose result does not matter. *)
Lemma gwp_lift_any {A} (m : prog W E A) w (Q : list Y -> result E A -> W -> Prop) :
  (forall r w', Q [] r w') -> gwp (glift m w) Q.
Proof. intros H. apply gwp_lift, H. Qed.

Lemma gwp_lift_ok {A} (m : prog W E A) w a (Q : list Y -> result E A -> W -> Prop) :
  (m w).1 = Ok a -> (forall w', Q [] (Ok a) w') -> gwp (glift m w) Q.
Proof. intros E0 H. apply gwp_lift. by rewrite E0. Qed.

Lemma gwp_praise {A} (e : E) w (Q : list Y -> result E A -> W -> Prop) :
  Q [] (Raise e) w -> gwp (glift (praise e) w) Q.
Proof. exact id. Qed.

Lemma gwp_yield y w (Q : list Y -> result E unit -> W -> Prop) :
  (forall w', R w w' -> Q [y] (Ok tt) w') -> gwp (gyield y w) Q.
Proof. exact id. Qed.

Lemma gwp_ret {A} (a : A) w (Q : list Y -> result E A -> W -> Prop) :
  Q [] (Ok a) w -> gwp (gret a w) Q.
Proof. exact id. Qed.

(** An execution under a scripted consumer is a trace. *)
Lemma run_gen_trace {A} (g : gen W E Y A) env :
  (forall w, R w w) -> Forall (fun f => forall w, R w (f w)) env ->
  let '(ys, r, w) := run_gen g env in trace g ys r w.
Proof.
  intros Hrefl. revert env. induction g as [a w|e w|y w k IH]; intros env He; simpl; [constructor..|].
  destruct env as [|f env]; simpl.
  - specialize (IH w [] He). destruct (run_gen (k w) []) as [[ys r] w']. econstructor; [apply Hrefl|done].
  - inversion He as [|? ? Hf He']; subst. specialize (IH (f w) env He').
    destruct (run_gen (k (f w)) env) as [[ys r] w']. econstructor; [apply Hf|done].
Qed.
End Traces.
End Generators.

Notation "'let*' x ':=' m 'in' k" := (gbind m (fun x => k))
  (at level 10, x binder, m at level 100, k at level 200) : prog_scope.
Notation "m ;* k" := (gbind m (fun _ => k))
  (at level 100, k at level 200, right associativity) : prog_scope.

Create HintDb gwp.

(** Walk through a generator's body; what the hints of [gwp] know of a piece is used,
    otherwise a lifted program may end in any way. *)
Ltac gwp_step :=
  lazymatch goal with
  | |- gwp _ (gbind _ _ _) _ => apply gwp_bind
  | |- gwp _ (gexcept _ _ _) _ => apply gwp_except
  | |- gwp _ (gret _ _) _ => apply gwp_ret
  | |- gwp _ (gyield _ _) _ => apply gwp_yield; intros ? ?
  | |- gwp _ (glift (praise _) _) _ => apply gwp_praise
  | |- gwp _ (glift _ _) _ =>
      first [ eapply gwp_lift_ok; [solve [eauto with gwp]|intros ?]
            | apply gwp_lift_any; intros [?|?] ? ]
  end.
