(* ===== verification/Events.v ===== *)
(** Typed chat events ([services/codex/events/types.py]) with their wire frames, the
    sidecar notification ([transport.Notification]), the protobuf events the clients
    read, and the per-turn collector ([services/codex/collector.py]). *)
From S2P Require Import Prelude PyStr Json Models.

Inductive AttachmentKind := IMAGE | AUDIO | FILE.
#[export] Instance AttachmentKind_eq : EqDecision AttachmentKind. Proof. solve_decision. Defined.

Record Attachment := mk_attachment {
  a_kind : AttachmentKind;
  a_source : string;
  a_caption : string
}.

Record ToolError := mk_tool_error { te_message : string; te_code : option string }.

(** [ToolCallRecord]. *)
Record ToolCallRecord := mk_tool_call { tr_name : string; tr_args : list (string * json) }.

Inductive chat_event :=
| TokenEvent (delta : string)
| ToolCallEvent (name : string) (args : list (string * json))
| ToolResultEvent (name text : string) (attachments : list Attachment)
    (error : option ToolError)
| DoneEvent (final_text : string)
| ErrorEvent (code : string) (detail : option string).

Definition event_terminal (ev : chat_event) : bool :=
  match ev with DoneEvent _ | ErrorEvent _ _ => true | _ => false end.

(** [type(ev).__name__]. *)
Definition event_type_name (ev : chat_event) : string :=
  match ev with
  | TokenEvent _ => "TokenEvent" | ToolCallEvent _ _ => "ToolCallEvent"
  | ToolResultEvent _ _ _ _ => "ToolResultEvent" | DoneEvent _ => "DoneEvent"
  | ErrorEvent _ _ => "ErrorEvent"
  end.

(** [ToolResultEvent._coerce_error] followed by the validation of [ToolError]:
    [None] is a [ValidationError]. *)
Definition coerce_error (raw : json) : option (option ToolError) :=
  match raw with
  | JNull => Some None
  | JStr s => if nonempty s then Some (Some (mk_tool_error s None)) else Some None
  | JObj o =>
      match assoc "message" o with
      | Some (JStr m) =>
          match assoc "code" o with
          | None | Some JNull => Some (Some (mk_tool_error m None))
          | Some (JStr c) => Some (Some (mk_tool_error m (Some c)))
          | Some _ => None
          end
      | _ => None
      end
  | _ => None
  end.

(* ------------------------------------------------------------------ *)
(** * Wire frames *)

Definition AttachmentKind_value (k : AttachmentKind) : string :=
  match k with IMAGE => "image" | AUDIO => "audio" | FILE => "file" end.

Definition AttachmentKind_of_value (s : string) : option AttachmentKind :=
  if String.eqb s "image" then Some IMAGE
  else if String.eqb s "audio" then Some AUDIO
  else if String.eqb s "file" then Some FILE else None.

Definition json_opt_str (o : option string) : json :=
  match o with Some s => JStr s | None => JNull end.

Definition attachment_dump (a : Attachment) : json :=
  JObj [("kind", JStr (AttachmentKind_value (a_kind a)));
        ("source", JStr (a_source a)); ("caption", JStr (a_caption a))].

Definition error_dump (e : option ToolError) : json :=
  match e with
  | None => JNull
  | Some e => JObj [("message", JStr (te_message e)); ("code", json_opt_str (te_code e))]
  end.

Definition event_to_frame (ev : chat_event) : list (string * json) :=
  match ev with
  | TokenEvent d => [("type", JStr "token"); ("delta", JStr d)]
  | ToolCallEvent n args =>
      [("type", JStr "tool_call"); ("name", JStr n); ("args", JObj args)]
  | ToolResultEvent n t atts e =>
      [("type", JStr "tool_result"); ("name", JStr n); ("text", JStr t);
       ("attachments", JArr (map attachment_dump atts)); ("error", error_dump e)]
  | DoneEvent t => [("type", JStr "done"); ("final_text", JStr t)]
  | ErrorEvent c d => [("type", JStr "error"); ("code", JStr c); ("detail", json_opt_str d)]
  end.

(** What [frame_to_event] can raise. *)
Inductive frame_error := KeyError | ValidationError.

(** A required [str] field, an optional one with a default, and [str | None]. *)
Definition field_str (k : string) (p : list (string * json)) : result frame_error string :=
  match assoc k p with Some (JStr s) => Ok s | _ => Raise ValidationError end.
Definition field_str_default (k d : string) (p : list (string * json)) :
    result frame_error string :=
  match assoc k p with None => Ok d | Some (JStr s) => Ok s | Some _ => Raise ValidationError end.
Definition field_opt_str (k : string) (p : list (string * json)) :
    result frame_error (option string) :=
  match assoc k p with
  | None | Some JNull => Ok None | Some (JStr s) => Ok (Some s) | Some _ => Raise ValidationError
  end.

Definition rbind {E A B} (r : result E A) (k : A -> result E B) : result E B :=
  match r with Ok a => k a | Raise e => Raise e end.

(** [extra="forbid"]. *)
Definition only_keys (allowed : list string) (p : list (string * json)) : bool :=
  forallb (fun kv => existsb (String.eqb kv.1) allowed) p.

Definition attachment_validate (j : json) : result frame_error Attachment :=
  match j with
  | JObj o =>
      if only_keys ["kind"; "source"; "caption"] o then
        rbind (field_str "kind" o) (fun k =>
        match AttachmentKind_of_value k with
        | None => Raise ValidationError
        | Some kind =>
            rbind (field_str "source" o) (fun s =>
            rbind (field_str_default "caption" "" o) (fun c => Ok (mk_attachment kind s c)))
        end)
      else Raise ValidationError
  | _ => Raise ValidationError
  end.

Fixpoint attachments_validate (l : list json) : result frame_error (list Attachment) :=
  match l with
  | [] => Ok []
  | j :: l' => rbind (attachment_validate j) (fun a =>
               rbind (attachments_validate l') (fun r => Ok (a :: r)))
  end.

Definition validate_event (tag : string) (p : list (string * json)) :
    result frame_error chat_event :=
  if String.eqb tag "token" then
    if only_keys ["delta"] p
    then rbind (field_str "delta" p) (fun d => Ok (TokenEvent d)) else Raise ValidationError
  else if String.eqb tag "tool_call" then
    if only_keys ["name"; "args"] p then
      rbind (field_str "name" p) (fun n =>
      match assoc "args" p with
      | Some (JObj o) => Ok (ToolCallEvent n o)
      | _ => Raise ValidationError
      end)
    else Raise ValidationError
  else if String.eqb tag "tool_result" then
    if only_keys ["name"; "text"; "attachments"; "error"] p then
      rbind (field_str "name" p) (fun n =>
      rbind (field_str_default "text" "" p) (fun t =>
      rbind (match assoc "attachments" p with
             | None => Ok []
             | Some (JArr l) => attachments_validate l
             | Some _ => Raise ValidationError
             end) (fun atts =>
      match coerce_error (get_or_null "error" p) with
      | Some e => Ok (ToolResultEvent n t atts e)
      | None => Raise ValidationError
      end)))
    else Raise ValidationError
  else if String.eqb tag "done" then
    if only_keys ["final_text"] p
    then rbind (field_str "final_text" p) (fun t => Ok (DoneEvent t)) else Raise ValidationError
  else if String.eqb tag "error" then
    if only_keys ["code"; "detail"] p then
      rbind (field_str "code" p) (fun c =>
      rbind (field_opt_str "detail" p) (fun d => Ok (ErrorEvent c d)))
    else Raise ValidationError
  else Raise KeyError.

Definition frame_to_event (frame : list (string * json)) : result frame_error chat_event :=
  match assoc "type" frame with
  | Some (JStr tag) =>
      validate_event tag (List.filter (fun kv => negb (String.eqb kv.1 "type")) frame)
  | _ => Raise KeyError
  end.

(* ------------------------------------------------------------------ *)
(** * Sidecar notifications *)

Record Notification := mk_notification {
  n_method : string;
  n_params : list (string * json);
  n_turn_id : option string
}.

(* ------------------------------------------------------------------ *)
(** * Protobuf chat events *)

(** The [oneof kind] of [chat_pb2.ChatEvent]; a [DoneEvent] may carry the persisted
    assistant row. *)
Inductive pb_kind :=
| PbToken (delta : string)
| PbToolCall (name : string) (args : list (string * json))
| PbToolResult (name text : string) (attachments : list Attachment) (error : option ToolError)
| PbDone (chat_id : Z) (final_text : string) (msg : option message) (steered_fallback : bool)
| PbError (code : string) (detail : option string)
| PbTurnStarted (turn_id : Z).

(** [event.WhichOneof("kind") in ("done", "error")]. *)
Definition pb_terminal (k : pb_kind) : bool :=
  match k with PbDone _ _ _ _ | PbError _ _ => true | _ => false end.

(* ------------------------------------------------------------------ *)
(** * Collector *)

Record StreamCollector := mk_collector {
  col_buffer : string;
  col_tool_calls : list ToolCallRecord;
  col_attachments : list Attachment;
  col_final_text : string;
  col_done_seen : bool
}.

Definition empty_collector : StreamCollector := mk_collector "" [] [] "" false.

Definition absorb (c : StreamCollector) (ev : chat_event) : StreamCollector :=
  match ev with
  | TokenEvent delta =>
      mk_collector (col_buffer c ++ delta) (col_tool_calls c) (col_attachments c)
        (col_final_text c) (col_done_seen c)
  | ToolCallEvent name args =>
      mk_collector (col_buffer c) (col_tool_calls c ++ [mk_tool_call name args])%list
        (col_attachments c) (col_final_text c) (col_done_seen c)
  | ToolResultEvent _ _ files _ =>
      mk_collector (col_buffer c) (col_tool_calls c) (col_attachments c ++ files)%list
        (col_final_text c) (col_done_seen c)
  | DoneEvent ft =>
      mk_collector (col_buffer c) (col_tool_calls c) (col_attachments c) ft true
  | ErrorEvent _ _ => c
  end.

Definition absorb_all (evs : list chat_event) : StreamCollector :=
  foldl absorb empty_collector evs.

(** The text the token events of a stream carry. *)
Definition token_text (evs : list chat_event) : string :=
  foldr (fun ev acc => match ev with TokenEvent d => d ++ acc | _ => acc end) "" evs.

(* ------------------------------------------------------------------ *)
(** * Lemmas *)

Lemma attachment_roundtrip a : attachment_validate (attachment_dump a) = Ok a.
Proof. destruct a as [[] s c]; done. Qed.

Lemma attachments_roundtrip atts :
  attachments_validate (map attachment_dump atts) = Ok atts.
Proof.
  induction atts as [|a atts IH]; [done|]. cbn [map attachments_validate].
  by rewrite attachment_roundtrip, IH.
Qed.

Lemma coerce_error_roundtrip e : coerce_error (error_dump e) = Some e.
Proof. destruct e as [[m [c|]]|]; done. Qed.

Lemma absorb_buffer c ev :
  col_buffer (absorb c ev) = col_buffer c ++ match ev with TokenEvent d => d | _ => "" end.
Proof. destruct ev; simpl; by rewrite ?append_nil_r. Qed.

Lemma absorb_all_buffer_gen evs c :
  col_buffer (foldl absorb c evs) = col_buffer c ++ token_text evs.
Proof.
  revert c. induction evs as [|ev evs IH]; intros c; simpl; [by rewrite append_nil_r|].
  rewrite IH, absorb_buffer, <- append_assoc. by destruct ev.
Qed.

Lemma token_text_app l1 l2 : token_text (l1 ++ l2)%list = token_text l1 ++ token_text l2.
Proof.
  induction l1 as [|ev l1 IH]; [done|]. simpl. rewrite IH.
  destruct ev; simpl; by rewrite ?append_assoc.
Qed.

(* ------------------------------------------------------------------ *)
(** * Properties *)

(** Every chat event survives the wire: decoding the frame of an event gives the event
    back, whatever its fields. *)
Theorem frame_roundtrip (ev : chat_event) : frame_to_event (event_to_frame ev) = Ok ev.
Proof.
  destruct ev as [d|n args|n t atts e|t|c [d|]]; try done.
  transitivity (rbind (attachments_validate (map attachment_dump atts)) (fun l =>
    match coerce_error (error_dump e) with
    | Some e' => Ok (ToolResultEvent n t l e') | None => Raise ValidationError end)); [done|].
  by rewrite attachments_roundtrip, coerce_error_roundtrip.
Qed.

(** The collector's buffer after a stream is the concatenation of its token deltas. *)
Theorem collector_buffer (evs : list chat_event) :
  col_buffer (absorb_all evs) = token_text evs.
Proof. apply (absorb_all_buffer_gen evs empty_collector). Qed.
