(* ===== verification/World.v ===== *)
(** The shared world the server processes act on: the Postgres tables (committed state
    and the working copy of the open session), Redis with expiry and faults, the clock,
    and what has been published. Programs are [prog world exn]. *)
From S2P Require Import Prelude PyStr Json Models Events.

Open Scope Z_scope.
Open Scope string_scope.

(* ------------------------------------------------------------------ *)
(** * Exceptions *)

Inductive exn :=
| RedisError
| TaskiqError (msg : string)
| OSError (msg : string)
| ValueError (msg : string)
| RuntimeError (msg : string)
| IntegrityError
| TimeoutError
| CancelledError
| AppServerError (code : Z) (msg : string)
| WebSocketException (msg : string)
| StaleTurnStreamError (diagnostics : list (string * json))
| StaleSidecarTurnError (expected actual : string)
| CodexTurnTerminal (status : TurnStatus) (error_code detail : option string)
| ConnectError (code : string) (msg : string)
| UploadTooLarge (size limit : Z)
| OtherException (type_name msg : string).

(** Caught by [except Exception]: everything but [CancelledError]. *)
Definition is_exception (e : exn) : bool :=
  match e with CancelledError => false | _ => true end.

Definition exn_str (e : exn) : string :=
  match e with
  | RedisError => "redis error"
  | TaskiqError m | OSError m | ValueError m | RuntimeError m | WebSocketException m => m
  | ConnectError _ m | OtherException _ m => m
  | UploadTooLarge size limit =>
      "attachment " ++ str_of_Z size ++ " bytes exceeds " ++ str_of_Z limit
  | AppServerError c m => "[" ++ str_of_Z c ++ "] " ++ m
  | StaleTurnStreamError _ => "stale turn notification storm"
  | StaleSidecarTurnError e a =>
      "sidecar active turn mismatch: expected " ++ e ++ ", found " ++ a
  | CodexTurnTerminal s _ _ => "codex turn terminal: " ++ TurnStatus_value s
  | IntegrityError | TimeoutError | CancelledError => ""
  end.

Definition exn_type (e : exn) : string :=
  match e with
  | RedisError => "RedisError" | TaskiqError _ => "TaskiqError" | OSError _ => "OSError"
  | ValueError _ => "ValueError" | RuntimeError _ => "RuntimeError"
  | IntegrityError => "IntegrityError" | TimeoutError => "TimeoutError"
  | CancelledError => "CancelledError" | AppServerError _ _ => "AppServerError"
  | WebSocketException _ => "WebSocketException"
  | StaleTurnStreamError _ => "StaleTurnStreamError"
  | StaleSidecarTurnError _ _ => "StaleSidecarTurnError"
  | CodexTurnTerminal _ _ _ => "CodexTurnTerminal" | ConnectError _ _ => "ConnectError"
  | UploadTooLarge _ _ => "UploadTooLarge"
  | OtherException t _ => t
  end.

(** The message of an exception of a class without a constructor of its own. *)
Definition raised (class : string) (e : exn) : option string :=
  match e with OtherException t m => if String.eqb t class then Some m else None | _ => None end.

(** The classes [OSError], which has [TimeoutError] below it, and [SQLAlchemyError]. *)
Definition is_oserror (e : exn) : bool := match e with OSError _ | TimeoutError => true | _ => false end.
Definition is_sql_error (e : exn) : bool :=
  match e with IntegrityError => true | _ => bool_decide (is_Some (raised "SQLAlchemyError" e)) end.

(* ------------------------------------------------------------------ *)
(** * State *)

Record database := mk_db {
  db_turns : list turn;
  db_messages : list message;
  db_events : list event_row;
  db_chats : list chat;
  db_users : list user;
  db_invites : list invite;
  db_settings : option RuntimeSetting;
  db_prefs : list (Z * CodexPreferences);    (** [codex_preferences], unique by user *)
  db_uploads : list upload;
  db_notebooks : list notebook;
  db_notes : list note;
  db_integrations : list integration;
  db_tg_chats : list tg_chat
}.

Inductive redis_value :=
| RStr (s : string)
| RInt (z : Z)                               (** a string Redis holds as an integer *)
| RZSet (l : list (Z * string))              (** score, member *)
| RStream (l : list (string * pb_kind))      (** entry id, decoded [pb] field *)
| RJson (j : json).                          (** the text [orjson.dumps] makes of a value *)

Record redis_entry := mk_entry { r_value : redis_value; r_expires_at : option Z }.

(** What a Redis command meets on the network. *)
Inductive fault := NoFault | LostRequest | LostReply.

Inductive activity_kind := Started | Ended.

(** A message on a pub/sub channel. *)
Inductive pubmsg :=
| PubActivity (chat_id turn_id : Z) (kind : activity_kind)
| PubChatEvent (ev : chat_event)
| PubUsage (usage : list (string * json))
| PubData (data : json).                     (** any other JSON text *)

(** A publication deferred to the commit of the session. *)
Record hook := mk_hook { h_user : Z; h_chat : Z; h_turn : Z; h_kind : activity_kind }.

(** A connection to a sidecar: whether its [initialized] notification can be sent, the
    clock when it is open, the answers to its requests in order with their delays, and its
    notifications with their times up to the close. *)
Record wire := mk_wire {
  wi_notify : result exn unit;
  wi_clock : Z;
  wi_replies : list (Z * result exn json);
  wi_feed : list (Z * Notification);
  wi_feed_end : Z
}.

(** The arguments of [execute_turn.kiq]. *)
Record queued_job := mk_queued {
  q_turn_id : Z;
  q_text : string;
  q_image_urls : list string;
  q_voice_reply : bool;
  q_client_id : option string
}.

(** An object of the bucket. *)
Record s3_object := mk_object { so_body : string; so_content_type : string }.

Record world := mk_world {
  w_db : database;
  w_tx : database;
  w_hooks : list hook;
  w_seq : Z;
  w_redis : gmap string redis_entry;
  w_stream_seq : Z;
  w_faults : list fault;
  w_now : Z;
  w_pub : list (string * pubmsg);
  w_leases : list (Z * string);
  w_settings_cache : option (RuntimeSettings * Z);  (** this process's cached value and its expiry *)
  w_dials : list (SidecarName * result exn wire);  (** what the next sidecar connections meet *)
  w_jobs : list queued_job;  (** the calls of [execute_turn] the broker took *)
  w_objects : gmap string s3_object;  (** the S3 bucket, by key *)
  w_s3_faults : list fault;  (** what the next S3 requests meet *)
  w_files : gmap string string  (** the regular files, by resolved path *)
}.

Definition set_db x w := mk_world x (w_tx w) (w_hooks w) (w_seq w) (w_redis w) (w_stream_seq w)
  (w_faults w) (w_now w) (w_pub w) (w_leases w) (w_settings_cache w) (w_dials w) (w_jobs w)
  (w_objects w) (w_s3_faults w) (w_files w).
Definition set_tx x w := mk_world (w_db w) x (w_hooks w) (w_seq w) (w_redis w) (w_stream_seq w)
  (w_faults w) (w_now w) (w_pub w) (w_leases w) (w_settings_cache w) (w_dials w) (w_jobs w)
  (w_objects w) (w_s3_faults w) (w_files w).
Definition set_hooks x w := mk_world (w_db w) (w_tx w) x (w_seq w) (w_redis w) (w_stream_seq w)
  (w_faults w) (w_now w) (w_pub w) (w_leases w) (w_settings_cache w) (w_dials w) (w_jobs w)
  (w_objects w) (w_s3_faults w) (w_files w).
Definition set_seq x w := mk_world (w_db w) (w_tx w) (w_hooks w) x (w_redis w) (w_stream_seq w)
  (w_faults w) (w_now w) (w_pub w) (w_leases w) (w_settings_cache w) (w_dials w) (w_jobs w)
  (w_objects w) (w_s3_faults w) (w_files w).
Definition set_redis x w := mk_world (w_db w) (w_tx w) (w_hooks w) (w_seq w) x (w_stream_seq w)
  (w_faults w) (w_now w) (w_pub w) (w_leases w) (w_settings_cache w) (w_dials w) (w_jobs w)
  (w_objects w) (w_s3_faults w) (w_files w).
Definition set_stream_seq x w := mk_world (w_db w) (w_tx w) (w_hooks w) (w_seq w) (w_redis w) x
  (w_faults w) (w_now w) (w_pub w) (w_leases w) (w_settings_cache w) (w_dials w) (w_jobs w)
  (w_objects w) (w_s3_faults w) (w_files w).
Definition set_faults x w := mk_world (w_db w) (w_tx w) (w_hooks w) (w_seq w) (w_redis w)
  (w_stream_seq w) x (w_now w) (w_pub w) (w_leases w) (w_settings_cache w) (w_dials w) (w_jobs
  w) (w_objects w) (w_s3_faults w) (w_files w).
Definition set_now x w := mk_world (w_db w) (w_tx w) (w_hooks w) (w_seq w) (w_redis w)
  (w_stream_seq w) (w_faults w) x (w_pub w) (w_leases w) (w_settings_cache w) (w_dials w)
  (w_jobs w) (w_objects w) (w_s3_faults w) (w_files w).
Definition set_pub x w := mk_world (w_db w) (w_tx w) (w_hooks w) (w_seq w) (w_redis w)
  (w_stream_seq w) (w_faults w) (w_now w) x (w_leases w) (w_settings_cache w) (w_dials w)
  (w_jobs w) (w_objects w) (w_s3_faults w) (w_files w).
Definition set_leases x w := mk_world (w_db w) (w_tx w) (w_hooks w) (w_seq w) (w_redis w)
  (w_stream_seq w) (w_faults w) (w_now w) (w_pub w) x (w_settings_cache w) (w_dials w) (w_jobs
  w) (w_objects w) (w_s3_faults w) (w_files w).
Definition set_settings_cache x w := mk_world (w_db w) (w_tx w) (w_hooks w) (w_seq w) (w_redis
  w) (w_stream_seq w) (w_faults w) (w_now w) (w_pub w) (w_leases w) x (w_dials w) (w_jobs w)
  (w_objects w) (w_s3_faults w) (w_files w).
Definition set_dials x w := mk_world (w_db w) (w_tx w) (w_hooks w) (w_seq w) (w_redis w)
  (w_stream_seq w) (w_faults w) (w_now w) (w_pub w) (w_leases w) (w_settings_cache w) x (w_jobs
  w) (w_objects w) (w_s3_faults w) (w_files w).
Definition set_jobs x w := mk_world (w_db w) (w_tx w) (w_hooks w) (w_seq w) (w_redis w)
  (w_stream_seq w) (w_faults w) (w_now w) (w_pub w) (w_leases w) (w_settings_cache w) (w_dials
  w) x (w_objects w) (w_s3_faults w) (w_files w).
Definition set_objects x w := mk_world (w_db w) (w_tx w) (w_hooks w) (w_seq w) (w_redis w)
  (w_stream_seq w) (w_faults w) (w_now w) (w_pub w) (w_leases w) (w_settings_cache w) (w_dials
  w) (w_jobs w) x (w_s3_faults w) (w_files w).
Definition set_s3_faults x w := mk_world (w_db w) (w_tx w) (w_hooks w) (w_seq w) (w_redis w)
  (w_stream_seq w) (w_faults w) (w_now w) (w_pub w) (w_leases w) (w_settings_cache w) (w_dials
  w) (w_jobs w) (w_objects w) x (w_files w).
Definition set_files x w := mk_world (w_db w) (w_tx w) (w_hooks w) (w_seq w) (w_redis w)
  (w_stream_seq w) (w_faults w) (w_now w) (w_pub w) (w_leases w) (w_settings_cache w) (w_dials
  w) (w_jobs w) (w_objects w) (w_s3_faults w) x.

Definition set_turns x d := mk_db x (db_messages d) (db_events d) (db_chats d)
  (db_users d) (db_invites d) (db_settings d) (db_prefs d) (db_uploads d)
  (db_notebooks d) (db_notes d) (db_integrations d) (db_tg_chats d).
Definition set_messages x d := mk_db (db_turns d) x (db_events d) (db_chats d)
  (db_users d) (db_invites d) (db_settings d) (db_prefs d) (db_uploads d)
  (db_notebooks d) (db_notes d) (db_integrations d) (db_tg_chats d).
Definition set_events x d := mk_db (db_turns d) (db_messages d) x (db_chats d)
  (db_users d) (db_invites d) (db_settings d) (db_prefs d) (db_uploads d)
  (db_notebooks d) (db_notes d) (db_integrations d) (db_tg_chats d).
Definition set_chats x d := mk_db (db_turns d) (db_messages d) (db_events d) x
  (db_users d) (db_invites d) (db_settings d) (db_prefs d) (db_uploads d)
  (db_notebooks d) (db_notes d) (db_integrations d) (db_tg_chats d).
Definition set_users x d := mk_db (db_turns d) (db_messages d) (db_events d) (db_chats d)
  x (db_invites d) (db_settings d) (db_prefs d) (db_uploads d) (db_notebooks d)
  (db_notes d) (db_integrations d) (db_tg_chats d).
Definition set_invites x d := mk_db (db_turns d) (db_messages d) (db_events d)
  (db_chats d) (db_users d) x (db_settings d) (db_prefs d) (db_uploads d)
  (db_notebooks d) (db_notes d) (db_integrations d) (db_tg_chats d).
Definition set_settings x d := mk_db (db_turns d) (db_messages d) (db_events d)
  (db_chats d) (db_users d) (db_invites d) x (db_prefs d) (db_uploads d)
  (db_notebooks d) (db_notes d) (db_integrations d) (db_tg_chats d).
Definition set_prefs x d := mk_db (db_turns d) (db_messages d) (db_events d) (db_chats d)
  (db_users d) (db_invites d) (db_settings d) x (db_uploads d) (db_notebooks d)
  (db_notes d) (db_integrations d) (db_tg_chats d).
Definition set_uploads x d := mk_db (db_turns d) (db_messages d) (db_events d)
  (db_chats d) (db_users d) (db_invites d) (db_settings d) (db_prefs d) x
  (db_notebooks d) (db_notes d) (db_integrations d) (db_tg_chats d).
Definition set_notebooks x d := mk_db (db_turns d) (db_messages d) (db_events d)
  (db_chats d) (db_users d) (db_invites d) (db_settings d) (db_prefs d) (db_uploads d) x
  (db_notes d) (db_integrations d) (db_tg_chats d).
Definition set_notes x d := mk_db (db_turns d) (db_messages d) (db_events d) (db_chats d)
  (db_users d) (db_invites d) (db_settings d) (db_prefs d) (db_uploads d)
  (db_notebooks d) x (db_integrations d) (db_tg_chats d).
Definition set_integrations x d := mk_db (db_turns d) (db_messages d) (db_events d)
  (db_chats d) (db_users d) (db_invites d) (db_settings d) (db_prefs d) (db_uploads d)
  (db_notebooks d) (db_notes d) x (db_tg_chats d).
Definition set_tg_chats x d := mk_db (db_turns d) (db_messages d) (db_events d)
  (db_chats d) (db_users d) (db_invites d) (db_settings d) (db_prefs d) (db_uploads d)
  (db_notebooks d) (db_notes d) (db_integrations d) x.

Definition empty_db : database := mk_db [] [] [] [] [] [] None [] [] [] [] [] [].
Definition empty_world : world :=
  mk_world empty_db empty_db [] 1 ∅ 1 [] 0 [] [] None [] [] ∅ [] ∅.

(** Seconds to the millisecond clock. *)
Definition seconds (n : Z) : Z := n * 1000.

(* ------------------------------------------------------------------ *)
(** * Sessions

    [async with SessionLocal() as db]: statements run on the working copy [w_tx]; what
    is not committed when the session closes is discarded with its hooks. *)

Definition sql {A} (f : database -> A) : prog world exn A := gets (fun w => f (w_tx w)).

Definition sql_write (f : database -> database) : prog world exn unit :=
  modify (fun w => set_tx (f (w_tx w)) w).

(** A fresh primary key; sequences do not roll back. *)
Definition nextval : prog world exn Z := fun w => (Ok (w_seq w), set_seq (w_seq w + 1) w).

Definition now : prog world exn Z := gets w_now.

Definition with_session {A} (m : prog world exn A) : prog world exn A :=
  fun w => let '(r, w') := m (set_hooks [] (set_tx (w_db w) w)) in
           (r, set_hooks [] (set_tx (w_db w') w')).

Definition rollback : prog world exn unit := modify (fun w => set_tx (w_db w) w).

(* ------------------------------------------------------------------ *)
(** * Redis *)

(** A key holds its value until its expiry time has passed. *)
Definition live (w : world) (k : string) : option redis_value :=
  match w_redis w !! k with
  | Some (mk_entry v None) => Some v
  | Some (mk_entry v (Some t)) => if Z.leb (w_now w) t then Some v else None
  | None => None
  end.

(** Run a command under the next fault of the script: the request is lost (no effect),
    or the reply is (the effect happened, the caller sees [RedisError]). *)
Definition redis_op {A} (f : world -> A * world) : prog world exn A :=
  fun w => match w_faults w with
           | [] => let '(a, w') := f w in (Ok a, w')
           | NoFault :: fs => let '(a, w') := f (set_faults fs w) in (Ok a, w')
           | LostRequest :: fs => (Raise RedisError, set_faults fs w)
           | LostReply :: fs => (Raise RedisError, (f (set_faults fs w)).2)
           end.

Definition put_key (k : string) (v : redis_value) (exp : option Z) (w : world) : world :=
  set_redis (<[k := mk_entry v exp]> (w_redis w)) w.
Definition del_key (k : string) (w : world) : world := set_redis (delete k (w_redis w)) w.

Definition holds_str (w : world) (k v : string) : bool :=
  match live w k with Some (RStr v') => String.eqb v v' | _ => false end.

(** [SET k v EX ttl NX]. *)
Definition set_nx_ex (k v : string) (ttl : Z) (w : world) : bool * world :=
  match live w k with
  | Some _ => (false, w)
  | None => (true, put_key k (RStr v) (Some (Z.add (w_now w) (seconds ttl))) w)
  end.

(** [SET k v EX ttl]. *)
Definition set_ex (k v : string) (ttl : Z) (w : world) : unit * world :=
  (tt, put_key k (RStr v) (Some (Z.add (w_now w) (seconds ttl))) w).

(** [SET k v EX ttl] of a JSON text. *)
Definition set_json_ex (k : string) (j : json) (ttl : Z) (w : world) : unit * world :=
  (tt, put_key k (RJson j) (Some (Z.add (w_now w) (seconds ttl))) w).

(** [SET k v EX ttl IFEQ v]. *)
Definition set_ifeq (k v : string) (ttl : Z) (w : world) : bool * world :=
  if holds_str w k v
  then (true, put_key k (RStr v) (Some (Z.add (w_now w) (seconds ttl))) w) else (false, w).

(** [DELEX k IFEQ v], also the release script [GET == v -> DEL]. *)
Definition delex_ifeq (k v : string) (w : world) : bool * world :=
  if holds_str w k v then (true, del_key k w) else (false, w).

(** The refresh script [GET == v -> EXPIRE k ttl]. *)
Definition expire_ifeq (k v : string) (ttl : Z) (w : world) : bool * world :=
  if holds_str w k v
  then (true, put_key k (RStr v) (Some (Z.add (w_now w) (seconds ttl))) w) else (false, w).

Definition redis_get (k : string) (w : world) : option redis_value * world := (live w k, w).
Definition redis_exists (k : string) (w : world) : bool * world :=
  (bool_decide (is_Some (live w k)), w).
Definition redis_del (k : string) (w : world) : unit * world := (tt, del_key k w).

(** [EXPIRE k ttl] on a live key. *)
Definition redis_expire (k : string) (ttl : Z) (w : world) : unit * world :=
  match live w k with
  | Some v => (tt, put_key k v (Some (Z.add (w_now w) (seconds ttl))) w)
  | None => (tt, w)
  end.

(** The current expiry of a live key, kept by commands that update the value. *)
Definition live_expiry (w : world) (k : string) : option Z :=
  match live w k, w_redis w !! k with Some _, Some e => r_expires_at e | _, _ => None end.

(** [INCRBY k d] (with [INCR], [DECR] at 1 and -1); an absent key counts from 0. *)
Definition redis_incrby (k : string) (d : Z) (w : world) : Z * world :=
  let n := (match live w k with Some (RInt n) => n | _ => 0 end) + d in
  (n, put_key k (RInt n) (live_expiry w k) w).

Definition publish (channel : string) (m : pubmsg) (w : world) : unit * world :=
  (tt, set_pub (w_pub w ++ [(channel, m)])%list w).

(* ------------------------------------------------------------------ *)
(** * Chat-activity publications ([services/chat_activity/service.py]) *)

Definition channel_for_user (user_id : Z) : string := "chat_activity:" ++ str_of_Z user_id.

(** Telemetry boundary: a Redis or socket failure is swallowed. *)
Definition publish_activity (user_id chat_id turn_id : Z) (kind : activity_kind) :
    prog world exn unit :=
  except (fun e => match e with RedisError | OSError _ => pret tt | _ => praise e end)
    (redis_op (publish (channel_for_user user_id) (PubActivity chat_id turn_id kind))).

(** [_publish_after_commit]: the hook fires at the commit of the session, not before. *)
Definition publish_after_commit (h : hook) : prog world exn unit :=
  modify (fun w => set_hooks (w_hooks w ++ [h])%list w).

Definition fire (h : hook) : prog world exn unit :=
  publish_activity (h_user h) (h_chat h) (h_turn h) (h_kind h).

Definition commit : prog world exn unit :=
  let! hooks := gets w_hooks in
  modify (fun w => set_hooks [] (set_db (w_tx w) w)) ;;
  for_each hooks fire.

(** [except RedisError as exc: return d]. *)
Definition redis_default {A} (d : A) (m : prog world exn A) : prog world exn A :=
  except (fun e => match e with RedisError => pret d | _ => praise e end) m.

(* ------------------------------------------------------------------ *)
(** * Lemmas *)

Lemma set_turns_id d : set_turns (db_turns d) d = d.
Proof. by destruct d. Qed.
Lemma set_messages_id d : set_messages (db_messages d) d = d.
Proof. by destruct d. Qed.

(** What Redis commands leave alone: the database, the open session, the sequences and
    the clock. *)
Definition sqlview (w : world) := (w_db w, w_tx w, w_hooks w, w_seq w, w_now w).
(** What SQL statements leave alone. *)
Definition redisview (w : world) :=
  (w_redis w, w_stream_seq w, w_faults w, w_now w, w_pub w, w_leases w).

Lemma respects_redis_op {A} {P} (proj : world -> P) (f : world -> A * world) :
  (forall w, same proj w (f w).2) -> (forall fs w, same proj w (set_faults fs w)) ->
  respects (same proj) (redis_op f).
Proof.
  intros Hf Hs w. unfold redis_op.
  destruct (w_faults w) as [|[] fs]; try apply Hs.
  - specialize (Hf w). by destruct (f w).
  - specialize (Hf (set_faults fs w)). specialize (Hs fs w).
    destruct (f (set_faults fs w)). unfold same in *. simpl in *. congruence.
  - specialize (Hf (set_faults fs w)). specialize (Hs fs w). unfold same in *. simpl. congruence.
Qed.

Ltac redis_frame :=
  apply respects_redis_op; [|done]; intros;
  unfold set_nx_ex, set_ex, set_json_ex, set_ifeq, delex_ifeq, expire_ifeq, redis_get, redis_exists,
    redis_del, redis_expire, redis_incrby, publish;
  repeat case_goal; done.

Lemma publish_activity_sqlview u c t k : respects (same sqlview) (publish_activity u c t k).
Proof.
  apply respects_except; [typeclasses eauto|redis_frame|].
  intros []; auto with frame typeclass_instances.
Qed.

Lemma fire_sqlview h : respects (same sqlview) (fire h).
Proof. apply publish_activity_sqlview. Qed.

#[export] Hint Resolve publish_activity_sqlview fire_sqlview : frame.

Lemma redis_op_cases {A} (f : world -> A * world) w :
  (exists a, (redis_op f w).1 = Ok a) \/ (redis_op f w).1 = Raise RedisError.
Proof.
  unfold redis_op. destruct (w_faults w) as [|[] fs]; auto;
    left; destruct (f _); eexists; reflexivity.
Qed.

Lemma publish_activity_ok u c t k w : (publish_activity u c t k w).1 = Ok tt.
Proof.
  unfold publish_activity, except.
  destruct (redis_op_cases (publish (channel_for_user u) (PubActivity c t k)) w) as [[[] H]|H];
    destruct (redis_op _ w) as [r w']; simpl in H; subst r; done.
Qed.

Lemma for_each_ok {W E A} (l : list A) (f : A -> prog W E unit) w :
  (forall x w, (f x w).1 = Ok tt) -> (for_each l f w).1 = Ok tt.
Proof.
  intros Hf. revert w. induction l as [|x l IH]; intros w; [done|].
  simpl. unfold pbind. specialize (Hf x w). destruct (f x w) as [r w']. simpl in Hf. subst.
  apply IH.
Qed.

(** A commit always succeeds and installs the working copy. *)
Lemma commit_ok w : (commit w).1 = Ok tt.
Proof. unfold commit, pbind. simpl. apply for_each_ok. intros. apply publish_activity_ok. Qed.

Lemma commit_sqlview w :
  sqlview (commit w).2 = (w_tx w, w_tx w, [], w_seq w, w_now w).
Proof.
  unfold commit, pbind, gets, modify.
  pose proof (respects_for_each (same sqlview) (w_hooks w) fire fire_sqlview
    (set_hooks [] (set_db (w_tx w) w))) as H.
  unfold same in H. rewrite H. done.
Qed.

(** A session whose body commits installs the body's working copy. *)
Lemma with_session_sqlview {A} (m : prog world exn A) w :
  let '(r, w') := m (set_hooks [] (set_tx (w_db w) w)) in
  (with_session m w).1 = r /\
  sqlview (with_session m w).2 = (w_db w', w_db w', [], w_seq w', w_now w').
Proof. unfold with_session. destruct (m _) as [r w']. done. Qed.

Lemma redis_default_ok {A} (d : A) (f : world -> A * world) w :
  exists a, (redis_default d (redis_op f) w).1 = Ok a.
Proof.
  unfold redis_default, except.
  destruct (redis_op_cases f w) as [[a H]|H];
    destruct (redis_op f w) as [r w']; simpl in H; subst r; eauto.
Qed.

Lemma redis_default_sqlview {A} (d : A) (f : world -> A * world) :
  respects (same sqlview) (redis_op f) -> respects (same sqlview) (redis_default d (redis_op f)).
Proof.
  intros H. apply respects_except; [typeclasses eauto|done|].
  intros []; auto with frame typeclass_instances.
Qed.

(** SQL statements touch neither Redis nor the publications. *)
Lemma sql_redisview {A} (f : database -> A) : respects (same redisview) (sql f).
Proof. intros w. done. Qed.
Lemma sql_write_redisview f : respects (same redisview) (sql_write f).
Proof. intros w. done. Qed.
#[export] Hint Resolve sql_redisview sql_write_redisview : frame.

(** Expiry: a key set at time [t] with a TTL is live exactly until it. *)
Lemma live_put w k v exp :
  live (put_key k v exp w) k =
  match exp with None => Some v | Some t => if Z.leb (w_now w) t then Some v else None end.
Proof. unfold live, put_key. simpl. by rewrite lookup_insert_eq. Qed.

Lemma live_put_ne w k k' v exp : k <> k' -> live (put_key k v exp w) k' = live w k'.
Proof. intros H. unfold live, put_key. simpl. by rewrite lookup_insert_ne. Qed.

Lemma live_del w k : live (del_key k w) k = None.
Proof. unfold live, del_key. simpl. by rewrite lookup_delete_eq. Qed.

Lemma live_del_ne w k k' : k <> k' -> live (del_key k w) k' = live w k'.
Proof. intros H. unfold live, del_key. simpl. by rewrite lookup_delete_ne. Qed.

(** Nothing comes back to life as time passes. *)
Lemma live_advance w k v t :
  w_now w <= t -> live (set_now t w) k = Some v -> live w k = Some v.
Proof.
  intros Ht. unfold live. simpl. destruct (w_redis w !! k) as [[v' [e|]]|]; try done.
  destruct (Z.leb_spec t e), (Z.leb_spec (w_now w) e); try done. lia.
Qed.

Lemma holds_str_true w k v : holds_str w k v = true <-> live w k = Some (RStr v).
Proof.
  unfold holds_str. destruct (live w k) as [[s|z|l|l|j]|]; split; try done.
  - intros H. apply String.eqb_eq in H. congruence.
  - intros [= ->]. apply String.eqb_refl.
Qed.
