(* ===== verification/TurnStore.v ===== *)
(** The durable turn lifecycle: [services/turns/service.py] over the [turns] table with
    its partial unique index ([models/turn.py], [turns_active_per_chat]).

    The operations are the statements of [TurnService], run in an open session. Their
    theorems: at most one of any interleaved finalisations of a turn succeeds, a terminal
    row never changes again, a chat never has two active turns, and every step of the
    table is a step of the abstract lifecycle Starting -> Running -> Done. *)
From S2P Require Import Prelude PyStr Json Models Events World.

Open Scope Z_scope.
Open Scope string_scope.

(* ------------------------------------------------------------------ *)
(** * Statements *)

Definition stream_key (turn_id : Z) : string := "turn:" ++ str_of_Z turn_id ++ ":events".

Definition has_id (id : Z) (t : turn) : bool := Z.eqb (t_id t) id.
Definition active_row (t : turn) : bool := is_active (t_status t).
Definition active_in_chat (chat_id : Z) (t : turn) : bool :=
  Z.eqb (t_chat_id t) chat_id && active_row t.

Definition update_turns (p : turn -> bool) (f : turn -> turn) : prog world exn nat :=
  let! n := sql (fun d => rowcount p (db_turns d)) in
  sql_write (fun d => set_turns (update_where p f (db_turns d)) d) ;;
  pret n.

(** INSERT under the partial unique index: a second active row in the chat is an
    [IntegrityError]. *)
Definition insert_turn (t : turn) : prog world exn unit :=
  let! clash := sql (fun d => existsb (active_in_chat (t_chat_id t)) (db_turns d)) in
  if active_row t && clash then praise IntegrityError
  else sql_write (fun d => set_turns (db_turns d ++ [t])%list d).

Definition with_stream_key (k : string) (t : turn) : turn :=
  mk_turn (t_id t) (t_chat_id t) (t_user_id t) (t_user_message_id t)
    (t_assistant_message_id t) (t_status t) (t_codex_thread_id t) (t_codex_turn_id t)
    (t_sidecar t) k (t_error_code t) (t_error_detail t) (t_last_event_id t)
    (t_heartbeat_at t) (t_completed_at t).

(** The SET clauses of the updates. *)
Definition running (now : Z) (thread_id codex_turn_id : string) (t : turn) : turn :=
  mk_turn (t_id t) (t_chat_id t) (t_user_id t) (t_user_message_id t)
    (t_assistant_message_id t) RUNNING (Some thread_id) (Some codex_turn_id)
    (t_sidecar t) (t_stream_key t) (t_error_code t) (t_error_detail t)
    (t_last_event_id t) now (t_completed_at t).
Definition with_assistant (message_id : Z) (t : turn) : turn :=
  mk_turn (t_id t) (t_chat_id t) (t_user_id t) (t_user_message_id t)
    (Some message_id) (t_status t) (t_codex_thread_id t) (t_codex_turn_id t)
    (t_sidecar t) (t_stream_key t) (t_error_code t) (t_error_detail t)
    (t_last_event_id t) (t_heartbeat_at t) (t_completed_at t).
Definition with_last_event (event_id : string) (t : turn) : turn :=
  mk_turn (t_id t) (t_chat_id t) (t_user_id t) (t_user_message_id t)
    (t_assistant_message_id t) (t_status t) (t_codex_thread_id t) (t_codex_turn_id t)
    (t_sidecar t) (t_stream_key t) (t_error_code t) (t_error_detail t)
    (Some event_id) (t_heartbeat_at t) (t_completed_at t).
Definition beaten (now : Z) (t : turn) : turn :=
  mk_turn (t_id t) (t_chat_id t) (t_user_id t) (t_user_message_id t)
    (t_assistant_message_id t) (t_status t) (t_codex_thread_id t) (t_codex_turn_id t)
    (t_sidecar t) (t_stream_key t) (t_error_code t) (t_error_detail t)
    (t_last_event_id t) now (t_completed_at t).
Definition finalized (now : Z) (status : TurnStatus) (error_code error_detail : option string)
    (t : turn) : turn :=
  mk_turn (t_id t) (t_chat_id t) (t_user_id t) (t_user_message_id t)
    (t_assistant_message_id t) status (t_codex_thread_id t) (t_codex_turn_id t)
    (t_sidecar t) (t_stream_key t) error_code error_detail
    (t_last_event_id t) (t_heartbeat_at t) (Some now).

(** The row [create_starting] inserts, before and after its stream key is set. *)
Definition starting_row (id now : Z) (payload : TurnCreate) : turn :=
  mk_turn id (tc_chat_id payload) (tc_user_id payload)
    (tc_user_message_id payload) None STARTING None None
    (Some (SidecarName_value (tc_sidecar payload))) "" None None None now None.

Definition create_starting (payload : TurnCreate) : prog world exn turn :=
  let! now := now in
  let! id := nextval in
  let turn := starting_row id now payload in
  insert_turn turn ;;
  let turn := with_stream_key (stream_key id) turn in
  update_turns (has_id id) (with_stream_key (stream_key id)) ;;
  pret turn.

Definition try_create_starting (payload : TurnCreate) : prog world exn (option turn) :=
  let! created := except
    (fun e => match e with IntegrityError => rollback ;; pret None | _ => praise e end)
    (let! row := create_starting payload in pret (Some row)) in
  match created with
  | None => pret None
  | Some row =>
      publish_after_commit (mk_hook (t_user_id row) (t_chat_id row) (t_id row) Started) ;;
      pret (Some row)
  end.

Definition mark_running (turn_id : Z) (codex_thread_id codex_turn_id : string) :
    prog world exn bool :=
  let! now := now in
  let! n := update_turns
    (fun t => has_id turn_id t && bool_decide (t_status t = STARTING))
    (running now codex_thread_id codex_turn_id) in
  pret (negb (Nat.eqb n 0)).

Definition attach_assistant_message (turn_id message_id : Z) : prog world exn unit :=
  update_turns (has_id turn_id) (with_assistant message_id) ;;
  pret tt.

Definition update_last_event (turn_id : Z) (event_id : string) : prog world exn unit :=
  update_turns (has_id turn_id) (with_last_event event_id) ;;
  pret tt.

Definition heartbeat (turn_id : Z) : prog world exn bool :=
  let! now := now in
  let! n := update_turns (fun t => has_id turn_id t && active_row t) (beaten now) in
  pret (negb (Nat.eqb n 0)).

Definition finalize_once (turn_id : Z) (status : TurnStatus)
    (error_code error_detail : option string) : prog world exn bool :=
  if negb (is_terminal status)
  then praise (ValueError ("finalize_once expects terminal status, got " ++
                           TurnStatus_value status))
  else
    let! now := now in
    let p := fun t => has_id turn_id t && active_row t in
    let! returning := sql (fun d => List.find p (db_turns d)) in
    update_turns p (finalized now status error_code error_detail) ;;
    match returning with
    | None => pret false
    | Some row =>
        publish_after_commit (mk_hook (t_user_id row) (t_chat_id row) turn_id Ended) ;;
        pret true
    end.

Definition get_active_for_chat (chat_id : Z) : prog world exn (option turn) :=
  sql (fun d => List.find (active_in_chat chat_id) (db_turns d)).

Definition active_ids_by_chat_for_user (user_id : Z) : prog world exn (gmap Z Z) :=
  sql (fun d => foldl (fun (m : gmap Z Z) t => <[t_chat_id t := t_id t]> m) ∅
    (List.filter (fun t => Z.eqb (t_user_id t) user_id && active_row t) (db_turns d))).

Definition get_by_id (turn_id : Z) : prog world exn (option turn) :=
  sql (fun d => List.find (has_id turn_id) (db_turns d)).

Definition stale_row (cutoff : Z) (t : turn) : bool :=
  active_row t && Z.ltb (t_heartbeat_at t) cutoff.

Definition find_stale_active (threshold : Z) : prog world exn (list turn) :=
  let! now := now in
  sql (fun d => List.filter (stale_row (now - threshold)) (db_turns d)).

(* ------------------------------------------------------------------ *)
(** * Transactions *)

(** One statement of the service, in its own committed session: what each caller does. *)
Inductive turn_op :=
| OpCreate (payload : TurnCreate)
| OpMarkRunning (turn_id : Z) (codex_thread_id codex_turn_id : string)
| OpAttach (turn_id message_id : Z)
| OpLastEvent (turn_id : Z) (event_id : string)
| OpHeartbeat (turn_id : Z)
| OpFinalize (turn_id : Z) (status : TurnStatus) (error_code error_detail : option string).

Definition statement (op : turn_op) : prog world exn bool :=
  match op with
  | OpCreate p => let! r := try_create_starting p in pret (bool_decide (is_Some r))
  | OpMarkRunning id th tu => mark_running id th tu
  | OpAttach id m => attach_assistant_message id m ;; pret true
  | OpLastEvent id e => update_last_event id e ;; pret true
  | OpHeartbeat id => heartbeat id
  | OpFinalize id st c d => finalize_once id st c d
  end.

Definition transaction (op : turn_op) : prog world exn bool :=
  with_session (let! r := statement op in commit ;; pret r).

(** An interleaving: the operations in commit order with the answer each caller got. *)
Fixpoint run (ops : list turn_op) (w : world) : list (turn_op * result exn bool) * world :=
  match ops with
  | [] => ([], w)
  | op :: ops' =>
      let '(r, w') := transaction op w in
      let '(rs, w'') := run ops' w' in ((op, r) :: rs, w'')
  end.

(* ------------------------------------------------------------------ *)
(** * What a statement does to the table *)

(** The rows an operation other than a creation updates, and how. *)
Definition op_where (op : turn_op) (t : turn) : bool :=
  match op with
  | OpCreate _ => false
  | OpMarkRunning tid _ _ => has_id tid t && bool_decide (t_status t = STARTING)
  | OpAttach tid _ | OpLastEvent tid _ => has_id tid t
  | OpHeartbeat tid => has_id tid t && active_row t
  | OpFinalize tid st _ _ => is_terminal st && (has_id tid t && active_row t)
  end.

Definition op_set (op : turn_op) (now : Z) (t : turn) : turn :=
  match op with
  | OpCreate _ => t
  | OpMarkRunning _ th tu => running now th tu t
  | OpAttach _ m => with_assistant m t
  | OpLastEvent _ e => with_last_event e t
  | OpHeartbeat _ => beaten now t
  | OpFinalize _ st c d => finalized now st c d t
  end.

Definition new_row (id now : Z) (p : TurnCreate) : turn :=
  with_stream_key (stream_key id) (starting_row id now p).

(** The table an operation leaves, as a function of the table and the clock. *)
Definition turns_after (op : turn_op) (id now : Z) (ts : list turn) : list turn :=
  match op with
  | OpCreate p =>
      if existsb (active_in_chat (tc_chat_id p)) ts then ts
      else update_where (has_id id) (with_stream_key (stream_key id))
             (ts ++ [starting_row id now p])%list
  | _ => update_where (op_where op) (op_set op now) ts
  end.

(** What the caller is told. *)
Definition answer (op : turn_op) (ts : list turn) : result exn bool :=
  match op with
  | OpCreate p => Ok (negb (existsb (active_in_chat (tc_chat_id p)) ts))
  | OpAttach _ _ | OpLastEvent _ _ => Ok true
  | OpMarkRunning _ _ _ | OpHeartbeat _ => Ok (existsb (op_where op) ts)
  | OpFinalize _ st _ _ =>
      if is_terminal st then Ok (existsb (op_where op) ts)
      else Raise (ValueError ("finalize_once expects terminal status, got " ++
                              TurnStatus_value st))
  end.

(** The activity a committed operation announces. *)
Definition announces (op : turn_op) (id : Z) (ts : list turn) : list hook :=
  match op with
  | OpCreate p =>
      if existsb (active_in_chat (tc_chat_id p)) ts then []
      else [mk_hook (tc_user_id p) (tc_chat_id p) id Started]
  | OpFinalize tid _ _ _ =>
      match List.find (op_where op) ts with
      | Some row => [mk_hook (t_user_id row) (t_chat_id row) tid Ended]
      | None => []
      end
  | _ => []
  end.

Definition turns (w : world) : list turn := db_turns (w_db w).

Lemma find_existsb {A} (p : A -> bool) (l : list A) :
  existsb p l = match List.find p l with Some _ => true | None => false end.
Proof. induction l as [|x l IH]; simpl; [done|]. by destruct (p x). Qed.

Lemma rowcount_existsb {A} (p : A -> bool) (l : list A) :
  negb (Nat.eqb (rowcount p l) 0) = existsb p l.
Proof.
  unfold rowcount. induction l as [|x l IH]; simpl; [done|].
  destruct (p x); simpl; [done|apply IH].
Qed.

Lemma existsb_ext {A} (p q : A -> bool) (l : list A) :
  (forall x, p x = q x) -> existsb p l = existsb q l.
Proof. intros H. induction l as [|x l IH]; simpl; [done|]. by rewrite H, IH. Qed.

Lemma find_false {A} (p : A -> bool) (l : list A) :
  (forall x, p x = false) -> List.find p l = None.
Proof. intros H. induction l as [|x l IH]; simpl; [done|]. by rewrite H. Qed.

Lemma update_where_false {A} (p : A -> bool) f (l : list A) :
  (forall x, p x = false) -> update_where p f l = l.
Proof.
  intros H. apply update_where_none. apply rowcount_zero_iff. auto.
Qed.

(** A statement in the session that [with_session] opens. *)
Lemma statement_spec op w :
  exists w1,
    statement op (set_hooks [] (set_tx (w_db w) w)) = (answer op (turns w), w1) /\
    w_tx w1 = set_turns (turns_after op (w_seq w) (w_now w) (turns w)) (w_db w) /\
    w_hooks w1 = announces op (w_seq w) (turns w) /\
    w_db w1 = w_db w /\ w_now w1 = w_now w /\ redisview w1 = redisview w /\
    w_seq w1 = match op with OpCreate _ => w_seq w + 1 | _ => w_seq w end.
Proof.
  unfold turns. destruct op as [p|tid th tu|tid m|tid e|tid|tid st c d]; simpl statement.
  - unfold try_create_starting, create_starting, insert_turn, pbind, except. cbn.
    destruct (existsb _ _) eqn:Ex; cbn; eexists; (split; [reflexivity|]); cbn;
      rewrite ?set_turns_id; done.
  - eexists; unfold mark_running, update_turns, pbind; cbn. rewrite rowcount_existsb. done.
  - eexists; done.
  - eexists; done.
  - eexists; unfold heartbeat, update_turns, pbind; cbn. rewrite rowcount_existsb. done.
  - unfold finalize_once, pbind. cbn.
    destruct st; cbn; rewrite ?find_existsb;
      first [destruct (find _ _); eexists; done
            | eexists; split; [reflexivity|]; rewrite update_where_false, set_turns_id by done;
              by rewrite find_false by done].
Qed.

(** Every transaction installs [turns_after], answers [answer] and leaves the clock. *)
Lemma transaction_spec op w :
  let w' := (transaction op w).2 in
  (transaction op w).1 = answer op (turns w) /\
  turns w' = turns_after op (w_seq w) (w_now w) (turns w) /\
  w_now w' = w_now w /\
  w_seq w' = match op with OpCreate _ => w_seq w + 1 | _ => w_seq w end.
Proof.
  destruct (statement_spec op w) as (w1 & E & Htx & _ & Hdb & Hnow & _ & Hseq).
  pose proof (commit_ok w1) as Hc. pose proof (commit_sqlview w1) as Hs.
  assert (Hraise : forall e, answer op (turns w) = Raise e ->
            turns_after op (w_seq w) (w_now w) (turns w) = turns w).
  { intros e. destruct op as [| | | | |tid st c d]; try done. cbn.
    destruct (is_terminal st) eqn:Est; [done|]. intros _. apply update_where_false.
    intros t. cbn. by rewrite Est. }
  unfold transaction, with_session, pbind. rewrite E. unfold turns in *.
  destruct (answer op _) as [b|e].
  - destruct (commit w1) as [rc w2]. simpl in Hc. subst rc. unfold sqlview in Hs. simpl in Hs.
    injection Hs as Hs1 _ _ Hs2 Hs3. cbn. rewrite Hs1, Hs2, Hs3, Htx. done.
  - cbn. rewrite Hdb, Hnow, Hseq, (Hraise e) by done. done.
Qed.

(** A finalisation inside an open session, on the working copy. *)
Lemma finalize_once_tx id st c d w :
  is_terminal st = true ->
  exists b, (finalize_once id st c d w).1 = Ok b /\
  let w' := (finalize_once id st c d w).2 in
  w_tx w' = set_turns (update_where (fun t => has_id id t && active_row t)
              (finalized (w_now w) st c d) (db_turns (w_tx w))) (w_tx w) /\
  w_db w' = w_db w /\ w_seq w' = w_seq w /\ w_now w' = w_now w /\
  redisview w' = redisview w.
Proof.
  intros Hst. unfold finalize_once. rewrite Hst. cbn [negb]. unfold pbind at 1. cbn.
  unfold pbind. cbn. destruct (find _ _); simpl; eexists; done.
Qed.

(** The rows of a turn, once finalised. *)
Definition settled (turn_id : Z) (w : world) : Prop :=
  forall r, In r (db_turns (w_db w)) -> t_id r = turn_id -> active_row r = false.

(** A finalisation in a session of its own. *)
Lemma finalize_session id st c d w :
  is_terminal st = true ->
  let w' := (with_session (finalize_once id st c d ;; commit) w).2 in
  (with_session (finalize_once id st c d ;; commit) w).1 = Ok tt /\
  w_db w' = set_turns (update_where (fun t => has_id id t && active_row t)
              (finalized (w_now w) st c d) (db_turns (w_db w))) (w_db w) /\
  w_seq w' = w_seq w /\ w_now w' = w_now w.
Proof.
  intros Hst. unfold with_session.
  destruct (finalize_once_tx id st c d (set_hooks [] (set_tx (w_db w) w)) Hst)
    as (b & Hb & Htx & _ & Hs & Hn & _).
  unfold pbind. destruct (finalize_once _ _ _ _ _) as [r w1]. simpl in Hb. subst r.
  pose proof (commit_sqlview w1) as Hv. pose proof (commit_ok w1) as Hc.
  destruct (commit w1) as [r w2]. unfold sqlview in Hv. injection Hv as Hdb _ _ Hs2 Hn2.
  simpl in *. by rewrite Hdb, Hs2, Hn2, Htx, Hs, Hn.
Qed.

Lemma finalize_settles turn_id st c d w :
  is_terminal st = true -> settled turn_id (with_session (finalize_once turn_id st c d ;; commit) w).2.
Proof.
  intros Hst. destruct (finalize_session turn_id st c d w Hst) as (_ & Hdb & _).
  intros x. rewrite Hdb. simpl. intros (t & Hin & ->)%in_update_where Hid.
  destruct (has_id turn_id t && active_row t) eqn:E0; [by destruct st|].
  apply andb_false_iff in E0 as [E0|E0]; [|done]. exfalso. unfold has_id in E0. to_prop. done.
Qed.

(* ------------------------------------------------------------------ *)
(** * Rows *)

Definition row (id : Z) (ts : list turn) : option turn := List.find (has_id id) ts.

Lemma has_id_true id t : has_id id t = true <-> t_id t = id.
Proof. apply Z.eqb_eq. Qed.

Lemma op_set_id op now t : t_id (op_set op now t) = t_id t.
Proof. by destruct op. Qed.
Lemma op_set_chat op now t : t_chat_id (op_set op now t) = t_chat_id t.
Proof. by destruct op. Qed.
Lemma op_set_key op now t : t_stream_key (op_set op now t) = t_stream_key t.
Proof. by destruct op. Qed.

(** An update never makes an active row of a terminal one. *)
Lemma op_set_active op now t :
  op_where op t = true -> active_row (op_set op now t) = true -> active_row t = true.
Proof.
  unfold active_row. destruct op as [| | | | |tid st c d]; simpl; try done.
  - intros H _. to_prop. by rewrite H0.
  - intros H Ha. apply active_not_terminal in Ha. by rewrite Ha in H.
Qed.

Lemma row_in id ts t : row id ts = Some t -> In t ts /\ t_id t = id.
Proof. intros H. apply List.find_some in H as [H1 H2]. by apply has_id_true in H2. Qed.

Lemma row_app id ts ts' :
  row id (ts ++ ts')%list = match row id ts with Some t => Some t | None => row id ts' end.
Proof. unfold row. induction ts as [|t ts IH]; simpl; [done|]. by destruct (has_id id t). Qed.

Lemma row_update id p f ts :
  (forall t, t_id (f t) = t_id t) ->
  row id (update_where p f ts) = (fun t => if p t then f t else t) <$> row id ts.
Proof. intros Hf. unfold row, has_id. by apply (find_update_where t_id). Qed.

(** The inserted row with its key: only it is touched by the second statement when the
    identifier is fresh. *)
Lemma insert_fresh id now p ts :
  (forall t, In t ts -> t_id t <> id) ->
  update_where (has_id id) (with_stream_key (stream_key id)) (ts ++ [starting_row id now p])%list
  = (ts ++ [new_row id now p])%list.
Proof.
  intros H. unfold update_where. rewrite map_app. f_equal.
  - induction ts as [|t ts IH]; simpl; [done|].
    destruct (has_id id t) eqn:E.
    + apply has_id_true in E. exfalso. apply (H t); [by left|done].
    + rewrite IH; [done|]. intros t' Ht'. apply H. by right.
  - simpl. unfold has_id. simpl. by rewrite Z.eqb_refl.
Qed.

(* ------------------------------------------------------------------ *)
(** * The table invariant *)

(** Identifiers are unique and below the sequence, each row has its own stream, a row has
    a completion time exactly when it is terminal, and a chat has at most one active
    row. *)
Record turns_wf (seq : Z) (ts : list turn) : Prop := {
  wf_ids : NoDup (map t_id ts);
  wf_seq : forall t, In t ts -> t_id t < seq;
  wf_key : forall t, In t ts -> t_stream_key t = stream_key (t_id t);
  wf_done : forall t, In t ts -> is_terminal (t_status t) = bool_decide (is_Some (t_completed_at t));
  wf_one : forall t t', In t ts -> In t' ts -> active_row t = true -> active_row t' = true ->
             t_chat_id t = t_chat_id t' -> t = t'
}.

Lemma wf_row seq ts t : turns_wf seq ts -> In t ts -> row (t_id t) ts = Some t.
Proof.
  intros [Hnd _ _ _ _] Hin. unfold row. revert Hnd.
  induction ts as [|t0 ts IH]; simpl; [done|]. intros [Hni Hnd]%NoDup_cons.
  destruct Hin as [->|Hin]; [unfold has_id; by rewrite Z.eqb_refl|].
  unfold has_id. destruct (Z.eqb_spec (t_id t0) (t_id t)) as [E|].
  - exfalso. apply Hni. rewrite E. apply list_elem_of_In. by apply in_map.
  - by apply IH.
Qed.

Lemma wf_row_iff seq ts id t : turns_wf seq ts -> row id ts = Some t <-> In t ts /\ t_id t = id.
Proof.
  intros Hwf. split; [apply row_in|]. intros [Hin <-]. by eapply wf_row.
Qed.

Lemma clash_iff c ts :
  existsb (active_in_chat c) ts = true <->
  exists t, In t ts /\ t_chat_id t = c /\ active_row t = true.
Proof.
  rewrite existsb_exists. unfold active_in_chat. split.
  - intros (t & Hin & H). to_prop. eauto.
  - intros (t & Hin & <- & H). exists t. rewrite H, Z.eqb_refl. done.
Qed.

Lemma new_row_wf seq now p ts :
  turns_wf seq ts -> existsb (active_in_chat (tc_chat_id p)) ts = false ->
  turns_wf (seq + 1) (ts ++ [new_row seq now p])%list.
Proof.
  intros [Hnd Hs Hk Hd H1] Hc.
  assert (Hnc : forall t, In t ts -> t_chat_id t = tc_chat_id p -> active_row t = true -> False).
  { intros t Hin Ht Ha. enough (existsb (active_in_chat (tc_chat_id p)) ts = true) by congruence.
    apply clash_iff. eauto. }
  split.
  - rewrite map_app. apply NoDup_app. split; [done|]. split; [|apply NoDup_singleton].
    intros x Hx%list_elem_of_In Hx'. apply list_elem_of_singleton in Hx' as ->.
    apply in_map_iff in Hx as (t & E & Hin). specialize (Hs t Hin). simpl in E. lia.
  - intros t [Hin|[<-|[]]]%in_app_iff; [specialize (Hs t Hin); lia|simpl; lia].
  - intros t [Hin|[<-|[]]]%in_app_iff; auto.
  - intros t [Hin|[<-|[]]]%in_app_iff; auto.
  - intros t t' [Hin|[<-|[]]]%in_app_iff [Hin'|[<-|[]]]%in_app_iff Ha Ha' E; auto;
      exfalso; eauto.
Qed.

Lemma update_wf seq op now ts :
  turns_wf seq ts -> turns_wf seq (update_where (op_where op) (op_set op now) ts).
Proof.
  intros [Hnd Hs Hk Hd H1]. split.
  - rewrite map_update_where; [done|]. apply op_set_id.
  - intros t' (t & Hin & ->)%in_update_where. destruct (op_where op t); rewrite ?op_set_id; auto.
  - intros t' (t & Hin & ->)%in_update_where.
    destruct (op_where op t); rewrite ?op_set_id, ?op_set_key; auto.
  - intros t' (t & Hin & ->)%in_update_where. destruct (op_where op t) eqn:E; [|auto].
    specialize (Hd t Hin). destruct op as [| | | | |tid st c d]; simpl in *; try done.
    + to_prop. rewrite H0 in Hd. simpl in Hd. done.
    + to_prop. by rewrite H.
  - intros t1 t2 (a & Hin & ->)%in_update_where (b & Hin' & ->)%in_update_where Ha Hb E.
    assert (a = b) as ->; [|done].
    assert (Hc : t_chat_id a = t_chat_id b).
    { destruct (op_where op a), (op_where op b); by rewrite ?op_set_chat in E. }
    apply H1; try done.
    + destruct (op_where op a) eqn:Ea; [by eapply op_set_active|done].
    + destruct (op_where op b) eqn:Eb; [by eapply op_set_active|done].
Qed.

Lemma turns_after_wf op seq now ts :
  turns_wf seq ts ->
  turns_wf (match op with OpCreate _ => seq + 1 | _ => seq end) (turns_after op seq now ts).
Proof.
  intros Hwf. destruct op as [p| | | | |]; try apply (update_wf _ _ _ _ Hwf).
  simpl. destruct (existsb _ ts) eqn:Ex.
  - destruct Hwf as [? Hs ? ? ?]. split; auto. intros t Ht. specialize (Hs t Ht). lia.
  - rewrite insert_fresh.
    + by apply new_row_wf.
    + intros t Ht. pose proof (wf_seq _ _ Hwf t Ht). lia.
Qed.

Definition world_wf (w : world) : Prop := turns_wf (w_seq w) (turns w).

Lemma transaction_wf op w : world_wf w -> world_wf (transaction op w).2.
Proof.
  unfold world_wf. destruct (transaction_spec op w) as (_ & -> & _ & ->). apply turns_after_wf.
Qed.

Lemma run_cons op ops w :
  run (op :: ops) w = ((op, (transaction op w).1) :: (run ops (transaction op w).2).1,
                       (run ops (transaction op w).2).2).
Proof. simpl. destruct (transaction op w) as [r w']. simpl. by destruct (run ops w'). Qed.

Lemma run_wf ops w : world_wf w -> world_wf (run ops w).2.
Proof.
  revert w. induction ops as [|op ops IH]; intros w Hwf; [done|].
  rewrite run_cons. simpl. by apply IH, transaction_wf.
Qed.

(* ------------------------------------------------------------------ *)
(** * The abstract lifecycle

    What the turn table promises, without rows: each turn of a chat is [Starting],
    [Running] or [Done]; the operations are deterministic functions of that state. *)

Inductive phase := Starting | Running | Done (st : TurnStatus).

Definition phase_active (p : phase) : bool := match p with Done _ => false | _ => true end.

Definition phase_of (st : TurnStatus) : phase :=
  match st with STARTING => Starting | RUNNING => Running | s => Done s end.

Record lifecycle := mk_lifecycle { next_turn : Z; phases : gmap Z (Z * phase) }.

Definition chat_busy (c : Z) (m : gmap Z (Z * phase)) : Prop :=
  map_Exists (fun _ v => v.1 = c /\ phase_active v.2 = true) m.

Definition set_phase (id chat_id : Z) (p : phase) (s : lifecycle) : lifecycle :=
  mk_lifecycle (next_turn s) (<[id := (chat_id, p)]> (phases s)).

Definition spec (op : turn_op) (s : lifecycle) : result exn bool * lifecycle :=
  match op with
  | OpCreate p =>
      if bool_decide (chat_busy (tc_chat_id p) (phases s))
      then (Ok false, mk_lifecycle (next_turn s + 1) (phases s))
      else (Ok true, mk_lifecycle (next_turn s + 1)
                       (<[next_turn s := (tc_chat_id p, Starting)]> (phases s)))
  | OpMarkRunning id _ _ =>
      match phases s !! id with
      | Some (c, Starting) => (Ok true, set_phase id c Running s)
      | _ => (Ok false, s)
      end
  | OpAttach _ _ | OpLastEvent _ _ => (Ok true, s)
  | OpHeartbeat id =>
      match phases s !! id with
      | Some (_, p) => (Ok (phase_active p), s)
      | None => (Ok false, s)
      end
  | OpFinalize id st _ _ =>
      if is_terminal st then
        match phases s !! id with
        | Some (c, Starting) | Some (c, Running) => (Ok true, set_phase id c (Done st) s)
        | _ => (Ok false, s)
        end
      else (Raise (ValueError ("finalize_once expects terminal status, got " ++
                               TurnStatus_value st)), s)
  end.

Definition row_phase (t : turn) : Z * phase := (t_chat_id t, phase_of (t_status t)).

Definition abstract (w : world) : lifecycle :=
  mk_lifecycle (w_seq w) (list_to_map (map (fun t => (t_id t, row_phase t)) (turns w))).

Lemma lookup_phases id ts :
  (list_to_map (map (fun t => (t_id t, row_phase t)) ts) : gmap Z (Z * phase)) !! id
  = row_phase <$> row id ts.
Proof.
  unfold row, has_id. induction ts as [|t ts IH]; simpl; [by rewrite lookup_empty|].
  destruct (Z.eqb_spec (t_id t) id) as [<-|Hne]; simpl.
  - by rewrite lookup_insert_eq.
  - by rewrite lookup_insert_ne.
Qed.

Lemma phase_of_active st : phase_active (phase_of st) = is_active st.
Proof. by destruct st. Qed.

Lemma busy_iff seq c ts :
  turns_wf seq ts ->
  chat_busy c (list_to_map (map (fun t => (t_id t, row_phase t)) ts)) <->
  existsb (active_in_chat c) ts = true.
Proof.
  intros Hwf. unfold chat_busy, map_Exists. rewrite clash_iff. setoid_rewrite lookup_phases.
  split.
  - intros (i & v & H & Hv & Ha). apply fmap_Some in H as (t & Ht & ->).
    apply row_in in Ht as [Hin <-]. simpl in *. rewrite phase_of_active in Ha. eauto.
  - intros (t & Hin & Hc & Ha). exists (t_id t), (row_phase t).
    rewrite (wf_row _ _ _ Hwf Hin). simpl. by rewrite phase_of_active.
Qed.

(** An update of one row, as the abstraction sees it. *)
Lemma where_row seq op ts :
  turns_wf seq ts ->
  existsb (op_where op) ts =
  match op with
  | OpCreate _ => false
  | OpMarkRunning id _ _ | OpAttach id _ | OpLastEvent id _ | OpHeartbeat id
  | OpFinalize id _ _ _ =>
      match row id ts with Some t => op_where op t | None => false end
  end.
Proof.
  intros Hwf.
  assert (H : forall id, (forall t, op_where op t = true -> t_id t = id) ->
    existsb (op_where op) ts = match row id ts with Some t => op_where op t | None => false end).
  { intros id Hid. apply eq_true_iff_eq. rewrite existsb_exists. split.
    - intros (t & Hin & Ht). pose proof (Hid t Ht) as <-. by rewrite (wf_row _ _ _ Hwf Hin).
    - destruct (row id ts) as [t|] eqn:E; [|done]. apply row_in in E as [Hin _]. eauto. }
  destruct op as [p|id|id|id|id|id]; try apply H;
    try (intros t Ht; simpl in Ht; to_prop; by apply has_id_true).
  induction ts; simpl; [done|]. clear -ts. by induction ts.
Qed.

Definition table_phases (ts : list turn) : gmap Z (Z * phase) :=
  list_to_map (map (fun t => (t_id t, row_phase t)) ts).

(** An update whose WHERE selects the row [id], as the abstraction sees it. *)
Lemma phases_update id p f ts :
  (forall t, p t = true -> t_id t = id) -> (forall t, t_id (f t) = t_id t) ->
  table_phases (update_where p f ts) =
  match row id ts with
  | Some t => if p t then <[id := row_phase (f t)]> (table_phases ts) else table_phases ts
  | None => table_phases ts
  end.
Proof.
  intros Hp Hf. apply map_eq. intros id'. unfold table_phases at 1.
  rewrite lookup_phases, row_update by done.
  destruct (decide (id' = id)) as [->|Hne].
  - destruct (row id ts) as [t|] eqn:E; simpl.
    + destruct (p t); [by rewrite lookup_insert_eq|].
      unfold table_phases. by rewrite lookup_phases, E.
    + unfold table_phases. by rewrite lookup_phases, E.
  - transitivity (table_phases ts !! id').
    + unfold table_phases. rewrite lookup_phases. destruct (row id' ts) as [t|] eqn:E; [|done].
      apply row_in in E as [_ <-]. simpl. destruct (p t) eqn:Ep; [|done].
      by apply Hp in Ep.
    + destruct (row id ts) as [t|]; [|done]. destruct (p t); [|done].
      by rewrite lookup_insert_ne.
Qed.

Lemma phases_kept p f ts :
  (forall t, t_id (f t) = t_id t) -> (forall t, p t = true -> row_phase (f t) = row_phase t) ->
  table_phases (update_where p f ts) = table_phases ts.
Proof.
  intros Hf Hr. unfold table_phases, update_where. rewrite map_map. f_equal.
  apply map_ext. intros t. destruct (p t) eqn:E; [|done]. by rewrite Hf, Hr.
Qed.

Lemma spec_create p now seq ts :
  turns_wf seq ts ->
  spec (OpCreate p) (mk_lifecycle seq (table_phases ts)) =
  (answer (OpCreate p) ts,
   mk_lifecycle (seq + 1) (table_phases (turns_after (OpCreate p) seq now ts))).
Proof.
  intros Hwf. cbn [spec answer turns_after phases next_turn].
  pose proof (busy_iff _ (tc_chat_id p) _ Hwf) as Hb.
  destruct (existsb _ ts) eqn:Ex.
  - rewrite bool_decide_eq_true_2 by (by apply Hb). done.
  - rewrite bool_decide_eq_false_2 by (rewrite Hb; done). simpl. do 2 f_equal.
    assert (Hfresh : forall t, In t ts -> t_id t <> seq).
    { intros t Ht. pose proof (wf_seq _ _ Hwf t Ht). lia. }
    rewrite insert_fresh by done. apply map_eq. intros id. unfold table_phases at 2.
    rewrite lookup_phases, row_app. unfold table_phases.
    destruct (decide (id = seq)) as [->|Hne].
    + rewrite lookup_insert_eq. destruct (row seq ts) as [t|] eqn:E.
      * apply row_in in E as [Hin E]. by destruct (Hfresh t Hin).
      * unfold row, has_id. simpl. by rewrite Z.eqb_refl.
    + rewrite lookup_insert_ne, lookup_phases by done.
      destruct (row id ts); [done|]. unfold row, has_id. simpl.
      destruct (Z.eqb_spec seq id); [congruence|done].
Qed.

Lemma spec_update op now seq ts :
  turns_wf seq ts -> (forall p, op <> OpCreate p) ->
  spec op (mk_lifecycle seq (table_phases ts)) =
  (answer op ts, mk_lifecycle seq (table_phases (turns_after op 0 now ts))).
Proof.
  intros Hwf Hne. pose proof (where_row _ op _ Hwf) as Hw.
  destruct op as [p|id th tu|id m|id e|id|id st c d]; [by destruct (Hne p)|..];
    cbn [spec answer phases turns_after]; rewrite ?Hw.
  - rewrite (phases_update id) by (done || (intros t H; simpl in H; to_prop; by apply has_id_true)).
    unfold table_phases at 1. rewrite lookup_phases.
    destruct (row id ts) as [t|] eqn:E; [|done]. apply row_in in E as [_ <-].
    unfold op_where, has_id, row_phase. rewrite Z.eqb_refl. cbn. by destruct (t_status t).
  - by rewrite phases_kept.
  - by rewrite phases_kept.
  - rewrite phases_kept by done. unfold table_phases at 1. rewrite lookup_phases.
    destruct (row id ts) as [t|] eqn:E; [|done]. apply row_in in E as [_ <-].
    unfold op_where, has_id, row_phase. rewrite Z.eqb_refl. cbn.
    by rewrite phase_of_active.
  - destruct (is_terminal st) eqn:Est.
    + rewrite (phases_update id) by (done || (intros t H; simpl in H; to_prop; by apply has_id_true)).
      unfold table_phases at 1. rewrite lookup_phases.
      destruct (row id ts) as [t|] eqn:E; [|done]. apply row_in in E as [_ <-].
      unfold op_where, has_id, row_phase, active_row. rewrite Z.eqb_refl, Est. cbn.
      assert (phase_of st = Done st) as -> by (by destruct st).
      by destruct (t_status t).
    + rewrite update_where_false; [done|]. intros t. simpl. by rewrite Est.
Qed.

Lemma turns_after_seq op seq now ts :
  (forall p, op <> OpCreate p) -> turns_after op seq now ts = turns_after op 0 now ts.
Proof. intros H. destruct op; [by destruct (H payload)|done..]. Qed.

(* ------------------------------------------------------------------ *)
(** * One row through an interleaving *)

Lemma transaction_row op w id t :
  world_wf w -> row id (turns w) = Some t ->
  row id (turns (transaction op w).2) =
  Some (if op_where op t then op_set op (w_now w) t else t).
Proof.
  intros Hwf Hr. destruct (transaction_spec op w) as (_ & -> & _ & _).
  destruct op as [p| | | | |]; [|simpl; rewrite row_update, Hr by done; done..].
  simpl. destruct (existsb _ _); [done|].
  assert (forall t, In t (turns w) -> t_id t <> w_seq w) as Hf.
  { intros t' Hin. pose proof (wf_seq _ _ Hwf t' Hin). lia. }
  rewrite insert_fresh by done. by rewrite row_app, Hr.
Qed.

(** A finalisation of [id] to a terminal status. *)
Definition finalizes (id : Z) (op : turn_op) : bool :=
  match op with OpFinalize tid st _ _ => Z.eqb tid id && is_terminal st | _ => false end.

(** The finalisations of [id] that were told they made the transition. *)
Definition winners (id : Z) (log : list (turn_op * result exn bool)) : list turn_op :=
  map fst (List.filter (fun '(op, r) =>
    finalizes id op && match r with Ok true => true | _ => false end) log).

(** How a turn ended: everything [finalize_once] writes. *)
Definition outcome (t : turn) := (t_status t, t_error_code t, t_error_detail t, t_completed_at t).

Lemma terminal_step op now t :
  active_row t = false -> outcome (if op_where op t then op_set op now t else t) = outcome t.
Proof.
  unfold active_row. intros Ht. destruct (op_where op t) eqn:E; [|done].
  destruct op; simpl in *; to_prop; try done; try congruence; by destruct t as [? ? ? ? ? []].
Qed.

Lemma outcome_active t t' : outcome t = outcome t' -> active_row t = active_row t'.
Proof. unfold outcome, active_row. congruence. Qed.

Lemma answer_where w op :
  world_wf w -> forall id t, row id (turns w) = Some t -> finalizes id op = true ->
  answer op (turns w) = Ok (active_row t).
Proof.
  intros Hwf id t Hr Hf. destruct op as [| | | | |tid st c d]; try done.
  simpl in Hf. to_prop. subst tid. cbn [answer]. rewrite H0.
  rewrite (where_row _ (OpFinalize id st c d) _ Hwf), Hr. apply row_in in Hr as [_ <-].
  simpl. unfold has_id. by rewrite H0, Z.eqb_refl.
Qed.

Lemma winners_cons id op r log :
  winners id ((op, r) :: log) =
  ((if finalizes id op && match r with Ok true => true | _ => false end then [op] else [])
   ++ winners id log)%list.
Proof. unfold winners. simpl. by destruct (finalizes id op && _). Qed.

Lemma run_terminal ops w id t :
  world_wf w -> row id (turns w) = Some t -> active_row t = false ->
  winners id (run ops w).1 = [] /\
  exists t', row id (turns (run ops w).2) = Some t' /\ outcome t' = outcome t.
Proof.
  revert w t. induction ops as [|op ops IH]; intros w t Hwf Hr Ht; [eauto|].
  rewrite run_cons. cbn [fst snd].
  pose proof (terminal_step op (w_now w) t Ht) as Hs.
  destruct (IH _ _ (transaction_wf op w Hwf) (transaction_row op w id t Hwf Hr))
    as [Hw (t' & Hr' & Ho)].
  { rewrite (outcome_active _ t); done. }
  split; [|exists t'; split; [done|congruence]].
  rewrite winners_cons, Hw, app_nil_r.
  destruct (finalizes id op) eqn:Ef; [|done]. destruct (transaction_spec op w) as (-> & _).
  by rewrite (answer_where _ _ Hwf _ _ Hr Ef), Ht.
Qed.

Lemma other_op_active op now id t :
  t_id t = id -> active_row t = true -> finalizes id op = false ->
  active_row (if op_where op t then op_set op now t else t) = true.
Proof.
  unfold active_row. intros Hid Ha Hf. destruct (op_where op t) eqn:E; [|done].
  destruct op as [| | | | |tid st c d]; simpl in *; try done.
  to_prop. apply has_id_true in H0. rewrite H in Hf. exfalso.
  destruct (Z.eqb_spec tid id); [done|]. congruence.
Qed.

Lemma run_active ops w id t :
  world_wf w -> row id (turns w) = Some t -> active_row t = true ->
  winners id (run ops w).1 = List.firstn 1 (List.filter (finalizes id) ops) /\
  exists t', row id (turns (run ops w).2) = Some t' /\
    match List.filter (finalizes id) ops with
    | OpFinalize _ st c d :: _ =>
        t_status t' = st /\ t_error_code t' = c /\ t_error_detail t' = d
    | _ => active_row t' = true
    end.
Proof.
  revert w t. induction ops as [|op ops IH]; intros w t Hwf Hr Ht; [simpl; eauto|].
  rewrite run_cons. cbn [fst snd List.filter]. rewrite winners_cons.
  pose proof (transaction_row op w id t Hwf Hr) as Hr1.
  destruct (finalizes id op) eqn:Ef.
  - destruct (transaction_spec op w) as (-> & _ & _ & _).
    rewrite (answer_where _ _ Hwf _ _ Hr Ef), Ht.
    destruct op as [| | | | |tid st c d]; try done. simpl in Ef. to_prop. subst tid.
    assert (op_where (OpFinalize id st c d) t = true) as Hw.
    { apply row_in in Hr as [_ <-]. simpl. unfold has_id. by rewrite H0, Z.eqb_refl, Ht. }
    rewrite Hw in Hr1. simpl in Hr1.
    destruct (run_terminal ops _ id _ (transaction_wf _ _ Hwf) Hr1) as [-> (t' & Hr' & Ho)].
    { unfold active_row, is_active. simpl. by rewrite H0. }
    split; [done|]. exists t'. split; [done|]. unfold outcome in Ho. simpl in Ho.
    by injection Ho as -> -> -> _.
  - destruct (IH _ _ (transaction_wf op w Hwf) Hr1) as [-> H].
    { apply row_in in Hr as [_ Hid]. by eapply other_op_active. }
    by split.
Qed.

(* ------------------------------------------------------------------ *)
(** * Announcements *)

Definition activity (h : hook) : string * pubmsg :=
  (channel_for_user (h_user h), PubActivity (h_chat h) (h_turn h) (h_kind h)).

Lemma fire_pub h w :
  exists l, w_pub (fire h w).2 = (w_pub w ++ l)%list /\ sublist l [activity h] /\
    (w_faults w = [] -> l = [activity h] /\ w_faults (fire h w).2 = []).
Proof.
  unfold fire, publish_activity, except, redis_op.
  destruct (w_faults w) as [|[] fs] eqn:E; simpl; rewrite ?E.
  - exists [activity h]. done.
  - exists [activity h]. done.
  - exists []. rewrite app_nil_r. split; [done|]. split; [apply sublist_nil_l|done].
  - exists [activity h]. done.
Qed.

Lemma fire_all_pub hs w :
  exists l, w_pub (for_each hs fire w).2 = (w_pub w ++ l)%list /\ sublist l (map activity hs) /\
    (w_faults w = [] -> l = map activity hs).
Proof.
  revert w. induction hs as [|h hs IH]; intros w; [exists []; by rewrite app_nil_r|].
  simpl. unfold pbind. pose proof (publish_activity_ok (h_user h) (h_chat h) (h_turn h) (h_kind h) w) as Hok.
  destruct (fire_pub h w) as (l1 & Hp & Hs & Hf). unfold fire in *.
  destruct (publish_activity _ _ _ _ w) as [r w1]. simpl in *. subst r.
  destruct (IH w1) as (l2 & Hp2 & Hs2 & Hf2). exists (l1 ++ l2)%list.
  rewrite Hp2, Hp, app_assoc. split; [done|]. split.
  - change (activity h :: map activity hs) with ([activity h] ++ map activity hs)%list.
    by apply sublist_app.
  - intros H. destruct (Hf H) as [-> H1]. by rewrite Hf2.
Qed.

(* ------------------------------------------------------------------ *)
(** * Properties *)

(** C2: However the committed transactions of all processes interleave, the turn table
    stays well formed: identifiers and stream keys are unique, a row carries a completion
    time exactly when its status is terminal, and a chat never has two active turns. *)
Theorem interleaving_keeps_table (ops : list turn_op) (w : world) :
  world_wf w -> world_wf (run ops w).2.
Proof. apply run_wf. Qed.

(** C3: The table implements the abstract lifecycle: each transaction of the service, on
    every branch (a busy chat, a lost compare-and-set, a non-terminal status), answers
    and moves exactly as the specification does on the phases Starting, Running, Done. *)
Theorem lifecycle_refinement (op : turn_op) (w : world) :
  world_wf w ->
  spec op (abstract w) = ((transaction op w).1, abstract (transaction op w).2).
Proof.
  intros Hwf. unfold abstract. destruct (transaction_spec op w) as (-> & -> & _ & ->).
  fold (table_phases (turns w)) (table_phases (turns_after op (w_seq w) (w_now w) (turns w))).
  destruct op as [p| | | | |]; [by apply spec_create|..];
    rewrite (turns_after_seq _ (w_seq w)) by done; by apply spec_update.
Qed.

(** C1: Exactly once: in any interleaving started while the turn is active, the first
    caller of [finalize_once] with a terminal status, and only that one, is told it made
    the transition, and the row ends with that caller's status, code and detail. *)
Theorem finalize_exactly_once (ops : list turn_op) (w : world) (id : Z) (t : turn) :
  world_wf w -> row id (turns w) = Some t -> active_row t = true ->
  winners id (run ops w).1 = List.firstn 1 (List.filter (finalizes id) ops) /\
  exists t', row id (turns (run ops w).2) = Some t' /\
    match List.filter (finalizes id) ops with
    | OpFinalize _ st c d :: _ =>
        t_status t' = st /\ t_error_code t' = c /\ t_error_detail t' = d
    | _ => active_row t' = true
    end.
Proof. apply run_active. Qed.

(** A terminal turn never changes how it ended: no later interleaving wins a second
    finalisation, and its status, error code, detail and completion time are kept. *)
Theorem terminal_is_final (ops : list turn_op) (w : world) (id : Z) (t : turn) :
  world_wf w -> row id (turns w) = Some t -> active_row t = false ->
  winners id (run ops w).1 = [] /\
  exists t', row id (turns (run ops w).2) = Some t' /\ outcome t' = outcome t.
Proof. apply run_terminal. Qed.

(** No phantom activity: a transaction publishes only what the rows it committed
    announce (a start for an inserted turn, an end for a won finalisation, nothing when
    the fence or the compare-and-set refused), and with Redis up it publishes all of it. *)
Theorem activity_after_commit (op : turn_op) (w : world) :
  exists l, w_pub (transaction op w).2 = (w_pub w ++ l)%list /\
    sublist l (map activity (announces op (w_seq w) (turns w))) /\
    (w_faults w = [] -> l = map activity (announces op (w_seq w) (turns w))).
Proof.
  destruct (statement_spec op w) as (w1 & E & _ & Hh & _ & _ & Hv & _).
  unfold transaction, with_session, pbind. rewrite E.
  assert (w_pub w1 = w_pub w /\ w_faults w1 = w_faults w) as [Hp Hf].
  { unfold redisview in Hv. by injection Hv. }
  destruct (answer op _) as [b|e] eqn:Ea; simpl.
  - pose proof (commit_ok w1) as Hok. unfold commit, pbind in *. simpl in *.
    destruct (fire_all_pub (w_hooks w1) (set_hooks [] (set_db (w_tx w1) w1)))
      as (l & Hl & Hs & Hall). rewrite Hh in *.
    destruct (for_each _ fire _) as [r w2]. simpl in *. subst r. exists l.
    rewrite <- Hp. split; [done|]. split; [done|]. intros H. apply Hall. by rewrite Hf.
  - exists []. rewrite app_nil_r. split; [done|]. split; [apply sublist_nil_l|].
    destruct op as [| | | | |tid st c d]; try done. simpl in Ea |- *.
    destruct (is_terminal st) eqn:Est; [done|]. rewrite find_false; [done|].
    intros t. simpl. by rewrite Est.
Qed.

(* ------------------------------------------------------------------ *)
(** * Witnesses *)

Definition demo_create : TurnCreate :=
  {| tc_chat_id := 7; tc_user_id := 3; tc_user_message_id := 11; tc_sidecar := ADMIN |}.

(** Two processes race to create a turn; the loser finalises the winner's turn twice. *)
Definition demo_ops : list turn_op :=
  [OpCreate demo_create; OpCreate demo_create; OpMarkRunning 1 "th" "tu";
   OpFinalize 1 COMPLETED None None; OpFinalize 1 FAILED (Some "x") None; OpHeartbeat 1].

Lemma empty_world_wf : world_wf empty_world.
Proof. split; simpl; try done. apply NoDup_nil_2. Qed.

Lemma interleaving_keeps_table_witness :
  world_wf (run demo_ops empty_world).2 /\
  map snd (run demo_ops empty_world).1 =
  [Ok true; Ok false; Ok true; Ok true; Ok false; Ok false].
Proof.
  split; [apply (interleaving_keeps_table demo_ops empty_world), empty_world_wf|].
  vm_compute. reflexivity.
Defined.

Lemma lifecycle_refinement_witness :
  let w := (run [OpCreate demo_create] empty_world).2 in
  spec (OpMarkRunning 1 "th" "tu") (abstract w) =
    ((transaction (OpMarkRunning 1 "th" "tu") w).1,
     abstract (transaction (OpMarkRunning 1 "th" "tu") w).2).
Proof.
  apply lifecycle_refinement. apply (run_wf [OpCreate demo_create] empty_world empty_world_wf).
Defined.

Lemma finalize_exactly_once_witness :
  let w := (run [OpCreate demo_create] empty_world).2 in
  exists t, row 1 (turns w) = Some t /\ active_row t = true /\
  winners 1 (run [OpFinalize 1 FAILED None None; OpFinalize 1 COMPLETED None None] w).1 =
    [OpFinalize 1 FAILED None None].
Proof.
  eexists. split; [vm_compute; reflexivity|]. split; [reflexivity|].
  apply (finalize_exactly_once
    [OpFinalize 1 FAILED None None; OpFinalize 1 COMPLETED None None]
    (run [OpCreate demo_create] empty_world).2 1 (new_row 1 0 demo_create)).
  - apply (run_wf [OpCreate demo_create] empty_world empty_world_wf).
  - vm_compute. reflexivity.
  - reflexivity.
Defined.

Lemma terminal_is_final_witness :
  let w := (run [OpCreate demo_create; OpFinalize 1 CANCELLED None None] empty_world).2 in
  winners 1 (run demo_ops w).1 = [] /\
  exists t', row 1 (turns (run demo_ops w).2) = Some t' /\ t_status t' = CANCELLED.
Proof.
  destruct (terminal_is_final demo_ops
    (run [OpCreate demo_create; OpFinalize 1 CANCELLED None None] empty_world).2 1
    (finalized 0 CANCELLED None None (new_row 1 0 demo_create))) as [Hw (t' & Hr & Ho)].
  - apply (run_wf [_; _] empty_world empty_world_wf).
  - vm_compute. reflexivity.
  - reflexivity.
  - split; [exact Hw|]. exists t'. split; [exact Hr|].
    unfold outcome in Ho. simpl in Ho. congruence.
Defined.
