(* ===== verification/Locks.v ===== *)
(** Ownership of a Redis key: the interface that the turn locks
    ([services/turns/locks.py]), the turn leases and the leader lock
    ([services/turns/lease.py]) implement, its mutual exclusion theorem, and the turn
    locks themselves. *)
From S2P Require Import Prelude PyStr Json Models Events World.

Open Scope Z_scope.
Open Scope string_scope.

(* ------------------------------------------------------------------ *)
(** * Owned keys *)

Inductive own_cmd := CAcquire (v : string) | CRefresh (v : string) | CRelease (v : string).

(** What a command may do to the key [k], whatever the network does to its request or
    its reply, and when it may answer [true]. *)
Inductive own_effect (k : string) (ttl : Z) (w : world) :
    own_cmd -> option redis_entry -> bool -> Prop :=
| OE_none cmd : own_effect k ttl w cmd (w_redis w !! k) false
| OE_acquired v r : live w k = None ->
    own_effect k ttl w (CAcquire v) (Some (mk_entry (RStr v) (Some (w_now w + seconds ttl)))) r
| OE_refreshed v r : live w k = Some (RStr v) ->
    own_effect k ttl w (CRefresh v) (Some (mk_entry (RStr v) (Some (w_now w + seconds ttl)))) r
| OE_released v r : live w k = Some (RStr v) -> own_effect k ttl w (CRelease v) None r.

(** The promise of an ownership protocol over [k] to its clients. *)
Class OwnedKey (k : string) (ttl : Z) (run : own_cmd -> prog world exn bool) : Prop := {
  own_total : forall cmd w, exists r, (run cmd w).1 = Ok r /\
    own_effect k ttl w cmd (w_redis (run cmd w).2 !! k) r;
  own_clock : forall cmd w, w_now (run cmd w).2 = w_now w
}.

Section Exclusion.
Context (k : string) (ttl : Z) (run : own_cmd -> prog world exn bool) `{!OwnedKey k ttl run}.
Context (ttl_pos : 0 < ttl).

(** Until when each holder may believe it owns the key: the TTL after its last
    command that answered [true]; a holder that asks for the release stops believing. *)
Definition believes (cmd : own_cmd) (r : result exn bool) (now : Z) (b : gmap string Z) :
    gmap string Z :=
  match cmd, r with
  | CAcquire v, Ok true | CRefresh v, Ok true => <[v := now + seconds ttl]> b
  | CRelease v, _ => delete v b
  | _, _ => b
  end.

(** Steps of the system: any holder's command, or anything else that leaves this key
    alone while time passes. *)
Inductive own_step : world * gmap string Z -> world * gmap string Z -> Prop :=
| OwnCmd cmd w b :
    own_step (w, b) ((run cmd w).2, believes cmd (run cmd w).1 (w_now w) b)
| OwnOther w w' b :
    w_redis w' !! k = w_redis w !! k -> w_now w <= w_now w' -> own_step (w, b) (w', b).

Definition owner (s : world * gmap string Z) (v : string) : Prop :=
  exists t, s.2 !! v = Some t /\ w_now s.1 <= t.

(** A belief still current is backed by the key, for at least as long, and no belief
    reaches beyond a full TTL from now. *)
Definition backed (s : world * gmap string Z) : Prop :=
  forall v t, s.2 !! v = Some t ->
    t <= w_now s.1 + seconds ttl /\
    (w_now s.1 <= t ->
     exists t', w_redis s.1 !! k = Some (mk_entry (RStr v) (Some t')) /\ t <= t').

Lemma entry_live w v t : w_redis w !! k = Some (mk_entry v (Some t)) -> w_now w <= t ->
  live w k = Some v.
Proof. intros H Ht. unfold live. rewrite H. by rewrite (proj2 (Z.leb_le _ _) Ht). Qed.

Lemma backed_live w b v t :
  backed (w, b) -> b !! v = Some t -> w_now w <= t -> live w k = Some (RStr v).
Proof.
  intros Hb Hv Ht. destruct (Hb v t Hv) as [_ H]. destruct (H Ht) as (t' & He & Hle).
  apply (entry_live w _ t'); [done|]. simpl in *. lia.
Qed.

Lemma seconds_pos : 0 < seconds ttl.
Proof. unfold seconds. lia. Qed.

(** A belief after a command is new, or an old one that the command left. *)
Lemma believes_inv cmd r now b v t :
  believes cmd (Ok r) now b !! v = Some t ->
  (b !! v = Some t /\ cmd <> CRelease v) \/
  (r = true /\ t = now + seconds ttl /\ (cmd = CAcquire v \/ cmd = CRefresh v)).
Proof.
  destruct cmd as [v0|v0|v0]; simpl.
  - destruct r; [|by left]. destruct (decide (v0 = v)) as [->|Hne].
    + rewrite lookup_insert_eq. intros [= <-]. right. auto.
    + rewrite lookup_insert_ne by done. left. done.
  - destruct r; [|by left]. destruct (decide (v0 = v)) as [->|Hne].
    + rewrite lookup_insert_eq. intros [= <-]. right. auto.
    + rewrite lookup_insert_ne by done. left. done.
  - intros [Hne Hv]%lookup_delete_Some. left. split; [done|congruence].
Qed.

Lemma backed_cmd cmd w b :
  backed (w, b) -> backed ((run cmd w).2, believes cmd (run cmd w).1 (w_now w) b).
Proof.
  intros Hb v t. destruct (own_total cmd w) as (r & Hr & He).
  pose proof (own_clock cmd w) as Hn. pose proof seconds_pos as Hpos.
  destruct (run cmd w) as [res w']. simpl in *. subst res. rewrite Hn.
  intros Hv. apply believes_inv in Hv as [[Hv Hrel]|(-> & -> & Hcmd)].
  - destruct (Hb v t Hv) as [Hle Hk]. simpl in *. split; [done|]. intros Ht.
    pose proof (backed_live _ _ _ _ Hb Hv Ht) as Hl.
    inversion He as [|v0 ? Hl'|v0 ? Hl'|v0 ? Hl']; subst.
    + by apply Hk.
    + congruence.
    + assert (v0 = v) as -> by congruence. eexists. split; [reflexivity|done].
    + congruence.
  - split; [lia|]. intros _.
    inversion He; subst; destruct Hcmd; simplify_eq; eexists; (split; [reflexivity|lia]).
Qed.

Lemma backed_step s s' : own_step s s' -> backed s -> backed s'.
Proof.
  intros [cmd w b|w w' b Hk Hn] Hb; [by apply backed_cmd|].
  intros v t Hv. destruct (Hb v t Hv) as [Hle H]. simpl in *. rewrite Hk.
  split; [lia|]. intros Ht. apply H. lia.
Qed.

Lemma backed_steps s s' : rtc own_step s s' -> backed s -> backed s'.
Proof. induction 1; eauto using backed_step. Qed.

(** Mutual exclusion of the holders, from any state of the key. *)
Lemma owner_unique w0 s v v' :
  rtc own_step (w0, ∅) s -> owner s v -> owner s v' -> v = v'.
Proof.
  intros Hs (t & Hv & Ht) (t' & Hv' & Ht').
  assert (backed s) as Hb.
  { eapply backed_steps; [exact Hs|]. intros v0 t0. simpl. by rewrite lookup_empty. }
  destruct s as [w b]. simpl in *.
  pose proof (backed_live _ _ _ _ Hb Hv Ht). pose proof (backed_live _ _ _ _ Hb Hv' Ht').
  congruence.
Qed.
End Exclusion.

(* ------------------------------------------------------------------ *)
(** * Redis primitives of the interface *)

(** The three compare-and-set commands, with [RedisError] read as a refusal. *)
Definition own_redis (k : string) (ttl : Z) (cmd : own_cmd) : world -> bool * world :=
  match cmd with
  | CAcquire v => set_nx_ex k v ttl
  | CRefresh v => set_ifeq k v ttl
  | CRelease v => delex_ifeq k v
  end.
Definition own_run (k : string) (ttl : Z) (cmd : own_cmd) : prog world exn bool :=
  redis_default false (redis_op (own_redis k ttl cmd)).

(** A command under the fault script: not run, run and answered, or run unanswered. *)
Lemma redis_default_effect {A} (d : A) (f : world -> A * world) w :
  exists w0, sqlview w0 = sqlview w /\ w_redis w0 = w_redis w /\ w_leases w0 = w_leases w /\
    w_faults w0 = tl (w_faults w) /\ w_pub w0 = w_pub w /\ w_stream_seq w0 = w_stream_seq w /\
    (redis_default d (redis_op f) w = (Ok d, w0) \/
     redis_default d (redis_op f) w = (Ok (f w0).1, (f w0).2) \/
     redis_default d (redis_op f) w = (Ok d, (f w0).2)).
Proof.
  unfold redis_default, except, redis_op.
  destruct (w_faults w) as [|[] fs] eqn:E.
  - exists w. rewrite E. repeat split; try done. right; left. by destruct (f w).
  - exists (set_faults fs w). repeat split; try done. right; left. by destruct (f _).
  - exists (set_faults fs w). repeat split; try done. by left.
  - exists (set_faults fs w). repeat split; try done. right; right. done.
Qed.

Lemma live_ext w w' k : w_redis w' = w_redis w -> w_now w' = w_now w -> live w' k = live w k.
Proof. intros H1 H2. unfold live. by rewrite H1, H2. Qed.

Lemma own_redis_effect k ttl cmd w w0 r :
  w_redis w0 = w_redis w -> w_now w0 = w_now w ->
  ((own_redis k ttl cmd w0).1 = false -> r = false) ->
  own_effect k ttl w cmd (w_redis (own_redis k ttl cmd w0).2 !! k) r.
Proof.
  intros Hr Hn.
  destruct cmd as [v|v|v]; simpl; unfold set_nx_ex, set_ifeq, delex_ifeq, holds_str;
    rewrite (live_ext _ _ k Hr Hn), ?Hn;
    destruct (live w k) as [[v'|z|l|l|j0]|] eqn:El; try destruct (String.eqb_spec v v');
    intros Hb; simpl in *; subst; rewrite ?Hb by done;
    rewrite ?Hr, ?lookup_insert_eq, ?lookup_delete_eq; by constructor.
Qed.

Lemma own_redis_clock k ttl cmd w : w_now (own_redis k ttl cmd w).2 = w_now w.
Proof. destruct cmd; simpl; unfold set_nx_ex, set_ifeq, delex_ifeq; by repeat case_match. Qed.

#[export] Instance own_run_owned k ttl : OwnedKey k ttl (own_run k ttl).
Proof.
  split; intros cmd w; unfold own_run;
    destruct (redis_default_effect false (own_redis k ttl cmd) w)
      as (w0 & Hv & Hr & _ & _ & _ & _ & H);
    assert (w_now w0 = w_now w) as Hn by (unfold sqlview in Hv; congruence).
  - destruct H as [->|[->| ->]]; simpl.
    + exists false. split; [done|]. rewrite Hr. constructor.
    + eexists. split; [done|]. by apply own_redis_effect.
    + exists false. split; [done|]. by apply own_redis_effect.
  - destruct H as [->|[->| ->]]; simpl; by rewrite ?own_redis_clock.
Qed.

Lemma own_run_sqlview k ttl cmd : respects (same sqlview) (own_run k ttl cmd).
Proof.
  apply redis_default_sqlview, respects_redis_op; [intros w|done].
  destruct cmd; simpl; unfold set_nx_ex, set_ifeq, delex_ifeq; by repeat case_match.
Qed.
#[export] Hint Resolve own_run_sqlview : frame.

(* ------------------------------------------------------------------ *)
(** * Turn locks ([services/turns/locks.py]) *)

Definition LOCK_TTL_S : Z := 30.

Inductive LockAcquireOutcome := ACQUIRED | REDELIVERY | ACTIVE_BUSY.
#[export] Instance LockAcquireOutcome_eq : EqDecision LockAcquireOutcome.
Proof. solve_decision. Defined.

Definition LockAcquireOutcome_value (o : LockAcquireOutcome) : string :=
  match o with
  | ACQUIRED => "acquired" | REDELIVERY => "redelivery" | ACTIVE_BUSY => "active_busy"
  end.

Definition active_key (chat_id : Z) : string := "turn:active:" ++ str_of_Z chat_id.

Definition try_acquire_active (chat_id turn_id : Z) : prog world exn bool :=
  let payload := str_of_Z turn_id in
  redis_default false (redis_op (set_nx_ex (active_key chat_id) payload LOCK_TTL_S)).

(** The stored value as text; only [SET] of a turn identifier writes this key. *)
Definition active_lock_value (chat_id : Z) : prog world exn (option string) :=
  let! raw := redis_default None (redis_op (redis_get (active_key chat_id))) in
  pret (match raw with Some (RStr s) => Some s | Some (RInt z) => Some (str_of_Z z) | _ => None end).

Definition heartbeat_active (chat_id turn_id : Z) : prog world exn bool :=
  let payload := str_of_Z turn_id in
  redis_default false (redis_op (set_ifeq (active_key chat_id) payload LOCK_TTL_S)).

Definition release_active (chat_id turn_id : Z) : prog world exn bool :=
  let payload := str_of_Z turn_id in
  redis_default false (redis_op (delex_ifeq (active_key chat_id) payload)).

(** [async with hold_turn_locks(chat_id, turn_id) as outcome: body outcome]. *)
Definition hold_turn_locks {A} (chat_id turn_id : Z)
    (body : LockAcquireOutcome -> prog world exn A) : prog world exn A :=
  let! active_acquired := try_acquire_active chat_id turn_id in
  if negb active_acquired then
    let! holder := active_lock_value chat_id in
    if bool_decide (holder = Some (str_of_Z turn_id))
    then body REDELIVERY
    else body ACTIVE_BUSY
  else
    finally (release_active chat_id turn_id ;; pret tt) (body ACQUIRED).

(* ------------------------------------------------------------------ *)
(** * The turn lock as an owned key *)

Inductive lock_cmd := TryAcquire (turn_id : Z) | Heartbeat (turn_id : Z) | Release (turn_id : Z).

Definition lock_run (chat_id : Z) (cmd : lock_cmd) : prog world exn bool :=
  match cmd with
  | TryAcquire t => try_acquire_active chat_id t
  | Heartbeat t => heartbeat_active chat_id t
  | Release t => release_active chat_id t
  end.

Definition lock_own (cmd : lock_cmd) : own_cmd :=
  match cmd with
  | TryAcquire t => CAcquire (str_of_Z t)
  | Heartbeat t => CRefresh (str_of_Z t)
  | Release t => CRelease (str_of_Z t)
  end.

Lemma lock_run_own chat_id cmd :
  lock_run chat_id cmd = own_run (active_key chat_id) LOCK_TTL_S (lock_own cmd).
Proof. by destruct cmd. Qed.

(** Steps of the processes sharing the chat's lock; turns are named by their value. *)
Inductive lock_step (chat_id : Z) :
    world * gmap string Z -> world * gmap string Z -> Prop :=
| LockCmd cmd w b :
    lock_step chat_id (w, b)
      ((lock_run chat_id cmd w).2,
       believes LOCK_TTL_S (lock_own cmd) (lock_run chat_id cmd w).1 (w_now w) b)
| LockOther w w' b :
    w_redis w' !! active_key chat_id = w_redis w !! active_key chat_id ->
    w_now w <= w_now w' -> lock_step chat_id (w, b) (w', b).

Definition lock_owner (s : world * gmap string Z) (turn_id : Z) : Prop :=
  owner s (str_of_Z turn_id).

Lemma lock_steps_own chat_id s s' :
  rtc (lock_step chat_id) s s' ->
  rtc (own_step (active_key chat_id) LOCK_TTL_S (own_run (active_key chat_id) LOCK_TTL_S)) s s'.
Proof.
  induction 1 as [s|s1 s2 s3 Hs _ IH]; [done|]. eapply rtc_l; [|exact IH].
  destruct Hs as [cmd w b|w w' b Hk Hn]; [|by constructor].
  rewrite lock_run_own. apply OwnCmd.
Qed.

(** ** Without faults *)

Lemma set_nx_ex_spec k v ttl w :
  (set_nx_ex k v ttl w).1 = bool_decide (live w k = None).
Proof. unfold set_nx_ex. by destruct (live w k). Qed.

Lemma delex_live k v w : live (delex_ifeq k v w).2 k =
  if holds_str w k v then None else live w k.
Proof. unfold delex_ifeq. destruct (holds_str w k v); [apply live_del|done]. Qed.

Lemma redis_default_nofault {A} (d : A) (f : world -> A * world) w :
  w_faults w = [] -> redis_default d (redis_op f) w = (Ok (f w).1, (f w).2).
Proof. intros E. unfold redis_default, except, redis_op. rewrite E. by destruct (f w). Qed.

(** The outcome a run of the lock protocol sees from the value of the key. *)
Definition outcome_of (v : option redis_value) (turn_id : Z) : LockAcquireOutcome :=
  match v with
  | None => ACQUIRED
  | Some (RStr s) => if String.eqb s (str_of_Z turn_id) then REDELIVERY else ACTIVE_BUSY
  | Some (RInt z) => if Z.eqb z turn_id then REDELIVERY else ACTIVE_BUSY
  | Some _ => ACTIVE_BUSY
  end.

Lemma hold_turn_locks_spec {A} chat_id turn_id (body : LockAcquireOutcome -> prog world exn A) w :
  w_faults w = [] ->
  let k := active_key chat_id in
  let o := outcome_of (live w k) turn_id in
  hold_turn_locks chat_id turn_id body w =
  if bool_decide (o = ACQUIRED) then
    finally (release_active chat_id turn_id ;; pret tt) (body ACQUIRED)
      (put_key k (RStr (str_of_Z turn_id)) (Some (w_now w + seconds LOCK_TTL_S)) w)
  else body o w.
Proof.
  intros Hf k o. unfold hold_turn_locks, pbind at 1, try_acquire_active, active_lock_value.
  rewrite redis_default_nofault by done. fold k. unfold set_nx_ex.
  destruct (live w k) as [v|] eqn:El; cbn [fst snd negb].
  - unfold pbind. rewrite redis_default_nofault by done. unfold redis_get. fold k. rewrite El.
    cbn [fst snd pret]. unfold o.
    destruct v as [s|z|l|l|j0]; cbn [outcome_of].
    + destruct (String.eqb_spec s (str_of_Z turn_id)) as [->|Hne];
        [by rewrite bool_decide_eq_true_2|]. rewrite bool_decide_eq_false_2; [done|congruence].
    + destruct (Z.eqb_spec z turn_id) as [->|Hne]; [by rewrite bool_decide_eq_true_2|].
      rewrite bool_decide_eq_false_2; [done|]. intros [= H%str_of_Z_inj]. done.
    + done.
    + done.
    + done.
  - done.
Qed.

(* ------------------------------------------------------------------ *)
(** * Properties *)

(** C4: Mutual exclusion of turns in a chat: whatever requests and replies the network
    loses and whatever else runs, two turns never both hold the chat's active lock within
    the TTL of their last confirmed acquire or heartbeat. *)
Theorem active_lock_exclusive (chat_id : Z) (w0 : world) s (t t' : Z) :
  rtc (lock_step chat_id) (w0, ∅) s -> lock_owner s t -> lock_owner s t' -> t = t'.
Proof.
  intros Hs Ht Ht'. apply str_of_Z_inj.
  eapply (owner_unique (active_key chat_id) LOCK_TTL_S
            (own_run (active_key chat_id) LOCK_TTL_S)); [done|by apply lock_steps_own|done|done].
Qed.

(** The lock scope: with Redis up, the body runs as the owner exactly when the key is
    free, as a redelivery exactly when it holds this very turn, and as busy otherwise; an
    owner's body leaves the key released or no longer its own, even when it raises, and
    the outcome of the body is the outcome of the scope. *)
Theorem hold_turn_locks_outcome {A} (chat_id turn_id : Z)
    (body : LockAcquireOutcome -> prog world exn A) (w : world) :
  w_faults w = [] ->
  (forall o w1, w_faults w1 = [] -> w_faults (body o w1).2 = []) ->
  let k := active_key chat_id in
  let o := outcome_of (live w k) turn_id in
  let entered := if bool_decide (o = ACQUIRED)
                 then put_key k (RStr (str_of_Z turn_id)) (Some (w_now w + seconds LOCK_TTL_S)) w
                 else w in
  let w' := (hold_turn_locks chat_id turn_id body w).2 in
  (hold_turn_locks chat_id turn_id body w).1 = (body o entered).1 /\
  (o = ACQUIRED -> live w' k <> Some (RStr (str_of_Z turn_id))) /\
  (o <> ACQUIRED -> w' = (body o w).2).
Proof.
  intros Hf Hb k o entered w'. unfold w', entered. rewrite hold_turn_locks_spec by done.
  fold k. fold o.
  destruct (decide (o = ACQUIRED)) as [E|E].
  - rewrite !bool_decide_eq_true_2 by done. rewrite E. unfold finally, pbind.
    set (w1 := put_key _ _ _ _) in *.
    specialize (Hb ACQUIRED w1). destruct (body ACQUIRED w1) as [r w2]. simpl in *.
    unfold release_active. rewrite redis_default_nofault by by apply Hb.
    simpl. split; [done|]. split; [|done]. intros _ Hl. fold k in Hl.
    rewrite delex_live in Hl. destruct (holds_str w2 k _) eqn:Eh; [done|].
    apply holds_str_true in Hl. congruence.
  - rewrite !bool_decide_eq_false_2 by done. done.
Qed.

(* ------------------------------------------------------------------ *)
(** * Witnesses *)

(** Turn 5 takes the lock; turn 6 is refused; the key expires; turn 6 takes it. *)
Lemma active_lock_exclusive_witness :
  exists s, rtc (lock_step 7) (empty_world, ∅) s /\ lock_owner s 6 /\
    forall t, lock_owner s t -> t = 6.
Proof.
  set (s1 := ((lock_run 7 (TryAcquire 5) empty_world).2,
              believes LOCK_TTL_S (lock_own (TryAcquire 5))
                (lock_run 7 (TryAcquire 5) empty_world).1 0 ∅)).
  set (w2 := set_now 30001 s1.1).
  set (s3 := ((lock_run 7 (TryAcquire 6) w2).2,
              believes LOCK_TTL_S (lock_own (TryAcquire 6))
                (lock_run 7 (TryAcquire 6) w2).1 30001 s1.2)).
  assert (rtc (lock_step 7) (empty_world, ∅) s3) as Hs.
  { eapply rtc_l; [apply (LockCmd 7 (TryAcquire 5) empty_world ∅)|].
    eapply rtc_l; [apply (LockOther 7 s1.1 w2 s1.2); [done|vm_compute; done]|].
    eapply rtc_l; [apply (LockCmd 7 (TryAcquire 6) w2 s1.2)|]. apply rtc_refl. }
  assert (lock_owner s3 6) as H6.
  { exists 60001. split; [vm_compute; reflexivity|vm_compute; done]. }
  exists s3. split; [exact Hs|]. split; [exact H6|].
  intros t Ht. exact (active_lock_exclusive 7 empty_world s3 t 6 Hs Ht H6).
Defined.

Lemma hold_turn_locks_outcome_witness :
  let body := fun o => pret (W := world) (E := exn) (LockAcquireOutcome_value o) in
  (hold_turn_locks 7 5 body empty_world).1 = Ok "acquired" /\
  live (hold_turn_locks 7 5 body empty_world).2 (active_key 7) <> Some (RStr (str_of_Z 5)).
Proof.
  intros body.
  destruct (hold_turn_locks_outcome 7 5 body empty_world) as (H1 & H2 & _).
  - reflexivity.
  - intros o w1 H. exact H.
  - split; [exact H1|]. apply H2. reflexivity.
Defined.
