(* ===== verification/Lease.v ===== *)
(** Turn leases and the listener's leader lock ([services/turns/lease.py]), as owned keys
    in the sense of [Locks.OwnedKey], and the per-process registry of held leases. *)
From S2P Require Import Prelude PyStr Json Models Events World Locks.

Open Scope Z_scope.
Open Scope string_scope.

Definition LEASE_TTL_S : Z := 30.
Definition LEASE_KEY_PREFIX : string := "turn:lease:".

Definition lease_key (turn_id : Z) : string := LEASE_KEY_PREFIX ++ str_of_Z turn_id.

Definition turn_id_from_key (key : string) : option Z :=
  if negb (startswith key LEASE_KEY_PREFIX) then None
  else py_int (str_drop (String.length LEASE_KEY_PREFIX) key).

Definition same_lease (x y : Z * string) : bool := Z.eqb x.1 y.1 && String.eqb x.2 y.2.

(** [_ACTIVE_LEASES.add] and [.discard] on the process's set. *)
Definition leases_add (x : Z * string) (l : list (Z * string)) : list (Z * string) :=
  if existsb (same_lease x) l then l else (l ++ [x])%list.
Definition leases_discard (x : Z * string) (l : list (Z * string)) : list (Z * string) :=
  List.filter (fun y => negb (same_lease x y)) l.

Definition acquire (turn_id : Z) (holder : string) (ttl : Z) : prog world exn bool :=
  let! ok := redis_default false (redis_op (set_nx_ex (lease_key turn_id) holder ttl)) in
  when ok (modify (fun w => set_leases (leases_add (turn_id, holder) (w_leases w)) w)) ;;
  pret ok.

(** The refresh script: [EXPIRE] when the value is the holder's own. *)
Definition refresh (turn_id : Z) (holder : string) (ttl : Z) : prog world exn bool :=
  redis_default false (redis_op (expire_ifeq (lease_key turn_id) holder ttl)).

Definition release (turn_id : Z) (holder : string) : prog world exn bool :=
  modify (fun w => set_leases (leases_discard (turn_id, holder) (w_leases w)) w) ;;
  redis_default false (redis_op (delex_ifeq (lease_key turn_id) holder)).

(** The loop over the snapshot of the registry, in the order the set yields it: a lease
    whose script fails stays registered. *)
Fixpoint release_each (snapshot : list (Z * string)) (released : Z) : prog world exn Z :=
  match snapshot with
  | [] => pret released
  | (turn_id, holder) :: rest =>
      let! result := redis_default None
        (let! r := redis_op (delex_ifeq (lease_key turn_id) holder) in pret (Some r)) in
      match result with
      | None => release_each rest released
      | Some r =>
          modify (fun w => set_leases (leases_discard (turn_id, holder) (w_leases w)) w) ;;
          release_each rest (if r then released + 1 else released)
      end
  end.

Definition release_all_local : prog world exn Z :=
  let! snapshot := gets w_leases in
  release_each snapshot 0.

Definition exists_ (turn_id : Z) : prog world exn bool :=
  redis_default false (redis_op (redis_exists (lease_key turn_id))).

Definition LEADER_TTL_S : Z := 30.
Definition LEADER_KEY_PREFIX : string := "leader:".
Definition leader_key (name : string) : string := LEADER_KEY_PREFIX ++ name.

Definition acquire_leader (name holder : string) (ttl : Z) : prog world exn bool :=
  redis_default false (redis_op (set_nx_ex (leader_key name) holder ttl)).
Definition refresh_leader (name holder : string) (ttl : Z) : prog world exn bool :=
  redis_default false (redis_op (expire_ifeq (leader_key name) holder ttl)).
Definition release_leader (name holder : string) : prog world exn bool :=
  redis_default false (redis_op (delex_ifeq (leader_key name) holder)).

(* ------------------------------------------------------------------ *)
(** * Leases and leadership as owned keys *)

Definition lease_run (turn_id : Z) (ttl : Z) (cmd : own_cmd) : prog world exn bool :=
  match cmd with
  | CAcquire h => acquire turn_id h ttl
  | CRefresh h => refresh turn_id h ttl
  | CRelease h => release turn_id h
  end.

Definition leader_run (name : string) (ttl : Z) (cmd : own_cmd) : prog world exn bool :=
  match cmd with
  | CAcquire h => acquire_leader name h ttl
  | CRefresh h => refresh_leader name h ttl
  | CRelease h => release_leader name h
  end.

#[export] Instance leader_owned name ttl :
  OwnedKey (leader_key name) ttl (leader_run name ttl).
Proof.
  pose proof (own_run_owned (leader_key name) ttl) as [Ht Hc].
  split; intros cmd w; [specialize (Ht cmd w)|specialize (Hc cmd w)]; by destruct cmd.
Qed.

(** The registry is the process's own: it does not matter to Redis. *)
Lemma redis_op_leases {A} (f : world -> A * world) l w :
  (forall w, f (set_leases l w) = ((f w).1, set_leases l (f w).2)) ->
  forall d : A, redis_default d (redis_op f) (set_leases l w) =
  ((redis_default d (redis_op f) w).1, set_leases l (redis_default d (redis_op f) w).2).
Proof.
  intros Hf d. unfold redis_default, except, redis_op. simpl.
  destruct (w_faults w) as [|[] fs]; simpl.
  - rewrite Hf. by destruct (f w).
  - change (set_faults fs (set_leases l w)) with (set_leases l (set_faults fs w)).
    rewrite Hf. by destruct (f _).
  - done.
  - change (set_faults fs (set_leases l w)) with (set_leases l (set_faults fs w)).
    by rewrite Hf.
Qed.

Lemma delex_leases k v l w :
  delex_ifeq k v (set_leases l w) = ((delex_ifeq k v w).1, set_leases l (delex_ifeq k v w).2).
Proof. unfold delex_ifeq, holds_str, live. simpl. by repeat case_match. Qed.

#[export] Instance lease_owned turn_id ttl :
  OwnedKey (lease_key turn_id) ttl (lease_run turn_id ttl).
Proof.
  pose proof (own_run_owned (lease_key turn_id) ttl) as [Ht Hc].
  split; intros cmd w; specialize (Ht cmd w); specialize (Hc cmd w); destruct cmd as [h|h|h];
    try done; simpl in *; unfold own_run, own_redis in *.
  - unfold acquire, pbind in *. destruct (redis_default _ _ w) as [r w'].
    destruct Ht as (b & Hr & He). simpl in Hr, He. subst r. exists b. by destruct b.
  - unfold release, pbind, modify. rewrite redis_op_leases by (intros; apply delex_leases). done.
  - unfold acquire, pbind in *. destruct (redis_default _ _ w) as [[[]|] w']; done.
  - unfold release, pbind, modify. rewrite redis_op_leases by (intros; apply delex_leases). done.
Qed.

(* ------------------------------------------------------------------ *)
(** * Releasing everything at shutdown *)

(** The process holds the lease [x] in Redis. *)
Definition holds_lease (w : world) (x : Z * string) : bool :=
  holds_str w (lease_key x.1) x.2.

Lemma lease_key_inj t t' : lease_key t = lease_key t' -> t = t'.
Proof. unfold lease_key. intros H%append_inj_l. by apply str_of_Z_inj. Qed.

Lemma release_one_nofault x rest n w :
  w_faults w = [] ->
  let d := delex_ifeq (lease_key x.1) x.2 w in
  release_each (x :: rest) n w =
  release_each rest (if holds_lease w x then n + 1 else n)
    (set_leases (leases_discard x (w_leases d.2)) d.2).
Proof.
  intros Hf d. destruct x as [t h]. simpl release_each. unfold pbind at 1.
  unfold redis_default, except, pbind at 1, redis_op. rewrite Hf. fold d.
  change (delex_ifeq (lease_key t) h w) with d.
  assert (d.1 = holds_lease w (t, h)) as Hd.
  { unfold d, delex_ifeq, holds_lease. simpl. by destruct (holds_str _ _ _). }
  destruct d as [b w'] eqn:E. simpl in *. subst b. done.
Qed.

Lemma holds_lease_delex x y w :
  holds_lease (delex_ifeq (lease_key x.1) x.2 w).2 y =
  holds_lease w y && negb (same_lease x y).
Proof.
  unfold holds_lease at 1, holds_str at 1, delex_ifeq.
  destruct (holds_str w (lease_key x.1) x.2) eqn:E; simpl.
  - apply holds_str_true in E. unfold same_lease.
    destruct (Z.eqb_spec x.1 y.1) as [Hk|Hk]; simpl.
    + rewrite <- Hk, live_del. unfold holds_lease, holds_str. rewrite <- Hk, E.
      rewrite String.eqb_sym. by destruct (String.eqb x.2 y.2).
    + rewrite live_del_ne by (intros H%lease_key_inj; done).
      rewrite andb_true_r. done.
  - change (match live w (lease_key y.1) with Some (RStr v) => String.eqb y.2 v | _ => false end)
      with (holds_lease w y).
    unfold same_lease. destruct (Z.eqb_spec x.1 y.1) as [Hk|]; simpl; [|by rewrite andb_true_r].
    destruct (String.eqb_spec x.2 y.2) as [Hv|]; simpl; [|by rewrite andb_true_r].
    unfold holds_lease. rewrite <- Hk, <- Hv, E. done.
Qed.

Lemma holds_lease_leases l w y : holds_lease (set_leases l w) y = holds_lease w y.
Proof. done. Qed.

Lemma delex_frame k v w :
  w_leases (delex_ifeq k v w).2 = w_leases w /\ w_faults (delex_ifeq k v w).2 = w_faults w.
Proof. unfold delex_ifeq. by destruct (holds_str _ _ _). Qed.

(** The number of leases of the snapshot the process really holds. *)
Definition held (w : world) (l : list (Z * string)) : Z :=
  Z.of_nat (List.length (List.filter (holds_lease w) l)).

Lemma same_lease_true x y : same_lease x y = true <-> x = y.
Proof.
  destruct x, y. unfold same_lease. rewrite andb_true_iff, Z.eqb_eq, String.eqb_eq. simpl.
  split; [intros [-> ->]; done | intros [= -> ->]; done].
Qed.

Lemma release_each_nofault l n w :
  w_faults w = [] -> NoDup l ->
  exists w', release_each l n w = (Ok (n + held w l), w') /\
    (forall y, holds_lease w' y = holds_lease w y && negb (existsb (fun x => same_lease x y) l)) /\
    w_leases w' = List.filter (fun y => negb (existsb (fun x => same_lease x y) l)) (w_leases w).
Proof.
  revert n w. induction l as [|x l IH]; intros n w Hf Hnd.
  - exists w. unfold held. simpl. rewrite Z.add_0_r. split; [done|].
    split; [intros y; by rewrite andb_true_r|]. by induction (w_leases w); [done|]; simpl; congruence.
  - apply NoDup_cons in Hnd as [Hni Hnd]. rewrite release_one_nofault by done.
    destruct (delex_frame (lease_key x.1) x.2 w) as [Hl Hf'].
    set (d := delex_ifeq (lease_key x.1) x.2 w) in *.
    destruct (IH (if holds_lease w x then n + 1 else n)
                (set_leases (leases_discard x (w_leases d.2)) d.2)) as (w' & -> & Hh & Hw');
      [simpl; congruence|done|].
    assert (Hheld : held (set_leases (leases_discard x (w_leases d.2)) d.2) l = held w l).
    { unfold held. do 2 f_equal. apply List.filter_ext_in. intros y Hy.
      rewrite holds_lease_leases. unfold d. rewrite holds_lease_delex.
      destruct (same_lease x y) eqn:E; [|by rewrite andb_true_r].
      apply same_lease_true in E as <-. exfalso. apply Hni. by apply list_elem_of_In. }
    exists w'. rewrite Hheld. split; [|split].
    + unfold held. simpl. destruct (holds_lease w x); do 2 f_equal; simpl; lia.
    + intros y. rewrite Hh, holds_lease_leases. unfold d. rewrite holds_lease_delex. simpl.
      by rewrite negb_orb, andb_assoc.
    + rewrite Hw'. simpl. rewrite Hl. unfold leases_discard. clear.
      induction (w_leases w) as [|y ys IH]; [done|]. simpl.
      destruct (same_lease x y); simpl; [done|].
      destruct (existsb _ l); simpl; [done|]. by rewrite IH.
Qed.

(* ------------------------------------------------------------------ *)
(** * Properties *)

(** C5: A lease has one holder, and the cluster one listener: under lost requests,
    lost replies and expiry, two holders are never both within the TTL of their last
    confirmed command on a turn's lease, nor on a leader lock. *)
Theorem lease_and_leader_exclusive (ttl : Z) (w0 : world) s (h h' : string) :
  0 < ttl ->
  (exists turn_id, rtc (own_step (lease_key turn_id) ttl (lease_run turn_id ttl)) (w0, ∅) s) \/
  (exists name, rtc (own_step (leader_key name) ttl (leader_run name ttl)) (w0, ∅) s) ->
  owner s h -> owner s h' -> h = h'.
Proof.
  intros Ht [[t Hs]|[n Hs]]; [eapply (owner_unique (lease_key t))|eapply (owner_unique (leader_key n))];
    eauto with typeclass_instances.
Qed.

(** The expired-key listener recovers the turn of every lease key the runner writes,
    and takes no key outside the lease name space for a turn. *)
Theorem lease_key_roundtrip (turn_id : Z) :
  turn_id_from_key (lease_key turn_id) = Some turn_id /\
  (forall key, turn_id_from_key key = Some turn_id ->
     exists digits, key = LEASE_KEY_PREFIX ++ digits /\ py_int digits = Some turn_id).
Proof.
  split.
  - unfold turn_id_from_key, lease_key. rewrite startswith_app, str_drop_app. simpl.
    apply py_int_str_of_Z.
  - intros key. unfold turn_id_from_key.
    destruct (startswith key LEASE_KEY_PREFIX) eqn:E; [|done].
    apply startswith_iff in E as [r ->]. rewrite str_drop_app. simpl. eauto.
Qed.

(** Graceful shutdown: with Redis up, [release_all_local] frees every registered lease
    the process still holds, touches no other holder's lease, empties the registry, and
    returns how many it freed. *)
Theorem release_all_local_frees (w : world) :
  w_faults w = [] -> NoDup (w_leases w) ->
  exists w', release_all_local w = (Ok (held w (w_leases w)), w') /\ w_leases w' = [] /\
    forall x, holds_lease w' x = holds_lease w x && negb (existsb (same_lease x) (w_leases w)).
Proof.
  intros Hf Hnd. destruct (release_each_nofault (w_leases w) 0 w Hf Hnd) as (w' & E & Hh & Hl).
  exists w'. split; [exact E|]. split.
  - rewrite Hl. assert (forall l l', (forall y, In y l' -> In y l) ->
      List.filter (fun y => negb (existsb (fun x => same_lease x y) l)) l' = []) as H.
    { intros l l'. induction l' as [|y l' IH]; [done|]. intros Hin. simpl.
      rewrite (proj2 (existsb_exists _ l)); [apply IH; intros; apply Hin; by right|].
      exists y. split; [apply Hin; by left|by apply same_lease_true]. }
    by apply H.
  - intros x. rewrite Hh. do 2 f_equal. clear. induction (w_leases w) as [|y l IH]; [done|]. simpl.
    rewrite IH. f_equal. unfold same_lease. by rewrite Z.eqb_sym, String.eqb_sym.
Qed.

(* ------------------------------------------------------------------ *)
(** * Witnesses *)

Lemma lease_and_leader_exclusive_witness :
  exists s, owner s "a" /\ forall h, owner s h -> h = "a".
Proof.
  set (s := ((acquire 5 "a" 30 empty_world).2,
             believes 30 (CAcquire "a") (acquire 5 "a" 30 empty_world).1 0 ∅)).
  assert (owner s "a") as Ho.
  { exists 30000. split; [vm_compute; reflexivity|vm_compute; done]. }
  exists s. split; [exact Ho|]. intros h Hh.
  apply (lease_and_leader_exclusive 30 empty_world s h "a"); [lia| |exact Hh|exact Ho].
  left. exists 5. apply rtc_once.
  apply (OwnCmd (lease_key 5) 30 (lease_run 5 30) (CAcquire "a") empty_world ∅).
Defined.

Lemma release_all_local_frees_witness :
  let w := (acquire 6 "a" 30 (acquire 5 "a" 30 empty_world).2).2 in
  exists w', release_all_local w = (Ok 2, w') /\ w_leases w' = [].
Proof.
  intros w. destruct (release_all_local_frees w) as (w' & H & Hl & _).
  - reflexivity.
  - vm_compute. apply NoDup_cons. split; [|apply NoDup_singleton].
    intros Hin. apply list_elem_of_singleton in Hin. discriminate.
  - exists w'. split; [|exact Hl]. rewrite H. vm_compute. reflexivity.
Defined.
