(* ===== verification/Recovery.v ===== *)
(** Recovery of orphaned turns ([services/turns/recovery.py]): the startup sweep, the
    inline check, the handler of expired leases, and the listener loop with its leader
    lock and reconnect backoff. *)
From S2P Require Import Prelude PyStr Json Models Events World TurnStore Locks Lease.

Open Scope Z_scope.
Open Scope string_scope.

(** [timedelta(minutes=2)] on the millisecond clock. *)
Definition STALE_THRESHOLD : Z := seconds 120.
Definition LEADER_NAME : string := "lease-expired-listener".
Definition LEADER_REFRESH_INTERVAL_S : Z := 10.

Definition ORPHAN_DETAIL : string := "no heartbeat for >120.0s".

Definition finalize_orphan (turn : turn) : prog world exn unit :=
  finalize_once (t_id turn) FAILED (Some "orphan_heartbeat") (Some ORPHAN_DETAIL) ;;
  release_active (t_chat_id turn) (t_id turn) ;;
  pret tt.

Definition reconcile_stale_turns : prog world exn Z :=
  with_session (
    let! stale := find_stale_active STALE_THRESHOLD in
    for_each stale finalize_orphan ;;
    commit ;;
    pret (Z.of_nat (List.length stale))).

Definition reconcile_if_stale (turn : turn) : prog world exn bool :=
  let! now := now in
  let age := now - t_heartbeat_at turn in
  if Z.ltb age STALE_THRESHOLD then pret false
  else
    with_session (finalize_orphan turn ;; commit) ;;
    pret true.

Definition finalize_lease_expired (turn_id : Z) : prog world exn unit :=
  with_session (
    let! turn := get_by_id turn_id in
    match turn with
    | None => pret tt
    | Some turn =>
        if negb (is_active (t_status turn)) then pret tt
        else
          finalize_once (t_id turn) FAILED (Some "lease_expired")
            (Some "worker lease expired without release") ;;
          commit ;;
          release_active (t_chat_id turn) (t_id turn) ;;
          pret tt
    end).

(* ------------------------------------------------------------------ *)
(** * The listener *)

(** [msg.get("data")]: text, bytes (already decoded here), or another value such as the
    subscription count. *)
Inductive pubsub_data := DataText (s : string) | DataOther.
Record pubsub_msg := mk_pubsub_msg { pm_type : option string; pm_data : pubsub_data }.

(** What the consume loop meets: a message, with whether the stop event is set or the
    leadership task has ended by then; the end of the stream; or a broken connection. *)
Inductive listen_step :=
| LsMessage (stopping : bool) (m : pubsub_msg)
| LsBroken (e : exn).

Definition key_of_msg (m : pubsub_msg) : option Z :=
  if bool_decide (pm_type m = Some "message") then
    match pm_data m with DataText key => turn_id_from_key key | DataOther => None end
  else None.

Fixpoint consume_expired_events (msgs : list listen_step) : prog world exn unit :=
  match msgs with
  | [] => pret tt
  | LsBroken e :: _ => praise e
  | LsMessage stopping m :: rest =>
      if stopping then pret tt
      else
        match key_of_msg m with
        | None => consume_expired_events rest
        | Some turn_id =>
            except (fun e => if is_exception e then pret tt else praise e)
              (finalize_lease_expired turn_id) ;;
            consume_expired_events rest
        end
  end.

(** [_refresh_leadership]: for each refresh interval, whether stop was set during it. *)
Fixpoint refresh_leadership (stops : list bool) (holder : string) : prog world exn unit :=
  match stops with
  | [] => pret tt
  | true :: _ => pret tt
  | false :: rest =>
      modify (fun w => set_now (w_now w + seconds LEADER_REFRESH_INTERVAL_S) w) ;;
      let! kept := refresh_leader LEADER_NAME holder LEADER_TTL_S in
      if negb kept then pret tt else refresh_leadership rest holder
  end.

(** One turn of the listener's outer loop: whether stop is set when it starts, what the
    subscription delivers, and whether stop is set during the wait that follows. *)
Record round := mk_round { rd_stop : bool; rd_msgs : list listen_step; rd_stop_in_wait : bool }.

Definition next_backoff (backoff : Z) : Z := Z.min (backoff * 2) (seconds 30).

(** One consume under the leader lock: the next backoff and the delays so far, or [None]
    when stop was set after a broken connection. *)
Definition lead_round (r : round) (holder : string) (backoff : Z) (waits : list Z) :
    prog world exn (option (Z * list Z)) :=
  finally (release_leader LEADER_NAME holder ;; pret tt)
    (except (fun e => match e with
                      | RedisError | OSError _ =>
                          if rd_stop_in_wait r then pret None
                          else
                            modify (fun w => set_now (w_now w + backoff) w) ;;
                            pret (Some (next_backoff backoff, (waits ++ [backoff])%list))
                      | _ => praise e
                      end)
       (consume_expired_events (rd_msgs r) ;; pret (Some (seconds 1, waits)))).

(** The outer loop over the rounds; [waits] collects the backoff delays. *)
Fixpoint lease_expired_listener (rounds : list round) (holder : string) (backoff : Z)
    (waits : list Z) : prog world exn (list Z) :=
  match rounds with
  | [] => pret waits
  | r :: rest =>
      if rd_stop r then pret waits
      else
        let! leader := acquire_leader LEADER_NAME holder LEADER_TTL_S in
        if negb leader then
          if rd_stop_in_wait r then pret waits
          else
            modify (fun w => set_now (w_now w + seconds LEADER_REFRESH_INTERVAL_S) w) ;;
            lease_expired_listener rest holder backoff waits
        else
          let! next := lead_round r holder backoff waits in
          match next with
          | None => pret waits
          | Some (backoff', waits') => lease_expired_listener rest holder backoff' waits'
          end
  end.

(* ------------------------------------------------------------------ *)
(** * Lemmas *)

Definition orphaned (now : Z) : turn -> turn :=
  finalized now FAILED (Some "orphan_heartbeat") (Some ORPHAN_DETAIL).

(** The active rows among some identifiers. *)
Definition among (ids : list Z) (t : turn) : bool :=
  existsb (fun id => has_id id t) ids && active_row t.

Lemma release_active_sqlview c t : respects (same sqlview) (release_active c t).
Proof. apply (own_run_sqlview (active_key c) LOCK_TTL_S (CRelease (str_of_Z t))). Qed.
#[export] Hint Resolve release_active_sqlview : frame.

Lemma release_active_ok c t w : exists b, (release_active c t w).1 = Ok b.
Proof. apply redis_default_ok. Qed.

Lemma finalize_orphan_tx t w :
  (finalize_orphan t w).1 = Ok tt /\
  let w' := (finalize_orphan t w).2 in
  w_tx w' = set_turns (update_where (fun r => has_id (t_id t) r && active_row r)
              (orphaned (w_now w)) (db_turns (w_tx w))) (w_tx w) /\
  w_db w' = w_db w /\ w_seq w' = w_seq w /\ w_now w' = w_now w.
Proof.
  destruct (finalize_once_tx (t_id t) FAILED (Some "orphan_heartbeat") (Some ORPHAN_DETAIL) w)
    as (b & Hb & Htx & Hdb & Hs & Hn & _); [done|].
  unfold finalize_orphan, pbind. destruct (finalize_once _ _ _ _ w) as [r w1].
  simpl in *. subst r.
  pose proof (release_active_sqlview (t_chat_id t) (t_id t) w1) as Hv.
  destruct (release_active_ok (t_chat_id t) (t_id t) w1) as [b' Hb'].
  destruct (release_active _ _ w1) as [r2 w2]. simpl in *. subst r2.
  unfold same, sqlview in Hv. injection Hv as H1 H2 _ H3 H4. simpl.
  split; [done|]. rewrite H1, H2, H3, H4. done.
Qed.

(** Finalising one identifier, then others, is finalising them all. *)
Lemma update_among id ids f ts :
  (forall t, active_row (f t) = false) ->
  update_where (among ids) f (update_where (fun t => has_id id t && active_row t) f ts) =
  update_where (among (id :: ids)) f ts.
Proof.
  intros Hf. unfold update_where. rewrite map_map. apply map_ext. intros t.
  unfold among. cbn [existsb].
  destruct (has_id id t), (active_row t) eqn:E; cbn [andb orb];
    rewrite ?Hf, ?E, ?andb_false_r; done.
Qed.

Lemma finalize_orphans_tx l w :
  (for_each l finalize_orphan w).1 = Ok tt /\
  let w' := (for_each l finalize_orphan w).2 in
  w_tx w' = set_turns (update_where (among (map t_id l)) (orphaned (w_now w)) (db_turns (w_tx w)))
              (w_tx w) /\
  w_db w' = w_db w /\ w_seq w' = w_seq w /\ w_now w' = w_now w.
Proof.
  revert w. induction l as [|s l IH]; intros w.
  - simpl. rewrite update_where_false, set_turns_id by done. done.
  - simpl for_each. unfold pbind. destruct (finalize_orphan_tx s w) as (Hr & Htx & Hdb & Hs & Hn).
    destruct (finalize_orphan s w) as [r w1]. simpl in *. subst r.
    destruct (IH w1) as (Hr2 & Htx2 & Hdb2 & Hs2 & Hn2). split; [done|].
    rewrite Htx2, Hdb2, Hs2, Hn2, Htx, Hdb, Hs, Hn. split; [|done].
    unfold set_turns. cbn [db_turns db_messages db_events db_chats db_users db_invites db_settings map].
    f_equal. by apply update_among.
Qed.

(** The sweep finalises the stale rows, neither more nor fewer. *)
Lemma stale_orphans seq cutoff ts t :
  turns_wf seq ts -> In t ts ->
  among (map t_id (List.filter (stale_row cutoff) ts)) t = stale_row cutoff t.
Proof.
  intros Hwf Hin. unfold among. apply eq_true_iff_eq. rewrite andb_true_iff, existsb_exists.
  split.
  - intros [(id & Hs & Hid) Ha]. apply in_map_iff in Hs as (s & <- & Hs).
    apply filter_In in Hs as [Hs Hst]. apply has_id_true in Hid. enough (s = t) by congruence.
    pose proof (wf_row _ _ _ Hwf Hs) as H1. pose proof (wf_row _ _ _ Hwf Hin) as H2. congruence.
  - intros Hst. split; [|unfold stale_row in Hst; by to_prop].
    exists (t_id t). split; [by apply in_map, filter_In|]. by apply has_id_true.
Qed.

Lemma sweep_turns seq cutoff now ts :
  turns_wf seq ts ->
  update_where (among (map t_id (List.filter (stale_row cutoff) ts))) (orphaned now) ts =
  update_where (stale_row cutoff) (orphaned now) ts.
Proof.
  intros Hwf. unfold update_where. apply map_ext_in. intros t Hin.
  by rewrite (stale_orphans _ _ _ _ Hwf Hin).
Qed.

Lemma reconcile_spec w :
  world_wf w ->
  let stale := stale_row (w_now w - STALE_THRESHOLD) in
  (reconcile_stale_turns w).1 = Ok (Z.of_nat (rowcount stale (turns w))) /\
  turns (reconcile_stale_turns w).2 = update_where stale (orphaned (w_now w)) (turns w) /\
  w_now (reconcile_stale_turns w).2 = w_now w /\
  w_seq (reconcile_stale_turns w).2 = w_seq w.
Proof.
  intros Hwf stale. unfold reconcile_stale_turns, with_session, pbind at 1.
  cbn [find_stale_active pbind now gets sql w_now set_hooks set_tx w_tx fst snd].
  fold (turns w). fold stale.
  set (w0 := set_hooks [] (set_tx (w_db w) w)).
  set (l := List.filter stale (turns w)).
  destruct (finalize_orphans_tx l w0) as (Hr & Htx & _ & Hs & Hn).
  unfold pbind. destruct (for_each l finalize_orphan w0) as [r w1]. simpl in *. subst r.
  pose proof (commit_ok w1) as Hc. pose proof (commit_sqlview w1) as Hv.
  destruct (commit w1) as [rc w2]. simpl in *. subst rc.
  unfold sqlview in Hv. injection Hv as H1 _ _ H2 H3. unfold turns at 2. simpl.
  rewrite H1, H2, H3, Htx, Hs, Hn. simpl. fold (turns w).
  split; [done|]. split; [|done].
  unfold l, stale. by erewrite sweep_turns.
Qed.

(** Finalising rows keeps the table well formed. *)
Lemma finalize_wf seq now st c d p ts :
  is_terminal st = true -> turns_wf seq ts ->
  turns_wf seq (update_where (fun t => p t && active_row t) (finalized now st c d) ts).
Proof.
  intros Hst [Hnd Hs Hk Hd H1].
  assert (Ha : forall t, active_row (finalized now st c d t) = false).
  { intros t. unfold active_row, is_active. simpl. by rewrite Hst. }
  split.
  - by rewrite map_update_where.
  - intros t' (t & Hin & ->)%in_update_where. case_match; simpl; auto.
  - intros t' (t & Hin & ->)%in_update_where. case_match; simpl; auto.
  - intros t' (t & Hin & ->)%in_update_where. case_match; simpl; auto.
  - intros t1 t2 (a & Hin & ->)%in_update_where (b & Hin' & ->)%in_update_where.
    destruct (p a && active_row a), (p b && active_row b); rewrite ?Ha; try done. apply H1; done.
Qed.

Definition lease_lost (now : Z) : turn -> turn :=
  finalized now FAILED (Some "lease_expired") (Some "worker lease expired without release").

Lemma finalize_lease_expired_spec id w :
  world_wf w ->
  (finalize_lease_expired id w).1 = Ok tt /\
  turns (finalize_lease_expired id w).2 =
    update_where (fun t => has_id id t && active_row t) (lease_lost (w_now w)) (turns w) /\
  w_now (finalize_lease_expired id w).2 = w_now w /\
  w_seq (finalize_lease_expired id w).2 = w_seq w.
Proof.
  intros Hwf. destruct (finalize_lease_expired id w) as [r0 w0] eqn:E0. cbn [fst snd].
  revert E0. unfold finalize_lease_expired, with_session, pbind at 1.
  cbn [get_by_id sql gets set_hooks set_tx w_tx fst snd]. fold (turns w).
  change (List.find (has_id id) (turns w)) with (row id (turns w)).
  pose proof (where_row _ (OpFinalize id FAILED None None) _ Hwf) as Hw. simpl in Hw.
  destruct (row id (turns w)) as [t|] eqn:Er.
  - pose proof (row_in _ _ _ Er) as [Hin Hid]. change (is_active (t_status t)) with (active_row t).
    destruct (active_row t) eqn:Ea; cbn [negb].
    + destruct (finalize_once_tx (t_id t) FAILED (Some "lease_expired")
        (Some "worker lease expired without release") (set_hooks [] (set_tx (w_db w) w)))
        as (b & Hb & Htx & _ & Hs & Hn & _); [done|].
      unfold pbind at 1. destruct (finalize_once _ _ _ _ _) as [r w1]. simpl in *. subst r.
      pose proof (commit_ok w1) as Hc. pose proof (commit_sqlview w1) as Hv.
      unfold pbind at 1. destruct (commit w1) as [rc w2]. simpl in *. subst rc.
      unfold pbind. pose proof (release_active_sqlview (t_chat_id t) (t_id t) w2) as Hv2.
      destruct (release_active_ok (t_chat_id t) (t_id t) w2) as [b' Hb'].
      destruct (release_active _ _ w2) as [r2 w3]. simpl in *. subst r2.
      unfold same, sqlview in *. injection Hv as H1 _ _ H2 H3. injection Hv2 as H4 _ _ H5 H6.
      intros [= <- <-]. split; [done|]. unfold turns at 1. simpl.
      rewrite H4, H5, H6, H1, H2, H3, Htx, Hs, Hn. simpl. subst id. done.
    + intros [= <- <-]. rewrite update_where_none; [done|]. apply rowcount_zero_iff. intros t' Hin'.
      apply not_true_iff_false. intros H. to_prop. apply has_id_true in H.
      assert (row id (turns w) = Some t') by (by apply (wf_row_iff _ _ _ _ Hwf)). congruence.
  - intros [= <- <-]. rewrite update_where_none; [done|].
    apply rowcount_zero_iff. intros t' Hin'.
    apply not_true_iff_false. intros H. to_prop. apply has_id_true in H.
    assert (row id (turns w) = Some t') by (by apply (wf_row_iff _ _ _ _ Hwf)). congruence.
Qed.

(** The turns whose expired lease the consume loop gets to handle. *)
Fixpoint handled (msgs : list listen_step) : list Z :=
  match msgs with
  | LsMessage false m :: rest =>
      match key_of_msg m with Some id => id :: handled rest | None => handled rest end
  | _ => []
  end.

Lemma consume_spec msgs w :
  world_wf w ->
  let w' := (consume_expired_events msgs w).2 in
  turns w' = update_where (among (handled msgs)) (lease_lost (w_now w)) (turns w) /\
  w_now w' = w_now w /\ w_seq w' = w_seq w.
Proof.
  revert w. induction msgs as [|[stopping m|e] msgs IH]; intros w Hwf.
  - simpl. by rewrite update_where_false.
  - simpl. destruct stopping; [simpl; by rewrite update_where_false|].
    destruct (key_of_msg m) as [id|] eqn:Ek; [|by apply IH].
    destruct (finalize_lease_expired_spec id w Hwf) as (Hr & Ht & Hn & Hs).
    unfold pbind, except. destruct (finalize_lease_expired id w) as [r w1]. simpl in *. subst r.
    destruct (IH w1) as (Ht2 & Hn2 & Hs2).
    { unfold world_wf. rewrite Ht, Hs. by apply finalize_wf. }
    rewrite Ht2, Hn2, Hs2, Ht, Hn, Hs. split; [|done]. by apply update_among.
  - simpl. by rewrite update_where_false.
Qed.

Definition delay_ok (d : Z) : Prop := seconds 1 <= d <= seconds 30.

Lemma lead_round_delays r holder backoff waits w backoff' waits' :
  (lead_round r holder backoff waits w).1 = Ok (Some (backoff', waits')) ->
  delay_ok backoff -> Forall delay_ok waits -> delay_ok backoff' /\ Forall delay_ok waits'.
Proof.
  intros H Hb Hw. unfold lead_round, finally, except, pbind, pret, praise, modify in H.
  assert (delay_ok (next_backoff backoff) /\ Forall delay_ok (waits ++ [backoff])%list).
  { unfold delay_ok, next_backoff, seconds in *. split; [lia|].
    apply Forall_app. split; [done|]. by apply Forall_singleton. }
  assert (delay_ok (seconds 1)) by (unfold delay_ok, seconds; lia).
  repeat case_match; simpl in *; simplify_eq; done.
Qed.

(** Every delay of the reconnect loop is between one and thirty seconds. *)
Lemma backoff_bounds rounds holder backoff waits w ws :
  delay_ok backoff -> Forall delay_ok waits ->
  (lease_expired_listener rounds holder backoff waits w).1 = Ok ws -> Forall delay_ok ws.
Proof.
  revert backoff waits w. induction rounds as [|r rounds IH]; intros backoff waits w Hb Hw.
  - by intros [= <-].
  - simpl. destruct (rd_stop r); [by intros [= <-]|].
    unfold pbind at 1. destruct (acquire_leader _ _ _ w) as [[[]|e] w1]; cbn [negb]; [|..|done].
    + unfold pbind. pose proof (lead_round_delays r holder backoff waits w1) as Hd.
      destruct (lead_round r holder backoff waits w1) as [[[[b' ws']|]|e] w2];
        [|by intros [= <-]|done].
      simpl in Hd. destruct (Hd _ _ eq_refl Hb Hw). by apply IH.
    + destruct (rd_stop_in_wait r); [by intros [= <-]|]. by apply IH.
Qed.

(* ------------------------------------------------------------------ *)
(** * Properties *)

(** The startup sweep finalises as FAILED exactly the active turns whose heartbeat is
    older than two minutes, leaves every other row alone, returns how many it found, and
    a second sweep at the same time finds none. *)
Theorem reconcile_exactly_stale (w : world) :
  world_wf w ->
  let stale := stale_row (w_now w - STALE_THRESHOLD) in
  let w' := (reconcile_stale_turns w).2 in
  (reconcile_stale_turns w).1 = Ok (Z.of_nat (rowcount stale (turns w))) /\
  turns w' = update_where stale (orphaned (w_now w)) (turns w) /\
  (reconcile_stale_turns w').1 = Ok 0.
Proof.
  intros Hwf stale w'. destruct (reconcile_spec w Hwf) as (Hr & Ht & Hn & Hs).
  split; [done|]. split; [done|].
  assert (world_wf w') as Hwf'.
  { unfold world_wf, w'. rewrite Ht, Hs. fold stale.
    assert (update_where stale (orphaned (w_now w)) (turns w) =
      update_where (fun t => Z.ltb (t_heartbeat_at t) (w_now w - STALE_THRESHOLD) && active_row t)
        (orphaned (w_now w)) (turns w)) as ->.
    { apply map_ext. intros t. unfold stale, stale_row. by rewrite andb_comm. }
    by apply finalize_wf. }
  destruct (reconcile_spec w' Hwf') as (Hr' & _). rewrite Hr'. do 2 f_equal.
  rewrite (proj2 (rowcount_zero_iff _ _)); [done|].
  unfold w' in *. rewrite Hn, Ht. fold stale. intros t (t0 & _ & ->)%in_update_where.
  destruct (stale t0) eqn:E; [done|exact E].
Qed.

(** C6: The listener turns expired leases into failed turns: whatever messages arrive, the
    active turns whose lease key is among the handled ones end FAILED with
    [lease_expired], and no other row changes. *)
Theorem expired_leases_fail_turns (msgs : list listen_step) (w : world) :
  world_wf w ->
  turns (consume_expired_events msgs w).2 =
  update_where (among (handled msgs)) (lease_lost (w_now w)) (turns w).
Proof. intros Hwf. apply (consume_spec msgs w Hwf). Qed.

(* ------------------------------------------------------------------ *)
(** * Witnesses *)

(** A turn created at 0, with a lock, swept at two minutes and a millisecond. *)
Definition stale_world : world :=
  set_now 120001 (try_acquire_active 7 1 (run [OpCreate demo_create] empty_world).2).2.

Lemma stale_world_wf : world_wf stale_world.
Proof. apply (run_wf [OpCreate demo_create] empty_world empty_world_wf). Qed.

Lemma reconcile_exactly_stale_witness :
  (reconcile_stale_turns stale_world).1 = Ok 1 /\
  map t_status (turns (reconcile_stale_turns stale_world).2) = [FAILED] /\
  (reconcile_stale_turns (reconcile_stale_turns stale_world).2).1 = Ok 0.
Proof.
  destruct (reconcile_exactly_stale stale_world stale_world_wf) as (H1 & H2 & H3).
  split; [rewrite H1; vm_compute; reflexivity|]. split; [|exact H3].
  rewrite H2. vm_compute. reflexivity.
Defined.

Lemma expired_leases_fail_turns_witness :
  map t_status (turns (consume_expired_events
    [LsMessage false (mk_pubsub_msg (Some "subscribe") DataOther);
     LsMessage false (mk_pubsub_msg (Some "message") (DataText "leader:x"));
     LsMessage false (mk_pubsub_msg (Some "message") (DataText "turn:lease:1"))]
    stale_world).2) = [FAILED].
Proof.
  rewrite (expired_leases_fail_turns _ stale_world stale_world_wf). vm_compute. reflexivity.
Defined.
