(* ===== verification/RateLimit.v ===== *)
(** Admin-managed limits ([services/runtime_settings/service.py], [schemas.py]) and the
    per-user turn limiter ([services/rate_limit/service.py]): its Lua reservation, its
    release, and the bounds they keep. Sorted-set scores are in the clock's unit. *)
From S2P Require Import Prelude PyStr Json Models Events World.

Open Scope Z_scope.
Open Scope string_scope.

(* ------------------------------------------------------------------ *)
(** * Settings *)

Inductive UserKind := KIND_ADMIN | WEB_USER | TG_GUEST.
#[export] Instance UserKind_eq : EqDecision UserKind. Proof. solve_decision. Defined.

Definition UserKind_value (k : UserKind) : string :=
  match k with KIND_ADMIN => "admin" | WEB_USER => "web_user" | TG_GUEST => "tg_guest" end.

Definition user_kind (u : user) : UserKind :=
  if bool_decide (u_role u = Role_ADMIN) then KIND_ADMIN
  else if truthy_opt (u_email u) then WEB_USER
  else TG_GUEST.

Definition UNLIMITED : TurnLimits := mk_limits 0 0.

(** The DTO's declared defaults. *)
Definition default_settings : RuntimeSettings :=
  mk_settings (mk_limits 2 0) (mk_limits 3 0) TG_BOT_API_DOWNLOAD_LIMIT_MB.

(** The field constraints [ge=0] and [le=20]. *)
Definition settings_valid (s : RuntimeSettings) : bool :=
  Z.leb 0 (tl_active (rs_web_user s)) && Z.leb 0 (tl_hourly (rs_web_user s)) &&
  Z.leb 0 (tl_active (rs_tg_guest s)) && Z.leb 0 (tl_hourly (rs_tg_guest s)) &&
  Z.leb 0 (rs_max_upload_mb s) && Z.leb (rs_max_upload_mb s) TG_BOT_API_DOWNLOAD_LIMIT_MB.

Definition from_row (row : RuntimeSetting) : result exn RuntimeSettings :=
  let s := mk_settings (mk_limits (web_user_active row) (web_user_hourly row))
             (mk_limits (tg_guest_active row) (tg_guest_hourly row)) (row_max_upload_mb row) in
  if settings_valid s then Ok s else Raise (OtherException "ValidationError" "").

Definition apply_to (s : RuntimeSettings) : RuntimeSetting :=
  mk_runtime_setting (tl_active (rs_web_user s)) (tl_hourly (rs_web_user s))
    (tl_active (rs_tg_guest s)) (tl_hourly (rs_tg_guest s)) (rs_max_upload_mb s).

Definition turn_limits (s : RuntimeSettings) (kind : UserKind) : TurnLimits :=
  match kind with
  | KIND_ADMIN => UNLIMITED
  | WEB_USER => rs_web_user s
  | TG_GUEST => rs_tg_guest s
  end.

Definition max_upload_bytes (s : RuntimeSettings) (kind : UserKind) : option Z :=
  if negb (bool_decide (kind = TG_GUEST)) || Z.eqb (rs_max_upload_mb s) 0 then None
  else Some (rs_max_upload_mb s * (1024 * 1024)).

Definition SETTINGS_TTL : Z := seconds 10.

Definition settings_load : prog world exn RuntimeSettings :=
  let! row := sql db_settings in
  match row with
  | Some row => lift_result (from_row row)
  | None => pret default_settings
  end.

Definition settings_remember (value : RuntimeSettings) : prog world exn unit :=
  modify (fun w => set_settings_cache (Some (value, w_now w + SETTINGS_TTL)) w).

Definition settings_get : prog world exn RuntimeSettings :=
  let! now := now in
  let! cached := gets w_settings_cache in
  match cached with
  | Some (value, expires_at) =>
      if Z.ltb now expires_at then pret value
      else
        let! current := with_session settings_load in
        settings_remember current ;;
        pret current
  | None =>
      let! current := with_session settings_load in
      settings_remember current ;;
      pret current
  end.

Definition settings_save (data : RuntimeSettings) : prog world exn RuntimeSettings :=
  sql_write (set_settings (Some (apply_to data))) ;;
  pret data.

Definition settings_invalidate : prog world exn unit := modify (set_settings_cache None).

(* ------------------------------------------------------------------ *)
(** * The limiter *)

Definition ACTIVE_PREFIX : string := "ratelimit:active:".
Definition HOURLY_PREFIX : string := "ratelimit:hourly:".
Definition ACTIVE_TTL_S : Z := 600.
Definition HOURLY_WINDOW_S : Z := 3600.

(** [ZREMRANGEBYSCORE k 0 hi]; an emptied set is removed. *)
Definition zset_trim (k : string) (hi : Z) (w : world) : world :=
  match live w k with
  | Some (RZSet l) =>
      match List.filter (fun e => negb (Z.leb 0 e.1 && Z.leb e.1 hi)) l with
      | [] => del_key k w
      | l' => put_key k (RZSet l') (live_expiry w k) w
      end
  | _ => w
  end.

Definition zset_entries (w : world) (k : string) : list (Z * string) :=
  match live w k with Some (RZSet l) => l | _ => [] end.
Definition zset_card (w : world) (k : string) : Z := Z.of_nat (List.length (zset_entries w k)).

(** [ZADD k score member]: a member already present gets the new score. *)
Definition zset_add (k : string) (score : Z) (member : string) (w : world) : world :=
  let l := List.filter (fun e => negb (String.eqb e.2 member)) (zset_entries w k) in
  put_key k (RZSet (l ++ [(score, member)])%list) (live_expiry w k) w.

Inductive reserve_status := RsOk | RsHourly | RsActive.

(** The reservation script, atomic in Redis. *)
Definition reserve_lua (hourly_key active_key : string) (now cutoff hourly_limit active_limit
    active_ttl hourly_ttl : Z) (w : world) : (reserve_status * Z) * world :=
  let w1 := if Z.ltb 0 hourly_limit then zset_trim hourly_key cutoff w else w in
  let hourly_count := zset_card w1 hourly_key in
  if Z.ltb 0 hourly_limit && Z.leb hourly_limit hourly_count then ((RsHourly, hourly_count), w1)
  else
    let '(active, w2) := redis_incrby active_key 1 w1 in
    let w3 := if Z.eqb active 1 then (redis_expire active_key active_ttl w2).2 else w2 in
    if Z.ltb 0 active_limit && Z.ltb active_limit active then
      let '(_, w4) := redis_incrby active_key (-1) w3 in ((RsActive, active - 1), w4)
    else
      let w5 := if Z.ltb 0 hourly_limit
                then (redis_expire hourly_key hourly_ttl
                        (zset_add hourly_key now (str_of_Z now) w3)).2
                else w3 in
      ((RsOk, 0), w5).

(** [RateLimited(kind, scope, limit)]. *)
Definition RateLimited (kind : UserKind) (scope : string) (limit : Z) : exn :=
  OtherException "RateLimited"
    (scope ++ " limit reached: " ++ str_of_Z limit ++ " (user-kind=" ++ UserKind_value kind ++ ")").

Definition active_key_of (u : user) : string := ACTIVE_PREFIX ++ str_of_Z (u_id u).
Definition hourly_key_of (u : user) : string := HOURLY_PREFIX ++ str_of_Z (u_id u).

Definition reserve_turn (u : user) : prog world exn unit :=
  let kind := user_kind u in
  if bool_decide (kind = KIND_ADMIN) then pret tt
  else
    let! settings := settings_get in
    let limits := turn_limits settings kind in
    let! now := now in
    let! result := redis_op (reserve_lua (hourly_key_of u) (active_key_of u) now
      (now - seconds HOURLY_WINDOW_S) (tl_hourly limits) (tl_active limits)
      ACTIVE_TTL_S (HOURLY_WINDOW_S * 2)) in
    match result.1 with
    | RsHourly => praise (RateLimited kind "hourly" (tl_hourly limits))
    | RsActive => praise (RateLimited kind "active" (tl_active limits))
    | RsOk => pret tt
    end.

Definition release_turn (u : user) : prog world exn unit :=
  if bool_decide (user_kind u = KIND_ADMIN) then pret tt
  else
    let key := active_key_of u in
    let! remaining := redis_op (redis_incrby key (-1)) in
    when (Z.leb remaining 0) (redis_op (redis_del key)).

(* ------------------------------------------------------------------ *)
(** * Lemmas *)

Definition counter (w : world) (k : string) : Z :=
  match live w k with Some (RInt n) => n | _ => 0 end.

Lemma keys_differ u u' : hourly_key_of u <> active_key_of u'.
Proof. done. Qed.

Lemma live_incrby k d w :
  live (redis_incrby k d w).2 k = Some (RInt (counter w k + d)) /\
  (redis_incrby k d w).1 = counter w k + d.
Proof.
  split; [|done]. unfold redis_incrby. cbn [snd]. rewrite live_put. fold (counter w k).
  unfold live_expiry. destruct (live w k) eqn:El; [|done].
  destruct (w_redis w !! k) as [[v' [t|]]|] eqn:E; try done.
  unfold live in El. rewrite E in El. cbn [r_expires_at]. by destruct (Z.leb (w_now w) t).
Qed.

Lemma live_expire_ne k k' ttl w : k <> k' -> live (redis_expire k ttl w).2 k' = live w k'.
Proof. intros H. unfold redis_expire. destruct (live w k); [by apply live_put_ne|done]. Qed.

Lemma live_expire k ttl w : 0 <= ttl -> live (redis_expire k ttl w).2 k = live w k.
Proof.
  intros H. unfold redis_expire. destruct (live w k) eqn:E; [|done]. simpl.
  rewrite live_put. rewrite (proj2 (Z.leb_le _ _)); [done|]. unfold seconds. lia.
Qed.

Lemma live_incrby_ne k k' d w : k <> k' -> live (redis_incrby k d w).2 k' = live w k'.
Proof. intros H. unfold redis_incrby. simpl. by apply live_put_ne. Qed.

Lemma live_trim_ne k k' hi w : k <> k' -> live (zset_trim k hi w) k' = live w k'.
Proof.
  intros H. unfold zset_trim. destruct (live w k) as [[]|]; try done.
  destruct (List.filter _ l); [by apply live_del_ne|by apply live_put_ne].
Qed.

Lemma zset_trim_entries k hi w :
  zset_entries (zset_trim k hi w) k =
  List.filter (fun e => negb (Z.leb 0 e.1 && Z.leb e.1 hi)) (zset_entries w k).
Proof.
  unfold zset_entries at 1, zset_trim. unfold zset_entries.
  destruct (live w k) as [[s|z|l|l|j0]|] eqn:El; try by rewrite El.
  destruct (List.filter _ l) as [|e l'] eqn:Ef; [by rewrite live_del|].
  rewrite live_put. unfold live_expiry. rewrite El. unfold live in El.
  destruct (w_redis w !! k) as [[v' [t|]]|] eqn:E; try done. simpl.
  by destruct (Z.leb (w_now w) t).
Qed.

Lemma zset_add_entries k sc m w :
  zset_entries (zset_add k sc m w) k =
  (List.filter (fun e => negb (String.eqb e.2 m)) (zset_entries w k) ++ [(sc, m)])%list.
Proof.
  unfold zset_entries at 1, zset_add. rewrite live_put.
  unfold live_expiry. destruct (live w k) eqn:El; [|done].
  destruct (w_redis w !! k) as [[v' [t|]]|] eqn:E; try done.
  unfold live in El. rewrite E in El. cbn [r_expires_at]. by destruct (Z.leb (w_now w) t).
Qed.

Lemma live_add_ne k k' sc m w : k <> k' -> live (zset_add k sc m w) k' = live w k'.
Proof. intros H. by apply live_put_ne. Qed.

(** Redis scripts leave everything but the keys alone. *)
Definition redis_frameview (w : world) :=
  (w_db w, w_tx w, w_hooks w, w_seq w, w_stream_seq w, w_faults w, w_now w, w_pub w, w_leases w).

Lemma redis_expire_frame k ttl w :
  redis_frameview (redis_expire k ttl w).2 = redis_frameview w.
Proof. unfold redis_expire. by destruct (live w k). Qed.

Lemma zset_trim_frame k hi w : redis_frameview (zset_trim k hi w) = redis_frameview w.
Proof. unfold zset_trim. by repeat case_match. Qed.

Lemma reserve_lua_frame hk ak now cutoff H A attl httl w :
  redis_frameview (reserve_lua hk ak now cutoff H A attl httl w).2 = redis_frameview w.
Proof.
  unfold reserve_lua. set (w1 := if Z.ltb 0 H then zset_trim hk cutoff w else w).
  assert (redis_frameview w1 = redis_frameview w) as E1.
  { unfold w1. destruct (Z.ltb 0 H); [apply zset_trim_frame|done]. }
  destruct (Z.ltb 0 H && Z.leb H (zset_card w1 hk)); [done|].
  destruct (redis_incrby ak 1 w1) as [active w2] eqn:E2.
  assert (redis_frameview w2 = redis_frameview w) as F2.
  { rewrite <- E1. unfold redis_incrby in E2. by injection E2 as _ <-. }
  set (w3 := if Z.eqb active 1 then _ else w2).
  assert (redis_frameview w3 = redis_frameview w) as F3.
  { unfold w3. destruct (Z.eqb active 1); [by rewrite redis_expire_frame|done]. }
  destruct (Z.ltb 0 A && Z.ltb A active); [done|]. cbn [snd].
  destruct (Z.ltb 0 H); [by rewrite redis_expire_frame|done].
Qed.

(** The entries that count against the hourly limit at a reservation. *)
Definition kept (hourly_limit cutoff : Z) (l : list (Z * string)) : list (Z * string) :=
  if Z.ltb 0 hourly_limit
  then List.filter (fun e => negb (Z.leb 0 e.1 && Z.leb e.1 cutoff)) l else l.

Lemma entries_live_eq w w' k : live w' k = live w k -> zset_entries w' k = zset_entries w k.
Proof. unfold zset_entries. by intros ->. Qed.
Lemma counter_live_eq w w' k : live w' k = live w k -> counter w' k = counter w k.
Proof. unfold counter. by intros ->. Qed.

Lemma reserve_lua_spec hk ak now cutoff H A attl httl w :
  hk <> ak -> 0 <= attl -> 0 <= httl ->
  let l := kept H cutoff (zset_entries w hk) in
  let c := counter w ak in
  let '((st, _), w') := reserve_lua hk ak now cutoff H A attl httl w in
  st = (if Z.ltb 0 H && Z.leb H (Z.of_nat (List.length l)) then RsHourly
        else if Z.ltb 0 A && Z.ltb A (c + 1) then RsActive else RsOk) /\
  counter w' ak = (match st with RsOk => c + 1 | _ => c end) /\
  zset_entries w' hk =
    (match st with
     | RsOk => if Z.ltb 0 H
               then List.filter (fun e => negb (String.eqb e.2 (str_of_Z now))) l ++
                    [(now, str_of_Z now)]
               else l
     | _ => l
     end)%list.
Proof.
  intros Hne Ha Hh l c. unfold reserve_lua.
  set (w1 := if Z.ltb 0 H then zset_trim hk cutoff w else w).
  assert (E1 : zset_entries w1 hk = l).
  { unfold w1, l, kept. destruct (Z.ltb 0 H); [apply zset_trim_entries|done]. }
  assert (C1 : live w1 ak = live w ak).
  { unfold w1. destruct (Z.ltb 0 H); [by apply live_trim_ne|done]. }
  unfold zset_card. rewrite E1.
  destruct (Z.ltb 0 H && Z.leb H (Z.of_nat (List.length l))) eqn:Eh.
  { split; [done|]. split; [by apply counter_live_eq|done]. }
  destruct (live_incrby ak 1 w1) as [Hl2 Hv2].
  pose proof (live_incrby_ne ak hk 1 w1 (not_eq_sym Hne)) as Hz2.
  destruct (redis_incrby ak 1 w1) as [active w2]. cbn [fst snd] in *.
  rewrite (counter_live_eq _ _ _ C1) in Hl2, Hv2. fold c in Hl2, Hv2.
  set (w3 := if Z.eqb active 1 then (redis_expire ak attl w2).2 else w2).
  assert (L3 : live w3 ak = Some (RInt (c + 1))).
  { unfold w3. destruct (Z.eqb active 1); [by rewrite live_expire|done]. }
  assert (Z3 : live w3 hk = live w1 hk).
  { unfold w3. destruct (Z.eqb active 1); [rewrite live_expire_ne|]; auto. }
  subst active. destruct (Z.ltb 0 A && Z.ltb A (c + 1)) eqn:Ea.
  - destruct (live_incrby ak (-1) w3) as [Hl4 _].
    pose proof (live_incrby_ne ak hk (-1) w3 (not_eq_sym Hne)) as Hz4.
    destruct (redis_incrby ak (-1) w3) as [v w4]. cbn [fst snd] in *.
    split; [done|]. split.
    + unfold counter. rewrite Hl4. unfold counter. rewrite L3. lia.
    + rewrite <- E1. apply entries_live_eq. congruence.
  - split; [done|]. split.
    + unfold counter. destruct (Z.ltb 0 H); [|by rewrite L3].
      rewrite live_expire_ne, live_add_ne, L3 by done. done.
    + destruct (Z.ltb 0 H); [|rewrite <- E1; by apply entries_live_eq].
      rewrite (entries_live_eq _ _ _ (live_expire hk httl _ Hh)), zset_add_entries.
      by rewrite (entries_live_eq _ _ _ Z3), E1.
Qed.

Lemma size_list_to_set_le (l : list Z) : (size (list_to_set l : gset Z) <= List.length l)%nat.
Proof.
  induction l as [|x l IH]; [rewrite list_to_set_nil, size_empty; simpl; lia|].
  rewrite list_to_set_cons, size_union_alt, size_singleton. cbn [List.length].
  assert (size ((list_to_set l : gset Z) ∖ {[x]}) <= size (list_to_set l : gset Z))%nat
    by (apply subseteq_size; set_solver). lia.
Qed.

(* ------------------------------------------------------------------ *)
(** * The sliding window *)

Section Window.
Context (u : user) (hourly_limit active_limit : Z).
Context (limited : 0 < hourly_limit).

Definition WINDOW : Z := seconds HOURLY_WINDOW_S.

Definition reserve_now (w : world) : (reserve_status * Z) * world :=
reserve_lua (hourly_key_of u) (active_key_of u) (w_now w) (w_now w - WINDOW)
  hourly_limit active_limit ACTIVE_TTL_S (HOURLY_WINDOW_S * 2) w.

(** Reservations of the user under these limits, with the instants of the accepted ones,
  while anything that leaves the user's hourly set alone happens and time passes. *)
Inductive rate_step : world * list Z -> world * list Z -> Prop :=
| RateReserve w acc :
  rate_step (w, acc)
    ((reserve_now w).2,
     match (reserve_now w).1.1 with RsOk => (acc ++ [w_now w])%list | _ => acc end)
| RateOther w w' acc :
  w_redis w' !! hourly_key_of u = w_redis w !! hourly_key_of u ->
  w_now w <= w_now w' -> rate_step (w, acc) (w', acc).

(** The distinct instants of a list in the hour up to [t]. *)
Definition in_window (t : Z) (acc : list Z) : gset Z :=
list_to_set (List.filter (fun a => Z.ltb (t - WINDOW) a && Z.leb a t) acc).

Definition recorded (w : world) (a : Z) : Prop :=
exists l t, w_redis w !! hourly_key_of u = Some (mk_entry (RZSet l) (Some t)) /\
  In (a, str_of_Z a) l /\ a + 2 * WINDOW <= t.

Definition window_inv (s : world * list Z) : Prop :=
(forall a, In a s.2 -> a <= w_now s.1 /\ (w_now s.1 - WINDOW < a -> recorded s.1 a)) /\
(forall t, Z.of_nat (size (in_window t s.2)) <= hourly_limit).

Lemma recorded_entry w a :
recorded w a -> w_now w - WINDOW < a ->
In (a, str_of_Z a) (zset_entries w (hourly_key_of u)).
Proof.
intros (l & t & E & Hin & Ht) Ha. unfold zset_entries, live. rewrite E.
assert (0 < WINDOW) by (unfold WINDOW, seconds, HOURLY_WINDOW_S; lia).
rewrite (proj2 (Z.leb_le _ _)) by lia. done.
Qed.

Lemma recorded_trim w a :
recorded w a -> w_now w - WINDOW < a ->
recorded (zset_trim (hourly_key_of u) (w_now w - WINDOW) w) a.
Proof.
intros (l & t & E & Hin & Ht) Ha.
assert (0 < WINDOW) by (unfold WINDOW, seconds, HOURLY_WINDOW_S; lia).
assert (El : live w (hourly_key_of u) = Some (RZSet l)).
{ unfold live. rewrite E. rewrite (proj2 (Z.leb_le _ _)) by lia. done. }
unfold zset_trim. rewrite El.
assert (In (a, str_of_Z a)
  (List.filter (fun e => negb (Z.leb 0 e.1 && Z.leb e.1 (w_now w - WINDOW))) l)) as Hf.
{ apply filter_In. split; [done|]. simpl. rewrite (proj2 (Z.leb_gt a (w_now w - WINDOW))) by lia.
  by rewrite andb_false_r. }
destruct (List.filter _ l) as [|e l'] eqn:Ef; [done|].
exists (e :: l'), t. unfold put_key. simpl. rewrite lookup_insert_eq.
unfold live_expiry. rewrite El, E. done.
Qed.

Lemma recorded_same w w' a :
w_redis w' !! hourly_key_of u = w_redis w !! hourly_key_of u -> recorded w a -> recorded w' a.
Proof. intros E (l & t & H). exists l, t. by rewrite E. Qed.

Lemma recorded_added w a :
a <= w_now w -> (a = w_now w \/ recorded w a /\ w_now w - WINDOW < a) ->
recorded (redis_expire (hourly_key_of u) (HOURLY_WINDOW_S * 2)
  (zset_add (hourly_key_of u) (w_now w) (str_of_Z (w_now w)) w)).2 a.
Proof.
intros Hle Ha. unfold redis_expire.
set (w1 := zset_add _ _ _ w).
set (l := (List.filter (fun e => negb (String.eqb e.2 (str_of_Z (w_now w))))
            (zset_entries w (hourly_key_of u)) ++ [(w_now w, str_of_Z (w_now w))])%list).
assert (El : live w1 (hourly_key_of u) = Some (RZSet l)).
{ pose proof (zset_add_entries (hourly_key_of u) (w_now w) (str_of_Z (w_now w)) w) as E.
  unfold zset_entries at 1 in E. fold w1 l in E.
  destruct (live w1 (hourly_key_of u)) as [[]|]; try (by destruct (List.filter _ _) in E).
  all: subst; try done; unfold l in E; by apply app_cons_not_nil in E. }
rewrite El. cbn [snd]. exists l, (w_now w + seconds (HOURLY_WINDOW_S * 2)).
unfold put_key. simpl. rewrite lookup_insert_eq. split; [done|].
split; [|change (w_now w1) with (w_now w); unfold WINDOW, seconds, HOURLY_WINDOW_S; lia].
apply in_app_iff.
destruct (Z.eq_dec a (w_now w)) as [->|Hne]; [right; by left|]. left.
destruct Ha as [?|[Hr Hw]]; [done|]. apply filter_In.
split; [by apply recorded_entry|]. simpl. rewrite str_of_Z_eqb.
apply negb_true_iff. by apply Z.eqb_neq.
Qed.

(** Commands on the active counter leave the hourly set and the clock. *)
Lemma active_frame k d ttl w :
k <> hourly_key_of u ->
w_redis (redis_incrby k d w).2 !! hourly_key_of u = w_redis w !! hourly_key_of u /\
w_now (redis_incrby k d w).2 = w_now w /\
w_redis (redis_expire k ttl w).2 !! hourly_key_of u = w_redis w !! hourly_key_of u /\
w_now (redis_expire k ttl w).2 = w_now w.
Proof.
intros H. unfold redis_incrby, redis_expire. simpl.
destruct (live w k); simpl; rewrite ?lookup_insert_ne by done; done.
Qed.

Lemma zset_trim_now k hi w : w_now (zset_trim k hi w) = w_now w.
Proof. unfold zset_trim. by repeat case_match. Qed.

Lemma reserve_recorded w :
w_now (reserve_now w).2 = w_now w /\
(forall a, a <= w_now w -> w_now w - WINDOW < a -> recorded w a -> recorded (reserve_now w).2 a) /\
((reserve_now w).1.1 = RsOk -> recorded (reserve_now w).2 (w_now w)).
Proof.
unfold reserve_now, reserve_lua. rewrite (proj2 (Z.ltb_lt _ _) limited). cbn [andb].
set (w1 := zset_trim _ _ w). pose proof (zset_trim_now (hourly_key_of u) (w_now w - WINDOW) w) as N1.
fold w1 in N1.
assert (R1 : forall a, w_now w - WINDOW < a -> recorded w a -> recorded w1 a).
{ intros a Ha Hr. by apply recorded_trim. }
destruct (Z.leb hourly_limit _); [cbn [fst snd]; split; [done|]; split; [by auto|done]|].
assert (Hk : active_key_of u <> hourly_key_of u) by done.
destruct (active_frame (active_key_of u) 1 0 w1 Hk) as (E2 & N2 & _).
destruct (redis_incrby _ 1 w1) as [active w2]. cbn [fst snd] in E2, N2.
set (w3 := if Z.eqb active 1 then _ else w2).
assert (w_redis w3 !! hourly_key_of u = w_redis w1 !! hourly_key_of u /\ w_now w3 = w_now w)
  as [E3 N3].
{ unfold w3. destruct (Z.eqb active 1); [|split; congruence].
  destruct (active_frame (active_key_of u) 0 ACTIVE_TTL_S w2 Hk) as (_ & _ & -> & ->).
  split; congruence. }
destruct (Z.ltb 0 active_limit && Z.ltb active_limit active).
- destruct (active_frame (active_key_of u) (-1) 0 w3 Hk) as (E4 & N4 & _).
  destruct (redis_incrby _ (-1) w3) as [v w4]. cbn [fst snd] in *.
  split; [congruence|]. split; [|done]. intros a _ Ha Hr.
  apply (recorded_same w1); [congruence|auto].
- cbn [fst snd]. rewrite <- N3. split; [|split].
  + unfold redis_expire. by destruct (live _ _).
  + intros a Hle Ha Hr. apply recorded_added; [done|]. right. split; [|done].
    apply (recorded_same w1); [done|]. apply R1; [congruence|done].
  + intros _. apply recorded_added; [lia|by left].
Qed.

(** An accepted reservation found room: fewer than the limit of recorded instants. *)
Lemma reserve_ok_room w :
(reserve_now w).1.1 = RsOk ->
Z.of_nat (List.length (kept hourly_limit (w_now w - WINDOW)
  (zset_entries w (hourly_key_of u)))) < hourly_limit.
Proof.
intros Hok. pose proof (reserve_lua_spec (hourly_key_of u) (active_key_of u) (w_now w)
  (w_now w - WINDOW) hourly_limit active_limit ACTIVE_TTL_S (HOURLY_WINDOW_S * 2) w) as H.
fold (reserve_now w) in H. destruct (reserve_now w) as [[st n] w']. cbn [fst snd] in *.
destruct H as (Hst & _); [done|unfold ACTIVE_TTL_S; lia|unfold HOURLY_WINDOW_S; lia|].
rewrite Hok, (proj2 (Z.ltb_lt _ _) limited) in Hst. cbn [andb] in Hst.
destruct (Z.leb_spec hourly_limit (Z.of_nat (List.length (kept hourly_limit
  (w_now w - WINDOW) (zset_entries w (hourly_key_of u)))))); [done|lia].
Qed.

(** Distinct instants of the window inject into the kept entries. *)
Lemma window_size w acc :
(forall a, In a acc -> a <= w_now w /\ (w_now w - WINDOW < a -> recorded w a)) ->
Z.of_nat (size (in_window (w_now w) acc)) <=
Z.of_nat (List.length (kept hourly_limit (w_now w - WINDOW) (zset_entries w (hourly_key_of u)))).
Proof.
intros Hacc. apply inj_le.
set (l := kept _ _ _). rewrite <- (length_map fst l).
transitivity (size (list_to_set (map fst l) : gset Z)).
- apply subseteq_size. intros a Ha. apply elem_of_list_to_set, list_elem_of_In in Ha.
  apply filter_In in Ha as [Hin Hw]. to_prop.
  apply elem_of_list_to_set, list_elem_of_In, in_map_iff.
  exists (a, str_of_Z a). split; [done|]. unfold l, kept.
  rewrite (proj2 (Z.ltb_lt _ _) limited). apply filter_In. split.
  + apply recorded_entry; [|done]. by apply (Hacc a Hin).
  + simpl. rewrite (proj2 (Z.leb_gt a (w_now w - WINDOW))) by lia. by rewrite andb_false_r.
- apply size_list_to_set_le.
Qed.

Lemma in_window_app t acc a :
in_window t (acc ++ [a])%list =
in_window t acc ∪ (if Z.ltb (t - WINDOW) a && Z.leb a t then {[a]} else ∅).
Proof.
unfold in_window. rewrite List.filter_app, list_to_set_app_L. f_equal. simpl.
destruct (Z.ltb (t - WINDOW) a && Z.leb a t); simpl; [by rewrite union_empty_r_L|done].
Qed.

Lemma window_step s s' : rate_step s s' -> window_inv s -> window_inv s'.
Proof.
intros [w acc|w w' acc Hk Hn] [Hacc Hsize]; cbn [fst snd] in *.
- destruct (reserve_recorded w) as (Hn & Hr & Hok).
  assert (Hkeep : forall a, In a acc ->
    a <= w_now (reserve_now w).2 /\
    (w_now (reserve_now w).2 - WINDOW < a -> recorded (reserve_now w).2 a)).
  { intros a Hin. rewrite Hn. destruct (Hacc a Hin) as [Hle Ha]. split; [done|].
    intros Hw. apply Hr; auto. }
  destruct (reserve_now w).1.1 eqn:Est; [|by split..].
  split; cbn [fst snd].
  + intros a [Hin|[<-|[]]]%in_app_iff; [by apply Hkeep|]. rewrite Hn.
    split; [lia|]. intros _. by apply Hok.
  + intros t. rewrite in_window_app.
    destruct (Z.ltb (t - WINDOW) (w_now w) && Z.leb (w_now w) t) eqn:Ew;
      [|by rewrite union_empty_r_L]. to_prop.
    pose proof (reserve_ok_room w Est) as Hroom. pose proof (window_size w acc Hacc) as Hsz.
    assert (size (in_window t acc ∪ {[w_now w]}) <=
            size (in_window (w_now w) acc ∪ {[w_now w]}))%nat as Hsub.
    { apply subseteq_size. apply union_mono_r. intros a Ha.
      unfold in_window in *. apply elem_of_list_to_set, list_elem_of_In, filter_In in Ha as [Hin Ha].
      to_prop. apply elem_of_list_to_set, list_elem_of_In, filter_In. split; [done|].
      destruct (Hacc a Hin) as [Hle _].
      rewrite (proj2 (Z.ltb_lt _ _)), (proj2 (Z.leb_le _ _)) by lia. done. }
    rewrite (size_union_alt (in_window (w_now w) acc)) in Hsub.
    assert (size ({[w_now w]} ∖ in_window (w_now w) acc : gset Z) <= 1)%nat.
    { rewrite <- (size_singleton (w_now w : Z) (C := gset Z)). apply subseteq_size. set_solver. }
    lia.
- split; cbn [fst snd]; [|done]. intros a Hin. destruct (Hacc a Hin) as [Hle Ha].
  split; [lia|]. intros Hw. apply (recorded_same w); [done|]. apply Ha. lia.
Qed.

Lemma window_steps w0 s :
rtc rate_step (w0, []) s -> window_inv s.
Proof.
intros H. remember (w0, []) as s0. assert (window_inv s0) as Hi.
{ subst s0. split; [done|]. intros t.
  unfold in_window. cbn [List.filter snd]. rewrite list_to_set_nil, size_empty. lia. }
clear Heqs0. induction H; eauto using window_step.
Qed.
End Window.

(* ------------------------------------------------------------------ *)
(** * Reservation and release of a user *)

Lemma redis_op_nofault {A} (f : world -> A * world) w :
  w_faults w = [] -> redis_op f w = (Ok (f w).1, (f w).2).
Proof. intros E. unfold redis_op. rewrite E. by destruct (f w). Qed.

Lemma counter_put k n e w :
  (forall t, e = Some t -> w_now w <= t) -> counter (put_key k (RInt n) e w) k = n.
Proof.
  intros H. unfold counter. rewrite live_put. destruct e as [t|]; [|done].
  by rewrite (proj2 (Z.leb_le _ _) (H t eq_refl)).
Qed.

Lemma counter_incrby k d w : counter (redis_incrby k d w).2 k = counter w k + d.
Proof. unfold counter at 1. by rewrite (proj1 (live_incrby k d w)). Qed.

Lemma counter_del k w : counter (del_key k w) k = 0.
Proof. unfold counter. by rewrite live_del. Qed.

Lemma release_counter u w :
  user_kind u <> KIND_ADMIN -> w_faults w = [] ->
  (release_turn u w).1 = Ok tt /\
  counter (release_turn u w).2 (active_key_of u) = Z.max 0 (counter w (active_key_of u) - 1).
Proof.
  intros Hk Hf. unfold release_turn. rewrite bool_decide_eq_false_2 by done.
  unfold pbind. rewrite redis_op_nofault by done.
  pose proof (live_incrby (active_key_of u) (-1) w) as [_ Hv].
  pose proof (counter_incrby (active_key_of u) (-1) w) as Hc.
  assert (w_faults (redis_incrby (active_key_of u) (-1) w).2 = []) as Hf1 by done.
  destruct (redis_incrby (active_key_of u) (-1) w) as [n w1]. cbn [fst snd] in *. subst n.
  unfold when. destruct (Z.leb_spec (counter w (active_key_of u) + -1) 0).
  - rewrite redis_op_nofault by done. cbn [fst snd redis_del]. rewrite counter_del.
    split; [done|lia].
  - cbn [pret fst snd]. rewrite Hc. split; [done|lia].
Qed.

(** What a reservation decides, from the limits and the user's Redis state. *)
Definition decide_reserve (kind : UserKind) (limits : TurnLimits) (recent : nat) (c : Z) :
    result exn unit :=
  if Z.ltb 0 (tl_hourly limits) && Z.leb (tl_hourly limits) (Z.of_nat recent)
  then Raise (RateLimited kind "hourly" (tl_hourly limits))
  else if Z.ltb 0 (tl_active limits) && Z.ltb (tl_active limits) (c + 1)
  then Raise (RateLimited kind "active" (tl_active limits))
  else Ok tt.

(** The distinct recorded turns of the user in the last hour. *)
Definition recent_turns (u : user) (limits : TurnLimits) (w : world) : nat :=
  List.length (kept (tl_hourly limits) (w_now w - WINDOW) (zset_entries w (hourly_key_of u))).

Lemma reserve_decides u s w w1 :
  user_kind u <> KIND_ADMIN -> settings_get w = (Ok s, w1) -> w_faults w1 = [] ->
  let limits := turn_limits s (user_kind u) in
  let c := counter w1 (active_key_of u) in
  (reserve_turn u w).1 = decide_reserve (user_kind u) limits (recent_turns u limits w1) c /\
  counter (reserve_turn u w).2 (active_key_of u) =
    match (reserve_turn u w).1 with Ok _ => c + 1 | Raise _ => c end /\
  w_faults (reserve_turn u w).2 = [].
Proof.
  intros Hk Hs Hf limits c. unfold reserve_turn. rewrite bool_decide_eq_false_2 by done.
  unfold pbind at 1 4 7 10. rewrite Hs. unfold pbind. cbn [now gets]. rewrite redis_op_nofault by done.
  pose proof (reserve_lua_spec (hourly_key_of u) (active_key_of u) (w_now w1)
    (w_now w1 - WINDOW) (tl_hourly limits) (tl_active limits) ACTIVE_TTL_S
    (HOURLY_WINDOW_S * 2) w1) as H.
  change (w_now w1 - seconds HOURLY_WINDOW_S) with (w_now w1 - WINDOW).
  pose proof (reserve_lua_frame (hourly_key_of u) (active_key_of u) (w_now w1)
    (w_now w1 - WINDOW) (tl_hourly limits) (tl_active limits) ACTIVE_TTL_S
    (HOURLY_WINDOW_S * 2) w1) as Hfr.
  fold limits. destruct (reserve_lua _ _ _ _ _ _ _ _ _) as [[st n] w2]. cbn [fst snd] in *.
  destruct H as (Hst & Hc & _); [done|unfold ACTIVE_TTL_S; lia|unfold HOURLY_WINDOW_S; lia|].
  fold c in Hst, Hc. unfold decide_reserve, recent_turns.
  destruct (Z.ltb 0 (tl_hourly limits) && Z.leb _ _);
    [|destruct (Z.ltb 0 (tl_active limits) && Z.ltb _ _)];
    subst st; cbn [fst snd praise pret]; unfold redis_frameview in Hfr; split; try done;
    split; congruence.
Qed.

Lemma from_row_apply s : settings_valid s = true -> from_row (apply_to s) = Ok s.
Proof. intros H. unfold from_row, apply_to. destruct s as [[] [] ?]. simpl in *. by rewrite H. Qed.

Lemma settings_get_expired s w :
  db_settings (w_db w) = Some (apply_to s) -> settings_valid s = true ->
  (forall v e, w_settings_cache w = Some (v, e) -> v = s \/ e <= w_now w) ->
  (settings_get w).1 = Ok s.
Proof.
  intros Hrow Hv Hc. unfold settings_get, pbind, now, gets. cbn [fst snd].
  assert (Hl : (with_session settings_load w).1 = Ok s).
  { unfold with_session, settings_load, pbind, sql, gets. cbn. rewrite Hrow. cbn.
    by rewrite from_row_apply. }
  destruct (w_settings_cache w) as [[v e]|]; [destruct (Z.ltb_spec (w_now w) e)|].
  - destruct (Hc v e eq_refl) as [->|]; [done|lia].
  - destruct (with_session settings_load w) as [r w1]. cbn [fst] in Hl. by subst r.
  - destruct (with_session settings_load w) as [r w1]. cbn [fst] in Hl. by subst r.
Qed.

Lemma release_turn_db u : respects (same w_db) (release_turn u).
Proof. unfold release_turn. solve_frame; redis_frame. Qed.

(* ------------------------------------------------------------------ *)
(** * Properties *)


(** With Redis up, a reservation is accepted exactly when the recorded turns of the
    last hour and the running turns are below the limits of the user's kind (zero meaning
    no limit), a refusal leaves the active counter as it was, and the release of an
    accepted turn takes it back. *)
Theorem reserve_release_accounting (u : user) (s : RuntimeSettings) (w w1 : world) :
  user_kind u <> KIND_ADMIN -> settings_get w = (Ok s, w1) -> w_faults w1 = [] ->
  0 <= counter w1 (active_key_of u) ->
  let limits := turn_limits s (user_kind u) in
  let c := counter w1 (active_key_of u) in
  let '(r, w2) := reserve_turn u w in
  r = decide_reserve (user_kind u) limits (recent_turns u limits w1) c /\
  match r with
  | Ok _ => counter w2 (active_key_of u) = c + 1 /\
            (release_turn u w2).1 = Ok tt /\
            counter (release_turn u w2).2 (active_key_of u) = c
  | Raise _ => counter w2 (active_key_of u) = c
  end.
Proof.
  intros Hk Hs Hf Hc limits c. destruct (reserve_decides u s w w1 Hk Hs Hf) as (Hr & Hcnt & Hf2).
  fold limits c in Hr, Hcnt. destruct (reserve_turn u w) as [r w2]. cbn [fst snd] in *.
  split; [done|]. destruct r as [[]|e]; [|done].
  destruct (release_counter u w2 Hk Hf2) as [Hok Hrel]. rewrite Hrel, Hcnt.
  split; [done|]. split; [done|]. lia.
Qed.

(** Admin limits propagate within the cache's time to live: what is saved and
    committed loads back unchanged, and a process whose cached value expires by then
    reads the committed limits. *)
Theorem settings_propagate (s : RuntimeSettings) (w : world) :
  settings_valid s = true ->
  db_settings (w_tx (settings_save s w).2) = Some (apply_to s) /\
  from_row (apply_to s) = Ok s /\
  forall w', db_settings (w_db w') = Some (apply_to s) ->
    (forall v e, w_settings_cache w' = Some (v, e) -> e <= w_now w + SETTINGS_TTL) ->
    w_now w + SETTINGS_TTL <= w_now w' -> (settings_get w').1 = Ok s.
Proof.
  intros Hv. split; [done|]. split; [by apply from_row_apply|].
  intros w' Hrow Hc Hn. apply settings_get_expired; [done..|].
  intros v e He. right. specialize (Hc v e He). lia.
Qed.

(* ------------------------------------------------------------------ *)
(** * Witnesses *)

Definition demo_user : user := mk_user 3 (Some 42) None None None None Role_USER.
Definition demo_settings : RuntimeSettings := mk_settings (mk_limits 2 0) (mk_limits 1 1) 20.


Lemma reserve_release_accounting_witness :
  let w := set_settings_cache (Some (demo_settings, 10000)) empty_world in
  (reserve_turn demo_user w).1 = Ok tt /\
  counter (release_turn demo_user (reserve_turn demo_user w).2).2 (active_key_of demo_user) = 0.
Proof.
  intros w.
  assert (user_kind demo_user <> KIND_ADMIN) as Hk by discriminate.
  pose proof (reserve_release_accounting demo_user demo_settings w w Hk eq_refl eq_refl) as H.
  assert (0 <= counter w (active_key_of demo_user)) as Hc by (vm_compute; discriminate).
  specialize (H Hc). cbv zeta in H.
  destruct (reserve_turn demo_user w) as [r w2] eqn:E. destruct H as [Hr H].
  assert (r = Ok tt) as -> by (rewrite Hr; vm_compute; reflexivity).
  split; [reflexivity|]. destruct H as (_ & _ & H). cbn [snd]. rewrite H. vm_compute. reflexivity.
Defined.

Lemma settings_propagate_witness :
  (settings_get (set_now 20000 (set_db (set_settings (Some (apply_to demo_settings)) empty_db)
     (set_settings_cache (Some (default_settings, 9000)) empty_world)))).1 = Ok demo_settings.
Proof.
  destruct (settings_propagate demo_settings empty_world eq_refl) as (_ & _ & H).
  apply H; [reflexivity| |vm_compute; discriminate].
  intros v e [= _ <-]. vm_compute. discriminate.
Defined.
