(* ===== verification/TurnStream.v ===== *)
(** The per-turn Redis stream ([services/turns/stream.py]): publication with trimming and
    expiry, and the tail that clients replay and follow it with. *)
From S2P Require Import Prelude PyStr Json Models Events World TurnStore.
From Stdlib Require Import Sorting.Sorted.

Open Scope Z_scope.
Open Scope string_scope.

Definition TURN_STREAM_MAX_EVENTS : nat := 5000.
Definition TURN_STREAM_TTL_S : Z := 86400.
Definition TAIL_COUNT : nat := 64.

(* ------------------------------------------------------------------ *)
(** * Redis streams *)

(** [MAXLEN ~ n] trims whole nodes of the stream only: some of the oldest entries may go
    once it is longer than [n], never down below [n]. *)
Class RedisTrim := {
  trim : nat -> list (string * pb_kind) -> list (string * pb_kind);
  trim_suffix : forall n l, exists dropped, l = (dropped ++ trim n l)%list /\
    (dropped <> [] -> (n <= List.length (trim n l))%nat)
}.

(** Entry identifiers ["<n>-<m>"]. *)
Fixpoint split_dash (s : string) : string * option string :=
  match s with
  | EmptyString => ("", None)
  | String c s' =>
      if Ascii.eqb c "-" then ("", Some s')
      else let '(a, b) := split_dash s' in (String c a, b)
  end.

(** The order key of an identifier; a missing sequence part is zero. *)
Definition parse_id (s : string) : option (Z * Z) :=
  let '(a, b) := split_dash s in
  ms ← Z_of_digits a;
  match b with None => Some (ms, 0) | Some b => sq ← Z_of_digits b; Some (ms, sq) end.

Definition id_lt (x y : Z * Z) : bool :=
  Z.ltb x.1 y.1 || (Z.eqb x.1 y.1 && Z.ltb x.2 y.2).

(** The [n]-th identifier the server generates. *)
Definition entry_id (n : Z) : string := str_of_Z n ++ "-0".

Definition stream_entries (w : world) (k : string) : list (string * pb_kind) :=
  match live w k with Some (RStream l) => l | _ => [] end.

Section Stream.
Context `{!RedisTrim}.

Definition xadd (k : string) (ev : pb_kind) (maxlen : nat) (w : world) : string * world :=
let id := entry_id (w_stream_seq w) in
let l := trim maxlen (stream_entries w k ++ [(id, ev)])%list in
(id, set_stream_seq (w_stream_seq w + 1) (put_key k (RStream l) (live_expiry w k) w)).

(** Entries after the cursor; an invalid identifier is an error reply. *)
Definition after (cursor : string) (l : list (string * pb_kind)) :
  option (list (string * pb_kind)) :=
c ← parse_id cursor;
Some (List.filter (fun e => match parse_id e.1 with
                            | Some i => id_lt c i | None => false end) l).

Definition xread (k cursor : string) (count : nat) (w : world) :
  option (list (string * pb_kind)) * world :=
(firstn count <$> after cursor (stream_entries w k), w).

(* ------------------------------------------------------------------ *)
(** * The service *)

Definition publish (turn_id : Z) (event : pb_kind) : prog world exn string :=
let! raw_id := redis_op (xadd (stream_key turn_id) event TURN_STREAM_MAX_EVENTS) in
redis_op (redis_expire (stream_key turn_id) TURN_STREAM_TTL_S) ;;
pret raw_id.

Definition cleanup (turn_id : Z) : prog world exn unit := pret tt.

Definition delete_stream (turn_id : Z) : prog world exn unit :=
redis_op (redis_del (stream_key turn_id)).
End Stream.

(** The events of one XREAD reply that are yielded, the cursor after them, and whether a
    terminal event ended the tail. *)
Fixpoint emit (cursor : string) (entries : list (string * pb_kind)) :
    list (string * pb_kind) * string * bool :=
  match entries with
  | [] => ([], cursor, false)
  | (eid, event) :: rest =>
      if pb_terminal event then ([(eid, event)], eid, true)
      else let '(out, c, stop) := emit eid rest in ((eid, event) :: out, c, stop)
  end.

Inductive tail_end := TailReturned | TailRaised (e : exn) | TailWaiting.

(** The tail under an environment: what the other processes do before each XREAD answers
    and between an empty answer and the status query. [TailWaiting] when the environment
    is exhausted. *)
Fixpoint tail_loop (env : list ((world -> world) * (world -> world))) (turn_id : Z)
    (cursor : string) (w : world) : list (string * pb_kind) * tail_end * world :=
  match env with
  | [] => ([], TailWaiting, w)
  | (before, between) :: env' =>
      let '(r, w1) := redis_op (xread (stream_key turn_id) cursor TAIL_COUNT) (before w) in
      match r with
      | Raise e => ([], TailRaised e, w1)
      | Ok None => ([], TailRaised (OtherException "ResponseError" "Invalid stream ID"), w1)
      | Ok (Some []) =>
          let '(turn, w2) := with_session (get_by_id turn_id) (between w1) in
          match turn with
          | Raise e => ([], TailRaised e, w2)
          | Ok None => ([], TailReturned, w2)
          | Ok (Some t) =>
              if is_terminal (t_status t) then ([], TailReturned, w2)
              else tail_loop env' turn_id cursor w2
          end
      | Ok (Some entries) =>
          let '(out, cursor', stop) := emit cursor entries in
          if stop then (out, TailReturned, w1)
          else let '(rest, e, w') := tail_loop env' turn_id cursor' w1 in ((out ++ rest)%list, e, w')
      end
  end.

Definition tail (env : list ((world -> world) * (world -> world))) (turn_id : Z)
    (after_event_id : string) (w : world) : list (string * pb_kind) * tail_end * world :=
  tail_loop env turn_id (if nonempty after_event_id then after_event_id else "0") w.

(* ------------------------------------------------------------------ *)
(** * Identifiers *)

Lemma split_dash_digits s r :
  all_digits s = true -> split_dash (s ++ String "-" r) = (s, Some r).
Proof.
  induction s as [|c s IH]; [done|]. simpl. intros H. apply andb_true_iff in H as [Hc Hs].
  rewrite (IH Hs). destruct (Ascii.eqb_spec c "-") as [->|]; done.
Qed.

Lemma str_of_Z_digits n : 0 <= n -> all_digits (str_of_Z n) = true.
Proof.
  intros H. unfold str_of_Z. destruct n as [|p|p]; [done| |lia]. apply all_digits_uint.
Qed.

Lemma Z_of_digits_str n : 0 <= n -> Z_of_digits (str_of_Z n) = Some n.
Proof.
  intros H. rewrite <- py_int_digits; [apply py_int_str_of_Z| |by apply str_of_Z_digits].
  unfold str_of_Z. destruct n as [|p|p]; [done| |lia]. apply string_of_uint_ne.
Qed.

Lemma parse_entry_id n : 0 <= n -> parse_id (entry_id n) = Some (n, 0).
Proof.
  intros H. unfold parse_id, entry_id.
  assert (split_dash (str_of_Z n ++ "-0") = (str_of_Z n, Some "0")) as ->
    by (apply (split_dash_digits _ "0"); by apply str_of_Z_digits).
  simpl. by rewrite Z_of_digits_str.
Qed.

(* ------------------------------------------------------------------ *)
(** * Well-formed streams *)

Definition key (e : string * pb_kind) : Z :=
  match parse_id e.1 with Some (n, _) => n | None => -1 end.

Definition generated (e : string * pb_kind) : Prop := parse_id e.1 = Some (key e, 0).

(** Entries carry generated identifiers in increasing order. *)
Definition stream_wf (l : list (string * pb_kind)) : Prop :=
  Forall generated l /\ StronglySorted (fun a b => key a < key b) l.

Definition past (c : Z * Z) (e : string * pb_kind) : bool := id_lt c (key e, 0).

Lemma after_past cursor c l :
  parse_id cursor = Some c -> Forall generated l ->
  after cursor l = Some (List.filter (past c) l).
Proof.
  intros Hc Hg. unfold after. rewrite Hc. simpl. f_equal. apply List.filter_ext_in.
  intros e Hin. rewrite Forall_forall in Hg.
  rewrite (Hg e); [done|]. by apply list_elem_of_In.
Qed.

Lemma past_own e : past (key e, 0) e = false.
Proof. unfold past, id_lt. simpl. rewrite Z.ltb_irrefl, Z.eqb_refl. done. Qed.

Lemma past_key e x : past (key e, 0) x = Z.ltb (key e) (key x).
Proof. unfold past, id_lt. simpl. rewrite andb_false_r. apply orb_false_r. Qed.

Lemma past_trans c e x : past c e = true -> key e < key x -> past c x = true.
Proof.
  unfold past, id_lt. simpl. intros H Hlt. apply orb_true_iff in H as [H|H]; to_prop.
  - rewrite (proj2 (Z.ltb_lt _ _)); [done|lia].
  - rewrite (proj2 (Z.ltb_lt c.1 _)); [done|lia].
Qed.

Lemma sorted_filter (p : string * pb_kind -> bool) l :
  StronglySorted (fun a b => key a < key b) l ->
  StronglySorted (fun a b => key a < key b) (List.filter p l).
Proof.
  induction 1 as [|e l Hs IH Hf]; simpl; [constructor|]. destruct (p e); [|done].
  constructor; [done|]. rewrite Forall_forall in *. intros x Hx.
  apply Hf. apply list_elem_of_In, filter_In in Hx as [Hx _]. by apply list_elem_of_In.
Qed.

Lemma filter_id (p : string * pb_kind -> bool) l :
  (forall x, In x l -> p x = true) -> List.filter p l = l.
Proof.
  induction l as [|x l IH]; simpl; [done|]. intros H. rewrite H by auto. rewrite IH; auto.
Qed.
Lemma filter_none (p : string * pb_kind -> bool) l :
  (forall x, In x l -> p x = false) -> List.filter p l = [].
Proof. induction l as [|x l IH]; simpl; [done|]. intros H. rewrite H by auto. auto. Qed.

(** Moving the cursor to an entry past it leaves what follows that entry. *)
Lemma advance_cursor c l pre e rest :
  StronglySorted (fun a b => key a < key b) l ->
  List.filter (past c) l = (pre ++ e :: rest)%list ->
  List.filter (past (key e, 0)) l = rest.
Proof.
  intros Hs Hf.
  assert (past c e = true) as He.
  { assert (In e (List.filter (past c) l)) as H by (rewrite Hf; apply in_elt).
    by apply filter_In in H as [_ ?]. }
  transitivity (List.filter (past (key e, 0)) (List.filter (past c) l)).
  - clear Hf Hs. induction l as [|x l IH]; [done|]. simpl.
    destruct (past c x) eqn:Ex; simpl; destruct (past (key e, 0) x) eqn:Ex'; rewrite ?IH; try done.
    rewrite past_key in Ex'. to_prop. rewrite (past_trans c e x He) in Ex; done.
  - pose proof (sorted_filter (past c) l Hs) as Hs'. rewrite Hf in Hs' |- *.
    rewrite List.filter_app. simpl. rewrite past_own.
    assert (forall x, In x pre -> key x < key e) as Hpre.
    { clear -Hs'. induction pre as [|y pre IH]; [done|]. simpl in Hs'.
      apply StronglySorted_inv in Hs' as [Hs' Hf]. rewrite Forall_forall in Hf.
      intros x [->|Hx]; [apply Hf; set_solver|by apply IH]. }
    rewrite filter_none; [|intros x Hx; rewrite past_key; apply Z.ltb_ge; specialize (Hpre x Hx); lia].
    simpl. apply filter_id. intros x Hx. rewrite past_key. apply Z.ltb_lt.
    clear -Hs' Hx. induction pre as [|y pre IH]; simpl in Hs'.
    + apply StronglySorted_inv in Hs' as [_ Hf]. rewrite Forall_forall in Hf.
      apply Hf. by apply list_elem_of_In.
    + apply StronglySorted_inv in Hs' as [Hs' _]. by apply IH.
Qed.

(* ------------------------------------------------------------------ *)
(** * What a tail should see *)

(** A sequence of events up to its first terminal one. *)
Fixpoint until_terminal (l : list (string * pb_kind)) : list (string * pb_kind) :=
  match l with
  | [] => []
  | e :: l' => if pb_terminal e.2 then [e] else e :: until_terminal l'
  end.

Definition ends (l : list (string * pb_kind)) : bool := existsb (fun e => pb_terminal e.2) l.

Lemma emit_spec c entries :
  let '(out, c', stop) := emit c entries in
  out = until_terminal entries /\ stop = ends entries /\
  (stop = false -> out = entries /\
     (entries = [] \/ exists pre e, entries = (pre ++ [e])%list /\ c' = e.1)).
Proof.
  revert c. induction entries as [|[eid ev] l IH]; intros c; simpl; [auto|].
  destruct (pb_terminal ev); simpl; [done|]. specialize (IH eid).
  destruct (emit eid l) as [[out c'] stop] eqn:E. destruct IH as (-> & -> & H).
  split; [done|]. split; [done|]. intros Hf. destruct (H Hf) as [Ho H']. split; [by rewrite Ho|].
  right. destruct H' as [->|(pre & e & -> & ->)].
  - simpl in E. injection E as <-. exists [], (eid, ev). done.
  - by exists ((eid, ev) :: pre), e.
Qed.

Lemma until_app l l' :
  until_terminal (l ++ l')%list =
  if ends l then until_terminal l else (l ++ until_terminal l')%list.
Proof.
  induction l as [|e l IH]; [done|]. simpl. destruct (pb_terminal e.2); simpl; [done|].
  rewrite IH. unfold ends. by destruct (existsb _ l).
Qed.

Lemma ends_until l : ends (until_terminal l) = ends l.
Proof.
  induction l as [|e l IH]; [done|]. simpl. destruct (pb_terminal e.2) eqn:E; simpl; by rewrite E.
Qed.

Lemma ends_app l l' : ends (l ++ l')%list = ends l || ends l'.
Proof. apply existsb_app. Qed.

(** The turn is finished, or gone, in the database. *)
Definition finished (w : world) (turn_id : Z) : Prop :=
  match row turn_id (turns w) with None => True | Some t => is_terminal (t_status t) = true end.

Definition entries_of (w : world) (turn_id : Z) : list (string * pb_kind) :=
  stream_entries w (stream_key turn_id).

(** An environment step only appends to the stream, with fresh identifiers. *)
Definition appends (turn_id : Z) (f : world -> world) : Prop :=
  forall w, stream_wf (entries_of w turn_id) ->
    stream_wf (entries_of (f w) turn_id) /\
    exists more, entries_of (f w) turn_id = (entries_of w turn_id ++ more)%list.

Definition env_appends (turn_id : Z) (env : list ((world -> world) * (world -> world))) : Prop :=
  Forall (fun fg => appends turn_id fg.1 /\ appends turn_id fg.2) env.

Lemma entries_ext w w' turn_id :
  w_redis w' = w_redis w -> w_now w' = w_now w -> entries_of w' turn_id = entries_of w turn_id.
Proof.
  intros H1 H2. unfold entries_of, stream_entries, live. by rewrite H1, H2.
Qed.

Lemma xread_op k c n w :
  exists fs, (redis_op (xread k c n) w = (Ok (firstn n <$> after c (stream_entries w k)), set_faults fs w) \/
   redis_op (xread k c n) w = (Raise RedisError, set_faults fs w)).
Proof.
  unfold redis_op, xread. destruct (w_faults w) as [|[] fs] eqn:E.
  - exists []. left. by destruct w; simpl in *; subst.
  - exists fs. by left.
  - exists fs. by right.
  - exists fs. by right.
Qed.

Lemma get_by_id_session turn_id w :
  with_session (get_by_id turn_id) w =
  (Ok (row turn_id (turns w)), set_hooks [] (set_tx (w_db w) w)).
Proof. done. Qed.

Lemma appends_trans turn_id f g :
  appends turn_id f -> appends turn_id g -> appends turn_id (fun w => g (f w)).
Proof.
  intros Hf Hg w Hwf. destruct (Hf w Hwf) as [Hwf1 [m1 E1]].
  destruct (Hg _ Hwf1) as [Hwf2 [m2 E2]]. split; [done|].
  exists (m1 ++ m2)%list. by rewrite E2, E1, app_assoc.
Qed.

(** What has been promised to a tail that stopped with [e] having yielded [out]. *)
Definition tail_ok (turn_id : Z) (c : Z * Z) (out : list (string * pb_kind)) (e : tail_end)
    (w' : world) : Prop :=
  let seen := until_terminal (List.filter (past c) (entries_of w' turn_id)) in
  (exists later, seen = (out ++ later)%list) /\
  (e = TailReturned -> (seen = out /\ ends out = true) \/ finished w' turn_id).

(** One non-empty XREAD reply: what it yields, and where the cursor it leaves stands in the
    stream, however the stream grows. *)
Lemma poll_progress cursor c l entries :
  stream_wf l -> firstn TAIL_COUNT (List.filter (past c) l) = entries -> entries <> [] ->
  let '(out, cursor', stop) := emit cursor entries in
  out = until_terminal entries /\ stop = ends entries /\
  (exists R, List.filter (past c) l = (entries ++ R)%list) /\
  (stop = false -> out = entries /\
   exists k, parse_id cursor' = Some k /\
     forall more, stream_wf (l ++ more)%list ->
       List.filter (past c) (l ++ more) = (entries ++ List.filter (past k) (l ++ more))%list).
Proof.
  intros [Hg Hs] Hch Hne. pose proof (emit_spec cursor entries) as Hemit.
  assert (List.filter (past c) l = (entries ++ skipn TAIL_COUNT (List.filter (past c) l))%list)
    as EL by (by rewrite <- Hch, firstn_skipn).
  destruct (emit cursor entries) as [[out cursor'] stop]. destruct Hemit as (-> & -> & Hcont).
  split; [done|]. split; [done|]. split; [by eexists|]. intros Hf.
  destruct (Hcont Hf) as [Ho [He|(pre & e & He & ->)]]; [done|]. split; [done|].
  rewrite He, <- app_assoc in EL. exists (key e, 0). split.
  - assert (In e (List.filter (past c) l)) as Hin by (rewrite EL; apply in_elt).
    apply filter_In in Hin as [Hin _]. rewrite Forall_forall in Hg.
    apply Hg. by apply list_elem_of_In.
  - intros more [_ Hs']. rewrite List.filter_app, EL at 1. rewrite He, <- !app_assoc. f_equal.
    cbn [app]. f_equal. symmetry. eapply advance_cursor; [done|].
    rewrite List.filter_app, EL at 1. by rewrite <- app_assoc.
Qed.

Lemma tail_loop_spec env turn_id cursor c w :
  env_appends turn_id env -> parse_id cursor = Some c -> stream_wf (entries_of w turn_id) ->
  let '(out, e, w') := tail_loop env turn_id cursor w in
  tail_ok turn_id c out e w' /\ stream_wf (entries_of w' turn_id) /\
  exists more, entries_of w' turn_id = (entries_of w turn_id ++ more)%list.
Proof.
  revert cursor c w. induction env as [|[f g] env IH]; intros cursor c w Henv Hc Hwf.
  { split; [split; [by eexists|done]|eauto using app_nil_r, eq_sym]. }
  apply Forall_cons in Henv as [[Hf Hg] Henv]. cbn [fst snd] in Hf, Hg. cbn [tail_loop].
  destruct (Hf w Hwf) as [Hwf1 [m1 E1]].
  destruct (xread_op (stream_key turn_id) cursor TAIL_COUNT (f w)) as [fs [Hx|Hx]]; rewrite Hx.
  2: { split; [split; [by eexists|done]|]. split; [done|]. exists m1. exact E1. }
  fold (entries_of (f w) turn_id).
  rewrite (after_past _ c) by (done || apply Hwf1). simpl fmap.
  set (w1 := set_faults fs (f w)).
  assert (entries_of w1 turn_id = entries_of (f w) turn_id) as Ew1 by done.
  destruct (firstn TAIL_COUNT _) as [|e0 chunk] eqn:Ech.
  - rewrite get_by_id_session. destruct (Hg w1) as [Hwf2 [m2 E2]]; [by rewrite Ew1|].
    set (w2 := set_hooks [] (set_tx (w_db (g w1)) (g w1))).
    assert (entries_of w2 turn_id = (entries_of w turn_id ++ m1 ++ m2)%list) as Ew2.
    { change (entries_of w2 turn_id) with (entries_of (g w1) turn_id).
      by rewrite E2, Ew1, E1, app_assoc. }
    destruct (match row turn_id (turns (g w1)) with
              | Some t => is_terminal (t_status t) | None => true end) eqn:Et.
    + assert (finished w2 turn_id) as Hfin.
      { unfold finished. change (turns w2) with (turns (g w1)). by destruct (row _ _). }
      destruct (row turn_id (turns (g w1))); rewrite ?Et;
        (split; [split; [by eexists|by right]|]; split; [done|by eexists]).
    + destruct (row turn_id (turns (g w1))) as [t|]; [rewrite Et|done].
      specialize (IH cursor c w2 Henv Hc Hwf2). destruct (tail_loop env turn_id cursor w2) as [[out e] w'].
      destruct IH as (Hok & Hwf' & m3 & E3). split; [done|]. split; [done|].
      eexists. by rewrite E3, Ew2, <- app_assoc.
  - pose proof (poll_progress cursor c _ _ Hwf1 Ech ltac:(done)) as Hp.
    set (entries := e0 :: chunk) in *.
    destruct (emit cursor entries) as [[out cursor'] stop].
    destruct Hp as (-> & -> & (R & EL) & Hcont). destruct (ends entries) eqn:Eends.
    + split; [|split; [done|by exists m1]]. unfold tail_ok. rewrite Ew1, EL, until_app, Eends.
      split; [exists []; by rewrite app_nil_r|]. intros _. left. by rewrite ends_until.
    + destruct (Hcont eq_refl) as [-> (k & Hk & Hmore)].
      specialize (IH cursor' k w1 Henv Hk Hwf1).
      destruct (tail_loop env turn_id cursor' w1) as [[rest en] w'].
      destruct IH as ([[later Hl] Hend] & Hwf' & m3 & E3). rewrite Ew1 in E3.
      split; [|split; [done|exists (m1 ++ m3)%list; by rewrite E3, E1, app_assoc]].
      unfold tail_ok. rewrite E3 in *. rewrite (Hmore m3 Hwf'), until_app, Eends. split.
      * exists later. by rewrite Hl, app_assoc.
      * intros Hr. destruct (Hend Hr) as [[-> Ho]|]; [left|by right].
        split; [done|]. rewrite ends_app, Ho. apply orb_true_r.
Qed.

(** ** Progress *)

Definition quiet (f : world -> world) : Prop := forall w, w_faults w = [] -> w_faults (f w) = [].

Lemma xread_quiet k c n w :
  w_faults w = [] ->
  redis_op (xread k c n) w = (Ok (firstn n <$> after c (stream_entries w k)), w).
Proof. intros E. unfold redis_op. by rewrite E. Qed.

Lemma until_length_le l : (List.length (until_terminal l) <= List.length l)%nat.
Proof. induction l as [|e l IH]; simpl; [lia|]. destruct (pb_terminal e.2); simpl; lia. Qed.

Lemma tail_loop_complete env turn_id cursor c w :
  env_appends turn_id env -> Forall (fun fg => quiet fg.1 /\ quiet fg.2) env ->
  parse_id cursor = Some c -> stream_wf (entries_of w turn_id) -> w_faults w = [] ->
  let pending := List.filter (past c) (entries_of w turn_id) in
  ends pending = true -> (List.length (until_terminal pending) <= List.length env)%nat ->
  (tail_loop env turn_id cursor w).1 = (until_terminal pending, TailReturned).
Proof.
  revert cursor c w. induction env as [|[f g] env IH]; intros cursor c w Henv Hq Hc Hwf Hfl pending He Hlen.
  { destruct pending as [|e l]; [done|]. exfalso. simpl in Hlen. destruct (pb_terminal e.2); simpl in Hlen; lia. }
  apply Forall_cons in Henv as [[Hf Hg] Henv]. apply Forall_cons in Hq as [[Hqf _] Hq].
  cbn [fst snd] in *. cbn [tail_loop]. destruct (Hf w Hwf) as [Hwf1 [m1 E1]].
  rewrite xread_quiet by auto. fold (entries_of (f w) turn_id).
  rewrite (after_past _ c) by (done || apply Hwf1). simpl fmap.
  assert (List.filter (past c) (entries_of (f w) turn_id) =
    (pending ++ List.filter (past c) m1)%list) as Ep by (by rewrite E1, List.filter_app).
  assert (ends (List.filter (past c) (entries_of (f w) turn_id)) = true) as He1
    by (by rewrite Ep, ends_app, He).
  assert (until_terminal pending = until_terminal (List.filter (past c) (entries_of (f w) turn_id)))
    as Eu by (by rewrite Ep, until_app, He).
  destruct (firstn TAIL_COUNT _) as [|e0 chunk] eqn:Ech.
  { by destruct (List.filter (past c) (entries_of (f w) turn_id)). }
  pose proof (poll_progress cursor c _ _ Hwf1 Ech ltac:(done)) as Hp.
  set (entries := e0 :: chunk) in *.
  destruct (emit cursor entries) as [[out cursor'] stop].
  destruct Hp as (-> & -> & (R & EL) & Hcont). destruct (ends entries) eqn:Eends.
  - cbn [fst]. by rewrite Eu, EL, until_app, Eends.
  - destruct (Hcont eq_refl) as [-> (k & Hk & Hmore)]. specialize (Hmore []).
    rewrite app_nil_r in Hmore. specialize (Hmore Hwf1).
    rewrite Hmore, until_app, Eends in Eu. rewrite Hmore, ends_app, Eends in He1.
    specialize (IH cursor' k (f w) Henv Hq Hk Hwf1 (Hqf w Hfl) He1).
    destruct (tail_loop env turn_id cursor' (f w)) as [[rest en] w']. cbn [fst] in *.
    rewrite Eu in Hlen. rewrite length_app in Hlen. simpl in Hlen.
    specialize (IH ltac:(lia)). injection IH as -> ->. by rewrite Eu.
Qed.

(** ** Publication *)

(** The identifiers of a stream are below the server's next one. *)
Definition ids_below (n : Z) (l : list (string * pb_kind)) : Prop :=
  Forall (fun e => key e < n) l.

Lemma sorted_suffix (l l' : list (string * pb_kind)) :
  StronglySorted (fun a b => key a < key b) (l ++ l') ->
  StronglySorted (fun a b => key a < key b) l'.
Proof.
  induction l as [|e l IH]; [done|]. simpl. intros H. apply IH.
  by apply StronglySorted_inv in H as [? _].
Qed.

Lemma sorted_snoc (l : list (string * pb_kind)) x :
  StronglySorted (fun a b => key a < key b) l -> Forall (fun e => key e < key x) l ->
  StronglySorted (fun a b => key a < key b) (l ++ [x])%list.
Proof.
  induction 1 as [|e l Hs IH Hf]; intros Hx; simpl; [repeat constructor|].
  apply Forall_cons in Hx as [He Hx]. constructor; [by apply IH|].
  apply Forall_app. split; [done|by apply Forall_singleton].
Qed.

Lemma append_generated n ev l :
  0 <= n -> stream_wf l -> ids_below n l -> stream_wf (l ++ [(entry_id n, ev)])%list.
Proof.
  intros Hn [Hg Hs] Hb.
  assert (key (entry_id n, ev) = n) as Hk by (unfold key; simpl; by rewrite parse_entry_id).
  split.
  - apply Forall_app. split; [done|]. apply Forall_singleton. unfold generated.
    rewrite Hk. by apply parse_entry_id.
  - apply sorted_snoc; [done|]. by rewrite Hk.
Qed.

Lemma xadd_expire `{!RedisTrim} k ev maxlen ttl w :
  0 <= ttl ->
  w_redis (redis_expire k ttl (xadd k ev maxlen w).2).2 !! k =
  Some (mk_entry (RStream (trim maxlen (stream_entries w k ++ [(entry_id (w_stream_seq w), ev)])))
          (Some (w_now w + seconds ttl))).
Proof.
  intros Ht. unfold redis_expire, xadd. cbn [snd]. unfold live. simpl.
  rewrite lookup_insert_eq. unfold live_expiry.
  destruct (live w k) eqn:El; [|simpl; by rewrite lookup_insert_eq].
  unfold live in El. destruct (w_redis w !! k) as [[v [t|]]|] eqn:E; try done; simpl;
    [|by rewrite lookup_insert_eq].
  destruct (Z.leb (w_now w) t); [|done]. simpl. by rewrite lookup_insert_eq.
Qed.

(* ------------------------------------------------------------------ *)
(** * Properties *)

(** Publishing appends: with Redis up, [publish] returns a fresh identifier above all
    those of the stream, the stream is a suffix of the old one with the event at its end,
    nothing is dropped while it holds at most the maximum, and the key lives a full TTL
    from now. *)
Theorem publish_appends `{!RedisTrim} (turn_id : Z) (ev : pb_kind) (w : world) :
  w_faults w = [] -> 0 <= w_stream_seq w ->
  stream_wf (entries_of w turn_id) -> ids_below (w_stream_seq w) (entries_of w turn_id) ->
  let id := entry_id (w_stream_seq w) in
  exists w' kept dropped, publish turn_id ev w = (Ok id, w') /\
    entries_of w' turn_id = kept /\ (entries_of w turn_id ++ [(id, ev)])%list = (dropped ++ kept)%list /\
    (dropped <> [] -> (TURN_STREAM_MAX_EVENTS <= List.length kept)%nat) /\
    stream_wf kept /\ ids_below (w_stream_seq w') kept /\
    r_expires_at <$> w_redis w' !! stream_key turn_id = Some (Some (w_now w + seconds TURN_STREAM_TTL_S)).
Proof.
  intros Hf Hn Hwf Hb id.
  destruct (trim_suffix TURN_STREAM_MAX_EVENTS (entries_of w turn_id ++ [(id, ev)])%list)
    as (dropped & Hd & Hlen).
  pose proof (xadd_expire (stream_key turn_id) ev TURN_STREAM_MAX_EVENTS TURN_STREAM_TTL_S w
    ltac:(unfold TURN_STREAM_TTL_S; lia)) as He.
  fold (entries_of w turn_id) id in He.
  unfold publish, pbind, redis_op. rewrite Hf.
  destruct (xadd (stream_key turn_id) ev TURN_STREAM_MAX_EVENTS w) as [rid w1] eqn:Ex.
  assert (rid = id /\ w_faults w1 = [] /\ w_now w1 = w_now w /\ w_stream_seq w1 = w_stream_seq w + 1)
    as (-> & Hf1 & Hn1 & Hs1) by (unfold xadd in Ex; by injection Ex as <- <-).
  rewrite Hf1. cbn [snd] in He.
  destruct (redis_expire (stream_key turn_id) TURN_STREAM_TTL_S w1) as [[] w2] eqn:Ee.
  assert (w_now w2 = w_now w /\ w_stream_seq w2 = w_stream_seq w + 1) as [Hn2 Hs2].
  { unfold redis_expire in Ee. destruct (live w1 _); injection Ee as <-; done. }
  cbn [snd] in He. exists w2. do 2 eexists. split; [done|].
  assert (entries_of w2 turn_id = trim TURN_STREAM_MAX_EVENTS (entries_of w turn_id ++ [(id, ev)]))
    as ->.
  { unfold entries_of at 1, stream_entries, live. rewrite He, Hn2.
    by rewrite (proj2 (Z.leb_le _ _)) by (unfold seconds, TURN_STREAM_TTL_S; lia). }
  split; [done|]. split; [exact Hd|]. split; [exact Hlen|].
  pose proof (append_generated _ ev _ Hn Hwf Hb) as [Hg Hs]. fold id in Hg, Hs.
  assert (ids_below (w_stream_seq w + 1) (entries_of w turn_id ++ [(id, ev)])) as Hb'.
  { apply Forall_app. split; [eapply Forall_impl; [exact Hb|intros; simpl in *; lia]|].
    apply Forall_singleton. unfold key. simpl. unfold id. rewrite parse_entry_id by done. lia. }
  rewrite Hd in Hg, Hs, Hb'. apply Forall_app in Hg as [_ Hg]. apply Forall_app in Hb' as [_ Hb'].
  split; [split; [exact Hg|by eapply sorted_suffix]|]. rewrite Hs2. split; [exact Hb'|].
  rewrite He. done.
Qed.


(** C30: A reconnecting client gets everything: with Redis up, a tail from the cursor of
    the last event it saw yields exactly the pending events up to the terminal one and
    returns, within one poll per pending event, whatever else is appended meanwhile. *)
Theorem tail_replays (env : list ((world -> world) * (world -> world))) (turn_id : Z)
    (cursor : string) (c : Z * Z) (w : world) :
  env_appends turn_id env -> Forall (fun fg => quiet fg.1 /\ quiet fg.2) env ->
  parse_id cursor = Some c -> stream_wf (entries_of w turn_id) -> w_faults w = [] ->
  let pending := List.filter (past c) (entries_of w turn_id) in
  ends pending = true -> (List.length (until_terminal pending) <= List.length env)%nat ->
  (tail env turn_id cursor w).1 = (until_terminal pending, TailReturned).
Proof.
  intros Henv Hq Hc Hwf Hf pending He Hlen.
  assert (nonempty cursor = true) as Hne by (by destruct cursor).
  unfold tail. rewrite Hne. by eapply tail_loop_complete.
Qed.

(* ------------------------------------------------------------------ *)
(** * Witnesses *)

(** A server that trims exactly. *)
#[export] Instance exact_trim : RedisTrim.
Proof.
  refine {| trim n l := skipn (List.length l - n) l |}.
  intros n l. exists (firstn (List.length l - n) l). split; [by rewrite firstn_skipn|].
  intros H. rewrite length_skipn. destruct (Nat.le_gt_cases (List.length l) n) as [Hle|]; [|lia].
  replace (List.length l - n)%nat with 0%nat in H by lia. done.
Defined.

Definition two_events : world :=
  (publish 1 (PbDone 7 "hi" None false) (publish 1 (PbToken "hi") empty_world).2).2.

Lemma two_events_wf : stream_wf (entries_of two_events 1).
Proof.
  assert (entries_of two_events 1 = [("1-0", PbToken "hi"); ("2-0", PbDone 7 "hi" None false)])
    as -> by (vm_compute; reflexivity).
  split; [repeat constructor|]. repeat constructor.
Qed.

Lemma publish_appends_witness :
  exists w', publish 1 (PbToken "a") empty_world = (Ok "1-0", w') /\
    entries_of w' 1 = [("1-0", PbToken "a")].
Proof.
  destruct (publish_appends 1 (PbToken "a") empty_world) as (w' & kept & dropped & H & Hk & Hd & Hl & _).
  - reflexivity.
  - vm_compute. discriminate.
  - split; constructor.
  - constructor.
  - exists w'. split; [exact H|]. rewrite Hk. destruct dropped as [|d ds].
    + symmetry. exact Hd.
    + simpl in Hd. injection Hd as _ Hd. symmetry in Hd. apply app_eq_nil in Hd as [_ ->].
      exfalso. assert (H0 := Hl ltac:(discriminate)). vm_compute in H0. lia.
Defined.

Lemma idle_appends n : env_appends 1 (repeat ((fun w : world => w), (fun w => w)) n).
Proof.
  apply Forall_forall. intros fg ->%list_elem_of_In%repeat_spec.
  split; intros w Hwf; (split; [exact Hwf|exists []; by rewrite app_nil_r]).
Qed.

Definition idle2 : list ((world -> world) * (world -> world)) :=
  repeat ((fun w : world => w), (fun w => w)) 2.


Lemma tail_replays_witness :
  (tail idle2 1 "" two_events).1 =
    (entries_of two_events 1, TailReturned).
Proof.
  assert (H : (tail idle2 1 "0" two_events).1 =
    (until_terminal (List.filter (past (0, 0)) (entries_of two_events 1)), TailReturned)).
  { apply (tail_replays _ 1 "0" (0, 0)).
    - apply idle_appends.
    - apply Forall_forall. intros fg ->%list_elem_of_In%repeat_spec.
      split; intros w Hw; exact Hw.
    - reflexivity.
    - exact two_events_wf.
    - vm_compute. reflexivity.
    - vm_compute. reflexivity.
    - vm_compute. lia. }
  change (tail idle2 1 "" two_events)
    with (tail idle2 1 "0" two_events).
  rewrite H. vm_compute. reflexivity.
Defined.
