(* ===== verification/CodexRemote.v ===== *)
(** Cross-worker signals of [services/codex/codex_remote.py] (steer marks and counters),
    thread quarantine ([services/codex/runner.py]), the idle probe
    ([services/turns/probe.py]) and the event bus ([services/bus/bus.py]). *)
From S2P Require Import Prelude PyStr Json Models Events World.

Open Scope Z_scope.
Open Scope string_scope.

Definition WEB_TURN_TIMEOUT_SECONDS : Z := 300.
Definition TG_TURN_TIMEOUT_SECONDS : Z := 300.

(* ------------------------------------------------------------------ *)
(** * Steer signals *)

Definition steer_key (chat_id : Z) : string := "codex:active-steer:" ++ str_of_Z chat_id.
Definition steer_count_key (turn_id : Z) : string := "codex:steer-count:" ++ str_of_Z turn_id.
Definition steer_ttl_s : Z := Z.max WEB_TURN_TIMEOUT_SECONDS TG_TURN_TIMEOUT_SECONDS + 60.

(** [except RedisError: <log>]. *)
Definition redis_quiet (m : prog world exn unit) : prog world exn unit := redis_default tt m.

Definition note_steer (chat_id : Z) (codex_turn_id : string) : prog world exn unit :=
  redis_quiet (redis_op (set_ex (steer_key chat_id) codex_turn_id steer_ttl_s)).

Definition bump_steer_count (turn_id : Z) : prog world exn unit :=
  redis_quiet (
    let key := steer_count_key turn_id in
    redis_op (redis_incrby key 1) ;;
    redis_op (redis_expire key steer_ttl_s)).

Definition peek_steer_count (turn_id : Z) : prog world exn Z :=
  redis_default 0 (
    let! raw := redis_op (redis_get (steer_count_key turn_id)) in
    pret match raw with
         | None => 0
         | Some (RInt n) => n
         | Some (RStr s) => match py_int s with Some n => n | None => 0 end
         | Some _ => 0
         end).

Definition consume_steer (chat_id : Z) (codex_turn_id : option string) : prog world exn bool :=
  match codex_turn_id with
  | None => pret false
  | Some expected =>
      redis_default false (
        let! raw := redis_op (redis_get (steer_key chat_id)) in
        match raw with
        | Some (RStr seen) =>
            if negb (String.eqb seen expected) then pret false
            else redis_op (redis_del (steer_key chat_id)) ;; pret true
        | _ => pret false
        end)
  end.

(* ------------------------------------------------------------------ *)
(** * Quarantine *)

Definition QUARANTINE_KEY_PREFIX : string := "codex:thread:quarantine:".
Definition quarantine_key (thread_id : string) : string := QUARANTINE_KEY_PREFIX ++ thread_id.

Definition quarantine_thread (thread_id : option string) : prog world exn unit :=
  match thread_id with
  | Some t =>
      if nonempty t then redis_quiet (redis_op (set_ex (quarantine_key t) "broken" 86400))
      else pret tt
  | None => pret tt
  end.

(** The thread a new turn tries to resume: the stored one, unless it is quarantined.
    [reuse] is the setting [CODEX_THREAD_REUSE_ENABLED]. *)
Definition initial_thread (reuse : bool) (stored : option string) : prog world exn (option string) :=
  match (if reuse then stored else None) with
  | None => pret None
  | Some t =>
      let! q := redis_op (redis_get (quarantine_key t)) in
      pret (if match q with Some (RStr s) => nonempty s | Some _ => true | None => false end
            then None else Some t)
  end.

(* ------------------------------------------------------------------ *)
(** * The client of a turn, as its callbacks use it *)

Record codex_client := {
  cl_thread_id : option string;                                 (** [current_thread_id] *)
  cl_turn_id : option string;                                   (** [current_turn_id] *)
  cl_interrupt : string -> string -> prog world exn bool;       (** [interrupt] *)
  cl_probe : string -> string -> prog world exn (option string);  (** [probe_turn_status] *)
  cl_extend_idle : bool;                                        (** [extend_idle_deadline] *)
  cl_diagnostics : list (string * json)                         (** [turn_diagnostics] *)
}.

Definition interrupt_best_effort (client : codex_client) : prog world exn unit :=
  match cl_thread_id client, cl_turn_id client with
  | Some thread_id, Some turn_id =>
      if nonempty thread_id && nonempty turn_id then
        except (fun e => if is_exception e then pret tt else praise e)
          (cl_interrupt client thread_id turn_id ;; pret tt)
      else pret tt
  | _, _ => pret tt
  end.

(** What a probed status means for the turn. *)
Inductive probe_verdict := StillRunning | Unknown | Terminal (status : TurnStatus).

Definition probe_verdict_of (raw : option string) : probe_verdict :=
  if bool_decide (raw = Some (CodexTurnStatus_value IN_PROGRESS)) then StillRunning
  else match map_codex_turn_status raw with
       | None | Some RUNNING => Unknown
       | Some mapped => Terminal mapped
       end.

Definition probe_or_extend_idle (client : codex_client) : prog world exn bool :=
  match cl_thread_id client, cl_turn_id client with
  | Some thread_id, Some turn_id =>
      if negb (nonempty thread_id && nonempty turn_id) then pret false
      else
        let! raw := except (fun e => if is_exception e then pret None else praise e)
          (let! r := cl_probe client thread_id turn_id in pret (Some r)) in
        match raw with
        | None => pret false
        | Some raw =>
            match probe_verdict_of raw with
            | StillRunning => pret true
            | Unknown => pret false
            | Terminal mapped =>
                praise (CodexTurnTerminal mapped
                  (match mapped, raw with
                   | COMPLETED, _ => None
                   | _, Some r => Some ("codex_reported_" ++ r)
                   | _, None => None
                   end) raw)
            end
        end
  | _, _ => pret false
  end.

(* ------------------------------------------------------------------ *)
(** * The bus *)

Definition bus_channel (chat_id : Z) : string := "chat:" ++ str_of_Z chat_id ++ ":events".

Definition bus_publish (chat_id : Z) (ev : chat_event) : prog world exn unit :=
  redis_quiet (redis_op (publish (bus_channel chat_id) (PubChatEvent ev))).

(* ------------------------------------------------------------------ *)
(** * Lemmas *)

(** The probe maps every literal of the sidecar and no other text to a verdict. *)
Lemma probe_verdict_spec raw :
  probe_verdict_of raw =
  match raw with
  | None => Unknown
  | Some r =>
      if String.eqb r "inProgress" then StillRunning
      else if String.eqb r "completed" then Terminal COMPLETED
      else if String.eqb r "interrupted" then Terminal CANCELLED
      else if String.eqb r "failed" then Terminal FAILED
      else Unknown
  end.
Proof.
  unfold probe_verdict_of. destruct raw as [r|]; [|done]. simpl.
  destruct (String.eqb_spec r "inProgress") as [->|Hne]; [done|].
  rewrite bool_decide_eq_false_2 by congruence.
  by destruct (String.eqb r "completed"), (String.eqb r "interrupted"), (String.eqb r "failed").
Qed.
