(* ===== verification/Services.v ===== *)
(** Row services: chats ([services/chats/service.py]), messages
    ([services/messages/service.py]), the journal ([services/events/service.py]) and users
    ([services/users/service.py]). Identifiers come from one sequence. *)
From S2P Require Import Prelude PyStr Json Models Events World.
From Stdlib Require Import Sorting.Sorted.

Open Scope Z_scope.
Open Scope string_scope.

(* ------------------------------------------------------------------ *)
(** * Chats *)

Definition chat_is (id : Z) (c : chat) : bool := Z.eqb (c_id c) id.

Definition chat_get (chat_id : Z) : prog world exn (option chat) :=
  sql (fun d => List.find (chat_is chat_id) (db_chats d)).

Definition with_thread (t : option string) (c : chat) : chat :=
  mk_chat (c_id c) (c_user_id c) (c_source c) (c_tg_chat_id c) (c_tg_message_thread_id c)
    t (c_title c) (c_last_msg_at c).
Definition with_last_msg (t : Z) (c : chat) : chat :=
  mk_chat (c_id c) (c_user_id c) (c_source c) (c_tg_chat_id c) (c_tg_message_thread_id c)
    (c_codex_thread_id c) (c_title c) t.

(** The partial unique index on Telegram chats, [NULLS NOT DISTINCT]. *)
Definition same_tg (tg_chat_id : option Z) (thread : option Z) (c : chat) : bool :=
  bool_decide (c_source c = TELEGRAM) && bool_decide (c_tg_chat_id c = tg_chat_id) &&
  bool_decide (c_tg_message_thread_id c = thread).

Definition insert_chat (user_id : Z) (source : ChatSource) (tg_chat_id thread : option Z) :
    prog world exn chat :=
  let! now := now in
  let! id := nextval in
  let c := mk_chat id user_id source tg_chat_id thread None None now in
  let! clash := sql (fun d => existsb (same_tg tg_chat_id thread) (db_chats d)) in
  if bool_decide (source = TELEGRAM) && clash then praise IntegrityError
  else sql_write (fun d => set_chats (db_chats d ++ [c])%list d) ;; pret c.

Definition get_or_create_for_tg (user_id tg_chat_id : Z) (thread : option Z) :
    prog world exn chat :=
  let! existing := sql (fun d => List.find (same_tg (Some tg_chat_id) thread) (db_chats d)) in
  match existing with
  | Some c => pret c
  | None => insert_chat user_id TELEGRAM (Some tg_chat_id) thread
  end.

Definition create_web_chat (user_id : Z) : prog world exn chat :=
  insert_chat user_id WEB None None.

Definition web_of (user_id : Z) (c : chat) : bool :=
  Z.eqb (c_user_id c) user_id && bool_decide (c_source c = WEB).

Definition count_web_for_user (user_id : Z) : prog world exn Z :=
  sql (fun d => Z.of_nat (rowcount (web_of user_id) (db_chats d))).

(** [ORDER BY key] by insertion; rows with equal keys keep the table's order. *)
Fixpoint insert_by {A} (key : A -> Z) (x : A) (l : list A) : list A :=
  match l with
  | [] => [x]
  | y :: l' => if Z.leb (key x) (key y) then x :: l else y :: insert_by key x l'
  end.
Definition order_by {A} (key : A -> Z) (l : list A) : list A := foldr (insert_by key) [] l.

Definition get_or_create_for_web (user_id : Z) : prog world exn chat :=
  let! rows := sql (fun d => order_by c_id (List.filter (web_of user_id) (db_chats d))) in
  match rows with
  | c :: _ => pret c
  | [] => create_web_chat user_id
  end.

Definition set_codex_thread_id (chat_id : Z) (thread_id : option string) :
    prog world exn unit :=
  sql_write (fun d => set_chats (update_where (chat_is chat_id) (with_thread thread_id) (db_chats d)) d).

Definition touch_last_msg_at (chat_id : Z) : prog world exn unit :=
  let! now := now in
  sql_write (fun d => set_chats (update_where (chat_is chat_id) (with_last_msg now) (db_chats d)) d).

Definition list_for_user (user_id : Z) (limit : nat) (source : option ChatSource) :
    prog world exn (list chat) :=
  sql (fun d => firstn limit (order_by (fun c => - c_last_msg_at c)
    (List.filter (fun c => Z.eqb (c_user_id c) user_id &&
       match source with Some s => bool_decide (c_source c = s) | None => true end) (db_chats d)))).

(* ------------------------------------------------------------------ *)
(** * Messages *)

Definition msg_append (chat_id : Z) (role : MessageRole) (text : string)
    (meta : option (list (string * json))) : prog world exn message :=
  touch_last_msg_at chat_id ;;
  let! id := nextval in
  let m := mk_message id chat_id role text meta in
  sql_write (fun d => set_messages (db_messages d ++ [m])%list d) ;;
  pret m.

Definition listed (ids : list Z) (m : message) : bool := existsb (Z.eqb (m_id m)) ids.

Definition delete_many (message_ids : list Z) : prog world exn unit :=
  match message_ids with
  | [] => pret tt
  | _ => sql_write (fun d =>
           set_messages (List.filter (fun m => negb (listed message_ids m)) (db_messages d)) d)
  end.

Definition update_text (message_id : Z) (text : string) (meta : option (list (string * json))) :
    prog world exn unit :=
  sql_write (fun d => set_messages (update_where (fun m => Z.eqb (m_id m) message_id)
    (fun m => mk_message (m_id m) (m_chat_id m) (m_role m) text meta) (db_messages d)) d).

(** [ORDER BY id DESC LIMIT n], reversed. *)
Definition last_page (limit : nat) (rows : list message) : list message :=
  rev (firstn limit (rev (order_by m_id rows))).

Definition msg_list (chat_id : Z) (limit : nat) (before_id : option Z) :
    prog world exn (list message) :=
  sql (fun d => last_page limit (List.filter (fun m => Z.eqb (m_chat_id m) chat_id &&
    match before_id with Some b => Z.ltb (m_id m) b | None => true end) (db_messages d))).

Definition list_recent (chat_id : Z) (limit : nat) : prog world exn (list message) :=
  sql (fun d => last_page limit
    (List.filter (fun m => Z.eqb (m_chat_id m) chat_id) (db_messages d))).

(* ------------------------------------------------------------------ *)
(** * Journal *)

Definition emit_event (kind : EventKind) (chat_id user_id : option Z)
    (payload : option (list (string * json))) : prog world exn event_row :=
  let! id := nextval in
  let e := mk_event_row id chat_id user_id kind payload in
  sql_write (fun d => set_events (db_events d ++ [e])%list d) ;;
  pret e.

(* ------------------------------------------------------------------ *)
(** * Users *)

Definition user_get (user_id : Z) : prog world exn (option user) :=
  sql (fun d => List.find (fun u => Z.eqb (u_id u) user_id) (db_users d)).

Definition list_all : prog world exn (list user) := sql (fun d => order_by u_id (db_users d)).

Definition with_display_name (n : option string) (u : user) : user :=
  mk_user (u_id u) (u_tg_user_id u) (u_email u) (u_password_hash u) n (u_tg_username u) (u_role u).
Definition with_role (r : UserRole) (u : user) : user :=
  mk_user (u_id u) (u_tg_user_id u) (u_email u) (u_password_hash u) (u_display_name u)
    (u_tg_username u) r.
Definition with_password (p : string) (u : user) : user :=
  mk_user (u_id u) (u_tg_user_id u) (u_email u) (Some p) (u_display_name u) (u_tg_username u)
    (u_role u).

Definition is_tg (tg_user_id : Z) (u : user) : bool :=
  bool_decide (u_tg_user_id u = Some tg_user_id).

(** INSERT under the unique Telegram identifier. *)
Definition insert_user (u : user) : prog world exn unit :=
  let! clash := sql (fun d => existsb (fun v =>
    (bool_decide (is_Some (u_tg_user_id u)) && bool_decide (u_tg_user_id v = u_tg_user_id u)) ||
    (bool_decide (is_Some (u_email u)) && bool_decide (u_email v = u_email u))) (db_users d)) in
  if clash then praise IntegrityError
  else sql_write (fun d => set_users (db_users d ++ [u])%list d).

(** [admin_ids] is the setting [TG_ADMIN_USER_IDS]. *)
Definition get_or_create_by_tg (admin_ids : list Z) (tg_user_id : Z) (display_name : option string) :
    prog world exn user :=
  let! existing := sql (fun d => List.find (is_tg tg_user_id) (db_users d)) in
  match existing with
  | None =>
      let role := if existsb (Z.eqb tg_user_id) admin_ids then Role_ADMIN else Role_USER in
      let! id := nextval in
      let u := mk_user id (Some tg_user_id) None None display_name None role in
      insert_user u ;; pret u
  | Some u =>
      if truthy_opt display_name && negb (bool_decide (u_display_name u = display_name)) then
        sql_write (fun d => set_users (update_where (fun v => Z.eqb (u_id v) (u_id u))
          (with_display_name display_name) (db_users d)) d) ;;
        pret (with_display_name display_name u)
      else pret u
  end.

Definition get_by_email (email : string) : prog world exn (option user) :=
  sql (fun d => List.find (fun u => bool_decide (u_email u = Some email)) (db_users d)).

(** [INSERT ... ON CONFLICT DO NOTHING RETURNING], then the SELECT of the winner. *)
Definition get_or_create_by_email (email : string) (display_name : option string) :
    prog world exn user :=
  let! id := nextval in
  let! existing := get_by_email email in
  match existing with
  | Some u => pret u
  | None =>
      let u := mk_user id None (Some email) None display_name None Role_USER in
      sql_write (fun d => set_users (db_users d ++ [u])%list d) ;; pret u
  end.

Definition set_password_hash (u : user) (password_hash : string) : prog world exn unit :=
  sql_write (fun d => set_users (update_where (fun v => Z.eqb (u_id v) (u_id u))
    (with_password password_hash) (db_users d)) d).

Definition to_promote (admin_ids : list Z) (u : user) : bool :=
  match u_tg_user_id u with
  | Some t => existsb (Z.eqb t) admin_ids && bool_decide (u_role u = Role_USER)
  | None => false
  end.
Definition to_demote (admin_ids : list Z) (u : user) : bool :=
  match u_tg_user_id u with
  | Some t => bool_decide (u_email u = None) && bool_decide (u_role u = Role_ADMIN) &&
              negb (existsb (Z.eqb t) admin_ids)
  | None => false
  end.

Definition sync_admin_roles (admin_ids : list Z) : prog world exn (Z * Z) :=
  let! promoted :=
    match admin_ids with
    | [] => pret 0
    | _ =>
        let! n := sql (fun d => rowcount (to_promote admin_ids) (db_users d)) in
        sql_write (fun d => set_users
          (update_where (to_promote admin_ids) (with_role Role_ADMIN) (db_users d)) d) ;;
        pret (Z.of_nat n)
    end in
  let! n := sql (fun d => rowcount (to_demote admin_ids) (db_users d)) in
  sql_write (fun d => set_users
    (update_where (to_demote admin_ids) (with_role Role_USER) (db_users d)) d) ;;
  pret (promoted, Z.of_nat n).

(* ------------------------------------------------------------------ *)
(** * Ordering *)

Section Order.
Context {A : Type} (key : A -> Z).

Definition sorted_by (l : list A) : Prop := StronglySorted (fun x y => key x <= key y) l.

Lemma in_insert_by x y l : In y (insert_by key x l) <-> y = x \/ In y l.
Proof.
induction l as [|z l IH]; simpl; [intuition congruence|].
destruct (Z.leb (key x) (key z)); simpl; [intuition congruence|]. rewrite IH. tauto.
Qed.

Lemma insert_by_sorted x l : sorted_by l -> sorted_by (insert_by key x l).
Proof.
unfold sorted_by. induction 1 as [|z l Hs IH Hf]; simpl; [repeat constructor|].
destruct (Z.leb_spec (key x) (key z)) as [Hle|Hlt].
- constructor; [by constructor|]. constructor; [done|].
  eapply Forall_impl; [exact Hf|]. intros. simpl in *. lia.
- constructor; [done|]. apply Forall_forall. intros y Hy.
  apply list_elem_of_In, in_insert_by in Hy as [->|Hy]; [lia|].
  rewrite Forall_forall in Hf. apply Hf. by apply list_elem_of_In.
Qed.

Lemma order_by_sorted l : sorted_by (order_by key l).
Proof. induction l as [|x l IH]; simpl; [constructor|by apply insert_by_sorted]. Qed.

Lemma in_order_by x l : In x (order_by key l) <-> In x l.
Proof.
induction l as [|y l IH]; simpl; [done|]. rewrite in_insert_by, IH. intuition congruence.
Qed.

Lemma insert_by_perm x l : Permutation (insert_by key x l) (x :: l).
Proof.
induction l as [|y l IH]; simpl; [done|]. destruct (Z.leb (key x) (key y)); [done|].
rewrite IH. apply perm_swap.
Qed.

Lemma order_by_perm l : Permutation (order_by key l) l.
Proof. induction l as [|x l IH]; simpl; [done|]. by rewrite insert_by_perm, IH. Qed.

Lemma filter_insert_by p x l :
sorted_by l ->
List.filter p (insert_by key x l) =
if p x then insert_by key x (List.filter p l) else List.filter p l.
Proof.
unfold sorted_by. induction 1 as [|z l Hs IH Hf]; simpl; [done|].
destruct (Z.leb_spec (key x) (key z)) as [Hle|Hlt]; simpl.
- destruct (p x) eqn:Ex; simpl; [|done]. destruct (p z) eqn:Ez; simpl.
  + by rewrite (proj2 (Z.leb_le _ _) Hle).
  + clear IH. destruct (List.filter p l) as [|y l'] eqn:E; [done|]. simpl.
    rewrite (proj2 (Z.leb_le _ _)); [done|].
    assert (In y l) as Hy.
    { assert (In y (List.filter p l)) as H by (rewrite E; by left). by apply filter_In in H as [? _]. }
    rewrite Forall_forall in Hf. specialize (Hf y). rewrite list_elem_of_In in Hf.
    specialize (Hf Hy). lia.
- rewrite IH. destruct (p x), (p z); simpl; try done.
  by rewrite (proj2 (Z.leb_gt _ _) Hlt).
Qed.

Lemma filter_order_by p l : List.filter p (order_by key l) = order_by key (List.filter p l).
Proof.
induction l as [|x l IH]; simpl; [done|].
rewrite filter_insert_by by apply order_by_sorted. rewrite IH. by destruct (p x).
Qed.

(** With distinct keys, the rows below an element of the sorted list are those before it. *)
Lemma below_prefix pre x suf :
sorted_by (pre ++ x :: suf)%list -> NoDup (map key (pre ++ x :: suf)%list) ->
List.filter (fun y => Z.ltb (key y) (key x)) (pre ++ x :: suf)%list = pre.
Proof.
unfold sorted_by. induction pre as [|y pre IH]; simpl.
- intros Hs _. apply StronglySorted_inv in Hs as [_ Hf]. rewrite Z.ltb_irrefl.
  induction suf as [|z suf IH]; simpl; [done|]. apply Forall_cons in Hf as [Hz Hf].
  rewrite (proj2 (Z.ltb_ge _ _) Hz). auto.
- intros Hs Hnd. apply StronglySorted_inv in Hs as [Hs Hf]. apply NoDup_cons in Hnd as [Hni Hnd].
  rewrite IH by done.
  assert (key y <= key x) as Hle.
  { rewrite Forall_forall in Hf. apply Hf. apply list_elem_of_In, in_elt. }
  assert (key y <> key x) as Hne.
  { intros E. apply Hni. rewrite E. apply list_elem_of_In, in_map, in_elt. }
  rewrite (proj2 (Z.ltb_lt _ _)) by lia. done.
Qed.
End Order.

(* ------------------------------------------------------------------ *)
(** * Message pages *)

Definition messages_of (chat_id : Z) (ms : list message) : list message :=
  order_by m_id (List.filter (fun m => Z.eqb (m_chat_id m) chat_id) ms).

Lemma last_page_split limit (l : list message) :
  exists older, order_by m_id l = (older ++ last_page limit l)%list /\
    List.length (last_page limit l) = Nat.min limit (List.length l).
Proof.
  unfold last_page. exists (rev (skipn limit (rev (order_by m_id l)))). split.
  - rewrite <- rev_app_distr, firstn_skipn, rev_involutive. done.
  - rewrite length_rev, length_firstn, length_rev, (Permutation_length (order_by_perm m_id l)). done.
Qed.

(** Roles after a sync. *)
Definition synced_role (admin_ids : list Z) (u : user) : UserRole :=
  match u_tg_user_id u with
  | Some t => if existsb (Z.eqb t) admin_ids then Role_ADMIN
              else if bool_decide (u_email u = None) then Role_USER else u_role u
  | None => u_role u
  end.

Lemma with_role_same u : with_role (u_role u) u = u.
Proof. by destruct u. Qed.

Lemma sync_roles_users admin_ids users :
  update_where (to_demote admin_ids) (with_role Role_USER)
    (match admin_ids with
     | [] => users
     | _ => update_where (to_promote admin_ids) (with_role Role_ADMIN) users
     end) =
  map (fun u => with_role (synced_role admin_ids u) u) users.
Proof.
  assert (match admin_ids with [] => users
          | _ => update_where (to_promote admin_ids) (with_role Role_ADMIN) users end =
          update_where (to_promote admin_ids) (with_role Role_ADMIN) users) as ->.
  { destruct admin_ids; [|done]. rewrite update_where_none; [done|].
    apply rowcount_zero_iff. intros u _. unfold to_promote. by destruct (u_tg_user_id u). }
  unfold update_where. rewrite map_map. apply map_ext. intros [i tg em pw dn tn r].
  unfold to_promote, to_demote, synced_role. simpl.
  destruct tg as [t|]; [|done]. simpl.
  destruct (existsb (Z.eqb t) admin_ids) eqn:E, r, em; simpl; rewrite ?E; done.
Qed.

Lemma sync_spec admin_ids w :
  let us := db_users (w_tx w) in
  let after := map (fun u => with_role (synced_role admin_ids u) u) us in
  exists p d, (sync_admin_roles admin_ids w) =
    (Ok (p, d), set_tx (set_users after (w_tx w)) w) /\
    p = Z.of_nat (rowcount (to_promote admin_ids) us) /\
    d = Z.of_nat (rowcount (to_demote admin_ids)
          (update_where (to_promote admin_ids) (with_role Role_ADMIN) us)).
Proof.
  intros us after.
  pose proof (sync_roles_users admin_ids us) as H. fold after in H.
  assert (forall a, admin_ids = [] -> rowcount (to_promote admin_ids) a = 0%nat) as Hz.
  { intros a ->. apply rowcount_zero_iff. intros u _. unfold to_promote. by destruct (u_tg_user_id u). }
  unfold sync_admin_roles, pbind. destruct admin_ids as [|a l] eqn:Ea.
  - cbn. fold us. do 2 eexists. split; [|split; reflexivity].
    rewrite Hz by done. rewrite (update_where_none (to_promote [])) by by apply Hz.
    rewrite <- H. destruct w as [? []]; done.
  - cbn -[to_promote to_demote]. fold us. do 2 eexists. split; [|split; reflexivity].
    rewrite <- H. done.
Qed.

(* ------------------------------------------------------------------ *)
(** * Properties *)

(** Cursor pages neither skip nor repeat a message: the page of the newest messages,
    preceded by the messages older than its first one, is the whole chat in order of
    identifier, and a page holds the limit or all there is. *)
Theorem message_pages_partition (chat_id : Z) (limit : nat) (w : world) (m : message) rest w' :
  NoDup (map m_id (db_messages (w_tx w))) ->
  msg_list chat_id limit None w = (Ok (m :: rest), w') ->
  (messages_of chat_id (List.filter (fun x => Z.ltb (m_id x) (m_id m)) (db_messages (w_tx w)))
     ++ m :: rest)%list = messages_of chat_id (db_messages (w_tx w)) /\
  List.length (m :: rest) = Nat.min limit (List.length (messages_of chat_id (db_messages (w_tx w)))).
Proof.
  intros Hnd H. unfold msg_list, sql, gets in H. injection H as H _.
  set (l := List.filter _ (db_messages (w_tx w))) in H.
  destruct (last_page_split limit l) as (older & Ho & Hl). rewrite H in Ho, Hl.
  assert (l = List.filter (fun x => Z.eqb (m_chat_id x) chat_id) (db_messages (w_tx w))) as El.
  { apply List.filter_ext. intros x. apply andb_true_r. }
  unfold messages_of. rewrite <- El, Ho. split.
  - f_equal. transitivity (List.filter (fun y => Z.ltb (m_id y) (m_id m)) (order_by m_id l)).
    + rewrite filter_order_by, El. f_equal. clear.
      induction (db_messages (w_tx w)) as [|x ms IH]; [done|]. simpl.
      destruct (Z.ltb (m_id x) (m_id m)) eqn:E1, (Z.eqb (m_chat_id x) chat_id) eqn:E2; simpl;
        rewrite ?E1, ?E2, IH; done.
    + rewrite Ho. apply below_prefix; rewrite <- Ho; [apply order_by_sorted|].
      rewrite (order_by_perm m_id l), El. clear -Hnd.
      induction (db_messages (w_tx w)) as [|x ms IH]; [done|]. simpl in *.
      apply NoDup_cons in Hnd as [Hni Hnd]. destruct (Z.eqb (m_chat_id x) chat_id); simpl; [|auto].
      apply NoDup_cons. split; [|auto]. intros Hin. apply Hni.
      apply list_elem_of_In, in_map_iff in Hin as (y & <- & Hy). apply filter_In in Hy as [Hy _].
      by apply list_elem_of_In, in_map.
  - rewrite Hl, <- Ho. by rewrite (Permutation_length (order_by_perm m_id l)).
Qed.

(** The admin list is authoritative and idempotent: a sync gives every Telegram user
    of the list the admin role, takes it from Telegram-only users outside it, leaves every
    other role alone, and a second sync changes nothing. *)
Theorem sync_admin_roles_idempotent (admin_ids : list Z) (w : world) :
  let w1 := (sync_admin_roles admin_ids w).2 in
  map u_role (db_users (w_tx w1)) = map (synced_role admin_ids) (db_users (w_tx w)) /\
  (sync_admin_roles admin_ids w1) = (Ok (0, 0), w1).
Proof.
  intros w1. destruct (sync_spec admin_ids w) as (p & d & E & _).
  assert (w1 = set_tx (set_users (map (fun u => with_role (synced_role admin_ids u) u)
    (db_users (w_tx w))) (w_tx w)) w) as -> by (unfold w1; by rewrite E). clear E.
  set (us := db_users (w_tx w)). split; [cbn; by rewrite map_map|].
  set (w1 := set_tx _ w). destruct (sync_spec admin_ids w1) as (p' & d' & -> & -> & ->).
  change (db_users (w_tx w1)) with (map (fun u => with_role (synced_role admin_ids u) u) us).
  assert (Hp : rowcount (to_promote admin_ids)
    (map (fun u => with_role (synced_role admin_ids u) u) us) = 0%nat).
  { apply rowcount_zero_iff. intros u' (u & <- & _)%in_map_iff.
    unfold to_promote, synced_role. simpl. destruct (u_tg_user_id u) as [t|]; [|done].
    by destruct (existsb (Z.eqb t) admin_ids). }
  rewrite (update_where_none (to_promote admin_ids)) by done.
  assert (Hd : rowcount (to_demote admin_ids)
    (map (fun u => with_role (synced_role admin_ids u) u) us) = 0%nat).
  { apply rowcount_zero_iff. intros u' (u & <- & _)%in_map_iff.
    unfold to_demote, synced_role. simpl. destruct (u_tg_user_id u) as [t|]; [|done].
    destruct (existsb (Z.eqb t) admin_ids); [by rewrite andb_false_r|].
    by destruct (u_email u). }
  assert (map (fun u => with_role (synced_role admin_ids u) u)
    (map (fun u => with_role (synced_role admin_ids u) u) us) =
    map (fun u => with_role (synced_role admin_ids u) u) us) as Em.
  { rewrite map_map. apply map_ext. intros [i tg em pw dn tn r].
    unfold synced_role. simpl. destruct tg as [t|]; [|done].
    destruct (existsb (Z.eqb t) admin_ids); [done|]. by destruct em. }
  rewrite Hp, Hd, Em. done.
Qed.

(* ------------------------------------------------------------------ *)
(** * Witnesses *)

Lemma message_pages_partition_witness :
  let ms := [mk_message 1 7 Msg_USER "a" None; mk_message 2 8 Msg_USER "x" None;
             mk_message 3 7 Msg_ASSISTANT "b" None; mk_message 4 7 Msg_USER "c" None] in
  let w := set_tx (set_messages ms empty_db) empty_world in
  map m_id (messages_of 7 (List.filter (fun x => Z.ltb (m_id x) 3) ms) ++
    [mk_message 3 7 Msg_ASSISTANT "b" None; mk_message 4 7 Msg_USER "c" None]) = [1; 3; 4].
Proof.
  intros ms w.
  destruct (message_pages_partition 7 2 w (mk_message 3 7 Msg_ASSISTANT "b" None)
    [mk_message 4 7 Msg_USER "c" None] w) as [H _].
  - vm_compute. repeat constructor; set_solver.
  - vm_compute. reflexivity.
  - transitivity (map m_id (messages_of 7 ms)); [f_equal; exact H|vm_compute; reflexivity].
Defined.
