(* ===== verification/Mappers.v ===== *)
(** Chat events to protobuf events ([rpc/chat/mappers.py]) and the redaction of presigned
    links in user-facing text. *)
From S2P Require Import Prelude PyStr Json Models Events.

Open Scope string_scope.

Definition PRESIGNED_MARKER : string := "X-Amz-Signature=".
Definition REDACTED_URL : string := "[link expired or unavailable]".
Definition GENERATED_PREFIX : string := "/home/codex/.codex/generated_images/".

(** [text.split()]: the maximal runs of non-blank characters. *)
Fixpoint split_ws_go (cur : string) (s : string) : list string :=
  match s with
  | EmptyString => if nonempty cur then [cur] else []
  | String c s' =>
      if is_space c then
        (if nonempty cur then cur :: split_ws_go "" s' else split_ws_go "" s')
      else split_ws_go (cur ++ String c "") s'
  end.
Definition split_ws (s : string) : list string := split_ws_go "" s.

Definition redact_for_user (text : string) : string :=
  if negb (str_contains PRESIGNED_MARKER text) then text
  else join " " (map (fun tok => if str_contains PRESIGNED_MARKER tok then REDACTED_URL else tok)
                   (split_ws text)).

Definition attachment_to_pb (a : Attachment) : Attachment :=
  let source := if startswith (a_source a) GENERATED_PREFIX
                then "/generated/" ++ str_drop (String.length GENERATED_PREFIX) (a_source a)
                else a_source a in
  mk_attachment (a_kind a) source (a_caption a).

Definition error_event (code : string) (detail : option string) : pb_kind := PbError code detail.

Definition chat_event_to_pb (ev : chat_event) : pb_kind :=
  match ev with
  | TokenEvent delta => PbToken delta
  | ToolCallEvent name args => PbToolCall name args
  | ToolResultEvent name text attachments error =>
      PbToolResult name text (map attachment_to_pb attachments)
        (match error with
         | None => None
         | Some e => Some (mk_tool_error (redact_for_user (te_message e)) (te_code e))
         end)
  | ErrorEvent code detail =>
      error_event code (match detail with
                        | Some d => if nonempty d then Some (redact_for_user d) else Some d
                        | None => None
                        end)
  | DoneEvent final_text => PbDone 0 final_text None false
  end.

Definition final_text_for_done_frame (final_text streamed_text : string) : string :=
  if nonempty streamed_text && String.eqb final_text streamed_text then "" else final_text.

(* ------------------------------------------------------------------ *)
(** * Lemmas *)

(** A blank-free word found in a text lies within one side of a space. *)
Lemma prefix_space (p a b : string) :
  no_space p = true -> String.prefix p (a ++ String " " b) = true -> String.prefix p a = true.
Proof.
  revert a. induction p as [|c p IH]; intros a Hp H; [by destruct a|].
  simpl in Hp. apply andb_true_iff in Hp as [Hc Hp].
  destruct a as [|c' a]; simpl in *.
  - destruct (ascii_dec c " ") as [->|]; done.
  - destruct (ascii_dec c c'); [by apply IH|done].
Qed.

Lemma contains_space (p a b : string) :
  no_space p = true -> p <> "" -> str_contains p (a ++ String " " b) = true ->
  str_contains p a = true \/ str_contains p b = true.
Proof.
  intros Hp Hne. induction a as [|c a IH]; intros H.
  - simpl in H. unfold startswith in H. apply orb_true_iff in H as [H|H]; [|by right].
    exfalso. apply (prefix_space p "" b Hp) in H. by destruct p.
  - simpl in H |- *. apply orb_true_iff in H as [H|H].
    + left. apply orb_true_iff. left. unfold startswith in *.
      by apply (prefix_space p (String c a) b Hp).
    + destruct (IH H) as [H1|H1]; [left|by right]. by rewrite H1, orb_true_r.
Qed.

Lemma contains_join (p : string) (l : list string) :
  no_space p = true -> p <> "" -> Forall (fun t => str_contains p t = false) l ->
  str_contains p (join " " l) = false.
Proof.
  intros Hp Hne. induction l as [|t l IH]; intros Hf.
  - destruct p; [done|]. done.
  - apply Forall_cons in Hf as [Ht Hf]. destruct l as [|t' l]; [done|].
    apply not_true_iff_false. intros H.
    change (join " " (t :: t' :: l)) with (t ++ String " " (join " " (t' :: l))) in H.
    apply contains_space in H as [H|H]; [congruence| |done|done].
    rewrite (IH Hf) in H. done.
Qed.

(* ------------------------------------------------------------------ *)
(** * Properties *)

(** No presigned link reaches a client in an error text: the redacted text never
    contains a signature marker, and a text without one is passed through untouched. *)
Theorem redaction_hides_links (text : string) :
  str_contains PRESIGNED_MARKER (redact_for_user text) = false /\
  (str_contains PRESIGNED_MARKER text = false -> redact_for_user text = text).
Proof.
  unfold redact_for_user. split.
  - destruct (str_contains PRESIGNED_MARKER text) eqn:E; simpl negb; cbn iota; [|done].
    apply contains_join; [done..|]. apply Forall_forall. intros t Ht.
    apply list_elem_of_In, in_map_iff in Ht as (tok & <- & _).
    by destruct (str_contains PRESIGNED_MARKER tok) eqn:Et.
  - by intros ->.
Qed.

Lemma redaction_hides_links_witness :
  redact_for_user "get https://x/y?X-Amz-Signature=abc failed" =
    "get [link expired or unavailable] failed" /\
  redact_for_user "disk full" = "disk full".
Proof.
  split; [vm_compute; reflexivity|].
  apply (proj2 (redaction_hides_links "disk full")). vm_compute. reflexivity.
Defined.
