(* ===== verification/WebStream.v ===== *)
(** The web pipeline of one turn ([rpc/chat/stream.py]): the client's event stream turned
    into protobuf events, with token coalescing, steer segments, persistence of the final
    or partial assistant row, and one terminal event on every path. *)
From S2P Require Import Prelude PyStr Json Models Gen.
From S2P Require Import Events World TurnStore CodexRemote Services Mappers.

Open Scope Z_scope.
Open Scope string_scope.

Definition CHAT_TOKEN_COALESCE_BYTES : nat := 256.

(* ------------------------------------------------------------------ *)
(** * State *)

(** [_StreamState], with the token buffer of [stream_turn]. *)
Record stream_state := mk_stream_state {
  st_collector : StreamCollector;
  st_events_count : Z;
  st_last_event_type : string;
  st_segment_buffer_offset : nat;
  st_segment_tool_count : nat;
  st_seen_steer_count : Z;
  st_partial_msg_ids : list Z;
  st_pending_text : list string;
  st_pending_size : nat
}.

Definition initial_state : stream_state :=
  mk_stream_state empty_collector 0 "none" 0 0 0 [] [] 0.

Definition set_collector c s := mk_stream_state c (st_events_count s) (st_last_event_type s)
  (st_segment_buffer_offset s) (st_segment_tool_count s) (st_seen_steer_count s)
  (st_partial_msg_ids s) (st_pending_text s) (st_pending_size s).
Definition count_event t s := mk_stream_state (st_collector s) (st_events_count s + 1) t
  (st_segment_buffer_offset s) (st_segment_tool_count s) (st_seen_steer_count s)
  (st_partial_msg_ids s) (st_pending_text s) (st_pending_size s).
Definition set_seen n s := mk_stream_state (st_collector s) (st_events_count s)
  (st_last_event_type s) (st_segment_buffer_offset s) (st_segment_tool_count s) n
  (st_partial_msg_ids s) (st_pending_text s) (st_pending_size s).
Definition set_partials l s := mk_stream_state (st_collector s) (st_events_count s)
  (st_last_event_type s) (st_segment_buffer_offset s) (st_segment_tool_count s)
  (st_seen_steer_count s) l (st_pending_text s) (st_pending_size s).
Definition set_pending l n s := mk_stream_state (st_collector s) (st_events_count s)
  (st_last_event_type s) (st_segment_buffer_offset s) (st_segment_tool_count s)
  (st_seen_steer_count s) (st_partial_msg_ids s) l n.

Definition cut_segment (s : stream_state) : stream_state :=
  mk_stream_state (st_collector s) (st_events_count s) (st_last_event_type s)
    (String.length (col_buffer (st_collector s)))
    (List.length (col_tool_calls (st_collector s)))
    (st_seen_steer_count s) (st_partial_msg_ids s) (st_pending_text s) (st_pending_size s).

Definition segment_delta (s : stream_state) : string * list ToolCallRecord :=
  (str_drop (st_segment_buffer_offset s) (col_buffer (st_collector s)),
   skipn (st_segment_tool_count s) (col_tool_calls (st_collector s))).

(** The world with the coroutine's locals. *)
Definition sworld : Type := world * stream_state.

Definition on_w {A} (m : prog world exn A) : prog sworld exn A :=
  fun sw => let '(r, w) := m sw.1 in (r, (w, sw.2)).
Definition get_st {A} (f : stream_state -> A) : prog sworld exn A := gets (fun sw => f sw.2).
Definition mod_st (f : stream_state -> stream_state) : prog sworld exn unit :=
  modify (fun sw => (sw.1, f sw.2)).

(* ------------------------------------------------------------------ *)
(** * Persistence *)

Definition call_json (c : ToolCallRecord) : json :=
  JObj [("name", JStr (tr_name c)); ("args", JObj (tr_args c))].

Definition len_json {A} (l : list A) : json := JNum (Z.of_nat (List.length l)).

Definition nonempty_meta (m : list (string * json)) : option (list (string * json)) :=
  match m with [] => None | _ => Some m end.

Definition opt_entry (b : bool) (k : string) (v : json) : list (string * json) :=
  if b then [(k, v)] else [].

Definition turn_payload (text : string) (calls : list ToolCallRecord) (uploads : list Z) :
    list (string * json) :=
  [("final_text_len", JNum (Z.of_nat (String.length text)));
   ("tool_calls", len_json calls); ("uploads", len_json uploads)].

(** What becomes of a rate-limit snapshot: a validation error, an error of another kind, or
    the usage. *)
Inductive usage_parse := UsageInvalid | UsageFails (msg : string) | UsageOf (usage : list (string * json)).

Section Stream.
(** [upload_service.persist_attachments]: copies local files to the object store and
    returns the new upload identifiers. *)
Context (persist_attachments : Z -> Z -> list Attachment -> prog world exn (list Z)).
(** [codex_usage_service.from_rate_limits] at a time, as [serialize] writes it; [Usage]
    defines it. *)
Context (usage_payload : Z -> list (string * json) -> usage_parse).

Definition finalize_turn_persist (chat_id user_pk : Z) (text : string)
    (tool_calls : list ToolCallRecord) (tool_attachments : list Attachment)
    (client_id : option string) (turn_id : option Z) (partial_msg_ids : list Z) :
    prog world exn message :=
  with_session (
    let! upload_ids := persist_attachments chat_id user_pk tool_attachments in
    let meta := (opt_entry (negb (Nat.eqb (List.length tool_calls) 0)) "calls"
                   (JArr (map call_json tool_calls)) ++
                 opt_entry (negb (Nat.eqb (List.length upload_ids) 0)) "upload_ids"
                   (JArr (map JNum upload_ids)) ++
                 opt_entry (truthy_opt client_id) "client_id" (json_opt_str client_id))%list in
    let! assistant_msg := msg_append chat_id Msg_ASSISTANT text (nonempty_meta meta) in
    match turn_id with
    | Some t => attach_assistant_message t (m_id assistant_msg)
    | None => pret tt
    end ;;
    delete_many partial_msg_ids ;;
    emit_event TURN_COMPLETED (Some chat_id) (Some user_pk)
      (Some (turn_payload text tool_calls upload_ids)) ;;
    commit ;;
    pret assistant_msg).

Definition persist_assistant_turn (chat_id user_pk : Z) (text : string)
    (tool_calls : list ToolCallRecord) (tool_attachments : list Attachment) (partial : bool)
    (client_id : option string) (emit_journal : bool) : prog world exn message :=
  with_session (
    let! upload_ids := persist_attachments chat_id user_pk tool_attachments in
    let meta := (opt_entry partial "partial" (JBool true) ++
                 opt_entry (negb (Nat.eqb (List.length tool_calls) 0)) "calls"
                   (JArr (map call_json tool_calls)) ++
                 opt_entry (negb (Nat.eqb (List.length upload_ids) 0)) "upload_ids"
                   (JArr (map JNum upload_ids)) ++
                 opt_entry (truthy_opt client_id && negb partial) "client_id"
                   (json_opt_str client_id))%list in
    let! assistant_msg := msg_append chat_id Msg_ASSISTANT text (nonempty_meta meta) in
    let payload := (turn_payload text tool_calls upload_ids ++
                    opt_entry partial "reason" (JStr (code_value STREAM_DROPPED)))%list in
    (if emit_journal
     then emit_event (if partial then TURN_FAILED else TURN_COMPLETED) (Some chat_id)
            (Some user_pk) (Some payload) ;; pret tt
     else pret tt) ;;
    commit ;;
    pret assistant_msg).

Definition emit (chat_id user_pk : Z) (kind : EventKind) (payload : list (string * json)) :
    prog world exn unit :=
  with_session (emit_event kind (Some chat_id) (Some user_pk) (Some payload) ;; commit).

Definition persist_visible_partial (chat_id user_pk : Z) (client_id : option string) :
    prog sworld exn unit :=
  let! delta := get_st segment_delta in
  let '(text_delta, tools_delta) := delta in
  if negb (nonempty text_delta || negb (Nat.eqb (List.length tools_delta) 0)) then pret tt
  else
    let! msg := on_w (persist_assistant_turn chat_id user_pk text_delta tools_delta [] true
                        client_id true) in
    mod_st (fun s => cut_segment (set_partials (st_partial_msg_ids s ++ [m_id msg])%list s)).

Definition persist_segment (chat_id user_pk : Z) : prog sworld exn unit :=
  let! delta := get_st segment_delta in
  let '(text_delta, tools_delta) := delta in
  if negb (nonempty text_delta) then pret tt
  else
    let! msg := on_w (persist_assistant_turn chat_id user_pk text_delta tools_delta [] true
                        None false) in
    mod_st (fun s => cut_segment (set_partials (st_partial_msg_ids s ++ [m_id msg])%list s)).

(* ------------------------------------------------------------------ *)
(** * Callbacks *)

(** The arguments of [stream_turn]. *)
Record turn_args := {
  ta_client : codex_client;
  ta_chat_id : Z;
  ta_user_pk : Z;
  ta_client_id : option string;
  ta_turn_id : option Z;
  ta_sidecar : option SidecarName
}.

Definition mark_started (turn_id : option Z) (thread_id codex_turn_id : string) :
    prog world exn unit :=
  match turn_id with
  | None => pret tt
  | Some t => with_session (mark_running t thread_id codex_turn_id ;; commit)
  end.

Definition handle_idle (client : codex_client) (chat_id : Z) (turn_id : option Z) :
    prog world exn bool :=
  let! steered := consume_steer chat_id (cl_turn_id client) in
  if steered then pret (cl_extend_idle client)
  else
    let! alive := match turn_id with
                  | Some t => probe_or_extend_idle client
                  | None => pret false
                  end in
    if alive then pret (cl_extend_idle client)
    else interrupt_best_effort client ;; pret false.

Definition usage_key (s : SidecarName) : string := "codex:usage:snapshot:" ++ SidecarName_value s.
Definition usage_channel (s : SidecarName) : string := "codex:usage:" ++ SidecarName_value s.
Definition SNAPSHOT_TTL_S : Z := 3600.

Definition publish_usage (sidecar : SidecarName) (usage : list (string * json)) : prog world exn unit :=
  redis_quiet (
    redis_op (set_json_ex (usage_key sidecar) (JObj usage) SNAPSHOT_TTL_S) ;;
    redis_op (publish (usage_channel sidecar) (PubUsage usage))).

Definition publish_rate_limits (sidecar : SidecarName) (snapshot : list (string * json)) :
    prog world exn unit :=
  let! t := now in
  match usage_payload t snapshot with
  | UsageInvalid => pret tt
  | UsageFails msg => praise (ValueError msg)
  | UsageOf usage => publish_usage sidecar usage
  end.

Definition on_rate_limits_update (args : turn_args) (snapshot : list (string * json)) :
    prog world exn unit :=
  match ta_sidecar args with
  | Some sidecar => publish_rate_limits sidecar snapshot
  | None => pret tt
  end.

Definition check_steer_boundary (args : turn_args) : prog sworld exn unit :=
  match ta_turn_id args with
  | None => pret tt
  | Some t =>
      let! cur := on_w (peek_steer_count t) in
      let! seen := get_st st_seen_steer_count in
      if Z.leb cur seen then pret tt
      else mod_st (set_seen cur) ;; persist_segment (ta_chat_id args) (ta_user_pk args)
  end.

(* ------------------------------------------------------------------ *)
(** * The loop *)

(** What [client.run_turn] does between two suspensions of its consumer: yield an event,
    or call one of the callbacks; then how it ends. *)
Inductive client_item :=
| CEvent (ev : chat_event)
| CStarted (codex_turn_id thread_id : string)
| CIdle
| CRateLimits (snapshot : list (string * json)).
Inductive client_end := CStop | CRaise (e : exn).

Definition sgen (A : Type) : Type := gprog sworld exn pb_kind A.

(** [_flush_token_buffer] and the yield of its result. *)
Definition flush_tokens : sgen unit :=
  let* pending := glift (get_st st_pending_text) in
  match pending with
  | [] => gret tt
  | _ =>
      glift (mod_st (set_pending [] 0)) ;*
      gyield (PbToken (join "" pending))
  end.

(** How the [async for] ends without an exception. *)
Inductive loop_end := LoopReturned | LoopDone | LoopExhausted.

Definition on_event (args : turn_args) (coalesce_bytes : nat) (ev : chat_event) :
    sgen (option loop_end) :=
  glift (mod_st (count_event (event_type_name ev))) ;*
  glift (on_w (bus_publish (ta_chat_id args) ev)) ;*
  glift (mod_st (fun s => set_collector (absorb (st_collector s) ev) s)) ;*
  match ev with
  | ErrorEvent code detail =>
      flush_tokens ;*
      gyield (chat_event_to_pb ev) ;*
      glift (on_w (emit (ta_chat_id args) (ta_user_pk args) TURN_FAILED
        [("code", JStr code); ("detail", json_opt_str detail)])) ;*
      gret (Some LoopReturned)
  | DoneEvent _ =>
      flush_tokens ;*
      glift (check_steer_boundary args) ;*
      gret (Some LoopDone)
  | TokenEvent delta =>
      if Nat.ltb 0 coalesce_bytes then
        glift (mod_st (fun s => set_pending (st_pending_text s ++ [delta])%list
                                  (st_pending_size s + utf8_len delta) s)) ;*
        let* size := glift (get_st st_pending_size) in
        if Nat.leb coalesce_bytes size then
          flush_tokens ;* glift (check_steer_boundary args) ;* gret None
        else gret None
      else
        flush_tokens ;* gyield (chat_event_to_pb ev) ;*
        glift (check_steer_boundary args) ;* gret None
  | _ =>
      flush_tokens ;* gyield (chat_event_to_pb ev) ;*
      glift (check_steer_boundary args) ;* gret None
  end.

Fixpoint stream_loop (args : turn_args) (coalesce_bytes : nat) (items : list client_item)
    (fin : client_end) : sgen loop_end :=
  match items with
  | [] => match fin with CStop => gret LoopExhausted | CRaise e => glift (praise e) end
  | CEvent ev :: rest =>
      let* stop := on_event args coalesce_bytes ev in
      match stop with
      | Some how => gret how
      | None => stream_loop args coalesce_bytes rest fin
      end
  | CStarted codex_turn_id thread_id :: rest =>
      glift (on_w (mark_started (ta_turn_id args) thread_id codex_turn_id)) ;*
      stream_loop args coalesce_bytes rest fin
  | CIdle :: rest =>
      let* alive := glift (on_w (handle_idle (ta_client args) (ta_chat_id args) (ta_turn_id args))) in
      if (alive : bool) then stream_loop args coalesce_bytes rest fin else glift (praise TimeoutError)
  | CRateLimits snapshot :: rest =>
      glift (on_w (on_rate_limits_update args snapshot)) ;*
      stream_loop args coalesce_bytes rest fin
  end.

Definition event_from_probe_terminal (args : turn_args) (status : TurnStatus)
    (raw_status : string) : prog sworld exn pb_kind :=
  let! c := get_st st_collector in
  if bool_decide (status = COMPLETED) then
    let full_text := if nonempty (col_final_text c) then col_final_text c else col_buffer c in
    let has_content := nonempty full_text || negb (Nat.eqb (List.length (col_tool_calls c)) 0) ||
                       negb (Nat.eqb (List.length (col_attachments c)) 0) in
    let! message :=
      if has_content then
        let! partials := get_st st_partial_msg_ids in
        let! m := on_w (finalize_turn_persist (ta_chat_id args) (ta_user_pk args) full_text
          (col_tool_calls c) (col_attachments c) (ta_client_id args) (ta_turn_id args) partials) in
        mod_st (set_partials []) ;; pret (Some m)
      else pret None in
    pret (PbDone (ta_chat_id args) (final_text_for_done_frame full_text (col_buffer c)) message false)
  else
    persist_visible_partial (ta_chat_id args) (ta_user_pk args) (ta_client_id args) ;;
    pret (error_event ("codex_reported_" ++ raw_status) (Some raw_status)).

Definition turn_status_raw (detail : option string) (status : TurnStatus) : string :=
  match detail with
  | Some d => if nonempty d then d else TurnStatus_value status
  | None => TurnStatus_value status
  end.

(** The [except] clauses of the loop: the terminal event and the clean-up of each. *)
Definition stream_handler (args : turn_args) (e : exn) : sgen loop_end :=
  let client := ta_client args in
  let partial := persist_visible_partial (ta_chat_id args) (ta_user_pk args) (ta_client_id args) in
  let journal kind payload := on_w (emit (ta_chat_id args) (ta_user_pk args) kind payload) in
  match e with
  | CodexTurnTerminal status _ detail =>
      let* event := glift (event_from_probe_terminal args status (turn_status_raw detail status)) in
      gyield event ;* gret LoopReturned
  | StaleTurnStreamError diagnostics =>
      glift (on_w (interrupt_best_effort client)) ;*
      glift (on_w (quarantine_thread (cl_thread_id client))) ;*
      glift partial ;*
      gyield (error_event (code_value TURN_TIMEOUT) (Some "stale-turn-notifications")) ;*
      glift (journal THREAD_RESET [("reason", JStr "stale_turn_stream"); ("diagnostics", JObj diagnostics)]) ;*
      gret LoopReturned
  | TimeoutError =>
      let detail := "idle>300.0s" in
      glift (on_w (interrupt_best_effort client)) ;*
      glift (on_w (quarantine_thread (cl_thread_id client))) ;*
      glift partial ;*
      gyield (error_event (code_value TURN_TIMEOUT) (Some detail)) ;*
      glift (journal TURN_FAILED [("code", JStr (code_value TURN_TIMEOUT)); ("detail", JStr detail);
        ("diagnostics", JObj (cl_diagnostics client))]) ;*
      gret LoopReturned
  | CancelledError =>
      glift (on_w (interrupt_best_effort client)) ;*
      glift partial ;*
      let* len := glift (get_st (fun s => String.length (col_buffer (st_collector s)))) in
      glift (journal TURN_INTERRUPTED [("source", JStr "web"); ("partial_len", JNum (Z.of_nat len))]) ;*
      glift (praise CancelledError)
  | _ =>
      gyield (error_event (code_value CODEX_ERROR) (Some (exn_str e))) ;*
      glift (journal TURN_FAILED [("exc_type", JStr (exn_type e))]) ;*
      gret LoopReturned
  end.

(** What follows the loop: the missing-completion error, or the final row and [done]. *)
Definition after_loop (args : turn_args) (how : loop_end) : sgen unit :=
  match how with
  | LoopReturned => gret tt
  | _ =>
      let* c := glift (get_st st_collector) in
      if negb (col_done_seen c) then
        gyield (error_event (code_value STREAM_DROPPED) (Some "Codex stream ended without completion")) ;*
        glift (on_w (emit (ta_chat_id args) (ta_user_pk args) TURN_FAILED
          [("reason", JStr (code_value STREAM_DROPPED))]))
      else
        let final_text := if nonempty (col_final_text c) then col_final_text c else col_buffer c in
        let* partials := glift (get_st st_partial_msg_ids) in
        let* assistant_msg := glift (on_w (finalize_turn_persist (ta_chat_id args) (ta_user_pk args)
          final_text (col_tool_calls c) (col_attachments c) (ta_client_id args) (ta_turn_id args)
          partials)) in
        glift (mod_st (set_partials [])) ;*
        gyield (PbDone (ta_chat_id args) (final_text_for_done_frame (col_final_text c) (col_buffer c))
                  (Some assistant_msg) false)
  end.

Definition stream_turn (args : turn_args) (coalesce_bytes : nat) (items : list client_item)
    (fin : client_end) : sgen unit :=
  let* how := gexcept (stream_handler args) (stream_loop args coalesce_bytes items fin) in
  after_loop args how.
End Stream.

(* ------------------------------------------------------------------ *)
(** * Terminal events *)

Definition silent (y : pb_kind) : Prop := pb_terminal y = false.

(** Exactly one terminal event, the last one. *)
Definition one_terminal (ys : list pb_kind) : Prop :=
  exists pre t, ys = (pre ++ [t])%list /\ Forall silent pre /\ pb_terminal t = true.

Lemma one_terminal_app ys ys' : Forall silent ys -> one_terminal ys' -> one_terminal (ys ++ ys')%list.
Proof.
  intros H (pre & t & -> & Hp & Ht). exists (ys ++ pre)%list, t.
  split; [by rewrite app_assoc|]. split; [by apply Forall_app|done].
Qed.

Lemma one_terminal_single t : pb_terminal t = true -> one_terminal [t].
Proof. intros H. by exists [], t. Qed.

Lemma emit_ok chat_id user_pk kind payload w : (emit chat_id user_pk kind payload w).1 = Ok tt.
Proof.
  unfold emit, with_session.
  match goal with |- context [(?m ;; commit)%prog ?x] =>
    change ((m ;; commit)%prog x) with (commit (m x).2) end.
  match goal with |- context [commit ?x] => pose proof (commit_ok x) as H; destruct (commit x) end.
  exact H.
Qed.

Lemma on_w_ok {A} (m : prog world exn A) sw : (on_w m sw).1 = (m sw.1).1.
Proof. unfold on_w. by destruct (m sw.1). Qed.

#[export] Hint Resolve emit_ok on_w_ok : gwp.

Lemma on_w_emit_ok chat_id user_pk kind payload sw :
  (on_w (emit chat_id user_pk kind payload) sw).1 = Ok tt.
Proof. rewrite on_w_ok. apply emit_ok. Qed.

Lemma get_st_ok {A} (f : stream_state -> A) sw : (get_st f sw).1 = Ok (f sw.2).
Proof. done. Qed.
Lemma mod_st_ok f sw : (mod_st f sw).1 = Ok tt.
Proof. done. Qed.

#[export] Hint Resolve on_w_emit_ok get_st_ok mod_st_ok : gwp.

Section Terminals.
Context (persist_attachments : Z -> Z -> list Attachment -> prog world exn (list Z)).
Context (usage_payload : Z -> list (string * json) -> usage_parse).
Context (R : sworld -> sworld -> Prop).

Lemma gwp_flush w (Q : list pb_kind -> result exn unit -> sworld -> Prop) :
  (forall ys w', Forall silent ys -> Q ys (Ok tt) w') -> gwp R (flush_tokens w) Q.
Proof.
  intros H. unfold flush_tokens. repeat gwp_step.
  case_goal; repeat gwp_step; apply H; repeat constructor.
Qed.

(** What the yields of a piece of the loop are, by how it ends. *)
Definition loop_spec (ys : list pb_kind) (r : result exn loop_end) : Prop :=
  match r with Ok LoopReturned => one_terminal ys | _ => Forall silent ys end.

Definition event_spec (ys : list pb_kind) (r : result exn (option loop_end)) : Prop :=
  match r with Ok (Some how) => loop_spec ys (Ok how) | _ => Forall silent ys end.

Lemma on_event_spec args n ev w :
  gwp R (on_event persist_attachments args n ev w) (fun ys r _ => event_spec ys r).
Proof.
  unfold on_event. do 6 (gwp_step; try constructor).
  destruct ev; cbv beta iota; cbn [app];
    repeat first [gwp_step | apply gwp_flush; intros ? ? ? | case_goal]; simpl;
    repeat match goal with
    | |- Forall silent (_ ++ _)%list => apply Forall_app; split
    | |- Forall silent _ => assumption || (repeat constructor; done)
    | |- one_terminal (_ ++ _)%list => apply one_terminal_app
    | |- one_terminal [_] => by apply one_terminal_single
    end; try assumption.
Qed.

Lemma stream_loop_spec args n items fin w :
  gwp R (stream_loop persist_attachments usage_payload args n items fin w)
    (fun ys r _ => loop_spec ys r).
Proof.
  revert w. induction items as [|[ev| | |] items IH]; intros w; cbn [stream_loop].
  - destruct fin; repeat gwp_step; constructor.
  - apply gwp_bind. eapply gwp_mono; [|apply on_event_spec].
    intros ys [[how|]|e] wf H; cbn beta iota in *; [|eapply gwp_mono; [|apply IH]|done].
    + gwp_step. by rewrite app_nil_r.
    + intros ys' r wf' H'. destruct r as [[]|]; simpl in *; try (by apply Forall_app).
      by apply one_terminal_app.
  - repeat gwp_step; [apply IH|constructor].
  - repeat gwp_step; [|constructor]. case_goal; [apply IH|]. gwp_step. constructor.
  - repeat gwp_step; [apply IH|constructor].
Qed.

Lemma probe_event_terminal args status raw sw event :
  (event_from_probe_terminal persist_attachments args status raw sw).1 = Ok event ->
  pb_terminal event = true.
Proof.
  unfold event_from_probe_terminal, pbind, get_st, gets, pret.
  repeat case_goal; intros H; inversion H; done.
Qed.

Lemma stream_handler_spec args e w :
  gwp R (stream_handler persist_attachments args e w) (fun ys r _ => loop_spec ys r).
Proof.
  destruct e; cbn [stream_handler];
    try (repeat gwp_step; first [constructor|by apply one_terminal_single]).
  apply gwp_bind, gwp_lift. pose proof (probe_event_terminal args status (turn_status_raw detail status) w) as H.
  destruct (event_from_probe_terminal _ _ _ _ w) as [[event|e] w']; cbn; [|constructor].
  intros w2 _. apply one_terminal_single. by apply H.
Qed.

Lemma after_loop_spec args how ys1 w : loop_spec ys1 (Ok how) ->
  gwp R (after_loop persist_attachments args how w)
    (fun ys' r _ => match r with Ok _ => one_terminal (ys1 ++ ys')%list
                               | Raise _ => Forall silent (ys1 ++ ys')%list end).
Proof.
  intros H. destruct how; simpl in H; cbn [after_loop]; [gwp_step; by rewrite app_nil_r|..];
    repeat first [gwp_step | case_goal]; rewrite ?app_nil_r; try done;
    by apply one_terminal_app, one_terminal_single.
Qed.

Lemma stream_terminals args n items fin w :
  gwp R (stream_turn persist_attachments usage_payload args n items fin w)
    (fun ys r _ => match r with Ok _ => one_terminal ys | Raise _ => Forall silent ys end).
Proof.
  unfold stream_turn. apply gwp_bind, gwp_except. eapply gwp_mono; [|apply stream_loop_spec].
  intros ys1 [how|e] wf1 H; [by apply after_loop_spec|].
  eapply gwp_mono; [|apply stream_handler_spec]. simpl in H.
  intros ys2 [how|e'] wf2 H2; [|by apply Forall_app].
  apply after_loop_spec. destruct how; simpl in *; [by apply one_terminal_app|by apply Forall_app..].
Qed.

End Terminals.

(* ------------------------------------------------------------------ *)
(** * Token coalescing *)

(** A stream as characters of text and non-token events, in order: two streams with the
    same atoms differ only in how the text is cut into tokens. *)
Definition atoms (ys : list pb_kind) : list (ascii + pb_kind) :=
  flat_map (fun y => match y with
                     | PbToken d => map inl (list_ascii_of_string d)
                     | k => [inr k]
                     end) ys.

(** What the stream shows of an event without coalescing. *)
Definition shown (ev : chat_event) : list (ascii + pb_kind) :=
  match ev with DoneEvent _ => [] | _ => atoms [chat_event_to_pb ev] end.

Definition events_of (items : list client_item) : list chat_event :=
  flat_map (fun i => match i with CEvent ev => [ev] | _ => [] end) items.

(** The text still held back. *)
Definition held (sw : sworld) : list (ascii + pb_kind) :=
  map inl (list_ascii_of_string (join "" (st_pending_text sw.2))).

(** The held text is below the flush threshold, and its size is the bytes of its pieces. *)
Definition below (n : nat) (sw : sworld) : Prop :=
  st_pending_size sw.2 = list_sum (map utf8_len (st_pending_text sw.2)) /\
  (st_pending_size sw.2 < Nat.max n 1)%nat.

Lemma chars_append a b :
  list_ascii_of_string (a ++ b) = (list_ascii_of_string a ++ list_ascii_of_string b)%list.
Proof. induction a as [|c a IH]; [done|]. simpl. by rewrite IH. Qed.

Lemma join_app_single l d : join "" (l ++ [d])%list = join "" l ++ d.
Proof.
  induction l as [|x l IH]; [by rewrite append_nil_l || done|].
  destruct l as [|y l]; [done|]. change (x ++ "" ++ join "" ((y :: l) ++ [d])%list = (x ++ "" ++ join "" (y :: l)) ++ d).
  rewrite IH. by rewrite !append_assoc.
Qed.

Lemma atoms_app l1 l2 : atoms (l1 ++ l2)%list = (atoms l1 ++ atoms l2)%list.
Proof. apply flat_map_app. Qed.

(** The consumer of the stream cannot touch the coroutine's locals. *)
Definition keeps_locals : sworld -> sworld -> Prop := same snd.

Section Coalescing.
Context (persist_attachments : Z -> Z -> list Attachment -> prog world exn (list Z)).
Context (usage_payload : Z -> list (string * json) -> usage_parse).
Notation wp := (gwp keeps_locals).

(** The token buffer. *)
Definition pend (sw : sworld) := (st_pending_text sw.2, st_pending_size sw.2).
Definition emptied (sw sw' : sworld) : Prop :=
  st_pending_text sw'.2 = [] /\ (st_pending_size sw'.2 = 0%nat \/ pend sw' = pend sw).

Lemma on_w_pend {A} (m : prog world exn A) : respects (same pend) (on_w m).
Proof. intros sw. unfold on_w. by destruct (m sw.1). Qed.

Lemma mod_st_pend f : (forall s, st_pending_text (f s) = st_pending_text s /\
  st_pending_size (f s) = st_pending_size s) -> respects (same pend) (mod_st f).
Proof. intros H sw. unfold same, pend. cbn. destruct (H sw.2) as [-> ->]. done. Qed.

Lemma get_st_pend {A} (f : stream_state -> A) : respects (same pend) (get_st f).
Proof. intros sw. done. Qed.

Lemma check_steer_boundary_pend args :
  respects (same pend) (check_steer_boundary persist_attachments args).
Proof.
  unfold check_steer_boundary, persist_segment.
  pose proof (@on_w_pend). pose proof (@get_st_pend).
  repeat first [done | apply respects_bind; [typeclasses eauto| |intros] | case_goal
    | apply respects_ret; typeclasses eauto | by apply mod_st_pend | auto].
Qed.

Lemma held_pend sw sw' : pend sw' = pend sw -> held sw' = held sw.
Proof. unfold pend, held. by intros [= -> _]. Qed.

Lemma below_pend n sw sw' : pend sw' = pend sw -> below n sw -> below n sw'.
Proof. unfold pend, below. by intros [= -> ->]. Qed.

Lemma gwp_keep {A} (m : prog sworld exn A) sw (Q : list pb_kind -> result exn A -> sworld -> Prop) :
  respects (same pend) m -> (forall r sw', pend sw' = pend sw -> Q [] r sw') -> wp (glift m sw) Q.
Proof. intros Hm H. apply gwp_lift, H, Hm. Qed.

Lemma gwp_yield_keep y sw (Q : list pb_kind -> result exn unit -> sworld -> Prop) :
  (forall sw', pend sw' = pend sw -> Q [y] (Ok tt) sw') -> wp (gyield y sw) Q.
Proof. intros H. apply gwp_yield. intros w' Hw. apply H. unfold pend. by rewrite Hw. Qed.

Lemma gwp_flush_emptied sw (Q : list pb_kind -> result exn unit -> sworld -> Prop) :
  (forall ys sw', atoms ys = held sw -> emptied sw sw' -> Q ys (Ok tt) sw') ->
  wp (flush_tokens sw) Q.
Proof.
  intros H. unfold flush_tokens. apply gwp_bind, gwp_lift. cbn [fst snd get_st gets].
  destruct (st_pending_text sw.2) as [|d l] eqn:E0.
  - apply gwp_ret, H; [|split; [done|by right]]. unfold held. by rewrite E0.
  - apply gwp_bind, gwp_lift. cbn [fst snd mod_st modify]. intros w' Hw. apply H.
    + unfold held. rewrite E0. apply app_nil_r.
    + unfold emptied, keeps_locals, same in *. rewrite Hw. split; [done|by left].
Qed.

Lemma held_emptied sw sw' sw'' : emptied sw sw' -> pend sw'' = pend sw' -> held sw'' = [].
Proof. intros [E0 _] E1. rewrite (held_pend _ _ E1). unfold held. by rewrite E0. Qed.

Lemma below_emptied n sw sw' sw'' :
  emptied sw sw' -> pend sw'' = pend sw' -> below n sw -> below n sw''.
Proof.
  intros [E0 [E1|E1]] E2 H; apply (below_pend _ _ _ E2); [|by apply (below_pend _ sw)].
  unfold below. rewrite E0, E1. simpl. lia.
Qed.

(** What one event contributes, by how its handling ends. *)
Definition event_shown (n : nat) (ev : chat_event) (sw : sworld) (ys : list pb_kind)
    (r : result exn (option loop_end)) (sw' : sworld) : Prop :=
  ((atoms ys ++ held sw' = held sw ++ shown ev)%list \/
   (exists e, r = Raise e /\ (atoms ys ++ held sw' = held sw)%list)) /\
  (below n sw -> below n sw') /\
  match r with Ok (Some how) => held sw' = [] | _ => True end.

(** An event that is shown by the time the buffer has been emptied. *)
Lemma event_shown_flushed n ev sw sw1 sw2 sw3 ys :
  (below n sw -> below n sw1 \/ st_pending_text sw1.2 <> []) -> emptied sw1 sw2 ->
  pend sw3 = pend sw2 -> atoms ys = (held sw ++ shown ev)%list ->
  forall r, event_shown n ev sw ys r sw3.
Proof.
  intros Hb E2 E3 Hys r. unfold event_shown. rewrite (held_emptied _ _ _ E2 E3), app_nil_r.
  split; [by left|]. split; [|by destruct r as [[]|]].
  intros H. destruct (Hb H) as [H1|H1]; [by eapply below_emptied|].
  destruct E2 as [E0 [E1|E1]].
  - unfold below. injection E3 as -> ->. rewrite E0, E1. simpl. lia.
  - exfalso. apply H1. injection E1 as <- _. done.
Qed.

Lemma event_shown_raise n ev sw sw' e : pend sw' = pend sw -> event_shown n ev sw [] (Raise e) sw'.
Proof.
  intros E0. split; [right; exists e; split; [done|by rewrite (held_pend _ _ E0)]|].
  split; [by apply below_pend|done].
Qed.

(** Flush, and carry on with a piece that keeps the buffer. *)
Lemma flush_then {A} n ev sw sw1 (k : sgen unit) (m : prog sworld exn A) (a : option loop_end) y :
  (below n sw -> below n sw1 \/ st_pending_text sw1.2 <> []) -> respects (same pend) m ->
  (held sw1 ++ atoms y = held sw ++ shown ev)%list ->
  (k = gret tt /\ y = []) \/ (exists e, k = gyield e /\ y = [e]) ->
  wp ((flush_tokens ;* k ;* glift m ;* gret a) sw1) (event_shown n ev sw).
Proof.
  intros E1 Hm Hy Hk. apply gwp_bind, gwp_flush_emptied. intros ys sw2 Hys E2. cbv beta iota.
  assert (H : forall r sw3, pend sw3 = pend sw2 -> event_shown n ev sw (ys ++ y)%list r sw3).
  { intros r sw3 E3. eapply event_shown_flushed; [exact E1|exact E2|done|]. by rewrite atoms_app, Hys. }
  assert (Hrest : forall sw3, pend sw3 = pend sw2 ->
    wp ((glift m ;* gret a) sw3) (fun ys' => event_shown n ev sw (ys ++ (y ++ ys'))%list)).
  { intros sw3 E3. apply gwp_bind, gwp_keep; [done|]. intros r sw4 E4.
    destruct r; cbv beta iota; [apply gwp_ret|]; rewrite ?app_nil_r; apply H; congruence. }
  apply gwp_bind. destruct Hk as [[-> ->]|(e & -> & ->)].
  - apply gwp_ret. by apply Hrest.
  - apply gwp_yield_keep. intros sw3 E3. by apply Hrest.
Qed.

Definition push_token (delta : string) (s : stream_state) : stream_state :=
  set_pending (st_pending_text s ++ [delta])%list (st_pending_size s + utf8_len delta) s.

Lemma held_push sw delta :
  held (sw.1, push_token delta sw.2) = (held sw ++ shown (TokenEvent delta))%list.
Proof.
  unfold held, shown, push_token. cbn [snd set_pending st_pending_text].
  rewrite join_app_single, chars_append, map_app. f_equal. symmetry. apply app_nil_r.
Qed.

Lemma on_token_shown args n delta sw sw1 :
  pend sw1 = pend sw -> (0 < n)%nat ->
  wp ((glift (mod_st (push_token delta)) ;*
       let* size := glift (get_st st_pending_size) in
       if Nat.leb n size then
         flush_tokens ;* glift (check_steer_boundary persist_attachments args) ;* gret None
       else gret None) sw1) (event_shown n (TokenEvent delta) sw).
Proof.
  intros E1 Hn. apply gwp_bind, gwp_lift. cbn [fst snd mod_st modify]. cbn [app].
  apply gwp_bind, gwp_lift. cbn [fst snd get_st gets]. cbn [app].
  assert (Hh : held (sw1.1, push_token delta sw1.2) = (held sw ++ shown (TokenEvent delta))%list)
    by (rewrite held_push; by rewrite (held_pend _ _ E1)).
  destruct (n <=? _)%nat eqn:Hsize; to_prop.
  - apply (flush_then n _ sw _ (gret tt) _ _ []); [right|..|by left].
    + cbn. by destruct (st_pending_text sw1.2).
    + apply check_steer_boundary_pend.
    + by rewrite Hh, app_nil_r.
  - apply gwp_ret. split; [by left|]. split; [|done].
    unfold below, push_token in *. cbn [snd set_pending st_pending_text st_pending_size] in *.
    injection E1 as E1 E2. rewrite E1, map_app, list_sum_app. simpl. lia.
Qed.

Lemma on_event_shown args n ev sw :
  wp (on_event persist_attachments args n ev sw) (event_shown n ev sw).
Proof.
  unfold on_event. pose proof (check_steer_boundary_pend args) as Hc.
  apply gwp_bind, gwp_keep; [by apply mod_st_pend|]. intros [_|e] w1 E1; [|by apply event_shown_raise].
  apply gwp_bind, gwp_keep; [apply on_w_pend|]. intros [_|e] w2 E2; [|apply event_shown_raise; congruence].
  apply gwp_bind, gwp_keep; [by apply mod_st_pend|]. intros [_|e] w3 E3; [|apply event_shown_raise; congruence].
  cbv beta iota. cbn [app]. assert (E : pend w3 = pend sw) by congruence.
  assert (Hb : below n sw -> below n w3 \/ st_pending_text w3.2 <> []) by (left; by eapply below_pend).
  assert (Hh : forall y, atoms y = shown ev -> (held w3 ++ atoms y = held sw ++ shown ev)%list)
    by (intros y ->; by rewrite (held_pend _ _ E)).
  destruct ev; [destruct (0 <? n)%nat eqn:En; to_prop; [by apply on_token_shown|]|..].
  4: by apply (flush_then n _ sw _ (gret tt) _ _ []); auto.
  all: eapply flush_then; [done| |by apply Hh|right; eauto]; try done; apply on_w_pend.
Qed.

(** What the loop shows of the client's events, by how it ends. *)
Definition loop_shown (n : nat) (evs : list chat_event) (sw : sworld) (ys : list pb_kind)
    (r : result exn loop_end) (sw' : sworld) : Prop :=
  exists seen rest, evs = (seen ++ rest)%list /\
    (atoms ys ++ held sw' = held sw ++ flat_map shown seen)%list /\
    (below n sw -> below n sw') /\
    match r with
    | Ok LoopExhausted => rest = []
    | Ok _ => held sw' = []
    | Raise _ => True
    end.

Lemma loop_shown_nil n evs sw sw' r :
  pend sw' = pend sw -> (evs = [] /\ r = Ok LoopExhausted \/ exists e, r = Raise e) ->
  loop_shown n evs sw [] r sw'.
Proof.
  intros E0 H. exists [], evs. rewrite app_nil_r, (held_pend _ _ E0).
  split_and!; [done..|by apply below_pend|]. by destruct H as [[-> ->]|[e ->]].
Qed.

Lemma loop_shown_keep n evs sw sw1 ys r sw' :
  pend sw1 = pend sw -> loop_shown n evs sw1 ys r sw' -> loop_shown n evs sw ys r sw'.
Proof.
  intros E0 (seen & rest & H1 & H2 & H3 & H4). exists seen, rest.
  rewrite <- (held_pend _ _ E0). split_and!; try done. intros H. by apply H3, (below_pend _ _ _ E0).
Qed.

Lemma loop_shown_cons n ev evs sw sw1 ys1 ys r sw' :
  event_shown n ev sw ys1 (Ok None) sw1 -> loop_shown n evs sw1 ys r sw' ->
  loop_shown n (ev :: evs) sw (ys1 ++ ys)%list r sw'.
Proof.
  intros ([Hs|(e & [=] & _)] & Hb & _) (seen & rest & -> & H2 & H3 & H4).
  exists (ev :: seen), rest. split_and!; [done| |auto|done].
  by rewrite atoms_app, <- app_assoc, H2, app_assoc, Hs, <- app_assoc.
Qed.

Lemma loop_shown_stop n ev evs sw ys r r' sw' :
  event_shown n ev sw ys r sw' ->
  (exists how, r = Ok (Some how) /\ r' = Ok how /\ how <> LoopExhausted) \/ (exists e, r = Raise e /\ r' = Raise e) ->
  loop_shown n (ev :: evs) sw ys r' sw'.
Proof.
  intros (Hs & Hb & Hr) H.
  destruct Hs as [Hs|(e & -> & Hs)]; [exists [ev], evs|exists [], (ev :: evs)]; simpl; rewrite ?app_nil_r;
    split_and!; try done; destruct H as [(how & [= ->] & -> & H)|(e' & [= ->] & ->)]; by try destruct how.
Qed.

Lemma on_event_not_exhausted args n ev sw :
  wp (on_event persist_attachments args n ev sw) (fun _ r _ => r <> Ok (Some LoopExhausted)).
Proof.
  unfold on_event. do 6 (gwp_step; [|done..] || gwp_step).
  destruct ev; cbv beta iota; cbn [app];
    repeat first [gwp_step | apply gwp_flush; intros ? ? ? | case_goal]; done.
Qed.

Lemma stream_loop_shown args n items fin sw :
  wp (stream_loop persist_attachments usage_payload args n items fin sw)
    (loop_shown n (events_of items) sw).
Proof.
  revert sw. induction items as [|[ev|t th| |snap] items IH]; intros sw; cbn [stream_loop].
  - destruct fin; [apply gwp_ret|apply gwp_praise]; apply loop_shown_nil; eauto.
  - apply gwp_bind. eapply gwp_mono; [|apply gwp_and; [apply on_event_shown|apply (on_event_not_exhausted args n ev)]].
    intros ys [[how|]|e] sw1 [H Hne]; cbv beta iota in *.
    + apply gwp_ret. rewrite app_nil_r. eapply loop_shown_stop; [exact H|]. left. exists how. naive_solver.
    + eapply gwp_mono; [|apply IH]. intros ys2 r sw2 H2. by eapply loop_shown_cons.
    + eapply loop_shown_stop; [exact H|eauto].
  - apply gwp_bind, gwp_keep; [apply on_w_pend|]. intros [_|e] sw1 E0; [|apply loop_shown_nil; eauto].
    eapply gwp_mono; [|apply IH]. intros. by eapply loop_shown_keep.
  - apply gwp_bind, gwp_keep; [apply on_w_pend|]. intros [[]|e] sw1 E0; [| |apply loop_shown_nil; eauto].
    + eapply gwp_mono; [|apply IH]. intros. by eapply loop_shown_keep.
    + apply gwp_praise, loop_shown_nil; eauto.
  - apply gwp_bind, gwp_keep; [apply on_w_pend|]. intros [_|e] sw1 E0; [|apply loop_shown_nil; eauto].
    eapply gwp_mono; [|apply IH]. intros. by eapply loop_shown_keep.
Qed.

(** C14: Token coalescing does not change what a turn shows. For any threshold, the events
    yielded by the loop, followed by what is still held back, carry the same characters
    and the same other events in the same order as showing each client event by itself;
    a normal end flushes everything of the events seen, an exhausted client has been read
    to its end, and less than the threshold (in UTF-8 bytes) is ever held back. *)
Theorem coalescing_transparent args n items fin w ys r sw' :
  trace keeps_locals (stream_loop persist_attachments usage_payload args n items fin (w, initial_state))
    ys r sw' ->
  below n sw' /\
  exists seen rest, events_of items = (seen ++ rest)%list /\
    (atoms ys ++ held sw' = flat_map shown seen)%list /\
    match r with
    | Ok LoopExhausted => rest = []
    | Ok _ => held sw' = []
    | Raise _ => True
    end.
Proof.
  intros H. eapply gwp_trace in H; [|apply stream_loop_shown].
  destruct H as (seen & rest & H1 & H2 & H3 & H4). split; [|by exists seen, rest].
  apply H3. split; [done|]. simpl. lia.
Qed.
End Coalescing.

(* ------------------------------------------------------------------ *)
(** * The final row *)

Lemma msg_append_eq chat_id role text meta w :
  msg_append chat_id role text meta w =
  (Ok (mk_message (w_seq w) chat_id role text meta),
   set_tx (set_messages (db_messages (w_tx w) ++ [mk_message (w_seq w) chat_id role text meta])%list
     (set_chats (update_where (chat_is chat_id) (with_last_msg (w_now w)) (db_chats (w_tx w))) (w_tx w)))
     (set_seq (w_seq w + 1) w)).
Proof. reflexivity. Qed.

Lemma emit_event_eq kind chat_id user_id payload w :
  emit_event kind chat_id user_id payload w =
  (Ok (mk_event_row (w_seq w) chat_id user_id kind payload),
   set_tx (set_events (db_events (w_tx w) ++ [mk_event_row (w_seq w) chat_id user_id kind payload])%list (w_tx w))
     (set_seq (w_seq w + 1) w)).
Proof. reflexivity. Qed.

(** [persist_attachments] copies files and inserts upload rows: it neither commits nor
    touches another table, and identifiers only grow. *)
Definition uploads_only (persist_attachments : Z -> Z -> list Attachment -> prog world exn (list Z)) : Prop :=
  forall c u l w, let w' := (persist_attachments c u l w).2 in
    w_db w' = w_db w /\ w_tx w' = set_uploads (db_uploads (w_tx w')) (w_tx w) /\ w_seq w <= w_seq w'.

Definition attached (turn_id : option Z) (m : message) (turns : list turn) : list turn :=
  match turn_id with
  | Some t => update_where (has_id t) (with_assistant (m_id m)) turns
  | None => turns
  end.

Lemma fresh_not_listed ids m n : Forall (fun i => i < n) ids -> n <= m_id m -> listed ids m = false.
Proof.
  intros H Hm. unfold listed. induction H as [|i ids Hi H IH]; [done|]. simpl. rewrite IH, orb_false_r.
  apply Z.eqb_neq. lia.
Qed.

Lemma commit_db w : w_db (commit w).2 = w_tx w.
Proof. pose proof (commit_sqlview w) as H. by injection H. Qed.

Lemma pret_after_commit {A} (a : A) w :
  let '(r, w') := (commit ;; pret a)%prog w in r = Ok a /\ w_db w' = w_tx w.
Proof.
  unfold pbind, pret. pose proof (commit_ok w) as H. pose proof (commit_db w) as H'.
  destruct (commit w) as [[[]|e] w']; simpl in *; [done|congruence].
Qed.

Lemma delete_many_eq ids w :
  delete_many ids w = (Ok tt, set_tx (set_messages
    (List.filter (fun m => negb (listed ids m)) (db_messages (w_tx w))) (w_tx w)) w).
Proof.
  destruct ids as [|i ids]; [|done]. unfold delete_many, pret. do 2 f_equal.
  rewrite List.forallb_filter_id by by apply forallb_forall. rewrite set_messages_id. by destruct w.
Qed.

Lemma attach_opt_eq turn_id m w :
  match turn_id with Some t => attach_assistant_message t (m_id m) | None => pret tt end w =
  (Ok tt, set_tx (set_turns (attached turn_id m (db_turns (w_tx w))) (w_tx w)) w).
Proof.
  destruct turn_id; [done|]. unfold pret. do 2 f_equal. cbn [attached]. rewrite set_turns_id. by destruct w.
Qed.

Section Finalize.
Context (persist_attachments : Z -> Z -> list Attachment -> prog world exn (list Z)).

(** Finalising a web turn is one transaction. When it succeeds the chat has exactly one
    new assistant row, with the whole text, every partial row is gone, the turn points to
    the new row and the journal has one more [turn.completed] row; when it fails nothing is
    committed. *)
Theorem finalize_turn_persist_atomic chat_id user_pk text calls atts client_id turn_id partials w :
  uploads_only persist_attachments -> Forall (fun i => i < w_seq w) partials ->
  match finalize_turn_persist persist_attachments chat_id user_pk text calls atts client_id turn_id partials w with
  | (Ok m, w') =>
      m_chat_id m = chat_id /\ m_role m = Msg_ASSISTANT /\ m_text m = text /\ w_seq w <= m_id m /\
      db_messages (w_db w') =
        (List.filter (fun r => negb (listed partials r)) (db_messages (w_db w)) ++ [m])%list /\
      db_turns (w_db w') = attached turn_id m (db_turns (w_db w)) /\
      (exists e, db_events (w_db w') = (db_events (w_db w) ++ [e])%list /\ e_kind e = TURN_COMPLETED) /\
      db_users (w_db w') = db_users (w_db w) /\ db_settings (w_db w') = db_settings (w_db w)
  | (Raise e, w') => w_db w' = w_db w
  end.
Proof.
  intros Hup Hpart. unfold finalize_turn_persist, with_session. unfold pbind at 1.
  specialize (Hup chat_id user_pk atts (set_hooks [] (set_tx (w_db w) w))).
  destruct (persist_attachments _ _ _ _) as [[ids|e] w1]; simpl in Hup; [|by destruct Hup].
  destruct Hup as (Hdb & Htx & Hseq). cbv zeta.
  erewrite pbind_ok by apply msg_append_eq. cbv beta.
  erewrite pbind_ok by apply attach_opt_eq. cbv beta.
  erewrite pbind_ok by apply delete_many_eq. cbv beta.
  erewrite pbind_ok by apply emit_event_eq. cbv beta.
  match goal with |- context [(commit ;; pret ?a)%prog ?w2] =>
    pose proof (pret_after_commit a w2) as Hc; destruct ((commit ;; pret a)%prog w2) as [r w'] end.
  destruct Hc as [-> Hc]. simpl. simpl in Hc. rewrite Hc, Htx. simpl.
  split_and!; try done; [|by eexists].
  rewrite List.filter_app. simpl.
  by rewrite (fresh_not_listed partials _ _ Hpart).
Qed.
End Finalize.

(* ------------------------------------------------------------------ *)
(** * Witnesses *)

Definition no_uploads (c u : Z) (l : list Attachment) : prog world exn (list Z) := pret [].
Definition no_usage (t : Z) (s : list (string * json)) : usage_parse := UsageInvalid.
Definition demo_client : codex_client := {|
  cl_thread_id := Some "t"; cl_turn_id := Some "u"; cl_interrupt := fun _ _ => pret true;
  cl_probe := fun _ _ => pret None; cl_extend_idle := true; cl_diagnostics := [] |}.
Definition demo_args : turn_args := {|
  ta_client := demo_client; ta_chat_id := 7; ta_user_pk := 1; ta_client_id := Some "c";
  ta_turn_id := Some 3; ta_sidecar := None |}.
Definition demo_items : list client_item :=
  [CStarted "u" "t"; CEvent (TokenEvent "Hel"); CEvent (TokenEvent "lo");
   CEvent (ToolCallEvent "run" []); CEvent (TokenEvent "!"); CEvent (DoneEvent "Hello!")].
Definition demo_start : sworld := (empty_world, initial_state).


Lemma coalescing_transparent_witness :
  let '(ys, r, sw) := run_gen (stream_loop no_uploads no_usage demo_args 256 demo_items CStop demo_start) [] in
  r = Ok LoopDone /\ held sw = [] /\ ys = [PbToken "Hello"; PbToolCall "run" []; PbToken "!"] /\
  exists seen rest, events_of demo_items = (seen ++ rest)%list /\
    (atoms ys ++ held sw)%list = flat_map shown seen.
Proof.
  pose proof (run_gen_trace keeps_locals
    (stream_loop no_uploads no_usage demo_args 256 demo_items CStop demo_start) []
    (fun w => eq_refl) (Forall_nil_2 _)) as H.
  assert (Hr : (run_gen (stream_loop no_uploads no_usage demo_args 256 demo_items CStop demo_start) []).1 =
    ([PbToken "Hello"; PbToolCall "run" []; PbToken "!"], Ok LoopDone)) by (vm_compute; reflexivity).
  destruct (run_gen _ _) as [[ys r] wf]. injection Hr as -> ->.
  destruct (coalescing_transparent _ _ _ _ _ _ _ _ _ _ H) as (_ & seen & rest & H1 & H2 & H3).
  split_and!; [done..|]. by exists seen, rest.
Defined.

Lemma finalize_turn_persist_atomic_witness :
  let '(r, w') := finalize_turn_persist no_uploads 7 1 "Hello!" [] [] None None [0]
    (set_db (set_messages [mk_message 0 7 Msg_ASSISTANT "Hel" None] empty_db) empty_world) in
  exists m, r = Ok m /\ db_messages (w_db w') = [m] /\ m_text m = "Hello!".
Proof.
  set (w := set_db _ _).
  assert (Hup : uploads_only no_uploads) by (intros c u l w0; simpl; split_and!; [done|by destruct (w_tx w0)|lia]).
  assert (Hids : Forall (fun i => i < w_seq w) [0]) by (repeat constructor).
  pose proof (finalize_turn_persist_atomic no_uploads 7 1 "Hello!" [] [] None None [0] w Hup Hids) as H.
  assert (Hr : exists m, (finalize_turn_persist no_uploads 7 1 "Hello!" [] [] None None [0] w).1 = Ok m)
    by (eexists; vm_compute; reflexivity).
  destruct (finalize_turn_persist _ _ _ _ _ _ _ _ _ w) as [r w']. destruct Hr as [m Hr].
  simpl in Hr. subst r. exists m. destruct H as (_ & _ & H1 & _ & H2 & _). by split_and!.
Defined.
