(* ===== verification/TurnRunner.v ===== *)
(** The worker's job for one web turn ([services/turns/runner.py], [services/turns/tasks.py]):
    locks, lease, heartbeat, the consumption of [stream_turn], and the finalisation. *)
From S2P Require Import Prelude PyStr Json Models Gen Events World TurnStore.
From S2P Require Import Locks Lease RateLimit TurnStream CodexRemote Services Mappers WebStream.

Open Scope Z_scope.
Open Scope string_scope.

(* ------------------------------------------------------------------ *)
(** * Locals *)

(** The variables of [execute_turn_inner] its [finally] reads, with the heartbeat task
    ([None]: not created, [Some b]: [b] tells whether it still runs) and the event
    [ownership_lost]. *)
Record locals := mk_locals {
  r_cancelled : bool;
  r_status : option TurnStatus;
  r_error : option string * option string;
  r_published : bool;
  r_skip : bool;
  r_heartbeat : option bool;
  r_holder : option string;
  r_lost : bool
}.

Definition no_locals : locals := mk_locals false None (None, None) false false None None false.

Definition set_status st err l := mk_locals (r_cancelled l) (Some st) err (r_published l)
  (r_skip l) (r_heartbeat l) (r_holder l) (r_lost l).
Definition set_cancelled l := mk_locals true (Some CANCELLED) (r_error l) (r_published l)
  (r_skip l) (r_heartbeat l) (r_holder l) (r_lost l).
Definition set_published l := mk_locals (r_cancelled l) (r_status l) (r_error l) true
  (r_skip l) (r_heartbeat l) (r_holder l) (r_lost l).
Definition set_skip l := mk_locals (r_cancelled l) (r_status l) (r_error l) (r_published l)
  true (r_heartbeat l) (r_holder l) (r_lost l).
Definition set_beating b l := mk_locals (r_cancelled l) (r_status l) (r_error l)
  (r_published l) (r_skip l) (Some b) (r_holder l) (r_lost l).
Definition set_holder h l := mk_locals (r_cancelled l) (r_status l) (r_error l)
  (r_published l) (r_skip l) (r_heartbeat l) (Some h) (r_lost l).
Definition set_lost l := mk_locals (r_cancelled l) (r_status l) (r_error l) (r_published l)
  (r_skip l) (r_heartbeat l) (r_holder l) true.

Definition rworld : Type := world * locals.
Definition on_world {A} (m : prog world exn A) : prog rworld exn A :=
  fun rw => let '(r, w) := m rw.1 in (r, (w, rw.2)).
Definition get_local {A} (f : locals -> A) : prog rworld exn A := gets (fun rw => f rw.2).
Definition mod_local (f : locals -> locals) : prog rworld exn unit :=
  modify (fun rw => (rw.1, f rw.2)).

(* ------------------------------------------------------------------ *)
(** * Heartbeat *)

(** One round of [heartbeat_loop]: [true] when the turn is still owned. *)
Definition heartbeat_round (turn_id chat_id : Z) (holder : option string) : prog world exn bool :=
  let! owned := with_session (let! owned := heartbeat turn_id in commit ;; pret owned) in
  if negb owned then pret false
  else
    let! alive := heartbeat_active chat_id turn_id in
    if negb alive then pret false
    else match holder with
         | Some h => refresh turn_id h LEASE_TTL_S
         | None => pret true
         end.

(** The task: a lost round sets the event and ends the loop; an exception ends it. *)
Definition heartbeat_task (turn_id chat_id : Z) : prog rworld exn unit :=
  let! beating := get_local r_heartbeat in
  match beating with
  | Some true =>
      let! holder := get_local r_holder in
      except (fun e => mod_local (set_beating false))
        (let! owned := on_world (heartbeat_round turn_id chat_id holder) in
         if owned : bool then pret tt else mod_local set_lost ;; mod_local (set_beating false))
  | _ => pret tt
  end.

(** What runs while the runner waits for the next event: heartbeats of its own task and
    steps of other processes. *)
Inductive sched_step := Beat | Elsewhere (f : world -> world).

Definition run_step (turn_id chat_id : Z) (s : sched_step) : prog rworld exn unit :=
  match s with
  | Beat => heartbeat_task turn_id chat_id
  | Elsewhere f => modify (fun rw => (f rw.1, rw.2))
  end.

(* ------------------------------------------------------------------ *)
(** * The job *)

Definition build_terminal_event (status : option TurnStatus) (error : option string * option string) :
    pb_kind :=
  match status with
  | Some COMPLETED => PbDone 0 "" None false
  | _ =>
      let code := match error.1 with
                  | Some c => if nonempty c then c else code_value STREAM_DROPPED
                  | None => code_value STREAM_DROPPED end in
      let detail := match error.2 with
                    | Some d => if nonempty d then d else "background turn ended without terminal event"
                    | None => "background turn ended without terminal event" end in
      error_event code (Some detail)
  end.

(** [except Exception]. *)
Definition quietly {W} (m : prog W exn unit) : prog W exn unit :=
  except (fun e => if is_exception e then pret tt else praise e) m.

Section Runner.
Context `{!RedisTrim}.
Context (persist_attachments : Z -> Z -> list Attachment -> prog world exn (list Z)).
Context (usage_payload : Z -> list (string * json) -> usage_parse).

(** One event of the stream, published. *)
Definition consume_event (turn_id : Z) (event : pb_kind) : prog rworld exn unit :=
  let! event_id := on_world (publish turn_id event) in
  on_world (with_session (update_last_event turn_id event_id ;; commit)) ;;
  match event with
  | PbDone _ _ _ _ => mod_local set_published ;; mod_local (fun l => set_status COMPLETED (r_error l) l)
  | PbError code detail =>
      mod_local set_published ;;
      mod_local (set_status FAILED (Some (if nonempty code then code else "codex_error"), detail))
  | _ => pret tt
  end.

(** [async for event in stream_turn(...)]; the generator's locals are its own. *)
Fixpoint consume (turn_id chat_id : Z) (g : gen sworld exn pb_kind unit)
    (sched : list (list sched_step)) : prog rworld exn unit :=
  match g with
  | GRet _ sw => modify (fun rw => (sw.1, rw.2))
  | GRaise e sw => modify (fun rw => (sw.1, rw.2)) ;; praise e
  | GYield event sw resume =>
      modify (fun rw => (sw.1, rw.2)) ;;
      for_each (hd [] sched) (run_step turn_id chat_id) ;;
      let! lost := get_local r_lost in
      if lost then
        mod_local (set_status FAILED (Some "ownership_lost", Some "heartbeat/lease CAS failed mid-stream"))
      else
        consume_event turn_id event ;;
        (fun rw => consume turn_id chat_id (resume (rw.1, sw.2)) (tl sched) rw)
  end.

(** [open_codex_turn] around the turn: entering it may fail, leaving it runs whatever
    happens; what the client does in between. *)
Record codex_turn := {
  ct_open : prog world exn (codex_client * (list client_item * client_end));
  ct_close : prog world exn unit
}.

Definition in_codex {A} (c : codex_turn)
    (body : codex_client * (list client_item * client_end) -> prog rworld exn A) : prog rworld exn A :=
  let! opened := on_world (ct_open c) in
  finally (on_world (ct_close c)) (body opened).

(** The job's arguments and its environment. *)
Record job := {
  j_client_id : option string;
  j_coalesce_bytes : nat;
  j_worker : string;                      (** [lease.worker_id()] *)
  j_codex : codex_turn;
  j_sched : list (list sched_step)
}.

Definition locked_body (turn : turn) (j : job) (outcome : LockAcquireOutcome) : prog rworld exn unit :=
  let turn_id := t_id turn in
  let chat_id := t_chat_id turn in
  match outcome with
  | REDELIVERY => mod_local set_skip
  | ACTIVE_BUSY =>
      mod_local (set_status FAILED (Some (code_value TURN_BUSY),
        Some ("lock unavailable: " ++ LockAcquireOutcome_value outcome)))
  | ACQUIRED =>
      let! acquired := on_world (acquire turn_id (j_worker j) LEASE_TTL_S) in
      if negb acquired then mod_local set_skip
      else
        mod_local (set_holder (j_worker j)) ;;
        mod_local (set_beating true) ;;
        in_codex (j_codex j) (fun opened =>
          let args := {| ta_client := opened.1; ta_chat_id := chat_id; ta_user_pk := t_user_id turn;
                         ta_client_id := j_client_id j; ta_turn_id := Some turn_id;
                         ta_sidecar := Some (normalize (t_sidecar turn)) |} in
          fun rw => consume turn_id chat_id
            (stream_turn persist_attachments usage_payload args (j_coalesce_bytes j)
               opened.2.1 opened.2.2 (rw.1, initial_state)) (j_sched j) rw)
  end.

(** Run with the locals as a value, so that they survive an exception. *)
Definition with_locals {A} (m : prog rworld exn A) (l : locals) : prog world exn (result exn A * locals) :=
  fun w => let '(r, (w', l')) := m (w, l) in (Ok (r, l'), w').

Definition crash_message (e : exn) : string := "background crashed: " ++ exn_str e.

Definition publish_crash (turn_id : Z) (e : exn) : prog rworld exn unit :=
  quietly (
    on_world (publish turn_id (error_event (code_value CODEX_ERROR) (Some (crash_message e)))) ;;
    mod_local set_published).

(** The [except] clauses. *)
Definition on_failure (turn_id : Z) (e : exn) : prog rworld exn unit :=
  match e with
  | CancelledError => mod_local set_cancelled ;; praise CancelledError
  | _ =>
      mod_local (set_status FAILED (Some "codex_error", Some (crash_message e))) ;;
      publish_crash turn_id e
  end.

(** The [finally] clause. *)
Definition tear_down (turn_id : Z) (rl_user : user) (l : locals) : prog world exn unit :=
  match r_heartbeat l, r_holder l with
  | Some _, Some h => release turn_id h ;; pret tt
  | _, _ => pret tt
  end ;;
  (if negb (r_published l) && negb (r_cancelled l) && negb (r_skip l)
   then quietly (publish turn_id (build_terminal_event (r_status l) (r_error l)) ;; pret tt)
   else pret tt) ;;
  match r_status l with
  | Some status =>
      if negb (r_skip l)
      then with_session (finalize_once turn_id status (r_error l).1 (r_error l).2 ;; commit)
      else pret tt
  | None => pret tt
  end ;;
  (if negb (r_skip l) then cleanup turn_id ;; release_turn rl_user else pret tt).

(** The [try] statement. *)
Definition run_job (turn : turn) (rl_user : user) (j : job) : prog world exn unit :=
  let turn_id := t_id turn in
  let! outcome := hold_turn_locks (t_chat_id turn) turn_id (fun o => with_locals (locked_body turn j o) no_locals) in
  let! outcome := match outcome.1 with
                  | Ok _ => pret outcome
                  | Raise e => with_locals (on_failure turn_id e) outcome.2
                  end in
  finally (tear_down turn_id rl_user outcome.2) (lift_result outcome.1).

Definition execute_turn_inner (turn_id : Z) (j : job) : prog world exn unit :=
  let! found := with_session (
    let! turn := get_by_id turn_id in
    match turn with
    | None => pret None
    | Some t =>
        if is_terminal (t_status t) then pret None
        else let! rl_user := user_get (t_user_id t) in pret (Some (t, rl_user))
    end) in
  match found with
  | Some (t, Some rl_user) => run_job t rl_user j
  | _ => pret tt
  end.
End Runner.

(* ------------------------------------------------------------------ *)
(** * Lemmas *)

(** What the heartbeat and other processes leave alone of the locals. *)
Definition verdict (rw : rworld) := (r_skip rw.2, r_status rw.2).

Lemma on_world_verdict {A} (m : prog world exn A) : respects (same verdict) (on_world m).
Proof. intros rw. unfold on_world. by destruct (m rw.1). Qed.

Lemma get_local_verdict {A} (f : locals -> A) : respects (same verdict) (get_local f).
Proof. intros rw. done. Qed.

Lemma mod_local_verdict f :
  (forall l, (r_skip (f l), r_status (f l)) = (r_skip l, r_status l)) -> respects (same verdict) (mod_local f).
Proof. intros H rw. apply H. Qed.

#[export] Hint Resolve on_world_verdict get_local_verdict : frame.
#[export] Hint Extern 2 (respects _ (mod_local _)) => by apply mod_local_verdict : frame.

Lemma run_step_verdict turn_id chat_id s : respects (same verdict) (run_step turn_id chat_id s).
Proof.
  destruct s as [|f]; [|by intros rw].
  unfold run_step, heartbeat_task. solve_frame.
Qed.
#[export] Hint Resolve run_step_verdict : frame.

(** What the [finally] clause needs to know: the job is its owner's, any status is
    terminal, and a normal end has one. *)
Definition accounted (l : locals) : Prop :=
  r_skip l = false /\ match r_status l with Some s => is_terminal s = true | None => True end.

Definition concluded {A} (r : result exn A) (l : locals) : Prop :=
  accounted l /\ match r with Ok _ => r_status l <> None | Raise _ => True end.

Lemma accounted_verdict rw rw' : verdict rw' = verdict rw -> accounted rw.2 -> accounted rw'.2.
Proof. unfold verdict, accounted. by intros [= -> ->]. Qed.

Section RunnerLemmas.
Context `{!RedisTrim}.
Context (persist_attachments : Z -> Z -> list Attachment -> prog world exn (list Z)).
Context (usage_payload : Z -> list (string * json) -> usage_parse).

Lemma consume_event_concluded turn_id event rw :
  accounted rw.2 ->
  let '(r, rw') := consume_event turn_id event rw in
  accounted rw'.2 /\
  (r = Ok tt -> pb_terminal event = true \/ r_status rw.2 <> None -> r_status rw'.2 <> None).
Proof.
  intros Ha. unfold consume_event, pbind.
  pose proof (on_world_verdict (publish turn_id event) rw) as H1.
  destruct (on_world (publish turn_id event) rw) as [[eid|e] rw1]; simpl in H1;
    [|split; [by eapply accounted_verdict|done]].
  pose proof (on_world_verdict (with_session (update_last_event turn_id eid ;; commit)) rw1) as H2.
  unfold pbind in H2.
  destruct (on_world _ rw1) as [[u|e] rw2]; simpl in H2;
    [|split; [eapply accounted_verdict; [|exact Ha]; congruence|done]].
  assert (Hv : verdict rw2 = verdict rw) by congruence.
  pose proof (accounted_verdict _ _ Hv Ha) as Ha2. injection Hv as Hs Hst.
  destruct event; simpl; (split; [first [exact Ha2|split; [apply Ha2|done]]|]);
    intros _ [?|?]; congruence.
Qed.

Lemma steps_verdict turn_id chat_id steps : respects (same verdict) (for_each steps (run_step turn_id chat_id)).
Proof. apply respects_for_each; [typeclasses eauto|]. intros s. apply run_step_verdict. Qed.

(** A stream that shows a terminal event when it ends normally concludes the job. *)
Lemma consume_concluded turn_id chat_id g : forall sched rw,
  gwp keeps_locals g (fun ys r _ => match r with
    | Ok _ => r_status rw.2 <> None \/ Exists (fun y => pb_terminal y = true) ys
    | Raise _ => True end) ->
  accounted rw.2 ->
  let '(r, rw') := consume turn_id chat_id g sched rw in concluded r rw'.2.
Proof.
  induction g as [a sw|e sw|event sw resume IH]; intros sched rw Hg Ha; simpl in Hg.
  - split; [exact Ha|]. by destruct Hg as [Hg|Hg%Exists_nil].
  - by split.
  - cbn [consume]. unfold pbind at 1 2 3, modify at 1, get_local, gets. cbn [fst snd].
    pose proof (steps_verdict turn_id chat_id (hd [] sched) (sw.1, rw.2)) as Hv.
    destruct (for_each _ _ _) as [[[]|e] rw1]; simpl in Hv;
      [|split; [by eapply accounted_verdict|done]].
    pose proof (accounted_verdict _ _ Hv Ha) as Ha1.
    destruct (r_lost rw1.2); [split; [split; [apply Ha1|done]|done]|].
    unfold pbind. pose proof (consume_event_concluded turn_id event rw1 Ha1) as Hc.
    destruct (consume_event turn_id event rw1) as [[[]|e] rw2]; [|by split; [apply Hc|]].
    destruct Hc as [Ha2 Hst]. apply IH; [|done].
    specialize (Hg (rw2.1, sw.2) eq_refl). eapply gwp_mono; [|exact Hg].
    intros ys [u|e] wf; [|done]. injection Hv as _ Hs.
    intros [Hn|Hn]; [left; apply Hst; [done|]; right; congruence|].
    inversion Hn; subst; [left; apply Hst; auto|by right].
Qed.

Lemma one_terminal_exists ys : one_terminal ys -> Exists (fun y => pb_terminal y = true) ys.
Proof. intros (pre & t & -> & _ & Ht). apply Exists_app. right. by constructor. Qed.

Lemma in_codex_concluded c body rw :
  accounted rw.2 ->
  (forall opened rw1, accounted rw1.2 -> let '(r, rw') := body opened rw1 in concluded r rw'.2) ->
  let '(r, rw') := in_codex (A := unit) c body rw in concluded r rw'.2.
Proof.
  intros Ha Hb. unfold in_codex, pbind.
  pose proof (on_world_verdict (ct_open c) rw) as H1.
  destruct (on_world (ct_open c) rw) as [[opened|e] rw1]; simpl in H1;
    [|split; [by eapply accounted_verdict|done]].
  specialize (Hb opened rw1 (accounted_verdict _ _ H1 Ha)). unfold finally.
  destruct (body opened rw1) as [r rw2]. destruct Hb as [Ha2 Hr].
  pose proof (on_world_verdict (ct_close c) rw2) as H2.
  destruct (on_world (ct_close c) rw2) as [[u|e] rw3]; simpl in H2;
    (split; [by eapply accounted_verdict|]); [|done].
  destruct r; [|done]. injection H2 as _ ->. done.
Qed.

(** A successful acquisition, or a busy chat, leaves the job accounted for. *)
Lemma locked_body_concluded t j outcome rw :
  accounted rw.2 ->
  (outcome = ACTIVE_BUSY \/
   (outcome = ACQUIRED /\ (acquire (t_id t) (j_worker j) LEASE_TTL_S rw.1).1 = Ok true)) ->
  let '(r, rw') := locked_body persist_attachments usage_payload t j outcome rw in concluded r rw'.2.
Proof.
  intros Ha [->|[-> Hacq]]; cbn [locked_body].
  { split; [split; [apply Ha|done]|done]. }
  unfold pbind at 1, on_world at 1. destruct (acquire _ _ _ rw.1) as [r w1]. simpl in Hacq. subst r.
  cbn [negb]. unfold mod_local, modify. unfold pbind at 1 2. cbn [fst snd].
  apply in_codex_concluded; [apply Ha|]. intros opened rw1 Ha1.
  apply consume_concluded; [|done]. apply trace_gwp. intros ys r wf Ht.
  pose proof (gwp_trace _ _ _ _ _ _ (stream_terminals persist_attachments usage_payload _ _ _ _ _ _) Ht) as Hone. cbn beta in Hone.
  destruct r; [|done]. right. by apply one_terminal_exists.
Qed.

Lemma on_failure_concluded turn_id e rw :
  accounted rw.2 ->
  let '(r, rw') := on_failure turn_id e rw in accounted rw'.2 /\ r_status rw'.2 <> None.
Proof.
  intros Ha. destruct (is_exception e) eqn:He; [|destruct e; try done; by split; [split; [apply Ha|]|]].
  assert (Hk : respects (same verdict) (publish_crash turn_id e)) by (unfold publish_crash, quietly; solve_frame).
  set (rw1 := (rw.1, set_status FAILED (Some "codex_error", Some (crash_message e)) rw.2)).
  assert (on_failure turn_id e rw = publish_crash turn_id e rw1) as -> by (destruct e; done).
  specialize (Hk rw1). destruct (publish_crash turn_id e rw1) as [r rw2]. simpl in Hk. split.
  - eapply accounted_verdict; [exact Hk|]. split; [apply Ha|done].
  - injection Hk as _ ->. done.
Qed.

Lemma publish_cases turn_id ev w :
  (exists eid, (publish turn_id ev w).1 = Ok eid) \/ (publish turn_id ev w).1 = Raise RedisError.
Proof.
  unfold publish, pbind.
  match goal with |- context [redis_op ?f w] => destruct (redis_op_cases f w) as [[a E1]|E1];
    destruct (redis_op f w) as [r w1]; simpl in E1; subst r; [|by right] end.
  match goal with |- context [redis_op ?f w1] => destruct (redis_op_cases f w1) as [[a' E1]|E1];
    destruct (redis_op f w1) as [r w2]; simpl in E1; subst r; [|by right] end.
  by left; eexists.
Qed.

Lemma quiet_publish_ok turn_id ev w :
  exists w', quietly (publish turn_id ev ;; pret tt) w = (Ok tt, w').
Proof.
  unfold quietly, except, pbind. pose proof (publish_cases turn_id ev w) as Hc.
  destruct (publish turn_id ev w) as [r w1]. simpl in Hc.
  destruct Hc as [[eid ->]| ->]; by eexists.
Qed.

Lemma release_ok turn_id holder w : exists b w', release turn_id holder w = (Ok b, w').
Proof.
  unfold release, pbind, modify.
  match goal with |- context [redis_default false (redis_op ?f) ?x] =>
    destruct (redis_default_ok false f x) as [a Ha];
    destruct (redis_default false (redis_op f) x) as [r w1]; simpl in Ha; subst r end.
  by eexists _, _.
Qed.

Lemma tear_down_settles turn_id u l w :
  accounted l -> r_status l <> None -> settled turn_id (tear_down turn_id u l w).2.
Proof.
  intros [Hs Hst] Hne. unfold tear_down. rewrite Hs. destruct (r_status l) as [st|] eqn:E0; [|done].
  cbn [negb]. rewrite andb_true_r.
  assert (Hlease : forall w, exists w', (match r_heartbeat l, r_holder l with
    | Some _, Some h => release turn_id h ;; pret tt | _, _ => pret tt end) w = (Ok tt, w')).
  { intros w0. destruct (r_heartbeat l), (r_holder l) as [h|]; try (by eexists).
    destruct (release_ok turn_id h w0) as (b0 & w' & E1). unfold pbind. rewrite E1. by eexists. }
  destruct (Hlease w) as [w1 E1]. erewrite pbind_ok by exact E1.
  assert (Hpub : exists w', (if negb (r_published l) && negb (r_cancelled l)
    then quietly (publish turn_id (build_terminal_event (Some st) (r_error l)) ;; pret tt)
    else pret tt) w1 = (Ok tt, w')) by (case_goal; [apply quiet_publish_ok|by eexists]).
  destruct Hpub as [w2 E2]. erewrite pbind_ok by exact E2.
  destruct (finalize_session turn_id st (r_error l).1 (r_error l).2 w2 Hst) as (Hok & _).
  pose proof (finalize_settles turn_id st (r_error l).1 (r_error l).2 w2 Hst) as Hset.
  destruct (with_session _ w2) as [r w3] eqn:E3. simpl in Hok. subst r.
  erewrite pbind_ok by exact E3. unfold cleanup, pbind, pret.
  pose proof (release_turn_db u w3) as Hdb. unfold settled in *. rewrite Hdb. exact Hset.
Qed.

Lemma acquire_free turn_id holder ttl w :
  w_faults w = [] -> live w (lease_key turn_id) = None -> (acquire turn_id holder ttl w).1 = Ok true.
Proof.
  intros Hf Hl. unfold acquire, pbind. rewrite redis_default_nofault by done.
  unfold set_nx_ex. rewrite Hl. done.
Qed.

(** The lock scope of a job that is neither a redelivery nor leased elsewhere. *)
Lemma hold_concluded t j w :
  w_faults w = [] -> outcome_of (live w (active_key (t_chat_id t))) (t_id t) <> REDELIVERY ->
  live w (lease_key (t_id t)) = None ->
  exists r l w', hold_turn_locks (t_chat_id t) (t_id t)
    (fun o => with_locals (locked_body persist_attachments usage_payload t j o) no_locals) w =
    (Ok (r, l), w') /\ concluded r l.
Proof.
  intros Hf Hr Hl. rewrite hold_turn_locks_spec by done.
  set (o := outcome_of _ _) in *.
  assert (Ha : forall w, accounted (snd (A := world) (w, no_locals))) by done.
  destruct o eqn:Eo; [|done|]; cbn [bool_decide decide_rel].
  - rewrite bool_decide_eq_true_2 by done.
    set (w1 := put_key _ _ _ w). unfold finally, with_locals.
    pose proof (locked_body_concluded t j ACQUIRED (w1, no_locals) (Ha w1)) as H1.
    destruct (locked_body _ _ t j ACQUIRED (w1, no_locals)) as [r [w2 l]].
    unfold pbind. destruct (redis_default_ok false (delex_ifeq (active_key (t_chat_id t)) (str_of_Z (t_id t))) w2) as [b Hb].
    unfold release_active. destruct (redis_default _ _ w2) as [r3 w3]. simpl in Hb. subst r3.
    exists r, l, w3. split; [done|]. apply H1. right. split; [done|].
    apply (acquire_free _ _ _ w1); [done|]. unfold w1. by rewrite live_put_ne.
  - rewrite bool_decide_eq_false_2 by done. unfold with_locals.
    pose proof (locked_body_concluded t j ACTIVE_BUSY (w, no_locals) (Ha w) (or_introl eq_refl)) as H1.
    destruct (locked_body _ _ t j ACTIVE_BUSY (w, no_locals)) as [r [w2 l]]. by exists r, l, w2.
Qed.

Lemma run_job_settles t u j w :
  w_faults w = [] -> outcome_of (live w (active_key (t_chat_id t))) (t_id t) <> REDELIVERY ->
  live w (lease_key (t_id t)) = None ->
  settled (t_id t) (run_job persist_attachments usage_payload t u j w).2.
Proof.
  intros Hf Hr Hl. destruct (hold_concluded t j w Hf Hr Hl) as (r & l & w1 & E1 & Ha & Hst).
  unfold run_job. erewrite pbind_ok by exact E1. cbn [fst snd].
  destruct r as [[]|e].
  - unfold pbind, pret. cbn [fst snd]. unfold finally, lift_result.
    pose proof (tear_down_settles (t_id t) u l w1 Ha Hst) as Hs.
    by destruct (tear_down (t_id t) u l w1) as [[|] w2].
  - pose proof (on_failure_concluded (t_id t) e (w1, l) Ha) as H1.
    unfold pbind, with_locals. destruct (on_failure _ e (w1, l)) as [r2 [w2 l2]].
    destruct H1 as [Ha2 Hst2]. cbn [fst snd] in *. unfold finally, lift_result.
    pose proof (tear_down_settles (t_id t) u l2 w2 Ha2 Hst2) as Hs.
    by destruct (tear_down (t_id t) u l2 w2) as [[|] w3].
Qed.

(** The guard that loads the turn. *)
Definition loaded (turn_id : Z) (w : world) : option (turn * option user) :=
  t ← row turn_id (turns w);
  if is_terminal (t_status t) then None
  else Some (t, List.find (fun u => Z.eqb (u_id u) (t_user_id t)) (db_users (w_db w))).

Definition reopened (w : world) : world := set_hooks [] (set_tx (w_db w) w).

Lemma load_eq turn_id w :
  with_session (let! turn := get_by_id turn_id in
    match turn with
    | None => pret None
    | Some t =>
        if is_terminal (t_status t) then pret None
        else let! rl_user := user_get (t_user_id t) in pret (Some (t, rl_user))
    end) w = (Ok (loaded turn_id w), reopened w).
Proof.
  unfold with_session, get_by_id, pbind, sql, gets, loaded, turns, row, mbind, option_bind. cbn [w_tx set_tx set_hooks].
  destruct (find (has_id turn_id) _); [|done]. by destruct (is_terminal _).
Qed.
End RunnerLemmas.

(* ------------------------------------------------------------------ *)
(** * Properties *)

Section Properties.
Context `{!RedisTrim}.
Context (persist_attachments : Z -> Z -> list Attachment -> prog world exn (list Z)).
Context (usage_payload : Z -> list (string * json) -> usage_parse).
Notation execute := (execute_turn_inner persist_attachments usage_payload).

(** C8: Every job that starts an active turn finishes it. Whatever the codex client does or
    raises, whatever the heartbeat finds and the other processes do meanwhile, and also
    when the chat is busy, the job ends with no active row of its turn left; redeliveries
    and turns leased to another worker are left to their owner. *)
Theorem execute_turn_settles turn_id j w t u :
  loaded turn_id w = Some (t, Some u) -> w_faults w = [] ->
  outcome_of (live w (active_key (t_chat_id t))) turn_id <> REDELIVERY ->
  live w (lease_key turn_id) = None ->
  settled turn_id (execute turn_id j w).2.
Proof.
  intros Hl Hf Hr Hn. unfold execute_turn_inner. erewrite pbind_ok by apply load_eq.
  rewrite Hl. assert (t_id t = turn_id) as <-.
  { unfold loaded, mbind, option_bind in Hl. destruct (row turn_id (turns w)) eqn:Er; [|done].
    apply row_in in Er as [_ <-]. destruct (is_terminal _); congruence. }
  by apply run_job_settles.
Qed.

End Properties.

(* ------------------------------------------------------------------ *)
(** * Witnesses *)

(** A user with an active turn in chat 7, whose client sends a short answer. *)
Definition demo_user : user := mk_user 1 None (Some "a@b.c") None None None Role_USER.
Definition demo_turn (st : TurnStatus) : turn :=
  mk_turn 3 7 1 1 None st None None None (stream_key 3) None None None 0 None.
Definition demo_world (st : TurnStatus) : world :=
  set_db (set_users [demo_user] (set_turns [demo_turn st] empty_db)) empty_world.
Definition demo_job : job := {|
  j_client_id := None; j_coalesce_bytes := 256; j_worker := "w1";
  j_codex := {| ct_open := pret (demo_client, (demo_items, CStop)); ct_close := pret tt |};
  j_sched := [[Beat]] |}.

Lemma execute_turn_settles_witness :
  let w := (execute_turn_inner no_uploads no_usage 3 demo_job (demo_world STARTING)).2 in
  settled 3 w /\ map t_status (turns w) = [COMPLETED].
Proof.
  split.
  - apply (execute_turn_settles no_uploads no_usage 3 demo_job (demo_world STARTING)
      (demo_turn STARTING) demo_user); [reflexivity..|done|reflexivity].
  - vm_compute. reflexivity.
Defined.

