(* ===== verification/Translate.v ===== *)
(** Sidecar notifications as typed chat events ([services/codex/events/translate.py]).
    Exceptions of Python's subscripting, attribute access and validation are values; only
    their type is modelled, not their message. *)
From S2P Require Import Prelude PyStr Json Models Events World.

Open Scope Z_scope.
Open Scope string_scope.

Definition py_error (name : string) : exn := OtherException name "".
Definition dict : Type := list (string * json).
Notation res := (result exn).

(* ------------------------------------------------------------------ *)
(** * Python on JSON values *)

(** [d[k]] on a dict. *)
Definition dict_item (d : dict) (k : string) : res json :=
  match assoc k d with Some v => Ok v | None => Raise (py_error "KeyError") end.

(** [j[k]] for a string [k] on any value. *)
Definition getitem (j : json) (k : string) : res json :=
  match j with JObj d => dict_item d k | _ => Raise (py_error "TypeError") end.

(** [j.get(k)] on any value. *)
Definition getattr_get (j : json) (k : string) : res json :=
  match j with JObj d => Ok (get_or_null k d) | _ => Raise (py_error "AttributeError") end.

Definition get_default (k : string) (default : json) (d : dict) : json :=
  match assoc k d with Some v => v | None => default end.

(** [for x in j]. *)
Definition iterate (j : json) : res (list json) :=
  match j with
  | JArr l => Ok l
  | JObj d => Ok (map (fun kv => JStr kv.1) d)
  | JStr s => Ok (map (fun c => JStr (String c "")) (list_ascii_of_string s))
  | _ => Raise (py_error "TypeError")
  end.

(** Membership in a set or dict of strings: only the hash of an unhashable value raises. *)
Definition hashable (j : json) : res unit :=
  match j with JArr _ | JObj _ => Raise (py_error "TypeError") | _ => Ok tt end.

(** A pydantic [str] field. *)
Definition valid_str (j : json) : res string :=
  match j with JStr s => Ok s | _ => Raise (py_error "ValidationError") end.
Definition valid_opt_str (j : json) : res (option string) :=
  match j with
  | JNull => Ok None | JStr s => Ok (Some s) | _ => Raise (py_error "ValidationError")
  end.
Definition valid_dict (j : json) : res dict :=
  match j with JObj d => Ok d | _ => Raise (py_error "ValidationError") end.
Definition valid_error (j : json) : res (option ToolError) :=
  match coerce_error j with Some e => Ok e | None => Raise (py_error "ValidationError") end.

(* ------------------------------------------------------------------ *)
(** * Methods and items *)

Definition TURN_STARTED : string := "turn/started".
Definition TURN_COMPLETED_NOTE : string := "turn/completed".
Definition AGENT_MSG_DELTA : string := "item/agentMessage/delta".
Definition ITEM_STARTED : string := "item/started".
Definition ITEM_COMPLETED : string := "item/completed".

Definition AGENT_MESSAGE : string := "agentMessage".
Definition DYNAMIC_TOOL_CALL : string := "dynamicToolCall".

Definition HIDDEN_ITEMS : list string :=
  ["userMessage"; "hookPrompt"; "plan"; "reasoning"; "collabAgentToolCall";
   "enteredReviewMode"; "exitedReviewMode"; "contextCompaction"].

Definition is_str (j : json) (s : string) : bool :=
  match j with JStr s' => String.eqb s' s | _ => false end.

Definition in_hidden (j : json) : bool := existsb (is_str j) HIDDEN_ITEMS.

Section Translate.
(** [mimetypes.guess_type(path)[0]] of the machine is an image type. *)
Context (guessed_image : string -> bool).
(** [orjson.loads]; [None] is a [JSONDecodeError]. *)
Context (loads : string -> option json).
(** [str] of a float, a list or a dict. *)
Context (str_repr : json -> string).

Definition py_str (j : json) : string :=
  match j with
  | JStr s => s
  | JNum z => str_of_Z z
  | JBool b => if b then "True" else "False"
  | JNull => "None"
  | _ => str_repr j
  end.

Definition command_args (item : dict) : res dict :=
  rbind (dict_item item "command") (fun cmd =>
  Ok [("command", match cmd with JArr l => JStr (join " " (map py_str l)) | _ => cmd end)]).

Definition image_attachment (source : json) (caption : string) : res (list Attachment) :=
  rbind (valid_str source) (fun s => Ok [mk_attachment IMAGE s caption]).

Definition attachment_from_dict (data : dict) : option Attachment :=
  match assoc "path" data with
  | Some (JStr path) =>
      if nonempty path && guessed_image path
      then Some (mk_attachment IMAGE path
                   (match assoc "caption" data with Some (JStr c) => c | _ => "" end))
      else None
  | _ => None
  end.

Fixpoint attachment_from_blocks (blocks : list json) : list Attachment :=
  match blocks with
  | [] => []
  | JObj block :: rest =>
      if is_str (get_or_null "type" block) "text" then
        let text := get_or_null "text" block in
        let parsed := match (if truthy text then text else JStr "") with
                      | JStr s => loads s
                      | _ => None
                      end in
        match parsed with
        | Some (JObj data) =>
            match attachment_from_dict data with
            | Some a => [a]
            | None => attachment_from_blocks rest
            end
        | _ => attachment_from_blocks rest
        end
      else attachment_from_blocks rest
  | _ :: rest => attachment_from_blocks rest
  end.

Definition mcp_attachments (item : dict) : res (list Attachment) :=
  match assoc "result" item with
  | Some (JObj result) =>
      let from_content :=
        let content := get_or_null "content" result in
        if truthy content
        then rbind (iterate content) (fun blocks => Ok (attachment_from_blocks blocks))
        else Ok [] in
      match assoc "structuredContent" result with
      | Some (JObj structured) =>
          match attachment_from_dict structured with
          | Some a => Ok [a]
          | None => from_content
          end
      | _ => from_content
      end
  | _ => Ok []
  end.

(** The label is looked up in a dict (empty here), so it must be hashable. *)
Definition mcp_label (item : dict) : res json :=
  let tool := get_or_null "tool" item in
  let tool := if truthy tool then tool else JStr "mcp" in
  rbind (hashable tool) (fun _ => Ok tool).

Record builtin_spec := mk_builtin {
  b_label : dict -> res json;
  b_args : dict -> res dict;
  b_text : dict -> json;
  b_attachments : dict -> res (list Attachment)
}.

Definition fixed_label (s : string) (_ : dict) : res json := Ok (JStr s).
Definition no_text (_ : dict) : json := JStr "".
Definition no_attachments (_ : dict) : res (list Attachment) := Ok [].
Definition keep_keys (ks : list (string * string)) (item : dict) : res dict :=
  foldr (fun k acc => rbind (dict_item item k.2) (fun v => rbind acc (fun d => Ok ((k.1, v) :: d))))
    (Ok []) ks.

Definition builtin (item_type : string) : option builtin_spec :=
  if String.eqb item_type "commandExecution" then
    Some (mk_builtin (fixed_label "shell") command_args
      (fun item => let t := get_or_null "aggregatedOutput" item in if truthy t then t else JStr "")
      no_attachments)
  else if String.eqb item_type "fileChange" then
    Some (mk_builtin (fixed_label "file_change") (keep_keys [("changes", "changes")]) no_text no_attachments)
  else if String.eqb item_type "webSearch" then
    Some (mk_builtin (fixed_label "web_search") (keep_keys [("query", "query")]) no_text no_attachments)
  else if String.eqb item_type "mcpToolCall" then
    Some (mk_builtin mcp_label (keep_keys [("server", "server"); ("tool", "tool")]) no_text mcp_attachments)
  else if String.eqb item_type "imageGeneration" then
    Some (mk_builtin (fixed_label "image_generation")
      (fun item => Ok [("prompt", get_default "revisedPrompt" (JStr "") item)])
      (get_default "revisedPrompt" (JStr ""))
      (fun item => let p := get_or_null "savedPath" item in
                   if truthy p then image_attachment p "" else Ok []))
  else if String.eqb item_type "imageView" then
    Some (mk_builtin (fixed_label "image_view") (keep_keys [("path", "path")]) no_text
      (fun item => rbind (dict_item item "path") (fun p => image_attachment p "")))
  else None.

Definition to_started (spec : builtin_spec) (item : dict) : res chat_event :=
  rbind (b_label spec item) (fun label =>
  rbind (b_args spec item) (fun args =>
  rbind (valid_str label) (fun name => Ok (ToolCallEvent name args)))).

Definition to_completed (spec : builtin_spec) (item : dict) : res chat_event :=
  rbind (b_label spec item) (fun label =>
  rbind (b_attachments spec item) (fun attachments =>
  rbind (valid_str label) (fun name =>
  rbind (valid_str (b_text spec item)) (fun text =>
  rbind (valid_error (get_or_null "error" item)) (fun error =>
  Ok (ToolResultEvent name text attachments error)))))).

Definition generic_tool_call (item : dict) : res (option chat_event) :=
  match get_or_null "toolName" item with
  | JNull => Ok None
  | tool_name =>
      rbind (valid_str tool_name) (fun name =>
      rbind (valid_dict (get_default "arguments" (JObj []) item)) (fun args =>
      Ok (Some (ToolCallEvent name args))))
  end.

Definition generic_tool_result (item : dict) : res (option chat_event) :=
  match get_or_null "toolName" item with
  | JNull => Ok None
  | tool_name =>
      rbind (valid_str tool_name) (fun name =>
      rbind (valid_str (get_default "output" (JStr "") item)) (fun text =>
      rbind (valid_error (get_or_null "error" item)) (fun error =>
      Ok (Some (ToolResultEvent name text [] error)))))
  end.

(** The loop of [_dynamic_tool_call_to_event] over the content items. *)
Fixpoint dynamic_contents (tool_name : json) (contents : list json)
    (text_parts : list json) (attachments : list Attachment) : res (list json * list Attachment) :=
  match contents with
  | [] => Ok (text_parts, attachments)
  | content :: rest =>
      rbind (getitem content "type") (fun ty =>
      if is_str ty "inputText" then
        rbind (getitem content "text") (fun t =>
        dynamic_contents tool_name rest (text_parts ++ [t])%list attachments)
      else if is_str ty "inputImage" then
        rbind (getitem content "imageUrl") (fun url =>
        rbind (valid_str url) (fun source =>
        rbind (valid_str tool_name) (fun caption =>
        dynamic_contents tool_name rest text_parts
          (attachments ++ [mk_attachment IMAGE source caption])%list)))
      else dynamic_contents tool_name rest text_parts attachments)
  end.

(** [p.strip()] of every part, kept when it is not blank. *)
Fixpoint nonblank_parts (parts : list json) : res (list string) :=
  match parts with
  | [] => Ok []
  | JStr p :: rest =>
      rbind (nonblank_parts rest) (fun r => Ok (if nonempty (strip p) then p :: r else r))
  | _ :: _ => Raise (py_error "AttributeError")
  end.

Definition newline : string := String (ascii_of_nat 10) "".

Definition dynamic_tool_call_to_event (item : dict) : res chat_event :=
  rbind (dict_item item "tool") (fun tool_name =>
  rbind (dict_item item "contentItems") (fun contents =>
  rbind (iterate contents) (fun contents =>
  rbind (dynamic_contents tool_name contents [] []) (fun r =>
  rbind (nonblank_parts r.1) (fun parts =>
  rbind (valid_str tool_name) (fun name =>
  rbind (valid_error (get_or_null "error" item)) (fun error =>
  Ok (ToolResultEvent name (join (newline ++ newline) parts) r.2 error)))))))).

Definition agent_message_to_token (item : dict) (accumulated : string) : res (option chat_event) :=
  rbind (dict_item item "text") (fun text =>
  if negb (truthy text) then Ok None
  else match text with
       | JStr text =>
           if endswith accumulated text then Ok None
           else if startswith text accumulated
                then Ok (Some (TokenEvent (str_drop (String.length accumulated) text)))
                else Ok None
       | _ => Raise (py_error "TypeError")
       end).

Definition some_event (r : res chat_event) : res (option chat_event) :=
  rbind r (fun ev => Ok (Some ev)).

Definition builtin_of (item_type : json) : option builtin_spec :=
  match item_type with JStr s => builtin s | _ => None end.

Definition on_item_started (item : json) : res (option chat_event) :=
  rbind (getitem item "type") (fun item_type =>
  match item with
  | JObj d =>
      if is_str item_type AGENT_MESSAGE then Ok None
      else rbind (hashable item_type) (fun _ =>
           if in_hidden item_type then Ok None
           else match builtin_of item_type with
                | Some spec => some_event (to_started spec d)
                | None => generic_tool_call d
                end)
  | _ => Raise (py_error "TypeError")
  end).

Definition on_item_completed (item : json) (accumulated : string) : res (option chat_event) :=
  rbind (getitem item "type") (fun item_type =>
  match item with
  | JObj d =>
      if is_str item_type AGENT_MESSAGE then agent_message_to_token d accumulated
      else rbind (hashable item_type) (fun _ =>
           if in_hidden item_type then Ok None
           else if is_str item_type DYNAMIC_TOOL_CALL then some_event (dynamic_tool_call_to_event d)
           else match builtin_of item_type with
                | Some spec => some_event (to_completed spec d)
                | None => generic_tool_result d
                end)
  | _ => Raise (py_error "TypeError")
  end).

Definition on_turn_completed (params : dict) (accumulated : string) : res (option chat_event) :=
  let turn := get_default "turn" (JObj []) params in
  rbind (getattr_get turn "error") (fun error =>
  if truthy error then
    rbind (getattr_get error "message") (fun message =>
    rbind (valid_opt_str message) (fun detail =>
    Ok (Some (ErrorEvent (code_value CODEX_ERROR) detail))))
  else
    rbind (getattr_get turn "status") (fun status =>
    if is_str status "failed"
    then Ok (Some (ErrorEvent (code_value CODEX_ERROR) (Some "Codex turn failed")))
    else rbind (valid_str (get_default "finalText" (JStr accumulated) params)) (fun final_text =>
         Ok (Some (DoneEvent final_text))))).

Definition translate_notification (note : Notification) (accumulated : string) : res (option chat_event) :=
  let params := n_params note in
  if String.eqb (n_method note) TURN_STARTED then Ok None
  else if String.eqb (n_method note) AGENT_MSG_DELTA then
    rbind (dict_item params "delta") (fun delta =>
    if truthy delta then rbind (valid_str delta) (fun d => Ok (Some (TokenEvent d))) else Ok None)
  else if String.eqb (n_method note) ITEM_STARTED then
    rbind (dict_item params "item") on_item_started
  else if String.eqb (n_method note) ITEM_COMPLETED then
    rbind (dict_item params "item") (fun item => on_item_completed item accumulated)
  else if String.eqb (n_method note) TURN_COMPLETED_NOTE then on_turn_completed params accumulated
  else Ok None.

(** The text accumulated over a turn's notifications, as [run_turn] keeps it. *)
Definition accumulate (accumulated : string) (ev : option chat_event) : string :=
  match ev with Some (TokenEvent d) => accumulated ++ d | _ => accumulated end.
End Translate.

(* ------------------------------------------------------------------ *)
(** * Properties *)

Section Properties.
Context (guessed_image : string -> bool) (loads : string -> option json) (str_repr : json -> string).
Notation translate := (translate_notification guessed_image loads str_repr).

(** Every notification of a turn translated in turn, with the text accumulated so far. *)
Fixpoint translate_all (notes : list Notification) (accumulated : string) : res (list chat_event) :=
  match notes with
  | [] => Ok []
  | note :: rest =>
      rbind (translate note accumulated) (fun ev =>
      rbind (translate_all rest (accumulate accumulated ev)) (fun evs =>
      Ok (match ev with Some e => e :: evs | None => evs end)))
  end.

(** What the sidecar sends for one agent message: its deltas, then the completed item. *)
Definition delta_note (d : string) : Notification :=
  mk_notification AGENT_MSG_DELTA [("delta", JStr d)] None.
Definition message_note (text : string) : Notification :=
  mk_notification ITEM_COMPLETED
    [("item", JObj [("type", JStr AGENT_MESSAGE); ("text", JStr text)])] None.

Lemma translate_delta d acc :
  translate (delta_note d) acc = Ok (if nonempty d then Some (TokenEvent d) else None).
Proof. unfold translate_notification, delta_note. cbn. by destruct d. Qed.

Lemma translate_message text acc :
  translate (message_note text) acc =
  Ok (if negb (nonempty text) || endswith acc text then None
      else if startswith text acc then Some (TokenEvent (str_drop (String.length acc) text)) else None).
Proof.
  unfold translate_notification, message_note, on_item_completed, agent_message_to_token. cbn.
  destruct (nonempty text); simpl; [|done]. destruct (endswith acc text); [done|].
  by destruct (startswith text acc).
Qed.

Lemma endswith_prefix_eq acc text :
  endswith acc text = true -> startswith text acc = true -> acc = text.
Proof.
  intros [r Hr]%endswith_iff [q Hq]%startswith_iff. subst acc.
  rewrite <- append_assoc in Hq.
  assert (Hl : String.length (r ++ (text ++ q)) = String.length text) by (by rewrite <- Hq).
  rewrite !length_append in Hl. destruct r; [done|]. simpl in Hl. lia.
Qed.

Lemma message_accumulates text acc :
  accumulate acc (if negb (nonempty text) || endswith acc text then None
      else if startswith text acc then Some (TokenEvent (str_drop (String.length acc) text)) else None)
  = if startswith text acc then text else acc.
Proof.
  destruct (startswith text acc) eqn:Es.
  - destruct (negb (nonempty text) || endswith acc text) eqn:E0; simpl.
    + apply orb_true_iff in E0 as [E0|E0]; [|by apply endswith_prefix_eq].
      to_prop. apply nonempty_false in E0. subst text. by destruct acc.
    + apply startswith_iff in Es as [r ->]. by rewrite str_drop_app.
  - by destruct (negb (nonempty text) || endswith acc text).
Qed.

Lemma translate_deltas ds notes acc :
  translate_all (map delta_note ds ++ notes)%list acc =
  rbind (translate_all notes (acc ++ join "" ds)) (fun evs =>
    Ok (map TokenEvent (List.filter nonempty ds) ++ evs)%list).
Proof.
  revert acc. induction ds as [|d ds IH]; intros acc.
  - simpl. rewrite append_nil_r. by destruct (translate_all notes acc).
  - cbn [map app translate_all]. rewrite translate_delta. cbn [rbind].
    rewrite IH. assert (accumulate acc (if nonempty d then Some (TokenEvent d) else None) ++ join "" ds
      = acc ++ join "" (d :: ds)) as ->.
    { assert (join "" (d :: ds) = d ++ join "" ds) as ->
        by (destruct ds; simpl; [by rewrite append_nil_r|done]).
      destruct d; simpl; [done|]. by rewrite <- append_assoc. }
    destruct (translate_all notes _); [|done]. cbn [rbind List.filter]. by destruct (nonempty d).
Qed.

Lemma token_text_tokens ds : token_text (map TokenEvent (List.filter nonempty ds)) = join "" ds.
Proof.
  induction ds as [|d ds IH]; [done|].
  assert (join "" (d :: ds) = d ++ join "" ds) as ->
    by (destruct ds; simpl; [by rewrite append_nil_r|done]).
  cbn [List.filter]. destruct d; simpl in *; [done|]. by rewrite IH.
Qed.

(** The final item of an agent message is reconciled with its deltas without repeating
    or losing text: the tokens shown for the message are its whole text when the deltas
    are a prefix of it, and just the deltas when the model rewrote what it had streamed. *)
Theorem agent_message_reconciled (ds : list string) (text : string) :
  exists evs, translate_all (map delta_note ds ++ [message_note text])%list "" = Ok evs /\
    token_text evs = if startswith text (join "" ds) then text else join "" ds.
Proof.
  rewrite translate_deltas. cbn [translate_all append]. rewrite translate_message. cbn [rbind].
  eexists. split; [reflexivity|]. rewrite token_text_app, token_text_tokens.
  rewrite <- message_accumulates.
  destruct (negb (nonempty text) || endswith (join "" ds) text); [apply append_nil_r|].
  destruct (startswith text (join "" ds)); simpl; by rewrite append_nil_r.
Qed.

(** Nothing but a tool or token event. *)
Definition calm (r : res (option chat_event)) : Prop :=
  match r with Ok (Some ev) => event_terminal ev = false | _ => True end.

Lemma calm_bind {A} (r : res A) (k : A -> res (option chat_event)) :
  (forall a, calm (k a)) -> calm (rbind r k).
Proof. by destruct r; simpl. Qed.

Lemma calm_some (r : res chat_event) :
  (forall ev, r = Ok ev -> event_terminal ev = false) -> calm (some_event r).
Proof. destruct r; simpl; auto. Qed.

Ltac calm_tac := repeat first
  [ exact I | reflexivity | apply calm_bind; intros | progress (cbn [calm event_terminal]) | case_goal ].

Lemma rbind_ok {A B} (r : res A) (k : A -> res B) b : rbind r k = Ok b -> exists a, r = Ok a /\ k a = Ok b.
Proof. destruct r; [eauto|done]. Qed.

Ltac tool_event :=
  let ev := fresh in let H := fresh in
  apply calm_some; intros ev H;
  repeat (apply rbind_ok in H as (? & _ & H)); by injection H as <-.

Lemma to_started_calm spec d : calm (some_event (to_started spec d)).
Proof. tool_event. Qed.

Lemma to_completed_calm spec d : calm (some_event (to_completed spec d)).
Proof. tool_event. Qed.

Lemma dynamic_calm d : calm (some_event (dynamic_tool_call_to_event d)).
Proof. tool_event. Qed.

Lemma generic_call_calm d : calm (generic_tool_call d).
Proof. unfold generic_tool_call. calm_tac. Qed.

Lemma generic_result_calm d : calm (generic_tool_result d).
Proof. unfold generic_tool_result. calm_tac. Qed.

Lemma on_item_started_calm item : calm (on_item_started guessed_image loads str_repr item).
Proof.
  unfold on_item_started. apply calm_bind. intros ty. case_goal; try exact I. case_goal; [exact I|].
  apply calm_bind. intros _. case_goal; [exact I|]. case_goal; [apply to_started_calm|apply generic_call_calm].
Qed.

Lemma on_item_completed_calm item acc : calm (on_item_completed guessed_image loads str_repr item acc).
Proof.
  unfold on_item_completed. apply calm_bind. intros ty. case_goal; try exact I.
  case_goal; [unfold agent_message_to_token; calm_tac|].
  apply calm_bind. intros _. case_goal; [exact I|].
  case_goal; [apply dynamic_calm|]. case_goal; [apply to_completed_calm|apply generic_result_calm].
Qed.

Lemma on_turn_completed_terminal params acc :
  match on_turn_completed params acc with
  | Ok (Some ev) => event_terminal ev = true | Ok None => False | Raise _ => True end.
Proof.
  unfold on_turn_completed. destruct (getattr_get _ "error") as [error|]; [|done]. cbn [rbind].
  destruct (truthy error).
  - destruct (getattr_get error _) as [m|]; [|done]. cbn [rbind]. by destruct (valid_opt_str m).
  - destruct (getattr_get _ "status") as [st|]; [|done]. cbn [rbind].
    destruct (is_str st _); [done|]. by destruct (valid_str _).
Qed.

(** A turn's events end exactly with its [turn/completed] notification: that one, and
    no other, becomes a [done] or [error] event, and it is never swallowed. *)
Theorem translate_terminal_iff note acc :
  match translate note acc with
  | Ok (Some ev) => event_terminal ev = true <-> n_method note = TURN_COMPLETED_NOTE
  | Ok None => n_method note <> TURN_COMPLETED_NOTE
  | Raise _ => True
  end.
Proof.
  assert (Hcalm : forall r, calm r -> n_method note <> TURN_COMPLETED_NOTE ->
    match r with
    | Ok (Some ev) => event_terminal ev = true <-> n_method note = TURN_COMPLETED_NOTE
    | Ok None => n_method note <> TURN_COMPLETED_NOTE
    | Raise _ => True
    end).
  { intros [[ev|]|e] Hc Hn; simpl in *; [|done..]. rewrite Hc. split; [done|]. intros; contradiction. }
  unfold translate_notification.
  destruct (String.eqb_spec (n_method note) TURN_STARTED) as [->|_]; [done|].
  destruct (String.eqb_spec (n_method note) AGENT_MSG_DELTA) as [E0|_].
  { apply Hcalm; [calm_tac|]. by rewrite E0. }
  destruct (String.eqb_spec (n_method note) ITEM_STARTED) as [E0|_].
  { apply Hcalm; [apply calm_bind, on_item_started_calm|]. by rewrite E0. }
  destruct (String.eqb_spec (n_method note) ITEM_COMPLETED) as [E0|_].
  { apply Hcalm; [|by rewrite E0]. apply calm_bind. intros. apply on_item_completed_calm. }
  destruct (String.eqb_spec (n_method note) TURN_COMPLETED_NOTE) as [E0|Hne]; [|done].
  pose proof (on_turn_completed_terminal (n_params note) acc) as H.
  destruct (on_turn_completed _ _) as [[ev|]|e]; done.
Qed.
End Properties.
