(* ===== verification/Diagnostics.v ===== *)
(** The in-memory turn diagnostics ([services/codex/diagnostics.py]) and the idle decision
    ([services/codex/idle.py]). Times are milliseconds of the monotonic clock. *)
From S2P Require Import Prelude PyStr Json Models Events World Translate.

Open Scope Z_scope.
Open Scope string_scope.

(* ------------------------------------------------------------------ *)
(** * Idle decision *)

Inductive IdleDecision := HARD_CAP_EXCEEDED | NEEDS_PROBE | EXTEND_SILENTLY.

Definition decide_idle (now : Z) (turn_started_at : option Z) (has_active_items : bool)
    (last_idle_probe_at : option Z) (hard_cap probe_interval : Z) : IdleDecision :=
  if match turn_started_at with Some t => Z.leb hard_cap (now - t) | None => false end
  then HARD_CAP_EXCEEDED
  else if negb has_active_items then NEEDS_PROBE
  else match last_idle_probe_at with
       | None => NEEDS_PROBE
       | Some p => if Z.leb probe_interval (now - p) then NEEDS_PROBE else EXTEND_SILENTLY
       end.

(* ------------------------------------------------------------------ *)
(** * Items *)

Definition nonempty_field (item : dict) (k : string) : option string :=
  match assoc k item with Some (JStr s) => if nonempty s then Some s else None | _ => None end.

Fixpoint first_field (item : dict) (ks : list string) : option string :=
  match ks with
  | [] => None
  | k :: ks' => match nonempty_field item k with Some s => Some s | None => first_field item ks' end
  end.

Definition type_label (item_type : string) : string :=
  if String.eqb item_type "commandExecution" then "shell"
  else if String.eqb item_type "fileChange" then "file_change"
  else if String.eqb item_type "webSearch" then "web_search"
  else if String.eqb item_type "imageGeneration" then "image_generation"
  else if String.eqb item_type "imageView" then "image_view"
  else item_type.

Definition item_label (item : dict) : option string :=
  match first_field item ["toolName"; "tool"; "name"] with
  | Some s => Some s
  | None => match assoc "type" item with Some (JStr t) => Some (type_label t) | _ => None end
  end.

Section Diagnostics.
(** [str] of a float, a list or a dict. *)
Context (str_repr : json -> string).

Definition item_key (item : dict) : string :=
  match first_field item ["id"; "callId"; "toolCallId"] with
  | Some s => s
  | None => py_str str_repr (get_or_null "type" item) ++ ":" ++
            match item_label item with Some s => s | None => "None" end
  end.

(** [_ActiveItem]. *)
Record active_item := mk_active { ai_type : option string; ai_tool : option string; ai_started : Z }.

Definition active_item_priority (item_type tool : option string) : Z :=
  if existsb (fun t => bool_decide (item_type = Some t))
       ["commandExecution"; "mcpToolCall"; "dynamicToolCall"; "webSearch"; "imageGeneration"; "fileChange"]
  then 30
  else if match tool with
          | None => false
          | Some t => negb (existsb (String.eqb t) ["reasoning"; "agentMessage"; "userMessage"])
          end
  then 20
  else if bool_decide (item_type = Some "agentMessage") then 10
  else if bool_decide (item_type = Some "reasoning") then 5
  else 0.

Definition active_item_rank (i : active_item) : Z * Z :=
  (active_item_priority (ai_type i) (ai_tool i), - ai_started i).

Definition rank_lt (x y : Z * Z) : bool := Z.ltb x.1 y.1 || (Z.eqb x.1 y.1 && Z.ltb x.2 y.2).

(** [max(..., key=rank)]: the first of the greatest. *)
Fixpoint max_by_rank (best : active_item) (l : list active_item) : active_item :=
  match l with
  | [] => best
  | x :: l' => max_by_rank (if rank_lt (active_item_rank best) (active_item_rank x) then x else best) l'
  end.

(* ------------------------------------------------------------------ *)
(** * Turn diagnostics *)

Record TurnDiagnostics := mk_diag {
  d_thread_id : option string;
  d_turn_id : string;
  d_started_at : Z;
  d_last_raw_at : option Z;
  d_last_chat_event_at : option Z;
  d_raw_count : Z;
  d_chat_event_count : Z;
  d_completed_items : Z;
  d_stale_raw_count : Z;
  d_noise_raw_count : Z;
  d_last_raw_method : string;
  d_last_raw_turn_id : option string;
  d_last_stale : string * option string * option Z * option string * option string;
    (** [last_stale_method], [_turn_id], [_at], [_item_type], [_tool] *)
  d_last_noise : string * option Z;
    (** [last_noise_method], [last_noise_at] *)
  d_last_item_type : option string;
  d_last_tool : option string;
  d_last_chat_event_type : string;
  d_turn_completed_seen : bool;
  d_active_items : list (string * active_item)
}.

Definition new_diagnostics (now : Z) (thread_id : option string) (turn_id : string) : TurnDiagnostics :=
  mk_diag thread_id turn_id now None None 0 0 0 0 0 "none" None ("none", None, None, None, None)
    ("none", None) None None "none" false [].

Definition str_or_none (j : json) : option string := match j with JStr s => Some s | _ => None end.

(** The item part of [absorb_raw]. *)
Definition absorb_item (now : Z) (method : string) (item : dict) (d : TurnDiagnostics) : TurnDiagnostics :=
  let item_type := str_or_none (get_or_null "type" item) in
  let tool := item_label item in
  let started := String.eqb method ITEM_STARTED in
  let completed := String.eqb method ITEM_COMPLETED in
  mk_diag (d_thread_id d) (d_turn_id d) (d_started_at d) (d_last_raw_at d) (d_last_chat_event_at d)
    (d_raw_count d) (d_chat_event_count d)
    (if completed then d_completed_items d + 1 else d_completed_items d)
    (d_stale_raw_count d) (d_noise_raw_count d) (d_last_raw_method d) (d_last_raw_turn_id d)
    (d_last_stale d) (d_last_noise d) item_type tool (d_last_chat_event_type d)
    (d_turn_completed_seen d)
    (if started then assoc_set (item_key item) (mk_active item_type tool now) (d_active_items d)
     else if completed then assoc_del (item_key item) (d_active_items d)
     else d_active_items d).

Definition absorb_raw (now : Z) (note : Notification) (d : TurnDiagnostics) : TurnDiagnostics :=
  let d := mk_diag (d_thread_id d) (d_turn_id d) (d_started_at d) (Some now) (d_last_chat_event_at d)
    (d_raw_count d + 1) (d_chat_event_count d) (d_completed_items d)
    (d_stale_raw_count d) (d_noise_raw_count d) (n_method note) (n_turn_id note)
    (d_last_stale d) (d_last_noise d) (d_last_item_type d) (d_last_tool d) (d_last_chat_event_type d)
    (d_turn_completed_seen d || String.eqb (n_method note) TURN_COMPLETED_NOTE) (d_active_items d) in
  match assoc "item" (n_params note) with
  | Some (JObj item) => absorb_item now (n_method note) item d
  | _ => d
  end.

Definition absorb_stale_raw (now : Z) (note : Notification) (d : TurnDiagnostics) : TurnDiagnostics :=
  let '(_, _, _, item_type, tool) := d_last_stale d in
  let '(item_type, tool) :=
    match assoc "item" (n_params note) with
    | Some (JObj item) => (str_or_none (get_or_null "type" item), item_label item)
    | _ => (item_type, tool)
    end in
  mk_diag (d_thread_id d) (d_turn_id d) (d_started_at d) (d_last_raw_at d) (d_last_chat_event_at d)
    (d_raw_count d) (d_chat_event_count d) (d_completed_items d) (d_stale_raw_count d + 1)
    (d_noise_raw_count d) (d_last_raw_method d) (d_last_raw_turn_id d)
    (n_method note, n_turn_id note, Some now, item_type, tool) (d_last_noise d)
    (d_last_item_type d) (d_last_tool d) (d_last_chat_event_type d) (d_turn_completed_seen d)
    (d_active_items d).

Definition absorb_noise_raw (now : Z) (note : Notification) (d : TurnDiagnostics) : TurnDiagnostics :=
  mk_diag (d_thread_id d) (d_turn_id d) (d_started_at d) (d_last_raw_at d) (d_last_chat_event_at d)
    (d_raw_count d) (d_chat_event_count d) (d_completed_items d) (d_stale_raw_count d)
    (d_noise_raw_count d + 1) (d_last_raw_method d) (d_last_raw_turn_id d) (d_last_stale d)
    (n_method note, Some now) (d_last_item_type d) (d_last_tool d) (d_last_chat_event_type d)
    (d_turn_completed_seen d) (d_active_items d).

Definition absorb_chat_event (now : Z) (ev : chat_event) (d : TurnDiagnostics) : TurnDiagnostics :=
  mk_diag (d_thread_id d) (d_turn_id d) (d_started_at d) (d_last_raw_at d) (Some now)
    (d_raw_count d) (d_chat_event_count d + 1) (d_completed_items d) (d_stale_raw_count d)
    (d_noise_raw_count d) (d_last_raw_method d) (d_last_raw_turn_id d) (d_last_stale d)
    (d_last_noise d) (d_last_item_type d) (d_last_tool d) (event_type_name ev)
    (d_turn_completed_seen d) (d_active_items d).

Definition selected_active_item (d : TurnDiagnostics) : option active_item :=
  match d_active_items d with
  | [] => None
  | (_, i) :: rest => Some (max_by_rank i (map snd rest))
  end.

Definition has_active_items (d : TurnDiagnostics) : bool :=
  negb (Nat.eqb (List.length (d_active_items d)) 0).

(** [round(now - at, 3)] of seconds: milliseconds are kept exactly. *)
Definition age (now : Z) (at_ : option Z) : json :=
  match at_ with None => JNull | Some t => JFloat (now - t) (-3) end.

(** [transport] is [transport.diagnostic_snapshot()]. *)
Definition snapshot (now : Z) (transport : dict) (d : TurnDiagnostics) : dict :=
  let '(stale_method, stale_turn, stale_at, stale_type, stale_tool) := d_last_stale d in
  let '(noise_method, noise_at) := d_last_noise d in
  let active := selected_active_item d in
  let data :=
    [("thread_id", json_opt_str (d_thread_id d)); ("turn_id", JStr (d_turn_id d));
     ("turn_age_s", age now (Some (d_started_at d))); ("raw_count", JNum (d_raw_count d));
     ("chat_event_count", JNum (d_chat_event_count d));
     ("completed_items", JNum (d_completed_items d));
     ("stale_raw_count", JNum (d_stale_raw_count d));
     ("noise_raw_count", JNum (d_noise_raw_count d));
     ("last_raw_method", JStr (d_last_raw_method d));
     ("last_raw_turn_id", json_opt_str (d_last_raw_turn_id d));
     ("last_raw_age_s", age now (d_last_raw_at d));
     ("last_stale_method", JStr stale_method); ("last_stale_turn_id", json_opt_str stale_turn);
     ("last_stale_age_s", age now stale_at); ("last_stale_item_type", json_opt_str stale_type);
     ("last_stale_tool", json_opt_str stale_tool); ("last_noise_method", JStr noise_method);
     ("last_noise_age_s", age now noise_at); ("last_item_type", json_opt_str (d_last_item_type d));
     ("last_tool", json_opt_str (d_last_tool d));
     ("last_chat_event_type", JStr (d_last_chat_event_type d));
     ("last_chat_event_age_s", age now (d_last_chat_event_at d));
     ("turn_completed_seen", JBool (d_turn_completed_seen d));
     ("active_items", JNum (Z.of_nat (List.length (d_active_items d))));
     ("active_item_type", match active with Some i => json_opt_str (ai_type i) | None => JNull end);
     ("active_tool", match active with Some i => json_opt_str (ai_tool i) | None => JNull end);
     ("active_item_age_s", age now (ai_started <$> active))] in
  foldl (fun acc kv => assoc_set kv.1 kv.2 acc) data transport.
End Diagnostics.

(* ------------------------------------------------------------------ *)
(** * Properties *)

Section Properties.
Context (str_repr : json -> string).
Notation item_key := (item_key str_repr).
Notation absorb_raw := (absorb_raw str_repr).

Definition absorb_notes (notes : list (Z * Notification)) (d : TurnDiagnostics) : TurnDiagnostics :=
  foldl (fun d tn => absorb_raw tn.1 tn.2 d) d notes.

Definition note_item (note : Notification) : option dict :=
  match assoc "item" (n_params note) with Some (JObj item) => Some item | _ => None end.

(** Since when the item of a key runs, given that it ran [since] before. *)
Definition open_after (k : string) (since : option Z) (tn : Z * Notification) : option Z :=
  match note_item tn.2 with
  | Some item =>
      if String.eqb k (item_key item) then
        if String.eqb (n_method tn.2) ITEM_STARTED then Some tn.1
        else if String.eqb (n_method tn.2) ITEM_COMPLETED then None
        else since
      else since
  | None => since
  end.

Definition open_since (k : string) (notes : list (Z * Notification)) : option Z :=
  foldl (open_after k) None notes.

Definition started_at (k : string) (d : TurnDiagnostics) : option Z :=
  ai_started <$> assoc k (d_active_items d).

Definition keys_unique (d : TurnDiagnostics) : Prop := NoDup (map fst (d_active_items d)).

Lemma absorb_raw_keys t note d : keys_unique d -> keys_unique (absorb_raw t note d).
Proof.
  unfold keys_unique, absorb_raw. destruct (assoc _ _) as [[| | | | | |item]|]; try done.
  intros H. unfold absorb_item. cbn [d_active_items].
  destruct (String.eqb (n_method note) ITEM_STARTED); [by apply assoc_set_keys|].
  destruct (String.eqb (n_method note) ITEM_COMPLETED); [by apply assoc_del_keys|done].
Qed.

Lemma absorb_raw_open k t note d :
  keys_unique d -> started_at k (absorb_raw t note d) = open_after k (started_at k d) (t, note).
Proof.
  intros Hu. unfold started_at, absorb_raw, open_after, note_item. cbn [fst snd].
  destruct (assoc "item" _) as [[| | | | | |item]|]; try done. unfold absorb_item. cbn [d_active_items].
  destruct (String.eqb_spec k (item_key item)) as [->|Hne];
    destruct (String.eqb (n_method note) ITEM_STARTED), (String.eqb (n_method note) ITEM_COMPLETED); try done.
  all: first [by rewrite assoc_set_eq | by rewrite assoc_del_eq
             | by rewrite assoc_set_ne by congruence | by rewrite assoc_del_ne by congruence].
Qed.

Lemma absorb_notes_open notes : forall d k, keys_unique d ->
  started_at k (absorb_notes notes d) = foldl (open_after k) (started_at k d) notes.
Proof.
  induction notes as [|[t note] notes IH]; intros d k Hu; [done|]. cbn [absorb_notes foldl fst snd].
  unfold absorb_notes in IH. rewrite IH by by apply absorb_raw_keys. by rewrite absorb_raw_open.
Qed.

Lemma absorb_notes_keys notes : forall d, keys_unique d -> keys_unique (absorb_notes notes d).
Proof.
  induction notes as [|[t note] notes IH]; intros d Hu; [done|].
  apply IH. by apply absorb_raw_keys.
Qed.

Lemma rank_lt_trans x y z : rank_lt x y = true -> rank_lt y z = true -> rank_lt x z = true.
Proof. destruct x, y, z. unfold rank_lt. cbn [fst snd]. rewrite !orb_true_iff, !andb_true_iff. lia. Qed.

Lemma rank_lt_irrefl x : rank_lt x x = false.
Proof. destruct x. unfold rank_lt. cbn [fst snd]. apply orb_false_iff. split; [lia|]. apply andb_false_iff. lia. Qed.

Lemma rank_not_lt_trans x y z : rank_lt x y = false -> rank_lt z x = false -> rank_lt z y = false.
Proof.
  destruct x as [a b], y as [c d], z as [e f]. unfold rank_lt. cbn [fst snd].
  rewrite !orb_false_iff, !andb_false_iff. lia.
Qed.

Lemma max_by_rank_spec l : forall best,
  In (max_by_rank best l) (best :: l) /\
  forall x, In x (best :: l) ->
    rank_lt (active_item_rank (max_by_rank best l)) (active_item_rank x) = false.
Proof.
  induction l as [|y l IH]; intros best; cbn [max_by_rank].
  - split; [by left|]. intros x [->|[]]. apply rank_lt_irrefl.
  - specialize (IH (if rank_lt (active_item_rank best) (active_item_rank y) then y else best)) as [Hin Hmax].
    split; [destruct (rank_lt _ _); destruct Hin as [<-|Hin]; simpl; auto|].
    intros x Hx. destruct (rank_lt (active_item_rank best) (active_item_rank y)) eqn:E0.
    + destruct Hx as [<-|Hx]; [|by apply Hmax].
      apply (rank_not_lt_trans (active_item_rank y)); [|by apply Hmax; left].
      destruct (rank_lt (active_item_rank y) _) eqn:E1; [|done].
      pose proof (rank_lt_trans _ _ _ E0 E1) as E2. by rewrite rank_lt_irrefl in E2.
    + destruct Hx as [<-|[<-|Hx]]; [by apply Hmax; left| |apply Hmax; by right].
      apply (rank_not_lt_trans (active_item_rank best)); [done|]. apply Hmax. by left.
Qed.

(** The diagnostics know exactly which items run. After any notifications of a turn, an
    item is active, since the time of its last [item/started], exactly when no
    [item/completed] with its key followed; and the item the snapshot shows is an active
    one of greatest rank, none when nothing runs. *)
Theorem active_items_exact (notes : list (Z * Notification)) (now : Z) (thread : option string) (turn : string) :
  let d := absorb_notes notes (new_diagnostics now thread turn) in
  (forall k, started_at k d = open_since k notes) /\
  match selected_active_item d with
  | None => forall k, open_since k notes = None
  | Some i =>
      (exists k, In (k, i) (d_active_items d) /\ open_since k notes = Some (ai_started i)) /\
      forall k i', In (k, i') (d_active_items d) ->
        rank_lt (active_item_rank i) (active_item_rank i') = false
  end.
Proof.
  intros d. assert (Hu : keys_unique (new_diagnostics now thread turn)) by apply NoDup_nil_2.
  assert (Ho : forall k, started_at k d = open_since k notes) by (intros k; by apply absorb_notes_open).
  assert (Hd : keys_unique d) by by apply absorb_notes_keys. split; [exact Ho|].
  unfold selected_active_item. destruct (d_active_items d) as [|[k0 i0] rest] eqn:E0.
  - intros k. rewrite <- Ho. unfold started_at. by rewrite E0.
  - destruct (max_by_rank_spec (map snd rest) i0) as [Hin Hmax].
    change (i0 :: map snd rest) with (map snd ((k0, i0) :: rest)) in *. rewrite <- E0 in *. split.
    + apply in_map_iff in Hin as ([k i] & Hi & Hin). simpl in Hi. rewrite <- Hi. exists k. split; [done|].
      rewrite <- Ho. unfold started_at. by rewrite (assoc_unique k i).
    + intros k i' Hk. apply Hmax. apply in_map_iff. by exists (k, i').
Qed.
End Properties.
