(* ===== verification/Transport.v ===== *)
(** The JSON-RPC client over one WebSocket ([services/codex/transport.py]): request
    identifiers and futures, the bounded notification queue with its close sentinel, the
    dispatch of frames, and the two ways the connection ends. *)
From S2P Require Import Prelude PyStr Json Models Events World Translate.

Open Scope Z_scope.
Open Scope string_scope.

Definition JSONRPC_METHOD_NOT_FOUND : Z := -32601.
Definition JSONRPC_INTERNAL_ERROR : Z := -32603.
Definition CONNECT_RETRIES : nat := 3.

(* ------------------------------------------------------------------ *)
(** * State *)

(** An [asyncio.Future]: waiting, or resolved with a result or an exception. *)
Notation future := (option (result exn json)).

(** [AppServerClient]. A socket is known by the number of the connection that opened it;
    the futures are kept with their request identifier after [_pending] forgets them, as
    their requesters do. [t_send_faults] scripts which sends of the socket fail. *)
Record transport := mk_transport {
  t_next_id : Z;
  t_pending : gset Z;
  t_futures : gmap Z future;
  t_queue : list (option Notification);
  t_queue_max : Z;
  t_ws : option nat;
  t_connections : nat;
  t_reader : option nat;
  t_explicit_close : bool;
  t_handlers : list (string * (dict -> result exn json));
  t_tasks : list dict;
  t_sent : list json;
  t_send_faults : list (option exn)
}.

Definition new_transport (queue_max : Z) : transport :=
  mk_transport 1 ∅ ∅ [] queue_max None 0 None false [] [] [] [].

Definition set_t_next_id x t := mk_transport x (t_pending t) (t_futures t) (t_queue t) (t_queue_max t)
  (t_ws t) (t_connections t) (t_reader t) (t_explicit_close t) (t_handlers t) (t_tasks t) (t_sent t) (t_send_faults t).
Definition set_t_pending x t := mk_transport (t_next_id t) x (t_futures t) (t_queue t) (t_queue_max t)
  (t_ws t) (t_connections t) (t_reader t) (t_explicit_close t) (t_handlers t) (t_tasks t) (t_sent t) (t_send_faults t).
Definition set_t_futures x t := mk_transport (t_next_id t) (t_pending t) x (t_queue t) (t_queue_max t)
  (t_ws t) (t_connections t) (t_reader t) (t_explicit_close t) (t_handlers t) (t_tasks t) (t_sent t) (t_send_faults t).
Definition set_t_queue x t := mk_transport (t_next_id t) (t_pending t) (t_futures t) x (t_queue_max t)
  (t_ws t) (t_connections t) (t_reader t) (t_explicit_close t) (t_handlers t) (t_tasks t) (t_sent t) (t_send_faults t).
Definition set_t_conn ws n rd t := mk_transport (t_next_id t) (t_pending t) (t_futures t) (t_queue t) (t_queue_max t)
  ws n rd (t_explicit_close t) (t_handlers t) (t_tasks t) (t_sent t) (t_send_faults t).
Definition set_t_closed t := mk_transport (t_next_id t) (t_pending t) (t_futures t) (t_queue t) (t_queue_max t)
  (t_ws t) (t_connections t) (t_reader t) true (t_handlers t) (t_tasks t) (t_sent t) (t_send_faults t).
Definition set_t_handlers x t := mk_transport (t_next_id t) (t_pending t) (t_futures t) (t_queue t) (t_queue_max t)
  (t_ws t) (t_connections t) (t_reader t) (t_explicit_close t) x (t_tasks t) (t_sent t) (t_send_faults t).
Definition set_t_tasks x t := mk_transport (t_next_id t) (t_pending t) (t_futures t) (t_queue t) (t_queue_max t)
  (t_ws t) (t_connections t) (t_reader t) (t_explicit_close t) (t_handlers t) x (t_sent t) (t_send_faults t).
Definition set_t_send sent faults t := mk_transport (t_next_id t) (t_pending t) (t_futures t) (t_queue t) (t_queue_max t)
  (t_ws t) (t_connections t) (t_reader t) (t_explicit_close t) (t_handlers t) (t_tasks t) sent faults.

Definition tprog (A : Type) : Type := prog transport exn A.

Definition is_connected (t : transport) : bool :=
  bool_decide (is_Some (t_ws t)) && negb (t_explicit_close t).

Definition diagnostic_snapshot (t : transport) : dict :=
  [("ws_connected", JBool (is_connected t)); ("explicit_close", JBool (t_explicit_close t));
   ("pending_requests", JNum (Z.of_nat (size (t_pending t))));
   ("notification_queue_size", JNum (Z.of_nat (List.length (t_queue t))));
   ("reader_alive", JBool (bool_decide (is_Some (t_reader t))))].

(* ------------------------------------------------------------------ *)
(** * Connecting and sending *)

(** [attempts]: how each [websockets.connect] ends ([None]: connected). *)
Fixpoint connect_attempts (retries : nat) (attempts : list (option exn)) : tprog unit :=
  match retries with
  | O => pret tt
  | S n =>
      match hd None attempts with
      | None => modify (fun t => set_t_conn (Some (t_connections t)) (S (t_connections t)) (t_reader t) t)
      | Some e =>
          match e with
          | OSError _ | WebSocketException _ =>
              if Nat.eqb n 0 then praise e else connect_attempts n (tl attempts)
          | _ => praise e
          end
      end
  end.

Definition connect (attempts : list (option exn)) : tprog unit :=
  let! closed := gets t_explicit_close in
  if closed then praise (RuntimeError "AppServerClient was closed")
  else
    let! ws := gets t_ws in
    match ws with
    | Some _ => pret tt
    | None =>
        connect_attempts CONNECT_RETRIES attempts ;;
        modify (fun t => set_t_conn (t_ws t) (t_connections t) (t_ws t) t)
    end.

Definition ensure_open : tprog unit :=
  let! t := get in
  if t_explicit_close t then praise (RuntimeError "AppServerClient is closed")
  else match t_ws t with
       | None => praise (RuntimeError "AppServerClient is not connected")
       | Some _ => pret tt
       end.

Definition send (payload : json) : tprog unit :=
  let! t := get in
  match t_ws t with
  | None => praise (RuntimeError "AppServerClient is not connected")
  | Some _ =>
      match t_send_faults t with
      | Some e :: fs => modify (set_t_send (t_sent t) fs) ;; praise e
      | _ => modify (set_t_send (t_sent t ++ [payload])%list (tl (t_send_faults t)))
      end
  end.

(** [request] up to the point where it waits for the future of its identifier. *)
Definition request_begin (method : string) (params : dict) : tprog Z :=
  ensure_open ;;
  let! req_id := gets t_next_id in
  modify (set_t_next_id (req_id + 1)) ;;
  let payload := JObj [("jsonrpc", JStr "2.0"); ("id", JNum req_id); ("method", JStr method); ("params", JObj params)] in
  modify (fun t => set_t_futures (<[req_id := None]> (t_futures t)) t) ;;
  modify (fun t => set_t_pending ({[req_id]} ∪ t_pending t) t) ;;
  send payload ;;
  pret req_id.

Definition pop_pending (req_id : Z) : tprog unit :=
  modify (fun t => set_t_pending (t_pending t ∖ {[req_id]}) t).

(** The end of [request]: the future is resolved, or the timeout cancels it. *)
Definition request_end (req_id : Z) : tprog json :=
  let! f := gets (fun t => t_futures t !! req_id) in
  match f with
  | Some (Some r) => pop_pending req_id ;; lift_result r
  | _ =>
      modify (fun t => set_t_futures (<[req_id := Some (Raise CancelledError)]> (t_futures t)) t) ;;
      pop_pending req_id ;;
      praise TimeoutError
  end.

Definition notify (method : string) (params : dict) : tprog unit :=
  ensure_open ;;
  send (JObj [("jsonrpc", JStr "2.0"); ("method", JStr method); ("params", JObj params)]).

Definition register_request_handler (method : string) (handler : dict -> result exn json) : tprog unit :=
  modify (fun t => set_t_handlers (assoc_set method handler (t_handlers t)) t).

(* ------------------------------------------------------------------ *)
(** * The queue *)

Definition queue_full (t : transport) : bool :=
  Z.ltb 0 (t_queue_max t) && Z.leb (t_queue_max t) (Z.of_nat (List.length (t_queue t))).

Definition put_nowait (x : option Notification) (t : transport) : transport :=
  set_t_queue (t_queue t ++ [x])%list t.

Definition enqueue_notification (message : dict) : tprog unit :=
  let params := match assoc "params" message with Some (JObj d) => d | _ => [] end in
  match assoc "method" message with
  | Some (JStr method) =>
      let note := mk_notification method params (get_str "turnId" params) in
      modify (fun t => if queue_full t then t else put_nowait (Some note) t)
  | _ => praise (py_error "ValidationError")
  end.

Definition wake_notifications : tprog unit :=
  modify (fun t => put_nowait None (if queue_full t then set_t_queue (tl (t_queue t)) t else t)).

(** One step of [notifications()]: [None] when the queue is empty (it waits). *)
Definition next_note : tprog (option (option Notification)) :=
  let! q := gets t_queue in
  match q with
  | [] => pret None
  | x :: q' => modify (set_t_queue q') ;; pret (Some x)
  end.

(** Future [f] as [_fail_pending] leaves it. *)
Definition failed (e : exn) (f : future) : future :=
  match f with None => Some (Raise e) | Some r => Some r end.

Definition fail_pending (e : exn) : tprog unit :=
  modify (fun t => set_t_pending ∅ (set_t_futures
    (map_imap (fun i f => Some (if bool_decide (i ∈ t_pending t) then failed e f else f)) (t_futures t)) t)).

(* ------------------------------------------------------------------ *)
(** * Dispatch *)

(** The error of a response; one that is not shaped as JSON-RPC says has no modelled code
    and message. *)
Definition app_server_error (err : dict) : exn :=
  match get_default "code" (JNum (-1)) err, get_default "message" (JStr "") err with
  | JNum c, JStr m => AppServerError c m
  | _, _ => py_error "AppServerError"
  end.

Definition resolve_response (message : dict) : tprog unit :=
  let req_id := get_or_null "id" message in
  lift_result (hashable req_id) ;;
  let! t := get in
  let found := i ← as_int_key req_id;
               if bool_decide (i ∈ t_pending t) then
                 match t_futures t !! i with Some None => Some i | _ => None end
               else None in
  match found with
  | None => pret tt
  | Some i =>
      match assoc "error" message with
      | Some (JObj err) => modify (set_t_futures (<[i := Some (Raise (app_server_error err))]> (t_futures t)))
      | Some _ => praise (py_error "AttributeError")
      | None => modify (set_t_futures (<[i := Some (Ok (get_or_null "result" message))]> (t_futures t)))
      end
  end.

Definition spawn_request_handler (message : dict) : tprog unit :=
  modify (fun t => set_t_tasks (t_tasks t ++ [message])%list t).

(** A text frame that is JSON, one that is not, and a binary frame that is not UTF-8. *)
Inductive raw_frame := FJson (j : json) | FNotJson | FNotUtf8.

(** ["id" in message] on what is not a dict. *)
Definition contains_id (message : json) : bool :=
  match message with
  | JStr s => str_contains "id" s
  | JArr l => existsb (fun j => is_str j "id") l
  | _ => false
  end.

Definition dispatch (frame : raw_frame) : tprog unit :=
  match frame with
  | FNotJson => pret tt
  | FNotUtf8 => praise (py_error "UnicodeDecodeError")
  | FJson (JObj message) =>
      let has_id := match assoc "id" message with None | Some JNull => false | Some _ => true end in
      let has_method := bool_decide (is_Some (assoc "method" message)) in
      if has_id && has_method then spawn_request_handler message
      else if has_id then resolve_response message
      else if has_method then enqueue_notification message
      else pret tt
  | FJson ((JStr _ | JArr _) as message) =>
      praise (py_error (if contains_id message then "TypeError" else "AttributeError"))
  | FJson _ => praise (py_error "TypeError")
  end.

Definition send_response (req_id : json) (result : json) (error : option dict) : tprog unit :=
  except (fun e => if is_exception e then pret tt else praise e)
    (send (JObj [("jsonrpc", JStr "2.0"); ("id", req_id);
                 match error with Some e => ("error", JObj e) | None => ("result", result) end])).

Definition handle_request (str_repr : json -> string) (message : dict) : tprog unit :=
  let req_id := get_or_null "id" message in
  let method := get_or_null "method" message in
  let params := match assoc "params" message with Some (JObj d) => d | _ => [] end in
  lift_result (hashable method) ;;
  let! handlers := gets t_handlers in
  match (match method with JStr m => assoc m handlers | _ => None end) with
  | None =>
      send_response req_id JNull (Some
        [("code", JNum JSONRPC_METHOD_NOT_FOUND);
         ("message", JStr ("method not supported: " ++ py_str str_repr method))])
  | Some handler =>
      match handler params with
      | Ok r => send_response req_id r None
      | Raise e =>
          if is_exception e then
            send_response req_id JNull (Some
              [("code", JNum JSONRPC_INTERNAL_ERROR); ("message", JStr (exn_str e))])
          else praise e
      end
  end.

(* ------------------------------------------------------------------ *)
(** * The end of the connection *)

(** The [finally] of [_read_loop]. *)
Definition reader_finish (ws : nat) : tprog unit :=
  modify (fun t => if bool_decide (t_ws t = Some ws) then set_t_conn None (t_connections t) None t else t) ;;
  wake_notifications ;;
  fail_pending (RuntimeError "AppServerClient connection lost").

(** One frame read; a frame whose dispatch raises ends the reader. *)
Definition reader_frame (ws : nat) (frame : raw_frame) : tprog unit :=
  except (fun _ => reader_finish ws) (dispatch frame).

(** Cancelling the reader runs its [finally] while the client is closing. *)
Definition teardown_transport : tprog unit :=
  let! reader := gets t_reader in
  match reader with
  | Some ws => reader_finish ws
  | None => pret tt
  end ;;
  modify (set_t_tasks []) ;;
  modify (fun t => set_t_conn None (t_connections t) None t).

Definition close : tprog unit :=
  let! closed := gets t_explicit_close in
  if closed then pret tt
  else
    modify set_t_closed ;;
    teardown_transport ;;
    wake_notifications ;;
    fail_pending (RuntimeError "AppServerClient closed").

(* ------------------------------------------------------------------ *)
(** * Executions *)

(** What can happen to a client: its callers' calls (a requester waits for an identifier
    it was given), the frames and the end of its
    connection, the turns of its request handlers, and the consumer's reads. *)
Inductive transport_op :=
| OConnect (attempts : list (option exn))
| ORequest (method : string) (params : dict)
| OAwait (req_id : Z)
| ONotify (method : string) (params : dict)
| OFrame (frame : raw_frame)
| OEof
| OTask
| OGet
| OClose.

Section Executions.
Context (str_repr : json -> string).

(** One operation; the consumer's read gives what it received. *)
Definition run_op (op : transport_op) : tprog (list (option Notification)) :=
  match op with
  | OConnect attempts => connect attempts ;; pret []
  | ORequest m p => request_begin m p ;; pret []
  | OAwait i =>
      let! known := gets (fun t => bool_decide (is_Some (t_futures t !! i))) in
      if known then request_end i ;; pret [] else pret []
  | ONotify m p => notify m p ;; pret []
  | OFrame frame =>
      let! reader := gets t_reader in
      match reader with Some ws => reader_frame ws frame ;; pret [] | None => pret [] end
  | OEof =>
      let! reader := gets t_reader in
      match reader with Some ws => reader_finish ws ;; pret [] | None => pret [] end
  | OTask =>
      let! tasks := gets t_tasks in
      match tasks with
      | [] => pret []
      | m :: rest => modify (set_t_tasks rest) ;; handle_request str_repr m ;; pret []
      end
  | OGet => let! x := next_note in pret (match x with Some n => [n] | None => [] end)
  | OClose => close ;; pret []
  end.

(** A run: what the consumer received, and the final state. *)
Fixpoint run_ops (ops : list transport_op) (t : transport) : list (option Notification) * transport :=
  match ops with
  | [] => ([], t)
  | op :: ops' =>
      let '(r, t1) := run_op op t in
      let '(rs, t2) := run_ops ops' t1 in
      ((match r with Ok l => l | Raise _ => [] end ++ rs)%list, t2)
  end.

(** The notifications the frames carry, in order. *)
Definition note_of (frame : raw_frame) : list Notification :=
  match frame with
  | FJson (JObj message) =>
      match assoc "id" message, assoc "method" message with
      | (None | Some JNull), Some (JStr method) =>
          let params := match assoc "params" message with Some (JObj d) => d | _ => [] end in
          [mk_notification method params (get_str "turnId" params)]
      | _, _ => []
      end
  | _ => []
  end.

Definition notes_of (ops : list transport_op) : list Notification :=
  flat_map (fun op => match op with OFrame f => note_of f | _ => [] end) ops.

(* ------------------------------------------------------------------ *)
(** * Invariant *)

Record transport_wf (t : transport) : Prop := {
  wf_reader : t_reader t = t_ws t;
  wf_ids : forall i f, t_futures t !! i = Some f -> i < t_next_id t;
  wf_waiting : forall i, t_futures t !! i = Some None -> i ∈ t_pending t /\ t_ws t <> None;
  wf_queue : 0 < t_queue_max t -> Z.of_nat (List.length (t_queue t)) <= t_queue_max t
}.

Lemma new_transport_wf q : transport_wf (new_transport q).
Proof. split; simpl; try done; lia. Qed.

(** The notifications among queue entries. *)
Definition real (l : list (option Notification)) : list Notification := omap id l.

Lemma real_app l l' : real (l ++ l')%list = (real l ++ real l')%list.
Proof. apply omap_app. Qed.

(** What one operation does: [l] is what the consumer received, [notes] what arrived. *)
Record op_ok (t : transport) (notes : list Notification) (l : list (option Notification))
    (t' : transport) : Prop := {
  ok_wf : transport_wf t';
  ok_stable : forall i r, t_futures t !! i = Some (Some r) -> t_futures t' !! i = Some (Some r);
  ok_order : sublist (real (l ++ t_queue t')%list) (real (t_queue t) ++ notes)%list;
  ok_sentinel : None ∈ t_queue t -> None ∈ (l ++ t_queue t')%list;
  ok_lost : t_ws t' = None ->
    (t_ws t = None /\ t_connections t' = t_connections t) \/ None ∈ (l ++ t_queue t')%list
}.

(** Everything but the sent frames, the handlers and the tasks. *)
Definition core (t : transport) :=
  (t_next_id t, t_pending t, t_futures t, t_queue t, t_queue_max t, t_ws t, t_connections t, t_reader t).

Lemma op_ok_core t t' notes : transport_wf t -> core t' = core t -> op_ok t notes [] t'.
Proof.
  unfold core. intros [] [= E1 E2 E3 E4 E5 E6 E7 E8].
  split; [split|..]; rewrite ?E1, ?E2, ?E3, ?E4, ?E5, ?E6, ?E7, ?E8; auto.
  simpl. by apply sublist_inserts_r.
Qed.

Lemma op_ok_refl t notes : transport_wf t -> op_ok t notes [] t.
Proof. intros H. by apply op_ok_core. Qed.

Lemma send_core payload : respects (same core) (send payload).
Proof.
  intros t. unfold send, pbind, get. cbn [fst snd]. destruct (t_ws t); [|done].
  by destruct (t_send_faults t) as [|[e|] fs].
Qed.
#[local] Hint Resolve send_core : frame.

Lemma ensure_open_core : respects (same core) ensure_open.
Proof. unfold ensure_open. solve_frame. Qed.
#[local] Hint Resolve ensure_open_core : frame.

Lemma notify_core m p : respects (same core) (notify m p).
Proof. unfold notify. solve_frame. Qed.

Lemma handle_request_core m : respects (same core) (handle_request str_repr m).
Proof. unfold handle_request, send_response. solve_frame. Qed.

Lemma op_ok_run {A} (m : tprog A) t notes :
  transport_wf t -> respects (same core) m -> op_ok t notes [] (m t).2.
Proof. intros Hwf Hm. apply op_ok_core; [done|]. apply Hm. Qed.

(** The queue with a new entry, an old one dropped if it was full. *)
Lemma wake_eq t :
  exists q0, wake_notifications t = (Ok tt, set_t_queue (q0 ++ [None])%list t) /\
    sublist q0 (t_queue t) /\
    (0 < t_queue_max t -> Z.of_nat (List.length (t_queue t)) <= t_queue_max t ->
     Z.of_nat (List.length (q0 ++ [None])%list) <= t_queue_max t).
Proof.
  unfold wake_notifications, modify, put_nowait. destruct (queue_full t) eqn:E0.
  - exists (tl (t_queue t)). split; [by destruct t|]. split; [destruct (t_queue t); [done|by constructor]|].
    intros Hpos Hle. unfold queue_full in E0. to_prop. rewrite length_app. simpl.
    destruct (t_queue t); simpl in *; lia.
  - exists (t_queue t). split; [done|]. split; [done|]. intros Hpos Hle.
    unfold queue_full in E0. rewrite length_app. simpl. apply andb_false_iff in E0 as [E0|E0]; to_prop; lia.
Qed.

Lemma real_sublist l l' : sublist l l' -> sublist (real l) (real l').
Proof.
  induction 1 as [|x l l' _ IH|x l l' _ IH]; [done|destruct x; simpl; [by constructor|done]|].
  destruct x; simpl; [by constructor|done].
Qed.

Lemma fail_pending_lookup e t i :
  t_futures (fail_pending e t).2 !! i =
  (fun f => if bool_decide (i ∈ t_pending t) then failed e f else f) <$> t_futures t !! i.
Proof. unfold fail_pending, modify. cbn [fst snd set_t_pending set_t_futures t_futures]. rewrite map_lookup_imap. by destruct (_ !! i). Qed.

(** The end of the connection: the socket goes, the sentinel comes, every future is
    resolved. *)
Lemma reader_finish_ok ws t : transport_wf t -> t_reader t = Some ws -> op_ok t [] [] (reader_finish ws t).2.
Proof.
  intros [Hr Hid Hw Hq] Hws. unfold reader_finish, pbind, modify. rewrite bool_decide_eq_true_2 by congruence.
  set (t1 := set_t_conn None (t_connections t) None t).
  destruct (wake_eq t1) as (q0 & -> & Hsub & Hlen).
  set (t2 := set_t_queue (q0 ++ [None])%list t1).
  assert (Hf : forall i, t_futures (fail_pending (RuntimeError "AppServerClient connection lost") t2).2 !! i =
    (fun f => if bool_decide (i ∈ t_pending t) then failed (RuntimeError "AppServerClient connection lost") f else f)
      <$> t_futures t !! i) by (intros i; exact (fail_pending_lookup _ t2 i)).
  split; [split|..]; cbn [app].
  - done.
  - intros i f. rewrite Hf. intros Hi. destruct (t_futures t !! i) eqn:E0; [|done]. by eapply Hid.
  - intros i. rewrite Hf. destruct (t_futures t !! i) as [[r|]|] eqn:E0; simpl; [by case_bool_decide| |done].
    destruct (Hw i E0) as [Hin _]. by rewrite bool_decide_eq_true_2.
  - intros Hpos. apply Hlen; [done|]. by apply Hq.
  - intros i r Hi. rewrite Hf, Hi. simpl. by case_bool_decide.
  - cbn. rewrite real_app. simpl. rewrite !app_nil_r. by apply real_sublist.
  - intros _. apply elem_of_app. right. by apply list_elem_of_here.
  - intros _. right. apply elem_of_app. right. by apply list_elem_of_here.
Qed.

Lemma op_ok_trans t n1 l1 t1 n2 l2 t2 :
  op_ok t n1 l1 t1 -> op_ok t1 n2 l2 t2 -> op_ok t (n1 ++ n2)%list (l1 ++ l2)%list t2.
Proof.
  intros [W1 S1 O1 E1 L1] [W2 S2 O2 E2 L2]. split; [done|auto|..].
  - rewrite <- app_assoc, real_app. rewrite real_app in O1. etransitivity.
    { apply sublist_app; [reflexivity|exact O2]. }
    rewrite !app_assoc. apply sublist_app; [|reflexivity]. exact O1.
  - intros H. apply E1 in H. rewrite <- app_assoc. apply elem_of_app in H as [H|H];
      apply elem_of_app; [by left|right; by apply E2].
  - intros H. rewrite <- app_assoc. destruct (L2 H) as [[H1 Hc]|H1]; [|right; apply elem_of_app; by right].
    destruct (L1 H1) as [[H3 Hc']|H3]; [left; split; congruence|]. right.
    apply elem_of_app in H3 as [H3|H3]; apply elem_of_app; [by left|right; by apply E2].
Qed.

Lemma wake_ok t : transport_wf t -> op_ok t [] [] (wake_notifications t).2.
Proof.
  intros [Hr Hid Hw Hq]. destruct (wake_eq t) as (q0 & -> & Hsub & Hlen).
  split; [by split; auto|..]; cbn [app fst snd].
  - done.
  - cbn. rewrite real_app. simpl. rewrite !app_nil_r. by apply real_sublist.
  - intros _. apply elem_of_app. right. by apply list_elem_of_here.
  - intros _. right. apply elem_of_app. right. by apply list_elem_of_here.
Qed.

Lemma fail_ok e t : transport_wf t -> op_ok t [] [] (fail_pending e t).2.
Proof.
  intros [Hr Hid Hw Hq]. pose proof (fail_pending_lookup e t) as Hf.
  split; [split|..]; cbn [app]; try done.
  - intros i f. rewrite Hf. intros Hi. destruct (t_futures t !! i) eqn:E0; [|done]. by eapply Hid.
  - intros i. rewrite Hf. destruct (t_futures t !! i) as [[r|]|] eqn:E0; simpl; [by case_bool_decide| |done].
    destruct (Hw i E0) as [Hin _]. by rewrite bool_decide_eq_true_2.
  - intros i r Hi. rewrite Hf, Hi. simpl. by case_bool_decide.
  - cbn. by rewrite app_nil_r.
  - intros H. left. done.
Qed.

Lemma op_ok_next t t1 t2 n : op_ok t n [] t1 -> op_ok t1 [] [] t2 -> op_ok t n [] t2.
Proof. intros H1 H2. pose proof (op_ok_trans _ _ _ _ _ _ _ H1 H2) as H. by rewrite app_nil_r in H. Qed.

Lemma close_ok t : transport_wf t -> op_ok t [] [] (close t).2.
Proof.
  intros Hwf. unfold close, pbind at 1, gets. cbn [fst snd].
  destruct (t_explicit_close t); [by apply op_ok_refl|].
  unfold teardown_transport, pbind, modify, gets. cbn [fst snd].
  set (t1 := set_t_closed t). assert (H1 : op_ok t [] [] t1) by by apply op_ok_core.
  assert (Hend : forall t2, op_ok t [] [] t2 -> t_ws t2 = None ->
    let t3 := set_t_conn None (t_connections (set_t_tasks [] t2)) None (set_t_tasks [] t2) in
    op_ok t [] [] (fail_pending (RuntimeError "AppServerClient closed") (wake_notifications t3).2).2).
  { intros t2 H2 Hn t3. assert (H3 : op_ok t [] [] t3).
    { eapply op_ok_next; [exact H2|]. destruct H2 as [Hw2 _ _ _ _].
      apply op_ok_core; [done|]. unfold core, t3. cbn. by rewrite (wf_reader _ Hw2), Hn. }
    assert (H4 : op_ok t [] [] (wake_notifications t3).2)
      by (eapply op_ok_next; [exact H3|apply wake_ok, H3]).
    eapply op_ok_next; [exact H4|apply fail_ok, H4]. }

  change (t_reader t1) with (t_reader t).
  destruct (t_reader t) as [ws|] eqn:E0.
  - pose proof (reader_finish_ok ws t1 (ok_wf _ _ _ _ H1) E0) as Hf.
    assert (Hn : t_ws (reader_finish ws t1).2 = None).
    { unfold reader_finish, pbind, modify. rewrite bool_decide_eq_true_2 by (change (t_ws t = Some ws); by rewrite <- (wf_reader _ Hwf)).
      destruct (wake_eq (set_t_conn None (t_connections t1) None t1)) as (q1 & -> & _). done. }
    assert (Hok : (reader_finish ws t1).1 = Ok tt).
    { unfold reader_finish, pbind, modify.
      destruct (wake_eq (if bool_decide (t_ws t1 = Some ws) then set_t_conn None (t_connections t1) None t1 else t1)) as (q1 & -> & _). done. }
    destruct (reader_finish ws t1) as [r t2]. simpl in Hok, Hn, Hf. subst r.
    specialize (Hend t2 (op_ok_next _ _ _ _ H1 Hf) Hn). cbn [fst snd] in Hend |- *.
    match goal with |- context [wake_notifications ?x] => destruct (wake_eq x) as (q1 & E1 & _); rewrite E1 in Hend |- * end.
    exact Hend.
  - assert (Hn : t_ws t1 = None) by (unfold t1; cbn; by rewrite <- (wf_reader _ Hwf)).
    specialize (Hend t1 H1 Hn). cbn [fst snd pret] in Hend |- *.
    match goal with |- context [wake_notifications ?x] => destruct (wake_eq x) as (q1 & E1 & _); rewrite E1 in Hend |- * end.
    exact Hend.
Qed.

Lemma enqueue_ok message t :
  transport_wf t -> assoc "id" message = None \/ assoc "id" message = Some JNull ->
  op_ok t (note_of (FJson (JObj message))) [] (enqueue_notification message t).2.
Proof.
  intros Hwf Hid. unfold enqueue_notification, note_of.
  assert ((match assoc "id" message, assoc "method" message with
    | (None | Some JNull), Some (JStr method) =>
        [mk_notification method (match assoc "params" message with Some (JObj d) => d | _ => [] end)
           (get_str "turnId" (match assoc "params" message with Some (JObj d) => d | _ => [] end))]
    | _, _ => [] end) = match assoc "method" message with
    | Some (JStr method) => [mk_notification method (match assoc "params" message with Some (JObj d) => d | _ => [] end)
           (get_str "turnId" (match assoc "params" message with Some (JObj d) => d | _ => [] end))]
    | _ => [] end) as -> by (destruct Hid as [-> | ->]; by destruct (assoc "method" message) as [[]|]).
  set (params := match assoc "params" message with Some (JObj d) => d | _ => [] end).
  destruct (assoc "method" message) as [[| | | |m| |]|]; try by apply op_ok_refl.
  unfold modify. cbn [fst snd]. destruct (queue_full t) eqn:Ef; [by apply op_ok_refl|].
  destruct Hwf as [Hr Hi Hw Hq]. split; [split; auto|..]; cbn [app].
  - intros Hpos. cbn in *. rewrite length_app. simpl. specialize (Hq Hpos).
    unfold queue_full in Ef. apply andb_false_iff in Ef as [Ef|Ef]; to_prop; lia.
  - done.
  - cbn. by rewrite real_app.
  - intros H. apply elem_of_app. by left.
  - intros H. by left.
Qed.

Lemma resolve_ok message t : transport_wf t -> op_ok t [] [] (resolve_response message t).2.
Proof.
  intros Hwf. unfold resolve_response, pbind at 1, lift_result.
  destruct (hashable _); [|by apply op_ok_refl]. unfold pbind, get. cbn [fst snd].
  set (found := i ← as_int_key _; _).
  destruct found as [i|] eqn:Ef; [|by apply op_ok_refl].
  assert (Hi : t_futures t !! i = Some None).
  { unfold found in Ef. destruct (as_int_key _) as [i'|]; [|done]. simpl in Ef.
    case_bool_decide; [|done]. destruct (t_futures t !! i') as [[r|]|] eqn:E0; try done. congruence. }
  assert (Hset : forall r, op_ok t [] [] (set_t_futures (<[i := Some r]> (t_futures t)) t)).
  { intros r. destruct Hwf as [Hr Hid Hw Hq]. split; [split; auto|..]; cbn [app]; cbn.
    - intros i' f. destruct (decide (i = i')) as [<-|Hne]; [intros _; by eapply Hid|].
      rewrite lookup_insert_ne by done. apply Hid.
    - intros i'. destruct (decide (i = i')) as [<-|Hne]; [by rewrite lookup_insert_eq|].
      rewrite lookup_insert_ne by done. apply Hw.
    - intros i' r' Hi'. rewrite lookup_insert_ne by congruence. done.
    - by rewrite app_nil_r.
    - done.
    - by left. }
  destruct (assoc "error" message) as [[]|]; first [apply Hset|by apply op_ok_refl].
Qed.

Lemma dispatch_ok frame t : transport_wf t -> op_ok t (note_of frame) [] (dispatch frame t).2.
Proof.
  intros Hwf. destruct frame as [[| | | | | |message]| |]; try by apply op_ok_refl.
  unfold dispatch. destruct (assoc "method" message) as [m|] eqn:Em.
  - rewrite bool_decide_eq_true_2 by done. rewrite andb_true_r.
    destruct (assoc "id" message) as [i|] eqn:Ei; [|apply enqueue_ok; auto].
    assert (note_of (FJson (JObj message)) = [] \/ i = JNull) as Hn
      by (unfold note_of; rewrite Ei; destruct i; auto).
    destruct i; try (destruct Hn as [-> |Hn]; [by apply op_ok_core|done]). apply enqueue_ok; auto.
  - rewrite bool_decide_eq_false_2 by (intros [? ?]; done). rewrite andb_false_r.
    assert (note_of (FJson (JObj message)) = []) as ->
      by (unfold note_of; rewrite Em; by destruct (assoc "id" message) as [[]|]).
    destruct (match assoc "id" message with None | Some JNull => false | Some _ => true end);
      [by apply resolve_ok|by apply op_ok_refl].
Qed.

Lemma resolve_reader message t : t_reader (resolve_response message t).2 = t_reader t.
Proof.
  unfold resolve_response, pbind, lift_result, get. destruct (hashable _); [|done].
  cbn [fst snd]. set (found := _ ≫= _). destruct found; [|done].
  by destruct (assoc "error" message) as [[]|].
Qed.

Lemma dispatch_reader frame t : t_reader (dispatch frame t).2 = t_reader t.
Proof.
  destruct frame as [[| | | | | |message]| |]; try done. unfold dispatch.
  repeat (case_goal; try done; try apply resolve_reader).
  all: unfold enqueue_notification, modify; destruct (assoc "method" message) as [[]|]; try done;
    cbn [snd]; by destruct (queue_full t).
Qed.

Lemma reader_frame_ok ws frame t :
  transport_wf t -> t_reader t = Some ws -> op_ok t (note_of frame) [] (reader_frame ws frame t).2.
Proof.
  intros Hwf Hr. pose proof (dispatch_ok frame t Hwf) as H. pose proof (dispatch_reader frame t) as Hd.
  unfold reader_frame, except. destruct (dispatch frame t) as [[[]|e] t1]; [done|]. simpl in *.
  eapply op_ok_next; [exact H|]. apply reader_finish_ok; [apply H|congruence].
Qed.

Lemma connect_attempts_core n attempts t : t_ws t = None ->
  let '(r, t') := connect_attempts n attempts t in
  core t' = core t \/ (r = Ok tt /\ exists k, t' = set_t_conn (Some k) (S k) (t_reader t) t).
Proof.
  revert attempts. induction n as [|n IH]; intros attempts Hws; [by left|]. cbn [connect_attempts].
  destruct (hd None attempts) as [e|]; [|right; split; [done|by eexists]].
  destruct e; try (by left); (destruct (n =? 0)%nat; [by left|by apply IH]).
Qed.

Lemma connect_ok attempts t : transport_wf t -> op_ok t [] [] (connect attempts t).2.
Proof.
  intros Hwf. unfold connect, pbind, gets. cbn [fst snd]. destruct (t_explicit_close t); [by apply op_ok_refl|].
  destruct (t_ws t) eqn:Ews; [by apply op_ok_refl|].
  pose proof (connect_attempts_core CONNECT_RETRIES attempts t Ews) as H.
  destruct (connect_attempts _ _ t) as [[[]|e] t1]; cbn [fst snd modify].
  - destruct Hwf as [Hr Hid Hw Hq]. assert (Hno : forall i, t_futures t !! i <> Some None)
      by (intros i Hi; destruct (Hw i Hi) as [_ Hn]; congruence).
    destruct H as [H|[_ [k ->]]].
    + unfold core in H. injection H as E1 E2 E3 E4 E5 E6 E7 E8.
      apply op_ok_core; [done|]. unfold core. cbn. rewrite E1, E2, E3, E4, E5, E6, E7. by rewrite Hr.
    + split; [split; try done|..]; cbn [app]; cbn; try done; [|by rewrite app_nil_r].
      intros i Hi. by destruct (Hno i).
  - destruct H as [H|[? _]]; [by apply op_ok_core|done].
Qed.

Lemma request_begin_ok m p t : transport_wf t -> op_ok t [] [] (request_begin m p t).2.
Proof.
  intros Hwf. unfold request_begin, pbind at 1, ensure_open, pbind at 1, get. cbn [fst snd].
  destruct (t_explicit_close t); [by apply op_ok_refl|]. destruct (t_ws t) eqn:Ews; [|by apply op_ok_refl].
  unfold pret, pbind, gets, modify. cbn [fst snd].
  match goal with |- context [send ?p ?x] => set (payload := p); set (t1 := x) end.
  assert (H1 : op_ok t [] [] t1).
  { destruct Hwf as [Hr Hid Hw Hq]. split; [split; auto|..]; cbn [app]; unfold t1; cbn.
    - intros i f. destruct (decide (t_next_id t = i)) as [<-|Hne]; [intros _; lia|].
      rewrite lookup_insert_ne by done. intros Hi%Hid. lia.
    - intros i. destruct (decide (t_next_id t = i)) as [<-|Hne]; [intros _; split; [set_solver|congruence]|].
      rewrite lookup_insert_ne by done. intros [Hi ?]%Hw. split; [set_solver|done].
    - intros i r Hi. rewrite lookup_insert_ne; [done|]. intros <-. apply Hid in Hi. lia.
    - by rewrite app_nil_r.
    - done.
    - by left. }
  pose proof (op_ok_run (send payload) t1 [] (ok_wf _ _ _ _ H1) (send_core payload)) as H2.
  destruct (send payload t1) as [[]]; by eapply op_ok_next.
Qed.

Lemma request_end_ok i t :
  transport_wf t -> is_Some (t_futures t !! i) -> op_ok t [] [] (request_end i t).2.
Proof.
  intros Hwf Hs. unfold request_end, pbind at 1, gets. cbn [fst snd].
  assert (Hset : forall t1, (t1 = t /\ t_futures t !! i <> Some None \/
    t1 = set_t_futures (<[i := Some (Raise CancelledError)]> (t_futures t)) t /\
      (forall r, t_futures t !! i <> Some (Some r)) /\ i < t_next_id t) ->
    op_ok t [] [] (set_t_pending (t_pending t1 ∖ {[i]}) t1)).
  { intros t1 Ht. destruct Hwf as [Hr Hid Hw Hq]. destruct Ht as [[-> Hi]|(-> & Hi & Hlt)].
    - split; [split; auto|..]; cbn [app]; cbn; try done; [|by rewrite app_nil_r|by left].
      intros i' Hi'. destruct (Hw i' Hi') as [Hin Hn]. split; [|done].
      destruct (decide (i' = i)) as [->|]; [done|set_solver].
    - split; [split; auto|..]; cbn [app]; cbn.
      + intros i' f. destruct (decide (i = i')) as [<-|Hne]; [done|]. rewrite lookup_insert_ne by done. apply Hid.
      + intros i'. destruct (decide (i = i')) as [<-|Hne]; [by rewrite lookup_insert_eq|].
        rewrite lookup_insert_ne by done. intros [Hin Hn]%Hw. split; [set_solver|done].
      + intros i' r Hi'. rewrite lookup_insert_ne; [done|]. intros <-. by apply Hi in Hi'.
      + by rewrite app_nil_r.
      + done.
      + by left. }
  destruct (t_futures t !! i) as [[r|]|] eqn:Ei.
  - unfold pbind, pop_pending, modify, lift_result. cbn [fst snd]. apply Hset. left. split; [done|congruence].
  - unfold pbind, pop_pending, modify, praise. cbn [fst snd]. apply Hset. right.
    split_and!; [done|congruence|]. by eapply wf_ids.
  - by destruct Hs.
Qed.

Lemma next_note_ok t : transport_wf t ->
  op_ok t [] (match (next_note t).1 with Ok (Some x) => [x] | _ => [] end) (next_note t).2.
Proof.
  intros Hwf. unfold next_note, pbind, gets. cbn [fst snd].
  destruct (t_queue t) as [|x q] eqn:E0; cbn [fst snd pret modify]; [by apply op_ok_refl|].
  destruct Hwf as [Hr Hid Hw Hq]. split; [split; auto|..]; cbn [app]; cbn.
  - intros Hpos. specialize (Hq Hpos). rewrite E0 in Hq. simpl in Hq. lia.
  - done.
  - rewrite E0. by rewrite app_nil_r.
  - by rewrite E0.
  - by left.
Qed.

Lemma run_op_ok op t : transport_wf t ->
  op_ok t (match op with OFrame f => note_of f | _ => [] end)
    (match (run_op op t).1 with Ok l => l | Raise _ => [] end) (run_op op t).2.
Proof.
  intros Hwf.
  assert (Hq : forall A (m : tprog A) notes, op_ok t notes [] (m t).2 ->
    op_ok t notes
      (match ((m ;; pret (@nil (option Notification))) t).1 with Ok l => l | Raise _ => [] end)
      ((m ;; pret (@nil (option Notification))) t).2).
  { intros A m notes H. unfold pbind, pret. by destruct (m t) as [[]]. }
  destruct op; cbn [run_op].
  - by apply Hq, connect_ok.
  - by apply Hq, request_begin_ok.
  - unfold pbind at 1 3, gets. cbn [fst snd]. case_bool_decide; [by apply Hq, request_end_ok|by apply op_ok_refl].
  - by apply Hq, op_ok_run, notify_core.
  - unfold pbind at 1 3, gets. cbn [fst snd].
    destruct (t_reader t) eqn:E0; [by apply Hq, reader_frame_ok|by apply op_ok_refl].
  - unfold pbind at 1 3, gets. cbn [fst snd].
    destruct (t_reader t) eqn:E0; [by apply Hq, reader_finish_ok|by apply op_ok_refl].
  - unfold pbind at 1 4, gets. cbn [fst snd]. destruct (t_tasks t) as [|m rest]; [by apply op_ok_refl|].
    unfold pbind at 1 3, modify. cbn [fst snd].
    assert (H1 : op_ok t [] [] (set_t_tasks rest t)) by by apply op_ok_core.
    pose proof (op_ok_run (handle_request str_repr m) (set_t_tasks rest t) [] (ok_wf _ _ _ _ H1) (handle_request_core m)) as H2.
    pose proof (op_ok_next _ _ _ _ H1 H2) as H3.
    unfold pbind, pret. by destruct (handle_request str_repr m _) as [[]].
  - pose proof (next_note_ok t Hwf) as H. unfold pbind, pret. by destruct (next_note t) as [[[x|]|] t1].
  - by apply Hq, close_ok.
Qed.

Lemma run_ops_ok ops : forall t, transport_wf t ->
  op_ok t (notes_of ops) (run_ops ops t).1 (run_ops ops t).2.
Proof.
  induction ops as [|op ops IH]; intros t Hwf; [by apply op_ok_refl|].
  pose proof (run_op_ok op t Hwf) as H1. cbn [run_ops notes_of flat_map].
  destruct (run_op op t) as [r t1]. cbn [fst snd] in H1. specialize (IH t1 (ok_wf _ _ _ _ H1)).
  destruct (run_ops ops t1) as [rs t2]. by eapply op_ok_trans.
Qed.

#[local] Hint Extern 2 (respects (same t_queue_max) (modify _)) =>
  apply respects_modify; intros ?; unfold same, put_nowait; by repeat case_goal : frame.

Lemma connect_attempts_max n attempts : respects (same t_queue_max) (connect_attempts n attempts).
Proof.
  revert attempts. induction n as [|n IH]; intros attempts; cbn [connect_attempts]; solve_frame.
Qed.
#[local] Hint Resolve connect_attempts_max : frame.

Lemma send_max payload : respects (same t_queue_max) (send payload).
Proof. unfold send. solve_frame. Qed.
#[local] Hint Resolve send_max : frame.

Lemma reader_finish_max ws : respects (same t_queue_max) (reader_finish ws).
Proof. unfold reader_finish, wake_notifications, fail_pending. solve_frame. Qed.
#[local] Hint Resolve reader_finish_max : frame.

Lemma resolve_max message : respects (same t_queue_max) (resolve_response message).
Proof.
  unfold resolve_response. apply respects_bind; [typeclasses eauto|solve_frame|intros _].
  apply respects_bind; [typeclasses eauto|solve_frame|intros t].
  set (found := _ ≫= _). destruct found; solve_frame.
Qed.
#[local] Hint Resolve resolve_max : frame.

Lemma dispatch_max frame : respects (same t_queue_max) (dispatch frame).
Proof. unfold dispatch, spawn_request_handler, enqueue_notification. solve_frame. Qed.
#[local] Hint Resolve dispatch_max : frame.

Lemma run_op_max op : respects (same t_queue_max) (run_op op).
Proof.
  unfold run_op, connect, request_begin, request_end, notify, ensure_open, pop_pending, reader_frame,
    handle_request, send_response, next_note, close, teardown_transport, wake_notifications, fail_pending.
  solve_frame.
Qed.

Lemma run_ops_max ops : forall t, t_queue_max (run_ops ops t).2 = t_queue_max t.
Proof.
  induction ops as [|op ops IH]; intros t; [done|]. cbn [run_ops]. pose proof (run_op_max op t) as H.
  destruct (run_op op t) as [r t1]. specialize (IH t1). destruct (run_ops ops t1) as [rs t2].
  unfold same in H. cbn [snd] in *. congruence.
Qed.

(* ------------------------------------------------------------------ *)
(** * Properties *)

(** No request hangs and none is answered twice: in any run of a client, a resolved
    future keeps its outcome, a waiting one is still in the pending table of an open
    connection, and once the connection is gone, by loss or by close, every request has
    been resolved. *)
Theorem request_futures (queue_max : Z) (before after : list transport_op) :
  let t := (run_ops before (new_transport queue_max)).2 in
  let t' := (run_ops after t).2 in
  (forall i r, t_futures t !! i = Some (Some r) -> t_futures t' !! i = Some (Some r)) /\
  (forall i, t_futures t' !! i = Some None -> i ∈ t_pending t' /\ t_ws t' <> None).
Proof.
  intros t t'. pose proof (ok_wf _ _ _ _ (run_ops_ok before _ (new_transport_wf queue_max))) as Hwf.
  pose proof (run_ops_ok after t Hwf) as H. split; [apply H|apply H].
Qed.

(** C31: The notification queue: in any run the consumer receives notifications in the order
    of their frames, none invented or repeated, the queue stays within its maximum, and
    when the connection is gone the close sentinel is in the queue or was received, so
    the consumer never waits for ever. *)
Theorem notifications_in_order (queue_max : Z) (ops : list transport_op) :
  let '(received, t) := run_ops ops (new_transport queue_max) in
  sublist (real (received ++ t_queue t)%list) (notes_of ops) /\
  (0 < queue_max -> Z.of_nat (List.length (t_queue t)) <= queue_max) /\
  (t_ws t = None -> t_connections t = 0%nat \/ None ∈ (received ++ t_queue t)%list).
Proof.
  pose proof (run_ops_ok ops _ (new_transport_wf queue_max)) as H.
  assert (Hmax : t_queue_max (run_ops ops (new_transport queue_max)).2 = queue_max) by apply (run_ops_max ops (new_transport queue_max)).
  destruct (run_ops ops _) as [received t]. cbn [fst snd] in *. destruct H as [Hwf _ Ho _ Hl].
  split_and!; [exact Ho| |].
  - intros Hpos. rewrite <- Hmax in *. by apply Hwf.
  - intros Hn. destruct (Hl Hn) as [[_ Hc]|Hc]; [left; exact Hc|by right].
Qed.

(** A response reaches the request that waits for it, whichever requests are open: the
    frame with its identifier makes [request] return the result, or raise the error's
    code and message; it resolves no other future. *)
Theorem response_delivers (t : transport) (ws : nat) (i code : Z) (message : string) (result : json) :
  t_futures t !! i = Some None -> i ∈ t_pending t ->
  let ok := (reader_frame ws (FJson (JObj [("id", JNum i); ("result", result)])) t).2 in
  let failure := (reader_frame ws (FJson (JObj [("id", JNum i);
                    ("error", JObj [("code", JNum code); ("message", JStr message)])])) t).2 in
  (request_end i ok).1 = Ok result /\
  (request_end i failure).1 = Raise (AppServerError code message) /\
  (forall i', i' <> i -> t_futures ok !! i' = t_futures t !! i') /\
  (forall i', i' <> i -> t_futures failure !! i' = t_futures t !! i').
Proof.
  intros Hf Hp ok failure.
  assert (ok = set_t_futures (<[i := Some (Ok result)]> (t_futures t)) t) as ->.
  { unfold ok, reader_frame, except, dispatch. cbn [assoc String.eqb Ascii.eqb Bool.eqb].
    rewrite bool_decide_eq_false_2 by (intros [? ?]; done). cbn [andb].
    unfold resolve_response, pbind, lift_result, get. cbn. rewrite bool_decide_eq_true_2, Hf by done. done. }
  assert (failure = set_t_futures (<[i := Some (Raise (AppServerError code message))]> (t_futures t)) t) as ->.
  { unfold failure, reader_frame, except, dispatch. cbn [assoc String.eqb Ascii.eqb Bool.eqb].
    rewrite bool_decide_eq_false_2 by (intros [? ?]; done). cbn [andb].
    unfold resolve_response, pbind, lift_result, get. cbn. rewrite bool_decide_eq_true_2, Hf by done. done. }
  unfold request_end, pbind, gets. cbn. rewrite !lookup_insert_eq.
  split_and!; try done; intros i' Hne; by rewrite lookup_insert_ne.
Qed.

(** A full queue loses the notification that arrives, not the oldest one. *)
Lemma full_queue_drops_newest (t : transport) (ws : nat) (method : string) :
  queue_full t = true ->
  t_queue (reader_frame ws (FJson (JObj [("method", JStr method)])) t).2 = t_queue t.
Proof.
  intros Hf. unfold reader_frame, except, dispatch. cbn [assoc String.eqb Ascii.eqb Bool.eqb].
  rewrite bool_decide_eq_true_2 by done. cbn [andb]. unfold enqueue_notification, modify. cbn.
  by rewrite Hf.
Qed.

(** A JSON frame that is not an object ends the connection. *)
Lemma array_frame_ends_connection (t : transport) (ws : nat) (l : list json) :
  t_ws t = Some ws -> t_ws (reader_frame ws (FJson (JArr l)) t).2 = None.
Proof.
  intros Hws. unfold reader_frame, except, dispatch, praise. unfold reader_finish, pbind, modify.
  rewrite bool_decide_eq_true_2 by done.
  destruct (wake_eq (set_t_conn None (t_connections t) None t)) as (q & -> & _). done.
Qed.

(** A request whose frame cannot be sent stays in the pending table. *)
Lemma failed_send_leaks (t : transport) (m : string) (p : dict) (ws : nat) e fs :
  t_explicit_close t = false -> t_ws t = Some ws -> t_send_faults t = Some e :: fs ->
  (request_begin m p t).1 = Raise e /\ t_next_id t ∈ t_pending (request_begin m p t).2.
Proof.
  intros Hc Hw Hs. unfold request_begin, ensure_open, send, pbind, get, gets, modify. cbn.
  rewrite Hc, Hw. cbn. rewrite Hw, Hs. cbn. split; [done|set_solver].
Qed.
End Executions.

(* ------------------------------------------------------------------ *)
(** * Witnesses *)

Definition demo_transport : transport :=
  (run_ops (fun _ => "") [OConnect [None]; ORequest "thread/start" []; ORequest "turn/start" []] (new_transport 2)).2.

Lemma response_delivers_witness :
  (request_end 1 (reader_frame 0 (FJson (JObj [("id", JNum 1); ("result", JStr "x")])) demo_transport).2).1
    = Ok (JStr "x").
Proof.
  destruct (response_delivers demo_transport 0 1 0 "" (JStr "x")) as (H & _); [reflexivity|vm_compute; constructor|].
  exact H.
Defined.
