(* ===== verification/Session.v ===== *)
(** One conversation with a Codex sidecar ([services/codex/thread.py], [turn.py],
    [shared.py]): opening or resuming the thread, starting a turn, its notifications under
    the idle watchdog, the status probe, interrupt and steer. The sidecar is scripted: the
    answers it gives to the requests in order, and the notifications that reach the
    consumer of the queue with their times, up to the close sentinel. *)
From S2P Require Import Prelude PyStr Json Models Gen Events World Translate Diagnostics.

Open Scope Z_scope.
Open Scope string_scope.

Definition TURN_PROBE_PAGE_SIZE : Z := 20.
Definition TURN_PROBE_MAX_PAGES : nat := 5.
Definition MODEL_LIST_PAGE_SIZE : Z := 100.
Definition CODEX_REQUEST_TIMEOUT : Z := 600000.
Definition CODEX_TURN_HARD_TIMEOUT : Z := 600000.
Definition CODEX_IDLE_PROBE_INTERVAL : Z := 30000.
Definition CODEX_STALE_STORM_THRESHOLD : Z := 25.

(* ------------------------------------------------------------------ *)
(** * State *)

(** The fields of [CodexThreadSession] and [CodexTurnSession], the monotonic clock in
    milliseconds, and the sidecar's script. [s_notes_open] tells whether the generator
    [transport.notifications()] can still be resumed. *)
Record session := mk_session {
  s_thread_id : option string;
  s_resumed_or_started : bool;
  s_turn_id : option string;
  s_idle : option Z;
  s_idle_deadline : option Z;
  s_turn_started_at : option Z;
  s_last_idle_probe_at : option Z;
  s_diagnostics : option TurnDiagnostics;
  s_clock : Z;
  s_requests : list (string * dict);
  s_replies : list (Z * result exn json);
  s_feed : list (Z * Notification);
  s_feed_end : Z;
  s_notes_open : bool
}.

Definition set_thread id r s := mk_session id r (s_turn_id s) (s_idle s) (s_idle_deadline s)
  (s_turn_started_at s) (s_last_idle_probe_at s) (s_diagnostics s) (s_clock s) (s_requests s)
  (s_replies s) (s_feed s) (s_feed_end s) (s_notes_open s).
Definition set_turn id s := mk_session (s_thread_id s) (s_resumed_or_started s) id (s_idle s)
  (s_idle_deadline s) (s_turn_started_at s) (s_last_idle_probe_at s) (s_diagnostics s) (s_clock s)
  (s_requests s) (s_replies s) (s_feed s) (s_feed_end s) (s_notes_open s).
Definition set_idle i d s := mk_session (s_thread_id s) (s_resumed_or_started s) (s_turn_id s) i d
  (s_turn_started_at s) (s_last_idle_probe_at s) (s_diagnostics s) (s_clock s) (s_requests s)
  (s_replies s) (s_feed s) (s_feed_end s) (s_notes_open s).
Definition set_turn_clock st pr s := mk_session (s_thread_id s) (s_resumed_or_started s) (s_turn_id s)
  (s_idle s) (s_idle_deadline s) st pr (s_diagnostics s) (s_clock s) (s_requests s) (s_replies s)
  (s_feed s) (s_feed_end s) (s_notes_open s).
Definition set_diag d s := mk_session (s_thread_id s) (s_resumed_or_started s) (s_turn_id s) (s_idle s)
  (s_idle_deadline s) (s_turn_started_at s) (s_last_idle_probe_at s) d (s_clock s) (s_requests s)
  (s_replies s) (s_feed s) (s_feed_end s) (s_notes_open s).
Definition set_wire clock reqs reps s := mk_session (s_thread_id s) (s_resumed_or_started s) (s_turn_id s)
  (s_idle s) (s_idle_deadline s) (s_turn_started_at s) (s_last_idle_probe_at s) (s_diagnostics s)
  clock reqs reps (s_feed s) (s_feed_end s) (s_notes_open s).
Definition set_feed clock feed open s := mk_session (s_thread_id s) (s_resumed_or_started s) (s_turn_id s)
  (s_idle s) (s_idle_deadline s) (s_turn_started_at s) (s_last_idle_probe_at s) (s_diagnostics s)
  clock (s_requests s) (s_replies s) feed (s_feed_end s) open.

Definition cworld : Type := world * session.
Definition cprog (A : Type) : Type := prog cworld exn A.

Definition sess {A} (f : session -> A) : cprog A := gets (fun cw => f cw.2).
Definition mod_sess (f : session -> session) : cprog unit := modify (fun cw => (cw.1, f cw.2)).
Definition on_server {A} (m : prog world exn A) : cprog A :=
  fun cw => let '(r, w) := m cw.1 in (r, (w, cw.2)).

(** [transport.request]: the next scripted answer, or the request times out. *)
Definition request (method : string) (params : dict) : cprog json :=
  fun cw =>
    let s := cw.2 in
    let reqs := (s_requests s ++ [(method, params)])%list in
    match s_replies s with
    | [] => (Raise TimeoutError, (cw.1, set_wire (s_clock s + CODEX_REQUEST_TIMEOUT) reqs [] s))
    | (delay, r) :: rest => (r, (cw.1, set_wire (s_clock s + delay) reqs rest s))
    end.

(** The code and message of an [AppServerError]; an ill-shaped one has neither. *)
Definition as_app_error (e : exn) : option (option (Z * string)) :=
  match e with
  | AppServerError c m => Some (Some (c, m))
  | OtherException t _ => if String.eqb t "AppServerError" then Some None else None
  | _ => None
  end.

Definition has_code (code : Z) (err : option (Z * string)) : bool :=
  match err with Some (c, _) => Z.eqb c code | None => false end.

(** [except AppServerError]. *)
Definition except_app {A} (h : exn -> option (Z * string) -> cprog A) (m : cprog A) : cprog A :=
  except (fun e => match as_app_error e with Some err => h e err | None => praise e end) m.

(* ------------------------------------------------------------------ *)
(** * Errors of the sidecar ([shared.py]) *)

Definition is_thread_not_found (e : exn) : bool :=
  match e with
  | AppServerError c _ => Z.eqb c (-32600) && str_contains "thread not found" (lower (exn_str e))
  | _ => false
  end.

(** Up to the first backtick, and what follows it. *)
Fixpoint until_backtick (s : string) : option (string * string) :=
  match s with
  | EmptyString => None
  | String c s' =>
      if Ascii.eqb c "`" then Some ("", s')
      else match until_backtick s' with Some (a, r) => Some (String c a, r) | None => None end
  end.

(** The regular expression of [_STALE_ACTIVE_TURN_RE] at the start of a text. *)
Definition stale_match_here (s : string) : option (string * string) :=
  let p := "expected active turn id `" in
  let q := " but found `" in
  if startswith s p then
    match until_backtick (str_drop (String.length p) s) with
    | Some (expected, rest) =>
        if nonempty expected && startswith rest q then
          match until_backtick (str_drop (String.length q) rest) with
          | Some (actual, _) => if nonempty actual then Some (expected, actual) else None
          | None => None
          end
        else None
    | None => None
    end
  else None.

Fixpoint stale_search (s : string) : option (string * string) :=
  match stale_match_here s with
  | Some r => Some r
  | None => match s with EmptyString => None | String _ s' => stale_search s' end
  end.

Definition stale_sidecar_turn_error (e : exn) : option exn :=
  match e with
  | AppServerError c _ =>
      if Z.eqb c (-32600) then
        match stale_search (exn_str e) with
        | Some (expected, actual) => Some (StaleSidecarTurnError expected actual)
        | None => None
        end
      else None
  | _ => None
  end.

(* ------------------------------------------------------------------ *)
(** * Threads ([thread.py]) *)

(** A string the sidecar returns at [result[a][b]]. *)
Definition returned_id (a b : string) (result : json) : res string :=
  rbind (getitem result a) (fun x => rbind (getitem x b) (fun id =>
  match id with JStr s => Ok s | _ => Raise (py_error "TypeError") end)).

Section Session.
Context (guessed_image : string -> bool) (loads : string -> option json) (str_repr : json -> string).
(** The constructor arguments of the sessions. *)
Context (cwd approval_policy sandbox : string) (thread_config : option dict).
Context (on_thread_change : option (option string -> cprog unit)).
Context (model reasoning_effort : option string).
(** [transport.diagnostic_snapshot()]. *)
Context (transport_snapshot : dict).

Definition with_config (params : dict) : dict :=
  match thread_config with
  | Some ((_ :: _) as c) => assoc_set "config" (JObj c) params
  | _ => params
  end.

Definition emit_thread_change (new_thread_id : option string) : cprog unit :=
  match on_thread_change with
  | None => pret tt
  | Some f => except (fun e => if is_exception e then pret tt else praise e) (f new_thread_id)
  end.

Definition reset_thread : cprog unit :=
  mod_sess (set_thread None false) ;;
  emit_thread_change None.

Definition try_resume (thread_id : string) : cprog bool :=
  except_app (fun e err => if is_thread_not_found e || has_code (-32601) err then pret false else praise e)
    (request "thread/resume" (with_config [("threadId", JStr thread_id)]) ;; pret true).

Definition open_new_thread : cprog string :=
  let! result := request "thread/start" (with_config
    [("cwd", JStr cwd); ("approvalPolicy", JStr approval_policy); ("sandbox", JStr sandbox)]) in
  let! thread_id := lift_result (returned_id "thread" "id" result) in
  mod_sess (set_thread (Some thread_id) true) ;;
  emit_thread_change (Some thread_id) ;;
  pret thread_id.

Definition ensure_thread : cprog string :=
  let! current := sess s_thread_id in
  let! ready := sess s_resumed_or_started in
  match current with
  | Some t =>
      if ready then pret t
      else
        let! resumed := try_resume t in
        if resumed then mod_sess (fun s => set_thread (s_thread_id s) true s) ;; pret t
        else reset_thread ;; open_new_thread
  | None => open_new_thread
  end.

Definition nonempty_or (a b : option string) : option string :=
  if truthy_opt a then a else b.

Definition read_thread (thread_id : option string) : cprog (option dict) :=
  let! current := sess s_thread_id in
  match nonempty_or thread_id current with
  | Some target =>
      if nonempty target then
        except_app (fun _ _ => pret None)
          (let! result := request "thread/read" [("threadId", JStr target)] in
           pret (as_obj result))
      else pret None
  | None => pret None
  end.

Definition inject_history (items : list json) : cprog unit :=
  let! current := sess s_thread_id in
  match current, items with
  | Some t, _ :: _ =>
      if nonempty t then
        except_app (fun _ _ => pret tt)
          (request "thread/inject_items" [("threadId", JStr t); ("items", JArr items)] ;; pret tt)
      else pret tt
  | _, _ => pret tt
  end.

(* ------------------------------------------------------------------ *)
(** * Turns ([turn.py]) *)

Definition extend_idle_deadline : cprog bool :=
  let! s := gets snd in
  match s_idle s with
  | None => pret false
  | Some i => mod_sess (set_idle (s_idle s) (Some (s_clock s + i))) ;; pret true
  end.

Definition diagnostics (s : session) : dict :=
  match s_diagnostics s with
  | None =>
      foldl (fun acc kv => assoc_set kv.1 kv.2 acc)
        [("thread_id", json_opt_str (s_thread_id s)); ("turn_id", json_opt_str (s_turn_id s));
         ("diagnostics", JStr "not_started")] transport_snapshot
  | Some d => snapshot (s_clock s) transport_snapshot d
  end.

(** The scheme [urlparse] finds. *)
Definition is_scheme_char (c : ascii) : bool :=
  let n := nat_of_ascii c in
  ((97 <=? n) && (n <=? 122) || (65 <=? n) && (n <=? 90) || (48 <=? n) && (n <=? 57) ||
   (n =? 43) || (n =? 45) || (n =? 46))%nat.
Definition is_ascii_letter (c : ascii) : bool :=
  let n := nat_of_ascii c in ((97 <=? n) && (n <=? 122) || (65 <=? n) && (n <=? 90))%nat.

Fixpoint before_colon (s : string) : option string :=
  match s with
  | EmptyString => None
  | String c s' => if Ascii.eqb c ":" then Some "" else String c <$> before_colon s'
  end.

Fixpoint drop_controls (s : string) : string :=
  match s with
  | String c s' => if (nat_of_ascii c <=? 32)%nat then drop_controls s' else s
  | EmptyString => s
  end.

Fixpoint remove_breaks (s : string) : string :=
  match s with
  | EmptyString => ""
  | String c s' =>
      if existsb (Nat.eqb (nat_of_ascii c)) [9; 10; 13]%nat then remove_breaks s'
      else String c (remove_breaks s')
  end.

Definition url_scheme (url : string) : string :=
  match before_colon (remove_breaks (drop_controls url)) with
  | Some (String c s) =>
      if is_ascii_letter c && forallb is_scheme_char (list_ascii_of_string (String c s))
      then lower (String c s) else ""
  | _ => ""
  end.

Definition build_input (text : string) (attachments : list string) : list json :=
  JObj [("type", JStr "text"); ("text", JStr text)] ::
  map (fun a => if existsb (String.eqb (url_scheme a)) ["http"; "https"; "data"]
                then JObj [("type", JStr "image"); ("url", JStr a)]
                else JObj [("type", JStr "localImage"); ("path", JStr a)]) attachments.

Definition opt_param (k : string) (v : option string) : dict :=
  match v with Some s => if nonempty s then [(k, JStr s)] else [] | None => [] end.

Definition build_turn_params (thread_id : string) (input : list json) : dict :=
  ([("threadId", JStr thread_id); ("input", JArr input)] ++
   opt_param "model" model ++ opt_param "effort" reasoning_effort)%list.

(** The answer of [turn/start], or the error event the turn shows instead. *)
Definition begin_turn_with_retry (input : list json) : cprog (json + chat_event) :=
  let failed e := pret (inr (ErrorEvent (code_value CODEX_ERROR) (Some (exn_str e)))) in
  let! thread_id := ensure_thread in
  let! first := except_app (fun e _ => if is_thread_not_found e then pret None
                                       else let! ev := failed e in pret (Some ev))
    (let! r := request "turn/start" (build_turn_params thread_id input) in pret (Some (inl r))) in
  match first with
  | Some r => pret r
  | None =>
      reset_thread ;;
      let! thread_id := ensure_thread in
      except_app (fun e _ => failed e)
        (let! r := request "turn/start" (build_turn_params thread_id input) in pret (inl r))
  end.

(** The pages of [thread/turns/list], at most [pages] of them. *)
Definition probe_params (thread_id : string) (cursor : option string) : dict :=
  ([("threadId", JStr thread_id); ("limit", JNum TURN_PROBE_PAGE_SIZE);
    ("itemsView", JStr "notLoaded"); ("sortDirection", JStr "desc")] ++
   match cursor with Some c => [("cursor", JStr c)] | None => [] end)%list.

Definition is_turn (codex_turn_id : string) (turn : json) : bool :=
  match turn with JObj d => is_str (get_or_null "id" d) codex_turn_id | _ => false end.

Definition turn_status_of (turn : json) : option string :=
  match turn with JObj d => get_str "status" d | _ => None end.

Fixpoint probe_pages (pages : nat) (thread_id codex_turn_id : string) (cursor : option string) :
    cprog (option string) :=
  match pages with
  | O => pret None
  | S n =>
      let! page := request "thread/turns/list" (probe_params thread_id cursor) in
      let! turns := lift_result (getattr_get page "data") in
      match turns with
      | JArr l =>
          match List.find (is_turn codex_turn_id) l with
          | Some turn => pret (turn_status_of turn)
          | None =>
              let! next := lift_result (getattr_get page "nextCursor") in
              match next with
              | JStr c => probe_pages n thread_id codex_turn_id (Some c)
              | _ => pret None
              end
          end
      | _ => pret None
      end
  end.

Definition probe_turn_status (thread_id codex_turn_id : string) : cprog (option string) :=
  probe_pages TURN_PROBE_MAX_PAGES thread_id codex_turn_id None.

(** [list_models]: one request per page until there is no string cursor; the script of
    answers bounds the pages. *)
Fixpoint list_models_from (fuel : nat) (cursor : option string) (models : list json) : cprog (list json) :=
  match fuel with
  | O => praise (py_error "fuel")
  | S n =>
      let! page := request "model/list"
        ([("limit", JNum MODEL_LIST_PAGE_SIZE)] ++
         match cursor with Some c => [("cursor", JStr c)] | None => [] end)%list in
      let! data := lift_result (getattr_get page "data") in
      let models := match data with
                    | JArr l => (models ++ List.filter (fun j => bool_decide (is_Some (as_obj j))) l)%list
                    | _ => models
                    end in
      let! next := lift_result (getattr_get page "nextCursor") in
      match next with
      | JStr c => list_models_from n (Some c) models
      | _ => pret models
      end
  end.

Definition list_models : cprog (list json) :=
  fun cw => list_models_from (S (List.length (s_replies cw.2))) None [] cw.

Definition interrupt (thread_id turn_id : string) : cprog bool :=
  except_app (fun e _ => match stale_sidecar_turn_error e with Some stale => praise stale | None => pret false end)
    (request "turn/interrupt" [("threadId", JStr thread_id); ("turnId", JStr turn_id)] ;; pret true).

Definition steer (text : string) (turn_id thread_id : option string) : cprog bool :=
  let! s := gets snd in
  match nonempty_or thread_id (s_thread_id s), nonempty_or turn_id (s_turn_id s) with
  | Some target_thread, Some target_turn =>
      if nonempty target_thread && nonempty target_turn then
        let! sent := except_app (fun e _ => match stale_sidecar_turn_error e with
                                            | Some stale => praise stale | None => pret false end)
          (request "turn/steer"
             [("threadId", JStr target_thread);
              ("input", JArr [JObj [("type", JStr "text"); ("text", JStr text)]]);
              ("expectedTurnId", JStr target_turn)] ;; pret true) in
        if sent : bool then extend_idle_deadline ;; pret true else pret false
      else pret false
  | _, _ => pret false
  end.

Definition read_rate_limits : cprog (option dict) :=
  except_app (fun e err => if has_code (-32601) err then pret None else praise e)
    (let! result := request "account/rateLimits/read" [] in
     let! snapshot := lift_result (getattr_get result "rateLimits") in
     pret (as_obj snapshot)).

(* ------------------------------------------------------------------ *)
(** * The notifications of a turn *)

(** [anext(notes)] under an optional deadline. A note that has arrived is taken at once; the
    wait for the next one ends at its arrival, at the sentinel, or at the deadline, when
    the cancellation is delivered inside the generator and finishes it. *)
Inductive awaited := ANote (note : Notification) | AStop | ATimeout.

Definition anext_notes (deadline : option Z) : cprog awaited :=
  fun cw =>
    let s := cw.2 in
    if negb (s_notes_open s) then (Ok AStop, cw)
    else
      let arrives := match s_feed s with (t, _) :: _ => t | [] => s_feed_end s end in
      let at_ := Z.max (s_clock s) arrives in
      if match deadline with Some d => Z.ltb d at_ | None => false end
      then (Ok ATimeout, (cw.1, set_feed (match deadline with Some d => d | None => at_ end)
                                  (s_feed s) false s))
      else match s_feed s with
           | (_, note) :: rest => (Ok (ANote note), (cw.1, set_feed at_ rest true s))
           | [] => (Ok AStop, (cw.1, set_feed at_ [] false s))
           end.

Section Turn.
(** The arguments of [run_turn]. *)
Context (on_started : option (string -> string -> cprog unit)).
Context (on_idle : option (cprog bool)).
Context (on_rate_limits_update : option (dict -> cprog unit)).

Definition handle_idle : cprog bool :=
  let! s := gets snd in
  let now := s_clock s in
  match decide_idle now (s_turn_started_at s)
          (match s_diagnostics s with Some d => has_active_items d | None => false end)
          (s_last_idle_probe_at s) CODEX_TURN_HARD_TIMEOUT CODEX_IDLE_PROBE_INTERVAL with
  | HARD_CAP_EXCEEDED => pret false
  | NEEDS_PROBE =>
      match on_idle with
      | None => pret false
      | Some f => mod_sess (set_turn_clock (s_turn_started_at s) (Some now)) ;; f
      end
  | EXTEND_SILENTLY => extend_idle_deadline ;; pret true
  end.

(** [_next_notification]; [None] is [StopAsyncIteration]. *)
Fixpoint next_notification (fuel : nat) : cprog (option Notification) :=
  match fuel with
  | O => praise (py_error "fuel")
  | S n =>
      let! s := gets snd in
      match s_idle_deadline s with
      | None =>
          let! r := anext_notes None in
          pret (match r with ANote note => Some note | _ => None end)
      | Some deadline =>
          if Z.leb (deadline - s_clock s) 0 then
            let! extended := handle_idle in
            if extended : bool then next_notification n else praise TimeoutError
          else
            let! r := anext_notes (Some deadline) in
            match r with
            | ANote note => pret (Some note)
            | AStop => pret None
            | ATimeout =>
                let! s := gets snd in
                if match s_idle_deadline s with Some d => Z.ltb (s_clock s) d | None => false end
                then next_notification n
                else
                  let! extended := handle_idle in
                  if extended : bool then next_notification n else praise TimeoutError
            end
      end
  end.

Definition handle_account_notification (note : Notification) : cprog bool :=
  if String.eqb (n_method note) "account/rateLimits/updated" then
    match on_rate_limits_update, assoc "rateLimits" (n_params note) with
    | Some f, Some (JObj limits) => f limits
    | _, _ => pret tt
    end ;;
    pret true
  else if negb (String.eqb (n_method note) "thread/tokenUsage/updated") then pret false
  else
    match on_rate_limits_update with
    | None => pret true
    | Some f =>
        let! limits := read_rate_limits in
        match limits with Some l => f l | None => pret tt end ;;
        pret true
    end.

Definition is_stale_turn_note (s : session) (note : Notification) : bool :=
  match s_turn_id s, n_turn_id note with
  | Some current, Some turn => negb (String.eqb turn current)
  | _, _ => false
  end.

Definition is_session_noise_note (note : Notification) : bool :=
  bool_decide (n_turn_id note = None) &&
  negb (String.eqb (n_method note) TURN_COMPLETED_NOTE) &&
  negb (startswith (n_method note) "item/").

Definition update_diag (f : Z -> TurnDiagnostics -> TurnDiagnostics) : cprog unit :=
  mod_sess (fun s => set_diag (f (s_clock s) <$> s_diagnostics s) s).

Definition record_stale_raw_note (note : Notification) : cprog unit :=
  let! s := gets snd in
  match s_diagnostics s with
  | None => pret tt
  | Some _ =>
      update_diag (fun now => absorb_stale_raw now note) ;;
      let! s := gets snd in
      match s_diagnostics s with
      | Some d =>
          if Z.eqb (d_raw_count d) 0 && Z.leb CODEX_STALE_STORM_THRESHOLD (d_stale_raw_count d)
          then praise (StaleTurnStreamError (snapshot (s_clock s) transport_snapshot d))
          else pret tt
      | None => pret tt
      end
  end.

Definition record_noise_raw_note (note : Notification) : cprog unit :=
  update_diag (fun now => absorb_noise_raw now note).

Definition record_raw_note (note : Notification) : cprog unit :=
  update_diag (fun now => absorb_raw str_repr now note).

Definition should_skip_current_turn_note (note : Notification) : cprog bool :=
  let! s := gets snd in
  if is_stale_turn_note s note then record_stale_raw_note note ;; pret true
  else if is_session_noise_note note then record_noise_raw_note note ;; pret true
  else pret false.

(** The body of the loop over the turn's notifications, for a note that is the turn's. *)
Definition current_note (note : Notification) (accumulated : string) : cprog (option chat_event) :=
  extend_idle_deadline ;;
  record_raw_note note ;;
  let! event := lift_result (translate_notification guessed_image loads str_repr note accumulated) in
  match event with
  | Some ev => update_diag (fun now => absorb_chat_event now ev) ;; pret (Some ev)
  | None => pret None
  end.

(** [current_turn_notifications] under the loop of [run_turn]; [wait] is the fuel of each
    wait, [fuel] bounds the notifications. *)
Fixpoint turn_loop (wait fuel : nat) (accumulated : string) : gprog cworld exn chat_event unit :=
  match fuel with
  | O => glift (praise (py_error "fuel"))
  | S n =>
      let* next := glift (next_notification wait) in
      match next with
      | None => gret tt
      | Some note =>
          let* handled := glift (handle_account_notification note) in
          if handled : bool then turn_loop wait n accumulated
          else
            let* skip := glift (should_skip_current_turn_note note) in
            if skip : bool then turn_loop wait n accumulated
            else
              let* event := glift (current_note note accumulated) in
              match event with
              | None => turn_loop wait n accumulated
              | Some ev =>
                  gyield ev ;*
                  if event_terminal ev then gret tt
                  else turn_loop wait n (accumulate accumulated (Some ev))
              end
      end
  end.

Definition begin_idle (idle_s : option Z) : cprog unit :=
  mod_sess (fun s => set_idle idle_s ((fun i => s_clock s + i) <$> idle_s) s).

Definition clear_turn_clock : cprog unit :=
  mod_sess (fun s => set_turn_clock None None (set_idle None None s)).

(** What runs once the turn has started. *)
Definition started_turn (wait : nat) (idle_s : option Z) (turn_id : string) : gprog cworld exn chat_event unit :=
  glift (mod_sess (set_turn (Some turn_id))) ;*
  glift (mod_sess (fun s => set_diag (Some (new_diagnostics (s_clock s) (s_thread_id s) turn_id)) s)) ;*
  glift (mod_sess (fun s => set_turn_clock (Some (s_clock s)) None s)) ;*
  gfinally clear_turn_clock (
    let* thread_id := glift (sess s_thread_id) in
    glift (match on_started, thread_id with
           | Some f, Some t => f turn_id t
           | _, _ => pret tt
           end) ;*
    glift (begin_idle idle_s) ;*
    gfinally (mod_sess (set_idle None None))
      (fun cw => turn_loop wait (S (List.length (s_feed cw.2))) "" cw)).

Definition run_turn (wait : nat) (text : string) (attachments : list string) (idle_s : option Z) :
    gprog cworld exn chat_event unit :=
  let* result := glift (begin_turn_with_retry (build_input text attachments)) in
  match result with
  | inr ev => gyield ev
  | inl answer =>
      let* turn_id := glift (lift_result (returned_id "turn" "id" answer)) in
      started_turn wait idle_s turn_id
  end.
End Turn.
End Session.

(* ------------------------------------------------------------------ *)
(** * The idle watchdog *)

Section Idle.
Context (guessed_image : string -> bool) (loads : string -> option json) (str_repr : json -> string).
Context (transport_snapshot : dict).
Context (on_idle : option (cprog bool)) (on_rate_limits_update : option (dict -> cprog unit)).
Notation notes_open := (fun cw : cworld => s_notes_open cw.2).
Notation turn_loop := (turn_loop guessed_image loads str_repr transport_snapshot on_idle on_rate_limits_update).

(** The callback goes through the client, which cannot reopen the generator. *)
Context (Hidle : forall f, on_idle = Some f -> respects (same notes_open) f).

Lemma mod_sess_open f : (forall s, s_notes_open (f s) = s_notes_open s) -> respects (same notes_open) (mod_sess f).
Proof. intros H cw. apply H. Qed.
#[local] Hint Extern 2 (respects _ (mod_sess _)) => by apply mod_sess_open : frame.

Lemma gets_open {A} (f : cworld -> A) : respects (same notes_open) (gets (E := exn) f).
Proof. intros cw. done. Qed.
#[local] Hint Resolve gets_open : frame.

Lemma extend_idle_open : respects (same notes_open) extend_idle_deadline.
Proof. unfold extend_idle_deadline. solve_frame. Qed.
#[local] Hint Resolve extend_idle_open : frame.

Lemma handle_idle_open : respects (same notes_open) (handle_idle on_idle).
Proof.
  unfold handle_idle. apply respects_bind; [typeclasses eauto|auto with frame|intros s].
  destruct (decide_idle _ _ _ _ _ _); [solve_frame| |solve_frame].
  destruct on_idle as [f|]; [|solve_frame].
  apply respects_bind; [typeclasses eauto|auto with frame|intros _]. by apply Hidle.
Qed.

(** No notification, and the generator is finished. *)
Definition ended (p : result exn (option Notification) * cworld) : Prop :=
  s_notes_open p.2.2 = false /\ forall note, p.1 <> Ok (Some note).

(** Once the generator is finished no notification comes any more. *)
Lemma closed_wait fuel : forall cw, s_notes_open cw.2 = false -> ended (next_notification on_idle fuel cw).
Proof.
  induction fuel as [|fuel IH]; intros cw Ho; [done|]. cbn [next_notification].
  unfold pbind at 1, gets. cbn [fst snd].
  destruct (s_idle_deadline cw.2) as [d|].
  - destruct (Z.leb (d - s_clock cw.2) 0).
    + unfold pbind. pose proof (handle_idle_open cw) as H. unfold same in H.
      destruct (handle_idle on_idle cw) as [[[]|e] cw1]; cbn [fst snd] in H |- *;
        [apply IH; congruence|split; [simpl; congruence|done]..].
    + unfold pbind at 1, anext_notes. rewrite Ho. done.
  - unfold pbind, anext_notes. rewrite Ho. done.
Qed.

(** The wait that reaches the deadline finishes the generator, whatever the watchdog says. *)
Lemma late_wait n cw d :
  s_idle_deadline cw.2 = Some d -> s_clock cw.2 < d ->
  d < match s_feed cw.2 with (t, _) :: _ => t | [] => s_feed_end cw.2 end ->
  ended (next_notification on_idle (S n) cw).
Proof.
  intros Hd Hc Hl. destruct (s_notes_open cw.2) eqn:Ho; [|by apply closed_wait].
  cbn [next_notification]. unfold pbind at 1, gets at 1. cbn [fst snd]. rewrite Hd.
  assert (Z.leb (d - s_clock cw.2) 0 = false) as -> by lia.
  unfold pbind at 1, anext_notes. rewrite Ho. cbn [negb].
  assert (Z.ltb d (Z.max (s_clock cw.2) (match s_feed cw.2 with (t, _) :: _ => t | [] => s_feed_end cw.2 end)) = true)
    as -> by lia.
  set (cw1 := (cw.1, _)). assert (Ho1 : s_notes_open cw1.2 = false) by done.
  unfold pbind at 1, gets. cbn [fst snd].
  destruct (match s_idle_deadline _ with Some _ => _ | None => _ end); [by apply (closed_wait _ cw1)|].
  unfold pbind. pose proof (handle_idle_open cw1) as H. unfold same in H.
  destruct (handle_idle on_idle cw1) as [[[]|e] cw2]; cbn [fst snd] in H |- *;
    [apply closed_wait; congruence|split; [simpl; congruence|done]..].
Qed.

(** An idle wait that reaches its deadline is the end of the turn's events: even when
    the watchdog extends the turn (a steer arrived, the probe found it running, or an
    item is active), nothing the sidecar sends afterwards is shown, because the
    cancelled wait has finished the notification generator. *)
Theorem idle_wait_ends_turn R wait fuel accumulated cw d ys r cw' :
  s_idle_deadline cw.2 = Some d -> s_clock cw.2 < d ->
  d < match s_feed cw.2 with (t, _) :: _ => t | [] => s_feed_end cw.2 end ->
  trace R (turn_loop (S wait) (S fuel) accumulated cw) ys r cw' ->
  ys = [] /\ s_notes_open cw'.2 = false.
Proof.
  intros Hd Hc Hl.
  apply (gwp_trace R _ (fun ys _ cw' => ys = [] /\ s_notes_open cw'.2 = false)).
  cbn [Session.turn_loop]. destruct (late_wait wait cw d Hd Hc Hl) as [Ho Hn].
  apply gwp_bind, gwp_lift.
  destruct (next_notification on_idle (S wait) cw) as [[[note|]|e] cw1]; cbn [fst snd] in *;
    [by destruct (Hn note)|done..].
Qed.
End Idle.

(* ------------------------------------------------------------------ *)
(** * The turn's own notifications *)

Section Isolation.
Context (guessed_image : string -> bool) (loads : string -> option json) (str_repr : json -> string).
Context (transport_snapshot : dict).
Context (on_idle : option (cprog bool)) (on_rate_limits_update : option (dict -> cprog unit)).
Notation turn_loop := (turn_loop guessed_image loads str_repr transport_snapshot on_idle on_rate_limits_update).
Notation translate := (translate_notification guessed_image loads str_repr).

Definition is_account_note (note : Notification) : bool :=
  String.eqb (n_method note) "account/rateLimits/updated" ||
  String.eqb (n_method note) "thread/tokenUsage/updated".

Definition is_other_turn (turn_id : option string) (note : Notification) : bool :=
  match turn_id, n_turn_id note with
  | Some current, Some turn => negb (String.eqb turn current)
  | _, _ => false
  end.

(** The notifications that are the turn's own. *)
Definition own_note (turn_id : option string) (note : Notification) : bool :=
  negb (is_account_note note) && negb (is_other_turn turn_id note) && negb (is_session_noise_note note).

(** What a turn shows of its own notifications, and how its events end. *)
Fixpoint turn_events (notes : list Notification) (accumulated : string) : list chat_event * result exn unit :=
  match notes with
  | [] => ([], Ok tt)
  | note :: rest =>
      match translate note accumulated with
      | Raise e => ([], Raise e)
      | Ok None => turn_events rest accumulated
      | Ok (Some ev) =>
          if event_terminal ev then ([ev], Ok tt)
          else let '(evs, r) := turn_events rest (accumulate accumulated (Some ev)) in (ev :: evs, r)
      end
  end.

(** The publication of rate limits always succeeds and does not touch the session. *)
Context (Hrate : forall f limits cw, on_rate_limits_update = Some f ->
  exists w', f limits cw = (Ok tt, (w', cw.2))).

(** The consumer of the events takes time, up to [limit], and changes the server's world,
    not the session. *)
Definition takes_time (limit : Z) (cw cw' : cworld) : Prop :=
  exists now, cw'.2 = set_feed now (s_feed cw.2) (s_notes_open cw.2) cw.2 /\
    s_clock cw.2 <= now /\ (s_clock cw.2 <= limit -> now <= limit).

(** The watchdog cannot fire before [limit]. *)
Definition unwatched (from limit : Z) (s : session) : Prop :=
  match s_idle s with
  | None => s_idle_deadline s = None
  | Some i => limit < from + i /\ exists d, s_idle_deadline s = Some d /\ limit < d
  end.

(** The state of a turn between two notifications; [stale] more stale ones may come. *)
Record quiet_turn (from limit : Z) (turn_id : option string) (feed : list (Z * Notification))
    (stale : nat) (cw : cworld) : Prop := {
  q_turn : s_turn_id cw.2 = turn_id;
  q_open : s_notes_open cw.2 = true;
  q_clock : from <= s_clock cw.2 <= limit;
  q_feed : s_feed cw.2 = feed;
  q_times : Forall (fun tn => tn.1 <= limit) feed;
  q_end : s_feed_end cw.2 <= limit;
  q_watch : unwatched from limit cw.2;
  q_stale : forall d, s_diagnostics cw.2 = Some d ->
    d_stale_raw_count d + Z.of_nat stale < CODEX_STALE_STORM_THRESHOLD
}.

Lemma quiet_time from limit tid feed stale cw cw' :
  quiet_turn from limit tid feed stale cw -> takes_time limit cw cw' -> quiet_turn from limit tid feed stale cw'.
Proof.
  intros [] (now & Hs & Hn). unfold takes_time in *. destruct cw' as [w' s']. simpl in Hs. subst s'.
  split; simpl; try done. lia.
Qed.

Lemma next_quiet from limit tid t note feed stale n cw :
  quiet_turn from limit tid ((t, note) :: feed) stale cw ->
  exists cw', next_notification on_idle (S n) cw = (Ok (Some note), cw') /\
    quiet_turn from limit tid feed stale cw'.
Proof.
  intros [H1 H2 H3 H4 H5 H6 H7 H8]. apply Forall_cons in H5 as [Ht H5]. simpl in Ht.
  set (cw' := (cw.1, set_feed (Z.max (s_clock cw.2) t) feed true cw.2)). exists cw'. split.
  - cbn [next_notification]. unfold pbind at 1, gets. cbn [fst snd].
    unfold unwatched in H7. destruct (s_idle cw.2) as [i|].
    + destruct H7 as (_ & d & -> & Hd). assert (Z.leb (d - s_clock cw.2) 0 = false) as -> by lia.
      unfold pbind, anext_notes. rewrite H2, H4. cbn [negb].
      assert (Z.ltb d (Z.max (s_clock cw.2) t) = false) as -> by lia. done.
    + rewrite H7. unfold pbind, anext_notes. by rewrite H2, H4.
  - split; simpl; try done. lia.
Qed.

Lemma next_quiet_end from limit tid stale n cw :
  quiet_turn from limit tid [] stale cw ->
  exists cw', next_notification on_idle (S n) cw = (Ok None, cw').
Proof.
  intros [H1 H2 H3 H4 H5 H6 H7 H8]. cbn [next_notification]. unfold pbind at 1, gets. cbn [fst snd].
  unfold unwatched in H7. destruct (s_idle cw.2) as [i|].
  - destruct H7 as (_ & d & -> & Hd). assert (Z.leb (d - s_clock cw.2) 0 = false) as -> by lia.
    unfold pbind, anext_notes. rewrite H2, H4. cbn [negb].
    assert (Z.ltb d (Z.max (s_clock cw.2) (s_feed_end cw.2)) = false) as -> by lia. by eexists.
  - rewrite H7. unfold pbind, anext_notes. rewrite H2, H4. by eexists.
Qed.

Lemma account_quiet note cw :
  (n_method note = "thread/tokenUsage/updated" -> on_rate_limits_update = None) ->
  exists w', handle_account_notification on_rate_limits_update note cw = (Ok (is_account_note note), (w', cw.2)).
Proof.
  intros Hu. unfold handle_account_notification, is_account_note.
  destruct (String.eqb_spec (n_method note) "account/rateLimits/updated") as [E0|E0]; cbn [orb].
  - destruct on_rate_limits_update as [f|]; [|exists cw.1; by destruct cw].
    destruct (assoc "rateLimits" (n_params note)) as [[| | | | | |limits]|]; try (exists cw.1; by destruct cw).
    destruct (Hrate f limits cw eq_refl) as [w' E1]. exists w'. by erewrite pbind_ok by exact E1.
  - destruct (String.eqb_spec (n_method note) "thread/tokenUsage/updated") as [E1|E1]; cbn [negb].
    + rewrite Hu by done. exists cw.1. by destruct cw.
    + exists cw.1. by destruct cw.
Qed.

Lemma quiet_server from limit tid feed stale cw w' :
  quiet_turn from limit tid feed stale cw -> quiet_turn from limit tid feed stale (w', cw.2).
Proof. by intros []. Qed.

(** Updating the diagnostics without counting a stale note. *)
Lemma quiet_diag from limit tid feed stale cw f :
  (forall now d, d_stale_raw_count (f now d) = d_stale_raw_count d) ->
  quiet_turn from limit tid feed stale cw ->
  update_diag f cw = (Ok tt, (update_diag f cw).2) /\ quiet_turn from limit tid feed stale (update_diag f cw).2.
Proof.
  intros Hf [H1 H2 H3 H4 H5 H6 H7 H8]. split; [done|]. split; simpl; try done.
  intros d Hd. destruct (s_diagnostics cw.2) as [d0|] eqn:E0; [|done]. simpl in Hd.
  injection Hd as <-. rewrite Hf. by apply H8.
Qed.

Lemma absorb_raw_stale now note d : d_stale_raw_count (absorb_raw str_repr now note d) = d_stale_raw_count d.
Proof. unfold absorb_raw. by destruct (assoc _ _) as [[]|]. Qed.

Lemma absorb_stale_count now note d :
  d_stale_raw_count (absorb_stale_raw now note d) = d_stale_raw_count d + 1.
Proof.
  unfold absorb_stale_raw. destruct (d_last_stale d) as [[[[a b] c] e] g].
  by destruct (assoc _ _) as [[]|].
Qed.

(** A note of another turn, within the storm threshold, or of the session is skipped. *)
Lemma skip_quiet from limit tid feed stale note cw :
  quiet_turn from limit tid feed (if is_other_turn tid note then S stale else stale) cw ->
  exists cw', should_skip_current_turn_note transport_snapshot note cw =
    (Ok (is_other_turn tid note || is_session_noise_note note), cw') /\
    quiet_turn from limit tid feed stale cw'.
Proof.
  intros Hq. unfold should_skip_current_turn_note, pbind at 1, gets. cbn [fst snd].
  assert (is_stale_turn_note cw.2 note = is_other_turn tid note) as ->
    by (unfold is_stale_turn_note, is_other_turn; by rewrite (q_turn _ _ _ _ _ _ Hq)).
  destruct (is_other_turn tid note).
  - destruct Hq as [H1 H2 H3 H4 H5 H6 H7 H8].
    set (cw1 := (update_diag (fun now => absorb_stale_raw now note) cw).2).
    assert (Hq1 : quiet_turn from limit tid feed stale cw1).
    { split; simpl; try done. intros d Hd. destruct (s_diagnostics cw.2) as [d0|]; [|done].
      simpl in Hd. injection Hd as <-. rewrite absorb_stale_count. specialize (H8 d0 eq_refl). lia. }
    unfold pbind at 1, record_stale_raw_note, pbind at 1, gets at 1. cbn [fst snd].
    destruct (s_diagnostics cw.2) as [d0|] eqn:E0.
    + exists cw1. split; [|done]. unfold pbind at 1. unfold update_diag at 1, mod_sess, modify. cbn [fst snd].
      unfold pbind, gets. cbn [fst snd s_diagnostics set_diag]. rewrite E0. cbn [option_map fmap option_fmap].
      rewrite absorb_stale_count. specialize (H8 d0 eq_refl).
      assert (Z.leb CODEX_STALE_STORM_THRESHOLD (d_stale_raw_count d0 + 1) = false) as -> by lia.
      rewrite andb_false_r. unfold cw1, update_diag, mod_sess, modify. cbn. by rewrite E0.
    + exists cw. split; [done|]. split; simpl; try done. intros d Hd. congruence.
  - destruct (is_session_noise_note note).
    + pose proof (quiet_diag from limit tid feed stale cw (fun now => absorb_noise_raw now note)
        (fun _ _ => eq_refl) Hq) as [E1 Hq1]. eexists. split; [|exact Hq1].
      unfold pbind, record_noise_raw_note. by rewrite E1.
    + exists cw. done.
Qed.

Lemma extend_quiet from limit tid feed stale cw :
  quiet_turn from limit tid feed stale cw ->
  exists b cw', extend_idle_deadline cw = (Ok b, cw') /\ quiet_turn from limit tid feed stale cw'.
Proof.
  intros Hq. unfold extend_idle_deadline, pbind at 1, gets. cbn [fst snd].
  destruct (s_idle cw.2) as [i|] eqn:Ei; [|by exists false, cw].
  eexists true, _. split; [reflexivity|]. destruct Hq as [H1 H2 H3 H4 H5 H6 H7 H8].
  split; simpl; try done. unfold unwatched in *. simpl. rewrite Ei in H7.
  destruct H7 as [Hi _]. split; [done|]. eexists. split; [done|]. lia.
Qed.

Lemma current_quiet from limit tid feed stale note acc cw :
  quiet_turn from limit tid feed stale cw ->
  exists cw', current_note guessed_image loads str_repr note acc cw = (translate note acc, cw') /\
    quiet_turn from limit tid feed stale cw'.
Proof.
  intros Hq. unfold current_note. destruct (extend_quiet _ _ _ _ _ _ Hq) as (b & cw1 & E1 & Hq1).
  erewrite pbind_ok by exact E1.
  destruct (quiet_diag _ _ _ _ _ cw1 (fun now => absorb_raw str_repr now note) (fun now d => absorb_raw_stale now note d) Hq1)
    as [E2 Hq2]. erewrite pbind_ok by exact E2.
  set (cw2 := (update_diag _ cw1).2) in *. unfold pbind at 1, lift_result.
  destruct (translate note acc) as [[ev|]|e]; [|by exists cw2..].
  destruct (quiet_diag _ _ _ _ _ cw2 (fun now => absorb_chat_event now ev) (fun _ _ => eq_refl) Hq2) as [E3 Hq3].
  eexists. split; [|exact Hq3]. unfold pbind. by rewrite E3.
Qed.

Definition other_notes (tid : option string) (feed : list (Z * Notification)) : nat :=
  List.length (List.filter (fun tn => is_other_turn tid tn.2) feed).

Lemma turn_loop_own from limit tid feed : forall wait fuel acc cw,
  quiet_turn from limit tid feed (other_notes tid feed) cw ->
  (List.length feed < fuel)%nat ->
  Forall (fun tn => n_method tn.2 = "thread/tokenUsage/updated" -> on_rate_limits_update = None) feed ->
  gwp (takes_time limit) (turn_loop (S wait) fuel acc cw) (fun ys r _ =>
    (ys, r) = turn_events (List.filter (own_note tid) (map snd feed)) acc).
Proof.
  induction feed as [|[t note] feed IH]; intros wait fuel acc cw Hq Hf Hu; (destruct fuel as [|fuel]; [simpl in Hf; lia|]);
    cbn [Session.turn_loop]; apply gwp_bind, gwp_lift.
  - destruct (next_quiet_end _ _ _ _ wait _ Hq) as [cw' ->]. done.
  - destruct (next_quiet _ _ _ _ _ _ _ wait _ Hq) as (cw1 & -> & Hq1). cbn [fst snd].
    apply Forall_cons in Hu as [Hu0 Hu]. simpl in Hf.
    apply gwp_bind, gwp_lift. destruct (account_quiet note cw1 Hu0) as [w2 ->]. cbn [fst snd app].
    apply (quiet_server _ _ _ _ _ _ w2) in Hq1. cbn [map List.filter]. unfold own_note at 1. cbn [snd].
    assert (Hle : forall P, quiet_turn from limit tid feed (other_notes tid ((t, note) :: feed)) (w2, cw1.2) ->
      (quiet_turn from limit tid feed (other_notes tid feed) (w2, cw1.2) -> P) -> P).
    { intros P [H1 H2 H3 H4 H5 H6 H7 H8] HP. apply HP. split; try done. intros d Hd. specialize (H8 d Hd).
      unfold other_notes in H8. simpl in H8. destruct (is_other_turn tid note); simpl in H8; unfold other_notes; lia. }
    destruct (is_account_note note) eqn:Ea; cbn [negb andb].
    { apply (Hle _ Hq1). intros Hq2. apply IH; [done|lia|done]. }
    apply gwp_bind, gwp_lift.
    destruct (skip_quiet from limit tid feed (other_notes tid feed) note (w2, cw1.2)) as (cw3 & -> & Hq3).
    { unfold other_notes in Hq1 |- *. simpl in Hq1. destruct (is_other_turn tid note); done. }
    cbn [fst snd app].
    destruct (is_other_turn tid note || is_session_noise_note note) eqn:Es.
    { assert (negb (is_other_turn tid note) && negb (is_session_noise_note note) = false) as ->
        by (by destruct (is_other_turn tid note), (is_session_noise_note note)).
      apply IH; [done|lia|done]. }
    apply orb_false_iff in Es as [-> ->]. cbn [negb andb turn_events].
    apply gwp_bind, gwp_lift. destruct (current_quiet _ _ _ _ _ note acc _ Hq3) as (cw4 & -> & Hq4). cbn [fst snd app].
    destruct (translate note acc) as [[ev|]|e]; [|apply IH; [done|lia|done]|done].
    apply gwp_bind, gwp_yield. intros cw5 Hc. pose proof (quiet_time _ _ _ _ _ _ _ Hq4 Hc) as Hq5. cbn [app].
    destruct (event_terminal ev); [done|].
    eapply gwp_mono; [|apply IH; [exact Hq5|lia|done]]. intros ys r wf E1. by rewrite <- E1.
Qed.

End Isolation.

(* ------------------------------------------------------------------ *)
(** * The status probe *)

Section Probe.

(** A page of [thread/turns/list] with a cursor to the next one, or the last page. *)
Definition turns_page (turns : list json) (next : option string) : Z * result exn json :=
  (0, Ok (JObj (("data", JArr turns) ::
                match next with Some c => [("nextCursor", JStr c)] | None => [] end))).

(** The pages as one list, as far as the probe reads. *)
Definition probe_reference (pages : list (list json)) (codex_turn_id : string) : option string :=
  match List.find (is_turn codex_turn_id) (List.concat (firstn TURN_PROBE_MAX_PAGES pages)) with
  | Some turn => turn_status_of turn
  | None => None
  end.

(** All pages but the last carry a cursor. *)
Fixpoint paged (pages : list (list json)) : list (Z * result exn json) :=
  match pages with
  | [] => []
  | [p] => [turns_page p None]
  | p :: rest => turns_page p (Some "next") :: paged rest
  end.

Definition find_status (codex_turn_id : string) (turns : list json) : option string :=
  match List.find (is_turn codex_turn_id) turns with Some turn => turn_status_of turn | None => None end.

Lemma find_app_json (p : json -> bool) l l' :
  List.find p (l ++ l')%list = match List.find p l with Some x => Some x | None => List.find p l' end.
Proof. induction l as [|x l IH]; [done|]. simpl. by destruct (p x). Qed.

Lemma probe_pages_reference thread_id turn : forall pages n cursor cw,
  pages <> [] -> s_replies cw.2 = paged pages ->
  exists cw', probe_pages n thread_id turn cursor cw =
    (Ok (find_status turn (List.concat (firstn n pages))), cw') /\
    (List.length (s_requests cw'.2) <= List.length (s_requests cw.2) + Nat.min n (List.length pages))%nat.
Proof.
  induction pages as [|p pages IH]; intros n cursor cw Hne Hr; [done|].
  destruct n as [|n]; [exists cw; split; [done|lia]|]. cbn [probe_pages firstn List.concat].
  unfold pbind at 1, request. rewrite Hr.
  destruct pages as [|q pages].
  - cbn [paged turns_page]. cbv beta iota. unfold pbind, lift_result. cbn [getattr_get get_or_null assoc String.eqb Ascii.eqb Bool.eqb].
    unfold find_status. assert (List.concat (firstn n (@nil (list json))) = []) as -> by (by destruct n).
    rewrite app_nil_r. destruct (find _ p); eexists; (split; [reflexivity|]); simpl; rewrite length_app; simpl; lia.
  - change (paged (p :: q :: pages)) with (turns_page p (Some "next") :: paged (q :: pages)).
    unfold turns_page at 1. cbv beta iota. unfold pbind at 1, lift_result.
    cbn [getattr_get get_or_null assoc String.eqb Ascii.eqb Bool.eqb].
    unfold find_status. rewrite find_app_json. destruct (find (is_turn turn) p) as [t|] eqn:Ef.
    + eexists. split; [reflexivity|]. simpl. rewrite length_app. simpl. lia.
    + unfold pbind at 1. cbn [fst snd].
      match goal with |- context [probe_pages n _ _ _ ?x] => set (cw1 := x) end.
      destruct (IH n (Some "next") cw1 ltac:(done) eq_refl) as (cw' & -> & Hl).
      exists cw'. split; [done|]. revert Hl. unfold cw1. simpl. rewrite length_app. simpl. lia.
Qed.

(** The idle probe finds the turn: whatever pages the sidecar serves, the probe returns
    the status of the first listed turn with the identifier among the first five pages,
    asks for no more pages than that, and ends. *)
Theorem probe_finds_turn thread_id turn (pages : list (list json)) cw :
  pages <> [] -> s_replies cw.2 = paged pages ->
  let '(r, cw') := probe_turn_status thread_id turn cw in
  r = Ok (probe_reference pages turn) /\
  (List.length (s_requests cw'.2) <=
   List.length (s_requests cw.2) + Nat.min TURN_PROBE_MAX_PAGES (List.length pages))%nat.
Proof.
  intros Hne Hr. unfold probe_turn_status.
  destruct (probe_pages_reference thread_id turn pages TURN_PROBE_MAX_PAGES None cw Hne Hr) as (cw' & -> & Hl).
  done.
Qed.
End Probe.

(* ------------------------------------------------------------------ *)
(** * Starting a turn *)

Section Start.
Context (cwd approval_policy sandbox : string) (thread_config : option dict).
Context (on_thread_change : option (option string -> cprog unit)).
Context (model reasoning_effort : option string).
Notation begin_turn := (begin_turn_with_retry cwd approval_policy sandbox thread_config on_thread_change
  model reasoning_effort).
Notation turn_params := (build_turn_params model reasoning_effort).

(** The thread callback stores the new identifier on the server and succeeds. *)
Context (Hchange : forall f id cw, on_thread_change = Some f -> exists w', f id cw = (Ok tt, (w', cw.2))).

Lemma emit_change_ok id cw : exists w', emit_thread_change on_thread_change id cw = (Ok tt, (w', cw.2)).
Proof.
  unfold emit_thread_change. destruct on_thread_change as [f|]; [|exists cw.1; by destruct cw].
  destruct (Hchange f id cw eq_refl) as [w' E0]. exists w'. unfold except. by rewrite E0.
Qed.

Definition thread_answer (id : string) : json := JObj [("thread", JObj [("id", JStr id)])].

(** What [turn/start] ends with, as [begin_turn_with_retry] reports it. *)
Definition start_outcome (r : result exn json) : option (json + chat_event) :=
  match r with
  | Ok answer => Some (inl answer)
  | Raise e => match as_app_error e with
               | Some _ => Some (inr (ErrorEvent (code_value CODEX_ERROR) (Some (exn_str e))))
               | None => None
               end
  end.

Lemma ensure_ready t cw : s_thread_id cw.2 = Some t -> s_resumed_or_started cw.2 = true ->
  ensure_thread cwd approval_policy sandbox thread_config on_thread_change cw = (Ok t, cw).
Proof. intros H1 H2. unfold ensure_thread, pbind, sess, gets. cbn [fst snd]. by rewrite H1, H2. Qed.

Lemma reset_ok cw : exists w',
  reset_thread on_thread_change cw = (Ok tt, (w', set_thread None false cw.2)).
Proof.
  unfold reset_thread. unfold pbind, mod_sess, modify. cbn [fst snd].
  destruct (emit_change_ok None (cw.1, set_thread None false cw.2)) as [w' E0]. by exists w'.
Qed.

Lemma open_ok d id rest cw :
  s_thread_id cw.2 = None -> s_replies cw.2 = (d, Ok (thread_answer id)) :: rest ->
  exists cw', ensure_thread cwd approval_policy sandbox thread_config on_thread_change cw = (Ok id, cw') /\
    s_thread_id cw'.2 = Some id /\ s_replies cw'.2 = rest /\
    map fst (s_requests cw'.2) = (map fst (s_requests cw.2) ++ ["thread/start"])%list.
Proof.
  intros Ht Hr. unfold ensure_thread, pbind at 1 2, sess, gets. cbn [fst snd]. rewrite Ht.
  unfold open_new_thread, pbind at 1, request. rewrite Hr. unfold pbind at 1, lift_result, returned_id, thread_answer.
  cbn [getitem dict_item assoc String.eqb Ascii.eqb Bool.eqb rbind].
  unfold pbind at 1, mod_sess, modify. cbn [fst snd].
  match goal with |- context [pbind (emit_thread_change _ (Some id)) _ ?x] =>
    destruct (emit_change_ok (Some id) x) as [w4 E4] end.
  erewrite pbind_ok by exact E4. eexists. split; [reflexivity|]. cbn. by rewrite map_app.
Qed.

Lemma start_ok input t d r rest cw :
  s_replies cw.2 = (d, r) :: rest ->
  exists cw', except_app (fun e _ => pret (inr (ErrorEvent (code_value CODEX_ERROR) (Some (exn_str e)))))
      (let! r := request "turn/start" (turn_params t input) in pret (inl r)) cw =
    (match start_outcome r with Some out => Ok out | None => match r with Ok a => Ok (inl a) | Raise e => Raise e end end, cw') /\
    s_thread_id cw'.2 = s_thread_id cw.2 /\
    s_requests cw'.2 = (s_requests cw.2 ++ [("turn/start", turn_params t input)])%list.
Proof.
  intros Hr. unfold except_app, except, pbind, request. rewrite Hr. unfold start_outcome.
  destruct r as [a|e]; [by eexists|]. destruct (as_app_error e); by eexists.
Qed.

(** A turn starts at most twice. On a ready thread, the answer of [turn/start] is the
    turn's, a sidecar error becomes its error event, and only when the sidecar has lost
    the thread is a new one opened, stored, and the turn started there, once. *)
Theorem turn_start_outcomes input t t2 d1 r1 d2 d3 r3 rest cw :
  s_thread_id cw.2 = Some t -> s_resumed_or_started cw.2 = true ->
  s_replies cw.2 = (d1, r1) :: (d2, Ok (thread_answer t2)) :: (d3, r3) :: rest ->
  let '(r, cw') := begin_turn input cw in
  if match r1 with Raise e => is_thread_not_found e | Ok _ => false end
  then
    (forall out, start_outcome r3 = Some out -> r = Ok out) /\ s_thread_id cw'.2 = Some t2 /\
    map fst (s_requests cw'.2) =
      (map fst (s_requests cw.2) ++ ["turn/start"; "thread/start"; "turn/start"])%list
  else
    (forall out, start_outcome r1 = Some out -> r = Ok out) /\ s_thread_id cw'.2 = Some t /\
    s_requests cw'.2 = (s_requests cw.2 ++ [("turn/start", turn_params t input)])%list.
Proof.
  intros Ht Hr Hrep. unfold begin_turn_with_retry. erewrite pbind_ok by (by apply ensure_ready).
  unfold pbind at 1, except_app at 1, except at 1, pbind at 1, request at 1. rewrite Hrep. cbn [fst snd].
  set (cw1 := (cw.1, set_wire _ _ _ _)).
  destruct r1 as [a|e].
  - unfold pret. split_and!; [by intros out [= <-]|done|done].
  - destruct (is_thread_not_found e) eqn:En.
    + assert (as_app_error e = Some (match e with AppServerError c m => Some (c, m) | _ => None end)) as ->
        by (by destruct e).
      unfold pret at 1. destruct (reset_ok cw1) as [w3 E3]. erewrite pbind_ok by exact E3.
      destruct (open_ok d2 t2 ((d3, r3) :: rest) (w3, set_thread None false cw1.2)) as (cw4 & E4 & H1 & H2 & H3);
        [done..|]. erewrite pbind_ok by exact E4.
      destruct (start_ok input t2 d3 r3 rest cw4 H2) as (cw5 & -> & H4 & H5).
      split_and!; [by intros out ->|congruence|].
      rewrite H5, map_app, H3. simpl. rewrite map_app. simpl. by rewrite <- !app_assoc.
    + destruct (as_app_error e) as [err|] eqn:Ee.
      * unfold pbind, pret. cbn [fst snd]. split_and!; [|done|done]. simpl. rewrite Ee. by intros out [= <-].
      * split_and!; [|done|done]. simpl. rewrite Ee. done.
Qed.
End Start.

(* ------------------------------------------------------------------ *)
(** * Witnesses *)

Definition demo_session (deadline : option Z) (replies : list (Z * result exn json))
    (feed : list (Z * Notification)) : cworld :=
  (empty_world, mk_session (Some "th") true (Some "t1") (const 300000 <$> deadline) deadline (Some 0) None
    (Some (new_diagnostics 0 (Some "th") "t1")) 0 [] replies feed 500000 true).

Definition turn_note (t : Z) (turn method : string) (params : dict) : Z * Notification :=
  (t, mk_notification method params (Some turn)).

(** The probe says the turn is running; its end arrives after the deadline. *)
Definition late_feed : list (Z * Notification) :=
  [turn_note 400000 "t1" TURN_COMPLETED_NOTE [("finalText", JStr "answer")]].

Definition demo_probe : cprog bool := extend_idle_deadline ;; pret true.

Definition late_run :=
  run_gen (turn_loop (fun _ => false) (fun _ => None) (fun _ => "") [] (Some demo_probe) None 5 2 ""
    (demo_session (Some 300000) [] late_feed)) [].

Lemma idle_wait_ends_turn_witness : late_run.1 = ([], Ok tt) /\ s_feed late_run.2.2 = late_feed.
Proof.
  split; [|vm_compute; reflexivity].
  pose proof (run_gen_trace (fun x y => x = y)
    (turn_loop (fun _ => false) (fun _ => None) (fun _ => "") [] (Some demo_probe) None 5 2 ""
      (demo_session (Some 300000) [] late_feed)) [] (fun w => eq_refl) (Forall_nil_2 _)) as H.
  assert (Hr : late_run.1.2 = Ok tt) by (vm_compute; reflexivity).
  unfold late_run in *. destruct (run_gen _ _) as [[ys r] cw']. simpl in Hr. subst r.
  eapply idle_wait_ends_turn in H; [| |reflexivity|reflexivity|reflexivity].
  2: { intros f [= <-]. apply respects_bind; [typeclasses eauto|apply extend_idle_open|].
       intros b. apply respects_ret. typeclasses eauto. }
  destruct H as [-> _]. reflexivity.
Defined.

(** A delta and the end of turn [t1], with a note of another turn in between. *)
Definition own_feed : list (Z * Notification) :=
  [turn_note 10 "t1" AGENT_MSG_DELTA [("delta", JStr "hi")];
   turn_note 20 "t0" TURN_COMPLETED_NOTE []; turn_note 30 "t1" TURN_COMPLETED_NOTE []].

Definition own_run :=
  run_gen (turn_loop (fun _ => false) (fun _ => None) (fun _ => "") [] None None 1 4 ""
    (demo_session None [] own_feed)) [].


Definition demo_turn_json (id status : string) : json := JObj [("id", JStr id); ("status", JStr status)].

Lemma probe_finds_turn_witness :
  (probe_turn_status "th" "t1" (demo_session None
     (paged [[demo_turn_json "t3" "failed"]; [demo_turn_json "t1" "completed"]]) [])).1 = Ok (Some "completed").
Proof.
  pose proof (probe_finds_turn "th" "t1" [[demo_turn_json "t3" "failed"]; [demo_turn_json "t1" "completed"]]
    (demo_session None (paged [[demo_turn_json "t3" "failed"]; [demo_turn_json "t1" "completed"]]) [])
    ltac:(done) eq_refl) as H.
  destruct (probe_turn_status _ _ _) as [r cw']. destruct H as [-> _]. reflexivity.
Defined.

Definition lost_thread : exn := AppServerError (-32600) "Thread not found".

Lemma turn_start_outcomes_witness :
  let '(r, cw') := begin_turn_with_retry "" "" "" None None None None []
    (demo_session None [(0, Raise lost_thread); (0, Ok (thread_answer "th2")); (0, Ok (JStr "started"))] []) in
  r = Ok (inl (JStr "started")) /\ s_thread_id cw'.2 = Some "th2".
Proof.
  pose proof (turn_start_outcomes "" "" "" None None None None ltac:(intros f id cw [=]) [] "th" "th2"
    0 (Raise lost_thread) 0 0 (Ok (JStr "started")) []
    (demo_session None [(0, Raise lost_thread); (0, Ok (thread_answer "th2")); (0, Ok (JStr "started"))] [])
    eq_refl eq_refl eq_refl) as H.
  destruct (begin_turn_with_retry _ _ _ _ _ _ _ _ _) as [r cw'].
  assert (Hn : is_thread_not_found lost_thread = true) by (vm_compute; reflexivity).
  cbv beta iota in H. rewrite Hn in H. destruct H as (H1 & H2 & _). split; [by apply H1|done].
Defined.
