(* ===== verification/CodexClient.v ===== *)
(** The client of a sidecar ([services/codex/client.py]): its connection and handshake, the
    one-shot connections that interrupt and steer a turn from another process
    ([services/codex/codex_remote.py]), and the history a fresh thread is seeded with
    ([services/codex/history.py], [_seed_history] of [services/codex/runner.py]). *)
From S2P Require Import Prelude PyStr Json Models Events World Translate CodexRemote Services Session.

Open Scope Z_scope.
Open Scope string_scope.

Definition HISTORY_REPLAY_LIMIT : nat := 20.

Definition CLIENT_INFO : dict := [("name", JStr "codex-api"); ("version", JStr "0.1.0")].

(* ------------------------------------------------------------------ *)
(** * Connection *)

(** The next scripted connection to a sidecar; a sidecar without one refuses. *)
Fixpoint next_dial (sidecar : SidecarName) (l : list (SidecarName * result exn wire)) :
    result exn wire * list (SidecarName * result exn wire) :=
  match l with
  | [] => (Raise (OSError "connection refused"), [])
  | (s, r) :: l' =>
      if decide (s = sidecar) then (r, l')
      else let '(r', rest) := next_dial sidecar l' in (r', (s, r) :: rest)
  end.

(** [transport.connect()]. *)
Definition dial (sidecar : SidecarName) : prog world exn wire :=
  fun w => let '(r, rest) := next_dial sidecar (w_dials w) in (r, set_dials rest w).

(** A [CodexClient] on a fresh connection. *)
Definition fresh_session (initial_thread_id : option string) (x : wire) : session :=
  mk_session initial_thread_id false None None None None None None (wi_clock x) []
    (wi_replies x) (wi_feed x) (wi_feed_end x) true.

(** [_handshake]; its log line reads the answer as a dict. *)
Definition handshake (x : wire) : cprog unit :=
  let! result := request "initialize" [("clientInfo", JObj CLIENT_INFO); ("capabilities", JObj [])] in
  lift_result (wi_notify x) ;;
  if truthy result then lift_result (getattr_get result "userAgent") ;; pret tt else pret tt.

(** A client that is connected, used and closed; the closing of the socket has no other
    effect. *)
Definition with_client {A} (sidecar : SidecarName) (initial_thread_id : option string) (body : cprog A) :
    prog world exn A :=
  let! x := dial sidecar in
  fun w => let '(r, cw) := (handshake x ;; body) (w, fresh_session initial_thread_id x) in (r, cw.1).

(* ------------------------------------------------------------------ *)
(** * Cross-worker control *)

Definition one_shot_client {A} (is_admin : bool) (body : cprog A) : prog world exn A :=
  with_client (if is_admin then ADMIN else GUEST) None body.

Definition send_interrupt_turn_id (is_admin : bool) (thread_id : option string) (turn_id : string) :
    prog world exn bool :=
  match thread_id with
  | None => pret false
  | Some thread_id => one_shot_client is_admin (interrupt thread_id turn_id)
  end.

Definition send_steer_by_ids (chat_id : Z) (is_admin : bool) (thread_id : option string)
    (codex_turn_id text : string) : prog world exn bool :=
  let! accepted := one_shot_client is_admin (steer text (Some codex_turn_id) thread_id) in
  if accepted : bool then note_steer chat_id codex_turn_id ;; pret true else pret false.

(* ------------------------------------------------------------------ *)
(** * History *)

Definition history_item (role kind text : string) : json :=
  JObj [("type", JStr "message"); ("role", JStr role);
        ("content", JArr [JObj [("type", JStr kind); ("text", JStr text)]])].

Fixpoint messages_to_history_items (messages : list message) : list json :=
  match messages with
  | [] => []
  | msg :: rest =>
      let items := messages_to_history_items rest in
      let text := strip (m_text msg) in
      match m_role msg with
      | Msg_USER => if nonempty text then history_item "user" "input_text" text :: items else items
      | Msg_ASSISTANT =>
          if nonempty text then history_item "assistant" "output_text" text :: items else items
      | _ => items
      end
  end.

(** Without a last message of the user, which reaches Codex as the turn's input. *)
Definition drop_pending_user (recent : list message) : list message :=
  match last recent with
  | Some m => if decide (m_role m = Msg_USER) then removelast recent else recent
  | None => recent
  end.

Definition seed_history (db_chat_id : Z) : cprog unit :=
  let! recent := on_server (with_session (list_recent db_chat_id HISTORY_REPLAY_LIMIT)) in
  match messages_to_history_items (drop_pending_user recent) with
  | [] => pret tt
  | items => inject_history items
  end.
