(* ===== verification/ChatRpc.v ===== *)
(** The chat RPC ([rpc/chat/service.py], [guards.py]): the chats of a user, the start of a
    turn with its reservation, its row and its job, the turn already active in the chat
    (steered, interrupted, or finalised when its worker is gone), and the resumption of a
    turn's stream. Handlers take the user their cookie authenticates. *)
From S2P Require Import Prelude PyStr Json Models Gen Events World TurnStore Locks Lease Recovery.
From S2P Require Import RateLimit TurnStream CodexRemote Services Mappers Translate Session CodexClient.

Open Scope Z_scope.
Open Scope string_scope.

(* ------------------------------------------------------------------ *)
(** * Guards *)

Definition DEFAULT_LIMIT : Z := 50.
Definition MAX_LIMIT : Z := 200.

Definition resolve_limit (limit : Z) : Z := Z.min (if Z.ltb 0 limit then limit else DEFAULT_LIMIT) MAX_LIMIT.

Definition not_found (what : string) (id : Z) : exn :=
  ConnectError "not_found" (what ++ " " ++ str_of_Z id ++ " not found").

Definition load_chat_owned (chat_id user_id : Z) (expected_source : option ChatSource) :
    prog world exn chat :=
  let! chat := chat_get chat_id in
  match chat with
  | None => praise (not_found "chat" chat_id)
  | Some c =>
      if negb (Z.eqb (c_user_id c) user_id) then praise (not_found "chat" chat_id)
      else match expected_source with
           | Some s => if bool_decide (c_source c = s) then pret c else praise (not_found "chat" chat_id)
           | None => pret c
           end
  end.

(* ------------------------------------------------------------------ *)
(** * Chats *)

(** [chat_to_pb]: the row and the turn active in it. *)
Definition chat_pb : Type := chat * option Z.

Definition list_chats (u : user) (limit : Z) : prog world exn (list chat_pb) :=
  with_session (
    let! chats := list_for_user (u_id u) (Z.to_nat (resolve_limit limit)) (Some WEB) in
    let! active_by_chat := active_ids_by_chat_for_user (u_id u) in
    pret (map (fun c => (c, active_by_chat !! c_id c)) chats)).

Definition with_title (title : option string) (c : chat) : chat :=
  mk_chat (c_id c) (c_user_id c) (c_source c) (c_tg_chat_id c) (c_tg_message_thread_id c)
    (c_codex_thread_id c) title (c_last_msg_at c).

(** [chat.title = title], flushed with the session. *)
Definition set_title (c : chat) (title : option string) : prog world exn chat :=
  sql_write (fun d => set_chats (update_where (chat_is (c_id c)) (with_title title) (db_chats d)) d) ;;
  pret (with_title title c).

Definition title_of (title : string) : option string :=
  let t := strip title in if nonempty t then Some t else None.

Definition create_chat (u : user) (title : string) : prog world exn chat_pb :=
  with_session (
    let! c := create_web_chat (u_id u) in
    let! title := match title_of title with
                  | Some t => pret t
                  | None => let! count := count_web_for_user (u_id u) in pret ("Chat " ++ str_of_Z count)
                  end in
    let! c := set_title c (Some title) in
    commit ;;
    pret (c, None)).

Definition get_chat (u : user) (chat_id : Z) : prog world exn chat_pb :=
  with_session (
    let! c := load_chat_owned chat_id (u_id u) (Some WEB) in
    let! active := get_active_for_chat (c_id c) in
    pret (c, t_id <$> active)).

Definition rename_chat (u : user) (chat_id : Z) (title : string) : prog world exn chat_pb :=
  with_session (
    let! c := load_chat_owned chat_id (u_id u) (Some WEB) in
    let! c := set_title c (title_of title) in
    commit ;;
    let! active := get_active_for_chat (c_id c) in
    pret (c, t_id <$> active)).

(** [DELETE FROM chats] with the rows that cascade. *)
Definition delete_chat_rows (chat_id : Z) (d : database) : database :=
  let other := fun id => negb (Z.eqb id chat_id) in
  set_chats (List.filter (fun c => other (c_id c)) (db_chats d))
    (set_messages (List.filter (fun m => other (m_chat_id m)) (db_messages d))
      (set_turns (List.filter (fun t => other (t_chat_id t)) (db_turns d))
        (set_events (List.filter (fun e => negb (bool_decide (e_chat_id e = Some chat_id))) (db_events d)) d))).

Definition delete_chat (u : user) (chat_id : Z) : prog world exn unit :=
  with_session (
    let! c := load_chat_owned chat_id (u_id u) (Some WEB) in
    let! active := get_active_for_chat (c_id c) in
    match active with
    | Some _ => praise (ConnectError "failed_precondition" "chat has an active turn; interrupt before deleting")
    | None => sql_write (delete_chat_rows (c_id c)) ;; commit
    end).

(* ------------------------------------------------------------------ *)
(** * Control of an active turn *)

(** [_CONTROL_RPC_ERRORS]. *)
Definition control_rpc_error (e : exn) : bool :=
  match e with
  | WebSocketException _ | OSError _ | TimeoutError => true
  | _ => bool_decide (is_Some (as_app_error e))
  end.

(** The outcome of a call as a value, for a [try] statement with several clauses. *)
Definition attempt {W E A} (m : prog W E A) : prog W E (result E A) :=
  fun w => let '(r, w') := m w in (Ok r, w').

Definition is_admin_turn (t : turn) : bool := bool_decide (normalize (t_sidecar t) = ADMIN).

Definition handle_stale_turn (chat_id : Z) (t : turn) (actual_turn_id : string) : prog world exn unit :=
  except (fun e => match e with
                   | StaleSidecarTurnError _ _ => pret tt
                   | _ => if control_rpc_error e then pret tt else praise e
                   end)
    (send_interrupt_turn_id (is_admin_turn t) (t_codex_thread_id t) actual_turn_id ;; pret tt) ;;
  quarantine_thread (t_codex_thread_id t) ;;
  with_session (
    finalize_once (t_id t) FAILED (Some (code_value STALE_ACTIVE_TURN)) (Some ("sidecar held " ++ actual_turn_id)) ;;
    commit).

(** The message of a steer, stored before the counter that makes the worker cut its
    segment. *)
Definition store_steer (chat_id turn_id : Z) (text : string) : prog world exn unit :=
  with_session (msg_append chat_id Msg_USER text (Some [("steered", JBool true)]) ;; commit) ;;
  bump_steer_count turn_id.

Definition interrupt_turn (u : user) (chat_id : Z) : prog world exn unit :=
  let! found := with_session (
    let! c := load_chat_owned chat_id (u_id u) (Some WEB) in
    let! active := get_active_for_chat (c_id c) in
    pret (c, active)) in
  match found.2 with
  | None => pret tt
  | Some active =>
      match t_codex_turn_id active with
      | None => pret tt
      | Some codex_turn_id =>
          let! r := attempt (send_interrupt_turn_id (is_admin_turn active) (t_codex_thread_id active) codex_turn_id) in
          match r with
          | Ok _ => pret tt
          | Raise (StaleSidecarTurnError _ actual) => handle_stale_turn (c_id found.1) active actual
          | Raise e => if control_rpc_error e then pret tt else praise e
          end
      end
  end.

Definition steer_turn (u : user) (chat_id : Z) (text : string) : prog world exn bool :=
  let text := strip text in
  if negb (nonempty text) then pret false
  else
    let! found := with_session (
      let! c := load_chat_owned chat_id (u_id u) (Some WEB) in
      let! active := get_active_for_chat (c_id c) in
      pret (c, active)) in
    match found.2 with
    | None => pret false
    | Some active =>
        match t_codex_turn_id active with
        | None => pret false
        | Some codex_turn_id =>
            let! r := attempt (send_steer_by_ids (c_id found.1) (is_admin_turn active)
                                 (t_codex_thread_id active) codex_turn_id text) in
            match r with
            | Ok false => pret false
            | Ok true => store_steer (c_id found.1) (t_id active) text ;; pret true
            | Raise (StaleSidecarTurnError _ actual) =>
                handle_stale_turn (c_id found.1) active actual ;; pret false
            | Raise e => if control_rpc_error e then pret false else praise e
            end
        end
    end.

(* ------------------------------------------------------------------ *)
(** * RunTurn *)

Record RunTurnRequest := mk_run_turn {
  rq_text : string;
  rq_upload_ids : list Z;
  rq_chat_id : option Z;
  rq_client_id : string
}.

(** [rpc/chat/uploads.py]. *)
Record ResolvedUploads := mk_uploads {
  up_image_urls : list string;
  up_image_ids : list Z;
  up_audio_ids : list Z;
  up_file_paths : list string;
  up_file_ids : list Z
}.

Record PreparedRunTurn := mk_prepared {
  p_chat_id : Z;
  p_user_id : Z;
  p_text : string;
  p_uploads : ResolvedUploads;
  p_voice_reply : bool;
  p_has_uploads : bool;
  p_sidecar : SidecarName;
  p_client_id : option string
}.

(** [WorkspaceUploads.format_mentions]. *)
Definition newline : string := String (Ascii.ascii_of_nat 10) "".
Definition format_mentions (paths : list string) : string :=
  match paths with
  | [] => ""
  | _ => "Attached files (open from cwd):" ++ newline ++
         join newline (map (fun path => "- `" ++ path ++ "`") paths)
  end.

Definition some {A} (l : list A) : bool := negb (Nat.eqb (List.length l) 0).

Definition resolve_web_chat (request : RunTurnRequest) (user_id : Z) : prog world exn Z :=
  with_session (
    match rq_chat_id request with
    | Some chat_id => let! c := load_chat_owned chat_id user_id (Some WEB) in pret (c_id c)
    | None => let! c := get_or_create_for_web user_id in commit ;; pret (c_id c)
    end).

Definition user_message_meta (p : PreparedRunTurn) : option (list (string * json)) :=
  let ids k l := if some l then [(k, JArr (map JNum l))] else [] in
  match (ids "upload_ids" (up_image_ids (p_uploads p)) ++
         ids "audio_upload_ids" (up_audio_ids (p_uploads p)) ++
         ids "file_upload_ids" (up_file_ids (p_uploads p)))%list with
  | [] => None
  | meta => Some meta
  end.

Definition busy (detail : string) : pb_kind := error_event (code_value TURN_BUSY) (Some detail).
Definition STARTING_DETAIL : string := "another turn is starting for this chat".
Definition FINISHING_DETAIL : string := "previous turn still finishing — retry shortly".
Definition stale_event : pb_kind :=
  error_event (code_value STALE_ACTIVE_TURN) (Some "previous Codex turn is stale; retry shortly").

(** [assert active.codex_turn_id is not None]. *)
Definition started_id (active : turn) : prog world exn string :=
  match t_codex_turn_id active with
  | Some id => pret id
  | None => praise (OtherException "AssertionError" "")
  end.

Definition try_steer_active_turn (p : PreparedRunTurn) (active : turn) : prog world exn (option pb_kind) :=
  let! codex_turn_id := started_id active in
  let! r := attempt (send_steer_by_ids (p_chat_id p) (is_admin_turn active)
                       (t_codex_thread_id active) codex_turn_id (p_text p)) in
  match r with
  | Ok false => pret None
  | Ok true =>
      store_steer (p_chat_id p) (t_id active) (p_text p) ;;
      pret (Some (PbDone (p_chat_id p) "" None true))
  | Raise (StaleSidecarTurnError _ actual) =>
      handle_stale_turn (p_chat_id p) active actual ;; pret (Some stale_event)
  | Raise e => if control_rpc_error e then pret None else praise e
  end.

Definition try_interrupt_active_turn (chat_id : Z) (active : turn) : prog world exn (bool * option pb_kind) :=
  let! codex_turn_id := started_id active in
  let! r := attempt (send_interrupt_turn_id (is_admin_turn active) (t_codex_thread_id active) codex_turn_id) in
  match r with
  | Ok interrupted => pret (interrupted, None)
  | Raise (StaleSidecarTurnError _ actual) =>
      handle_stale_turn chat_id active actual ;; pret (false, Some stale_event)
  | Raise e => if control_rpc_error e then pret (false, None) else praise e
  end.

(** The chat's active turn, unless its worker is dead: no heartbeat for two minutes, or a
    started turn without a lease. *)
Definition surviving_turn (chat_id : Z) : prog world exn (option turn) :=
  let! active := with_session (get_active_for_chat chat_id) in
  match active with
  | None => pret None
  | Some t =>
      let! stale := reconcile_if_stale t in
      if stale : bool then pret None
      else
        match t_codex_turn_id t with
        | None => pret (Some t)
        | Some _ =>
            let! held := exists_ (t_id t) in
            if held : bool then pret (Some t)
            else
              with_session (
                finalize_once (t_id t) FAILED (Some "lease_expired") (Some "worker lease missing — runner dead") ;;
                commit) ;;
              release_active (t_chat_id t) (t_id t) ;;
              pret None
        end
  end.

(** The event the handler shows instead of a new turn, if any. *)
Definition handle_active_turn (p : PreparedRunTurn) : prog world exn (option pb_kind) :=
  let! active := surviving_turn (p_chat_id p) in
  match active with
  | None => pret None
  | Some t =>
      if bool_decide (t_codex_turn_id t = None) then pret (Some (busy STARTING_DETAIL))
      else if p_has_uploads p then pret (Some (busy FINISHING_DETAIL))
      else
        let! steer_event := try_steer_active_turn p t in
        match steer_event with
        | Some ev => pret (Some ev)
        | None =>
            let! r := try_interrupt_active_turn (p_chat_id p) t in
            match r.2 with
            | Some ev => pret (Some ev)
            | None => if r.1 : bool then pret None else pret (Some (busy FINISHING_DETAIL))
            end
        end
  end.

Definition turn_started_payload (p : PreparedRunTurn) (t : turn) : list (string * json) :=
  [("turn_id", JNum (t_id t)); ("text_len", JNum (Z.of_nat (String.length (p_text p))));
   ("attachments", JNum (Z.of_nat (List.length (up_image_urls (p_uploads p)))));
   ("files", JNum (Z.of_nat (List.length (up_file_paths (p_uploads p)))))].

Definition create_web_turn (p : PreparedRunTurn) : prog world exn (turn + pb_kind) :=
  with_session (
    let! user_message := msg_append (p_chat_id p) Msg_USER (p_text p) (user_message_meta p) in
    let! turn := try_create_starting {| tc_chat_id := p_chat_id p; tc_user_id := p_user_id p;
      tc_user_message_id := m_id user_message; tc_sidecar := p_sidecar p |} in
    match turn with
    | None => pret (inr (busy STARTING_DETAIL))
    | Some t =>
        emit_event Models.TURN_STARTED (Some (p_chat_id p)) (Some (p_user_id p))
          (Some (turn_started_payload p t)) ;;
        commit ;;
        pret (inl t)
    end).

(** The terminal event of a finished turn, with its final row. *)
Definition terminal_from_status (t : turn) : prog world exn (option pb_kind) :=
  match t_status t with
  | COMPLETED =>
      match t_assistant_message_id t with
      | None => pret (Some (PbDone (t_chat_id t) "" None false))
      | Some id =>
          let! msg := with_session (sql (fun d => List.find (fun m => Z.eqb (m_id m) id) (db_messages d))) in
          pret (Some match msg with
                     | Some m => PbDone (t_chat_id t) (m_text m) (Some m) false
                     | None => PbDone (t_chat_id t) "" None false
                     end)
      end
  | FAILED | CANCELLED =>
      let code := if truthy_opt (t_error_code t) then t_error_code t
                  else Some (if bool_decide (t_status t = FAILED) then code_value STREAM_DROPPED else "cancelled") in
      let detail := if truthy_opt (t_error_detail t) then t_error_detail t
                    else Some (lower (TurnStatus_value (t_status t))) in
      pret (Some (error_event (from_option id "" code) detail))
  | _ => pret None
  end.

Definition terminal_for_turn_id (turn_id : Z) : prog world exn (option pb_kind) :=
  let! turn := with_session (get_by_id turn_id) in
  match turn with
  | Some t => if is_terminal (t_status t) then terminal_from_status t else pret None
  | None => pret None
  end.

Definition latest_turn_for_chat (chat_id : Z) : prog world exn (option turn) :=
  sql (fun d => head (rev (order_by t_id (List.filter (fun t => Z.eqb (t_chat_id t) chat_id) (db_turns d))))).

(** The locals of [run_turn] its [finally] and its later steps read. *)
Record rpc_locals := mk_rpc_locals { l_turn : option turn; l_worker_owns : bool }.
Definition rpc_world : Type := world * rpc_locals.

Definition on_server {A} (m : prog world exn A) : prog rpc_world exn A :=
  fun rw => let '(r, w) := m rw.1 in (r, (w, rw.2)).
Definition rpc_local {A} (f : rpc_locals -> A) : prog rpc_world exn A := gets (fun rw => f rw.2).
Definition set_local (f : rpc_locals -> rpc_locals) : prog rpc_world exn unit :=
  modify (fun rw => (rw.1, f rw.2)).

Definition no_rpc_locals : rpc_locals := mk_rpc_locals None false.

(** Where the handler waits and other processes run. *)
Inductive suspension := AfterReserve | AfterPrepare | AfterActiveCheck | AfterCreate | AfterTail.

(** How a stream ends: the handler is done, or it is still tailing when the environment
    of the tail is exhausted. *)
Inductive run_end := Finished | StillTailing.

(** [except (TaskiqError, RedisError, OSError, ValueError)]. *)
Definition enqueue_error (e : exn) : bool :=
  match e with
  | TaskiqError _ | RedisError | OSError _ | TimeoutError | ValueError _ => true
  | _ => false
  end.

Definition is_rate_limited (e : exn) : bool :=
  match e with OtherException t _ => String.eqb t "RateLimited" | _ => false end.

Notation rpc_stream := (gprog rpc_world exn (string * pb_kind)).

(** An event that is not an entry of the stream has no identifier. *)
Definition show (ev : pb_kind) : rpc_stream unit := gyield ("", ev).

Fixpoint show_all (l : list (string * pb_kind)) : rpc_stream unit :=
  match l with
  | [] => gret tt
  | e :: l' => gyield e ;* show_all l'
  end.

Definition show_opt (ev : option pb_kind) : rpc_stream unit :=
  match ev with Some e => show e | None => gret tt end.

(** [async for event in turn_stream.tail(...): yield event]. *)
Definition follow (env : list ((world -> world) * (world -> world))) (turn_id : Z) (after_id : string) :
    rpc_stream run_end :=
  fun rw =>
    let '(out, e, w) := tail env turn_id after_id rw.1 in
    (show_all out ;*
     match e with
     | TailReturned => gret Finished
     | TailRaised e => glift (praise e)
     | TailWaiting => gret StillTailing
     end) (w, rw.2).

Section Rpc.
(** The uploads of a request: rows, object storage and files. *)
Context (resolve_uploads : list Z -> Z -> Z -> prog world exn ResolvedUploads).
(** The task broker: whether it takes the job, and what the caller is told. *)
Context (broker : queued_job -> world -> bool * result exn unit).
(** The other processes. *)
Context (meanwhile : suspension -> world -> world).

Definition suspend (s : suspension) : prog rpc_world exn unit :=
  modify (fun rw => (meanwhile s rw.1, rw.2)).

(** [execute_turn.kiq]. *)
Definition kiq (q : queued_job) : prog world exn unit :=
  fun w => let '(taken, r) := broker q w in
           (r, if taken : bool then set_jobs (w_jobs w ++ [q])%list w else w).

Definition prepare_run_turn (request : RunTurnRequest) (text : string) (u : user) :
    prog world exn PreparedRunTurn :=
  let! chat_id := resolve_web_chat request (u_id u) in
  let sidecar := match u_role u with Role_ADMIN => ADMIN | Role_USER => GUEST end in
  let! uploads := resolve_uploads (rq_upload_ids request) (u_id u) chat_id in
  let text := if negb (nonempty text) && (some (up_image_urls uploads) || some (up_file_paths uploads))
              then "Open the attached files and answer based on them." else text in
  let mentions := format_mentions (up_file_paths uploads) in
  let text := if nonempty mentions
              then (if nonempty text then text ++ newline ++ newline ++ mentions else mentions) else text in
  pret {| p_chat_id := chat_id; p_user_id := u_id u; p_text := text; p_uploads := uploads;
          p_voice_reply := some (up_audio_ids uploads);
          p_has_uploads := some (up_image_urls uploads) || some (up_file_paths uploads) || some (up_audio_ids uploads);
          p_sidecar := sidecar;
          p_client_id := if nonempty (rq_client_id request) then Some (rq_client_id request) else None |}.

Definition job_of (t : turn) (p : PreparedRunTurn) : queued_job :=
  {| q_turn_id := t_id t; q_text := p_text p; q_image_urls := up_image_urls (p_uploads p);
     q_voice_reply := p_voice_reply p; q_client_id := p_client_id p |}.

Definition enqueue_turn (t : turn) (p : PreparedRunTurn) : prog world exn (option pb_kind) :=
  let! r := attempt (kiq (job_of t p)) in
  match r with
  | Ok _ => pret None
  | Raise e =>
      if enqueue_error e then
        with_session (finalize_once (t_id t) FAILED (Some "enqueue_failed") (Some (exn_str e)) ;; commit) ;;
        pret (Some (error_event (code_value CODEX_ERROR) (Some ("enqueue failed: " ++ exn_str e))))
      else praise e
  end.

(** The reservation; [None] when it is granted. *)
Definition reserve (u : user) : prog world exn (option string) :=
  except (fun e => if is_rate_limited e then pret (Some (exn_str e)) else praise e)
    (reserve_turn u ;; pret None).

(** The body of the [try] statement. *)
Definition run_reserved (u : user) (request : RunTurnRequest) (text : string)
    (env : list ((world -> world) * (world -> world))) : rpc_stream run_end :=
  let* p := glift (on_server (prepare_run_turn request text u)) in
  glift (suspend AfterPrepare) ;*
  let* active_event := glift (on_server (handle_active_turn p)) in
  match active_event with
  | Some ev => show ev ;* gret Finished
  | None =>
      glift (suspend AfterActiveCheck) ;*
      let* created := glift (on_server (create_web_turn p)) in
      match created with
      | inr create_error => show create_error ;* gret Finished
      | inl t =>
          glift (set_local (fun l => mk_rpc_locals (Some t) (l_worker_owns l))) ;*
          glift (suspend AfterCreate) ;*
          let* enqueue_failure := glift (on_server (enqueue_turn t p)) in
          match enqueue_failure with
          | Some ev => show ev ;* gret Finished
          | None =>
              glift (set_local (fun l => mk_rpc_locals (l_turn l) true)) ;*
              show (PbTurnStarted (t_id t)) ;*
              let* how := follow env (t_id t) "" in
              match how with
              | StillTailing => gret StillTailing
              | Finished =>
                  glift (suspend AfterTail) ;*
                  let* terminal := glift (on_server (terminal_for_turn_id (t_id t))) in
                  show_opt terminal ;*
                  gret Finished
              end
          end
      end
  end.

Definition release_unowned (u : user) : prog rpc_world exn unit :=
  let! owned := rpc_local l_worker_owns in
  if owned : bool then pret tt else on_server (release_turn u).

Definition run_turn (u : user) (request : RunTurnRequest)
    (env : list ((world -> world) * (world -> world))) : rpc_stream run_end :=
  let text := strip (rq_text request) in
  if negb (nonempty text) && negb (some (rq_upload_ids request)) then
    show (error_event (code_value EMPTY_TEXT) (Some "text is required")) ;* gret Finished
  else
    let* refused := glift (on_server (reserve u)) in
    match refused with
    | Some detail => show (error_event (code_value RATE_LIMITED) (Some detail)) ;* gret Finished
    | None =>
        gfinally (release_unowned u) (
          glift (suspend AfterReserve) ;*
          run_reserved u request text env)
    end.

(** The turn a client resumes: by identifier, or the active one of the chat. *)
Definition tail_turn (u : user) (turn_id : option Z) (chat_id : Z) (after_id : string)
    (env : list ((world -> world) * (world -> world))) : rpc_stream run_end :=
  let* target := glift (on_server match turn_id with
    | Some id =>
        let! t := with_session (get_by_id id) in
        match t with
        | None => praise (not_found "turn" id)
        | Some t => with_session (load_chat_owned (t_chat_id t) (u_id u) (Some WEB)) ;; pret (Some t)
        end
    | None =>
        with_session (load_chat_owned chat_id (u_id u) (Some WEB) ;; get_active_for_chat chat_id)
    end) in
  match target with
  | None =>
      let* latest := glift (on_server (with_session (latest_turn_for_chat chat_id))) in
      match latest with
      | Some t =>
          if is_terminal (t_status t) then
            let* terminal := glift (on_server (terminal_from_status t)) in
            show_opt terminal ;* gret Finished
          else gret Finished
      | None => gret Finished
      end
  | Some t =>
      if is_terminal (t_status t) then
        let* terminal := glift (on_server (terminal_from_status t)) in
        show_opt terminal ;* gret Finished
      else
        let* how := follow env (t_id t) after_id in
        match how with
        | StillTailing => gret StillTailing
        | Finished =>
            glift (suspend AfterTail) ;*
            let* terminal := glift (on_server (terminal_for_turn_id (t_id t))) in
            show_opt terminal ;* gret Finished
        end
  end.
End Rpc.

(* ------------------------------------------------------------------ *)
(** * Chat activity *)

(** One payload of the user's activity channel, as the client gets it. *)
Definition chat_activity_to_pb (payload : dict) : option (Z * Z * activity_kind) :=
  match as_int (get_or_null "chat_id" payload), as_int (get_or_null "turn_id" payload) with
  | Some chat_id, Some turn_id =>
      match get_or_null "kind" payload with
      | JStr k =>
          if String.eqb k "started" then Some (chat_id, turn_id, Started)
          else if String.eqb k "ended" then Some (chat_id, turn_id, Ended) else None
      | _ => None
      end
  | _, _ => None
  end.

(* ------------------------------------------------------------------ *)
(** * The handler among others *)

(** What the client and other processes do while the handler is suspended: its locals are
    its own, and they move the world along [R]. *)
Definition client_step (R : world -> world -> Prop) (rw rw' : rpc_world) : Prop :=
  rw'.2 = rw.2 /\ R rw.1 rw'.1.

#[export] Instance client_step_preorder R `{!PreOrder R} : PreOrder (client_step R).
Proof.
  split; [by intros rw|]. intros a b c [H1 H2] [H3 H4]. split; [congruence|by etransitivity].
Qed.

Definition moves (R : world -> world -> Prop) (f : world -> world) : Prop := forall w, R w (f w).
Definition env_moves (R : world -> world -> Prop) (env : list ((world -> world) * (world -> world))) : Prop :=
  Forall (fun fg => moves R fg.1 /\ moves R fg.2) env.

Lemma lift_server R {A} (m : prog world exn A) w l
    (Q : list (string * pb_kind) -> result exn A -> rpc_world -> Prop) :
  (forall r w', m w = (r, w') -> Q [] r (w', l)) -> gwp (client_step R) (glift (on_server m) (w, l)) Q.
Proof. intros H. apply gwp_lift. unfold on_server. cbn [fst snd]. destruct (m w) as [r w']. by apply H. Qed.

Section Follow.
Context (R : world -> world -> Prop) `{!PreOrder R}.
Context (env : list ((world -> world) * (world -> world))) (Henv : env_moves R env).
Context (Hread : forall k cursor, respects R (redis_op (xread k cursor TAIL_COUNT))).
Context (Hget : forall id, respects R (with_session (get_by_id id))).

Lemma tail_moves turn_id cursor : forall w, R w (tail_loop env turn_id cursor w).2.
Proof.
  revert cursor. unfold env_moves in Henv.
  induction Henv as [|[before between] l [Hb Hi] He IH]; intros cursor w; [done|]. cbn [tail_loop].
  pose proof (Hread (stream_key turn_id) cursor (before w)) as H1.
  assert (Hw : R w (redis_op (xread (stream_key turn_id) cursor TAIL_COUNT) (before w)).2)
    by (etransitivity; [apply Hb|exact H1]). clear H1.
  destruct (redis_op _ (before w)) as [[[[|e l']|]|e] w1]; try exact Hw.
  - pose proof (Hget turn_id (between w1)) as H2.
    destruct (with_session (get_by_id turn_id) (between w1)) as [[[t|]|e] w2];
      (assert (Hw2 : R w w2) by (etransitivity; [exact Hw|]; etransitivity; [apply Hi|exact H2])); try exact Hw2.
    destruct (is_terminal (t_status t)); [exact Hw2|]. etransitivity; [exact Hw2|]. apply IH, He.
  - destruct (emit cursor (e :: l')) as [[out c'] stop]. destruct stop; [exact Hw|].
    specialize (IH He c' w1). destruct (tail_loop l turn_id c' w1) as [[rest e'] w']. by etransitivity.
Qed.

Lemma show_all_spec l : forall rw (Q : list (string * pb_kind) -> result exn unit -> rpc_world -> Prop),
  (forall rw', client_step R rw rw' -> Q l (Ok tt) rw') -> gwp (client_step R) (show_all l rw) Q.
Proof.
  induction l as [|e l IH]; intros rw Q H; cbn [show_all]; [by apply gwp_ret, H|].
  apply gwp_bind, gwp_yield. intros rw1 H1. apply IH. intros rw2 H2. apply H. by etransitivity.
Qed.

Lemma follow_spec turn_id after_id rw (Q : list (string * pb_kind) -> result exn run_end -> rpc_world -> Prop) :
  (forall ys r rw', client_step R rw rw' -> Q ys r rw') -> gwp (client_step R) (follow env turn_id after_id rw) Q.
Proof.
  intros H. unfold follow, tail.
  pose proof (tail_moves turn_id (if nonempty after_id then after_id else "0") rw.1) as Ht.
  destruct (tail_loop env turn_id _ rw.1) as [[out e] w]. apply gwp_bind, show_all_spec.
  intros rw1 H1. assert (Hs : client_step R rw rw1) by (etransitivity; [|exact H1]; by split).
  destruct e; [apply gwp_ret|apply gwp_praise|apply gwp_ret]; by apply H.
Qed.
End Follow.

(* ------------------------------------------------------------------ *)
(** * A created turn is queued or settled *)

Definition accounted_for (turn_id : Z) (w : world) : Prop :=
  Exists (fun q => q_turn_id q = turn_id) (w_jobs w) \/ settled turn_id w.

(** A job stays queued, and a settled row settled ([TurnStore.terminal_is_final]). *)
Definition keeps_accounts (w w' : world) : Prop :=
  forall turn_id, accounted_for turn_id w -> accounted_for turn_id w'.

#[export] Instance keeps_accounts_preorder : PreOrder keeps_accounts.
Proof. split; [by intros w tid|]. intros a b c H1 H2 tid. auto. Qed.

Definition accounts (w : world) := (w_db w, w_jobs w).

Lemma accounts_kept w w' : accounts w' = accounts w -> keeps_accounts w w'.
Proof. unfold accounts, keeps_accounts, accounted_for, settled. by intros [= -> ->]. Qed.

Lemma xread_accounts k cursor : respects keeps_accounts (redis_op (xread k cursor TAIL_COUNT)).
Proof.
  intros w. apply accounts_kept.
  change (same accounts w (redis_op (xread k cursor TAIL_COUNT) w).2). by apply respects_redis_op.
Qed.

Lemma release_turn_accounts u : respects (same accounts) (release_turn u).
Proof. unfold release_turn. solve_frame; redis_frame. Qed.

Lemma get_by_id_accounts id : respects keeps_accounts (with_session (get_by_id id)).
Proof. intros w. by apply accounts_kept. Qed.

(* ------------------------------------------------------------------ *)
(** ** What the handler's steps return *)

Definition returns {A} (P : A -> Prop) (m : prog world exn A) : Prop := forall w a, (m w).1 = Ok a -> P a.

Lemma returns_ret {A} (P : A -> Prop) a : P a -> returns P (pret a).
Proof. by intros H w b [= <-]. Qed.
Lemma returns_raise {A} (P : A -> Prop) e : returns P (praise e).
Proof. by intros w b [=]. Qed.
Lemma returns_bind {A B} (P : B -> Prop) (m : prog world exn A) k :
  (forall a, returns P (k a)) -> returns P (pbind m k).
Proof. intros H w b. unfold pbind. destruct (m w) as [[a|e] w']; [apply H|by intros [=]]. Qed.
Lemma returns_session {A} (P : A -> Prop) (m : prog world exn A) : returns P m -> returns P (with_session m).
Proof.
  intros H w a. unfold with_session. specialize (H (set_hooks [] (set_tx (w_db w) w)) a).
  by destruct (m _) as [r w'].
Qed.

Ltac solve_returns :=
  repeat first
    [ apply returns_bind; intros ?
    | apply returns_session
    | apply returns_ret; done
    | apply returns_raise
    | case_goal ].

Definition refusal (ev : option pb_kind) : Prop := match ev with Some e => pb_terminal e = true | None => True end.

Lemma try_steer_refusal p t : returns refusal (try_steer_active_turn p t).
Proof. unfold try_steer_active_turn. solve_returns. Qed.

Lemma try_interrupt_refusal chat_id t : returns (fun r => refusal r.2) (try_interrupt_active_turn chat_id t).
Proof. unfold try_interrupt_active_turn. solve_returns. Qed.

Lemma handle_active_refusal p : returns refusal (handle_active_turn p).
Proof.
  unfold handle_active_turn. apply returns_bind. intros [t|]; [|by apply returns_ret].
  destruct (bool_decide _); [by apply returns_ret|]. destruct (p_has_uploads p); [by apply returns_ret|].
  intros w a. unfold pbind at 1. pose proof (try_steer_refusal p t w) as Hs.
  destruct (try_steer_active_turn p t w) as [[[ev|]|e] w1]; [|clear Hs|by intros [=]].
  - intros [= <-]. by apply Hs.
  - unfold pbind. pose proof (try_interrupt_refusal (p_chat_id p) t w1) as Hi.
    destruct (try_interrupt_active_turn (p_chat_id p) t w1) as [[[b o]|e] w2]; [|by intros [=]].
    specialize (Hi _ eq_refl). simpl in *. destruct o as [ev|]; [by intros [= <-]|]. by destruct b; intros [= <-].
Qed.

Lemma create_refusal p :
  returns (fun r => match r with inr ev => pb_terminal ev = true | inl _ => True end) (create_web_turn p).
Proof. unfold create_web_turn. solve_returns. Qed.

Lemma session_sql_accounts {A} (f : database -> A) : respects (same accounts) (with_session (sql f)).
Proof. intros w. done. Qed.

Lemma terminal_accounts id : respects (same accounts) (terminal_for_turn_id id).
Proof.
  unfold terminal_for_turn_id, get_by_id, terminal_from_status.
  solve_frame; apply session_sql_accounts.
Qed.

(** ** The run *)

Section Run.
Context (resolve_uploads : list Z -> Z -> Z -> prog world exn ResolvedUploads).
Context (broker : queued_job -> world -> bool * result exn unit).
Context (meanwhile : suspension -> world -> world).
Context (env : list ((world -> world) * (world -> world))).
(** [kiq] returns once the broker has the job, and raises the errors the handler catches. *)
Context (Hbroker : forall q w, match broker q w with
                               | (taken, Ok _) => taken = true
                               | (_, Raise e) => enqueue_error e = true
                               end).
Context (Henv : env_moves keeps_accounts env).
Context (Hmeanwhile : moves keeps_accounts (meanwhile AfterTail)).
Notation client_step := (client_step keeps_accounts).

Lemma enqueue_spec t p w :
  exists o w', enqueue_turn broker t p w = (Ok o, w') /\ refusal o /\ accounted_for (t_id t) w' /\
    (o = None -> In (job_of t p) (w_jobs w')).
Proof.
  unfold enqueue_turn, pbind at 1, attempt, kiq. pose proof (Hbroker (job_of t p) w) as Hb.
  destruct (broker (job_of t p) w) as [taken [u|e]].
  - subst taken. do 2 eexists. split; [done|]. split; [done|].
    assert (In (job_of t p) (w_jobs w ++ [job_of t p])) by (apply in_or_app; simpl; auto).
    split; [|done]. left. apply Exists_exists. exists (job_of t p). split; [by apply list_elem_of_In|done].
  - rewrite Hb. set (w1 := if taken then _ else w).
    destruct (finalize_session (t_id t) FAILED (Some "enqueue_failed") (Some (exn_str e)) w1) as (Hr & _); [done|].
    pose proof (finalize_settles (t_id t) FAILED (Some "enqueue_failed") (Some (exn_str e)) w1 eq_refl) as Hs.
    unfold pbind at 1. destruct (with_session _ w1) as [r w2]. simpl in Hr. subst r.
    do 2 eexists. split; [done|]. split; [done|]. split; [by right|done].
Qed.

(** What a run has shown and left behind. *)
Definition run_ok (ys : list (string * pb_kind)) (r : result exn run_end) (rw : rpc_world) : Prop :=
  (forall t, l_turn rw.2 = Some t -> accounted_for (t_id t) rw.1) /\
  if l_worker_owns rw.2
  then exists t rest, l_turn rw.2 = Some t /\ ys = ("", PbTurnStarted (t_id t)) :: rest
  else match r with
       | Ok _ => exists ev, ys = [("", ev)] /\ pb_terminal ev = true
       | Raise _ => ys = [] \/ exists ev, ys = [("", ev)] /\ pb_terminal ev = true
       end.

Lemma run_ok_refused ev rw rw' : pb_terminal ev = true -> client_step rw rw' -> l_worker_owns rw.2 = false ->
  (forall t, l_turn rw.2 = Some t -> accounted_for (t_id t) rw.1) -> run_ok [("", ev)] (Ok Finished) rw'.
Proof.
  intros Ht [Hl Ha] Ho Hacc. unfold run_ok. rewrite Hl, Ho. split; [|by exists ev].
  intros t E0. by apply Ha, Hacc.
Qed.

Lemma refuse ev rw (Q : list (string * pb_kind) -> result exn run_end -> rpc_world -> Prop) :
  (forall rw', client_step rw rw' -> Q [("", ev)] (Ok Finished) rw') ->
  gwp client_step ((show ev ;* gret Finished) rw) Q.
Proof. intros H. apply gwp_bind, gwp_yield. intros rw1 H1. apply gwp_ret. by apply H. Qed.

Lemma run_reserved_ok u request text w :
  gwp client_step (run_reserved resolve_uploads broker meanwhile u request text env (w, no_rpc_locals)) run_ok.
Proof.
  unfold run_reserved. apply gwp_bind, lift_server. intros [p|e] w1 _; [|by split; [|left]].
  apply gwp_bind, gwp_lift. cbn [suspend modify fst snd].
  apply gwp_bind, lift_server. intros [active|e] w2 E2; [|by split; [|left]].
  pose proof (handle_active_refusal p (meanwhile AfterPrepare w1) active) as Href. rewrite E2 in Href.
  specialize (Href eq_refl). destruct active as [ev|]; [apply refuse; intros rw' Hs; by eapply run_ok_refused|].
  apply gwp_bind, gwp_lift. cbn [suspend modify fst snd].
  apply gwp_bind, lift_server. intros [created|e] w3 E3; [|by split; [|left]].
  pose proof (create_refusal p (meanwhile AfterActiveCheck w2) created) as Hc. rewrite E3 in Hc. specialize (Hc eq_refl).
  destruct created as [t|ev]; [|apply refuse; intros rw' Hs; by eapply run_ok_refused].
  apply gwp_bind, gwp_lift. cbn [set_local modify fst snd].
  apply gwp_bind, gwp_lift. cbn [suspend modify fst snd].
  apply gwp_bind, lift_server. intros r w5 E5.
  destruct (enqueue_spec t p (meanwhile AfterCreate w3)) as (o & w' & E6 & Ho & Ha & _).
  rewrite E6 in E5. injection E5 as <- <-.
  destruct o as [ev|].
  { apply refuse. intros rw' Hs. eapply run_ok_refused; [done|exact Hs|done|]. by intros t' [= <-]. }
  apply gwp_bind, gwp_lift. cbn [set_local modify fst snd].
  apply gwp_bind, gwp_yield. intros rw6 [Hl6 Ha6].
  assert (Hrun : forall rest r rw', client_step rw6 rw' -> run_ok (("", PbTurnStarted (t_id t)) :: rest) r rw').
  { intros rest r rw' [Hl Hk]. unfold run_ok. rewrite Hl, Hl6. simpl. split; [|by exists t, rest].
    intros t' [= <-]. by apply Hk, Ha6. }
  apply gwp_bind, follow_spec; [typeclasses eauto|exact Henv|apply xread_accounts|apply get_by_id_accounts|].
  intros ys r rw7 H7. destruct r as [[]|e]; [|by apply gwp_ret, Hrun|by apply Hrun].
  apply gwp_bind, gwp_lift. cbn [suspend modify fst snd].
  assert (H8 : client_step rw6 (meanwhile AfterTail rw7.1, rw7.2)).
  { etransitivity; [exact H7|]. split; [done|]. apply Hmeanwhile. }
  apply gwp_bind, lift_server. intros r w9 E9.
  assert (H9 : client_step rw6 (w9, rw7.2)).
  { etransitivity; [exact H8|]. split; [done|]. apply accounts_kept.
    pose proof (terminal_accounts (t_id t) (meanwhile AfterTail rw7.1)) as H9. by rewrite E9 in H9. }
  destruct r as [o|e]; [|by apply Hrun].
  destruct o as [ev|]; cbn [show_opt].
  - apply gwp_bind, gwp_yield. intros rw10 H10. apply gwp_ret, Hrun. by etransitivity.
  - apply gwp_bind, gwp_ret, gwp_ret, Hrun. exact H9.
Qed.
Lemma release_unowned_step u rw : client_step rw (release_unowned u rw).2.
Proof.
  unfold release_unowned, pbind, rpc_local, gets. destruct (l_worker_owns rw.2); [done|].
  unfold on_server. pose proof (release_turn_accounts u rw.1) as H. destruct (release_turn u rw.1) as [r w].
  split; [done|]. by apply accounts_kept.
Qed.

Lemma run_ok_step ys r r' rw rw' : run_ok ys r rw -> client_step rw rw' ->
  r' = r \/ (exists e, r' = Raise e) -> run_ok ys r' rw'.
Proof.
  intros [Ha Hs] [Hl Hk] Hr. unfold run_ok. rewrite Hl. split; [auto|].
  destruct (l_worker_owns rw.2); [done|].
  destruct Hr as [->|[e ->]]; [done|]. destruct r as [h|e']; [by right|done].
Qed.

Lemma run_turn_ok u request w :
  gwp client_step (run_turn resolve_uploads broker meanwhile u request env (w, no_rpc_locals)) run_ok.
Proof.
  unfold run_turn. destruct (negb _ && negb _).
  { apply refuse. intros rw' Hs. by eapply run_ok_refused. }
  apply gwp_bind, lift_server. intros [refused|e] w1 _; [|by split; [|left]].
  destruct refused as [d|]; [apply refuse; intros rw' Hs; by eapply run_ok_refused|].
  apply gwp_finally, gwp_bind, gwp_lift. cbn [suspend modify fst snd].
  eapply gwp_mono; [|apply run_reserved_ok]. intros ys r rw H.
  eapply run_ok_step; [exact H|apply release_unowned_step|].
  destruct (release_unowned u rw).1; eauto.
Qed.
End Run.

(* ------------------------------------------------------------------ *)
(** * The active turn *)

(** The sidecar calls leave the server's world alone, connections apart. *)
Section SidecarFrame.
Context (R : world -> world -> Prop) `{!PreOrder R}.
Context (Hdials : forall l w, R w (set_dials l w)).

Lemma with_client_frame {A} sidecar id (body : cprog A) :
  respects (same fst) body -> respects R (with_client sidecar id body).
Proof.
  intros Hb w. unfold with_client, pbind at 1, dial. destruct (next_dial sidecar (w_dials w)) as [[x|e] rest]; [|apply Hdials].
  assert (respects (same fst) (handshake x ;; body)) as H.
  { apply respects_bind; [typeclasses eauto| |intros; exact Hb].
    unfold handshake. solve_frame. intros cw. unfold request. by destruct (s_replies cw.2) as [|[d r] l]. }
  specialize (H (set_dials rest w, fresh_session id x)).
  destruct ((handshake x ;; body) _) as [r cw]. unfold same in H. simpl in *. rewrite H. apply Hdials.
Qed.

Lemma request_server m p : respects (same fst) (request m p).
Proof. intros cw. unfold request. by destruct (s_replies cw.2) as [|[d r] l]. Qed.

Lemma interrupt_frame is_admin thread_id turn_id : respects R (send_interrupt_turn_id is_admin thread_id turn_id).
Proof.
  unfold send_interrupt_turn_id. destruct thread_id; [|by intros w]. apply with_client_frame.
  unfold interrupt, except_app. solve_frame. apply request_server.
Qed.

Lemma steer_server text turn_id thread_id : respects (same fst) (steer text turn_id thread_id).
Proof.
  unfold steer, extend_idle_deadline, except_app, mod_sess.
  pose proof request_server. solve_frame; auto; by intros cw.
Qed.

Lemma send_steer_frame chat_id is_admin thread_id codex_turn_id text :
  respects R (note_steer chat_id codex_turn_id) ->
  respects R (send_steer_by_ids chat_id is_admin thread_id codex_turn_id text).
Proof.
  intros Hn. unfold send_steer_by_ids. apply respects_bind; [done|apply with_client_frame, steer_server|].
  intros [|]; [|by intros w]. apply respects_bind; [done|exact Hn|by intros ? w].
Qed.
End SidecarFrame.

Lemma redis_quiet_sqlview f : respects (same sqlview) (redis_op f) -> respects (same sqlview) (redis_quiet (redis_op f)).
Proof. apply redis_default_sqlview. Qed.

Lemma note_steer_sqlview c t : respects (same sqlview) (note_steer c t).
Proof. apply redis_quiet_sqlview. redis_frame. Qed.

Lemma bump_sqlview t : respects (same sqlview) (bump_steer_count t).
Proof. unfold bump_steer_count, redis_quiet, redis_default. solve_frame; redis_frame. Qed.

Lemma quarantine_sqlview t : respects (same sqlview) (quarantine_thread t).
Proof.
  unfold quarantine_thread. destruct t as [t|]; [|by intros w]. destruct (nonempty t); [|by intros w].
  apply redis_quiet_sqlview. redis_frame.
Qed.

Lemma exists_sqlview t : respects (same sqlview) (exists_ t).
Proof. apply redis_default_sqlview. redis_frame. Qed.

(** The row of a turn is finalised as failed, with the code of one of the three reasons. *)
Definition failure_codes : list string := ["orphan_heartbeat"; "lease_expired"; code_value STALE_ACTIVE_TURN].
Definition turn_failed (t : turn) (w w' : world) : Prop :=
  exists code detail, In code failure_codes /\
    w_db w' = set_turns (update_where (fun r => has_id (t_id t) r && active_row r)
                (finalized (w_now w) FAILED (Some code) detail) (db_turns (w_db w))) (w_db w).

Definition steered_message (id : Z) (p : PreparedRunTurn) : message :=
  mk_message id (p_chat_id p) Msg_USER (p_text p) (Some [("steered", JBool true)]).
Definition steer_stored (p : PreparedRunTurn) (w w' : world) : Prop :=
  exists id chats, w_db w' =
    set_messages (db_messages (w_db w) ++ [steered_message id p])%list (set_chats chats (w_db w)).

Lemma sqlview_db w w' : sqlview w' = sqlview w -> w_db w' = w_db w /\ w_now w' = w_now w.
Proof. by intros [= -> _ _ _ ->]. Qed.

Lemma turn_failed_from t w w1 w' : sqlview w1 = sqlview w -> turn_failed t w1 w' -> turn_failed t w w'.
Proof. intros [H1 H2]%sqlview_db (code & d & Hin & Hdb). exists code, d. split; [done|]. by rewrite Hdb, H1, H2. Qed.

Lemma finalize_failed t code detail w : In code failure_codes ->
  exists w', with_session (finalize_once (t_id t) FAILED (Some code) detail ;; commit) w = (Ok tt, w') /\
    turn_failed t w w'.
Proof.
  intros Hin. destruct (finalize_session (t_id t) FAILED (Some code) detail w eq_refl) as (Hr & Hdb & _).
  destruct (with_session _ w) as [r w']. simpl in *. subst r. exists w'. split; [done|]. by exists code, detail.
Qed.

Lemma handle_stale_spec chat_id t actual w :
  let '(r, w') := handle_stale_turn chat_id t actual w in
  match r with Ok _ => turn_failed t w w' | Raise _ => w_db w' = w_db w end.
Proof.
  unfold handle_stale_turn.
  match goal with |- context [pbind (except ?h ?m) ?k w] =>
    assert (respects (same sqlview) (except h m)) as H1 end.
  { apply respects_except; [typeclasses eauto| |intros []; simpl; solve_frame].
    apply respects_bind; [typeclasses eauto|apply interrupt_frame; [typeclasses eauto|done]|by intros ? x]. }
  unfold pbind at 1. specialize (H1 w). unfold same in H1.
  destruct (except _ _ w) as [[u|e] w1].
  2: { by apply sqlview_db in H1 as [H1 _]. }
  unfold pbind at 1. pose proof (quarantine_sqlview (t_codex_thread_id t) w1) as H2.
  destruct (quarantine_thread _ w1) as [[v|e] w2]; unfold same in H2; simpl in H1, H2;
    [|apply sqlview_db in H1 as [H1 _]; apply sqlview_db in H2 as [H2 _]; congruence].
  destruct (finalize_failed t (code_value STALE_ACTIVE_TURN) (Some ("sidecar held " ++ actual)) w2) as (w3 & -> & Hf);
    [simpl; auto|]. eapply turn_failed_from; [|exact Hf]. congruence.
Qed.

Lemma store_steer_spec p tid w : exists w',
  store_steer (p_chat_id p) tid (p_text p) w = (Ok tt, w') /\ steer_stored p w w'.
Proof.
  unfold store_steer.
  set (m := msg_append (p_chat_id p) Msg_USER (p_text p) (Some [("steered", JBool true)])).
  assert (exists w1, with_session (m ;; commit) w = (Ok tt, w1) /\ steer_stored p w w1) as (w1 & E1 & Hs).
  { unfold with_session. set (w0 := set_hooks [] (set_tx (w_db w) w)).
    assert (exists x w1, m w0 = (Ok x, w1) /\ exists id chats, w_tx w1 =
      set_messages (db_messages (w_db w) ++ [steered_message id p])%list (set_chats chats (w_db w)))
      as (x & w1 & Em & Htx) by (unfold m, msg_append; do 2 eexists; split; [reflexivity|]; eexists _, _; reflexivity).
    unfold pbind at 1. rewrite Em. pose proof (commit_ok w1) as Hok. pose proof (commit_sqlview w1) as Hv.
    destruct (commit w1) as [r w2]. simpl in Hok, Hv. subst r. eexists. split; [reflexivity|].
    unfold steer_stored. injection Hv as Hdb _ _ _ _. simpl. rewrite Hdb. exact Htx. }
  erewrite pbind_ok by exact E1.
  assert (exists w2, bump_steer_count tid w1 = (Ok tt, w2)) as [w2 E2].
  { unfold bump_steer_count, redis_quiet, redis_default, except, pbind.
    match goal with |- context [redis_op ?f w1] => destruct (redis_op_cases f w1) as [[a Ea]|Ea];
      destruct (redis_op f w1) as [r w2]; simpl in Ea; subst r; [|by eexists] end.
    match goal with |- context [redis_op ?f w2] => destruct (redis_op_cases f w2) as [[[] Ea]|Ea];
      destruct (redis_op f w2) as [r w3]; simpl in Ea; subst r; by eexists end. }
  exists w2. split; [exact E2|]. pose proof (bump_sqlview tid w1) as H. rewrite E2 in H.
  apply sqlview_db in H as [H _]. destruct Hs as (id & chats & Hs). exists id, chats. simpl in H. congruence.
Qed.

Lemma started_id_spec t w : exists r, started_id t w = (r, w) /\
  match r with Ok id => t_codex_turn_id t = Some id | Raise _ => True end.
Proof. unfold started_id. destruct (t_codex_turn_id t); by eexists. Qed.

Lemma try_steer_spec p t w :
  let '(r, w') := try_steer_active_turn p t w in
  match r with
  | Ok None => sqlview w' = sqlview w
  | Ok (Some ev) =>
      ev = PbDone (p_chat_id p) "" None true /\ steer_stored p w w' \/ ev = stale_event /\ turn_failed t w w'
  | Raise _ => w_db w' = w_db w
  end.
Proof.
  unfold try_steer_active_turn, pbind at 1. destruct (started_id_spec t w) as ([id|e] & -> & _); [|done].
  unfold pbind at 1, attempt.
  pose proof (send_steer_frame (same sqlview) ltac:(done) (p_chat_id p) (is_admin_turn t)
    (t_codex_thread_id t) id (p_text p) (note_steer_sqlview _ _) w) as H1. unfold same in H1.
  destruct (send_steer_by_ids _ _ _ _ _ w) as [r w1]. simpl in H1.
  pose proof (sqlview_db _ _ H1) as [Hdb Hn].
  assert (Hctl : forall e, let '(r, w') := (if control_rpc_error e then pret None else praise e : prog world exn (option pb_kind)) w1 in
    match r with Ok None => sqlview w' = sqlview w | Ok (Some _) => False | Raise _ => w_db w' = w_db w end)
    by (intros e; by destruct (control_rpc_error e)).
  destruct r as [[|]|e].
  - destruct (store_steer_spec p (t_id t) w1) as (w2 & E2 & (i & chats & Hs)). erewrite pbind_ok by exact E2.
    left. split; [done|]. exists i, chats. by rewrite Hs, Hdb.
  - exact H1.
  - destruct e as [| | | | | | | | | | |x actual| | | |]; try (specialize (Hctl e)); try exact (Hctl _);
      try (match goal with |- context [control_rpc_error ?e] =>
        specialize (Hctl e); destruct (control_rpc_error e); done end).
    unfold pbind. pose proof (handle_stale_spec (p_chat_id p) t actual w1) as Hs.
    destruct (handle_stale_turn _ _ _ w1) as [[u|e] w2]; [|congruence].
    right. split; [done|]. by eapply turn_failed_from.
Qed.

Definition dbview (w : world) := (w_db w, w_now w).

Lemma turn_failed_db t w w1 w' : dbview w1 = dbview w -> turn_failed t w1 w' -> turn_failed t w w'.
Proof. intros [= H1 H2] (code & d & Hin & Hdb). exists code, d. split; [done|]. by rewrite Hdb, H1, H2. Qed.

Lemma sqlview_dbview w w' : sqlview w' = sqlview w -> dbview w' = dbview w.
Proof. unfold dbview. by intros [= -> _ _ _ ->]. Qed.

Lemma try_interrupt_spec chat_id t w :
  let '(r, w') := try_interrupt_active_turn chat_id t w in
  match r with
  | Ok (_, None) => dbview w' = dbview w
  | Ok (_, Some ev) => ev = stale_event /\ turn_failed t w w'
  | Raise _ => w_db w' = w_db w
  end.
Proof.
  unfold try_interrupt_active_turn, pbind at 1. destruct (started_id_spec t w) as ([id|e] & -> & _); [|done].
  unfold pbind at 1, attempt.
  pose proof (interrupt_frame (same sqlview) ltac:(done) (is_admin_turn t) (t_codex_thread_id t) id w) as H1.
  unfold same in H1. destruct (send_interrupt_turn_id _ _ _ w) as [r w1]. simpl in H1.
  pose proof (sqlview_db _ _ H1) as [Hdb _]. pose proof (sqlview_dbview _ _ H1) as Hv.
  destruct r as [b|e]; [exact Hv|].
  destruct e as [| | | | | | | | | | |x actual| | | |];
    try (match goal with |- context [control_rpc_error ?e] => destruct (control_rpc_error e); [exact Hv|exact Hdb] end).
  unfold pbind. pose proof (handle_stale_spec chat_id t actual w1) as Hs.
  destruct (handle_stale_turn _ _ _ w1) as [[u|e] w2]; [|congruence].
  split; [done|]. by eapply turn_failed_from.
Qed.

Lemma reconcile_if_stale_spec t w :
  exists b w', reconcile_if_stale t w = (Ok b, w') /\ if b : bool then turn_failed t w w' else w' = w.
Proof.
  unfold reconcile_if_stale, pbind at 1, now, gets.
  destruct (Z.ltb _ STALE_THRESHOLD); [by do 2 eexists|].
  assert (exists w', with_session (finalize_orphan t ;; commit) w = (Ok tt, w') /\ turn_failed t w w')
    as (w' & E1 & Hf); [|erewrite pbind_ok by exact E1; by do 2 eexists].
  unfold with_session, pbind.
  destruct (finalize_orphan_tx t (set_hooks [] (set_tx (w_db w) w))) as (Hr & Htx & _ & _ & Hn).
  destruct (finalize_orphan t _) as [r w1]. simpl in Hr, Htx, Hn. subst r.
  pose proof (commit_ok w1) as Hc. pose proof (commit_sqlview w1) as Hv.
  destruct (commit w1) as [r w2]. simpl in Hc, Hv. subst r. injection Hv as Hdb _ _ _ _.
  eexists. split; [reflexivity|]. exists "orphan_heartbeat", (Some ORPHAN_DETAIL).
  split; [simpl; auto|]. simpl. by rewrite Hdb.
Qed.

(** The turn that survives is the chat's active row; otherwise there is none, or it has just
    been finalised. *)
Lemma surviving_turn_spec chat_id w :
  let active := List.find (active_in_chat chat_id) (db_turns (w_db w)) in
  exists o w', surviving_turn chat_id w = (Ok o, w') /\
    match o with
    | Some t => active = Some t /\ dbview w' = dbview w
    | None => active = None /\ dbview w' = dbview w \/ exists t, active = Some t /\ turn_failed t w w'
    end.
Proof.
  intros active. unfold surviving_turn.
  assert (exists w1, with_session (get_active_for_chat chat_id) w = (Ok active, w1) /\ dbview w1 = dbview w)
    as (w1 & E1 & H1) by (by eexists).
  erewrite pbind_ok by exact E1. destruct active as [t|]; [|do 2 eexists; split; [reflexivity|by left]].
  destruct (reconcile_if_stale_spec t w1) as ([|] & w2 & E2 & H2); erewrite pbind_ok by exact E2.
  { do 2 eexists. split; [reflexivity|]. right. exists t. split; [done|]. by eapply turn_failed_db. }
  subst w2. destruct (t_codex_turn_id t); [|do 2 eexists; split; [reflexivity|done]].
  destruct (redis_default_ok false (redis_exists (lease_key (t_id t))) w1) as [held E3].
  pose proof (exists_sqlview (t_id t) w1) as H3. unfold exists_ in *.
  destruct (redis_default false _ w1) as [r w3] eqn:E4. simpl in E3, H3. subst r.
  unfold same in H3. apply sqlview_dbview in H3. erewrite pbind_ok by exact E4.
  destruct held; [do 2 eexists; split; [reflexivity|]; split; [done|congruence]|].
  destruct (finalize_failed t "lease_expired" (Some "worker lease missing — runner dead") w3) as (w4 & E5 & Hf);
    [simpl; auto|]. erewrite pbind_ok by exact E5.
  destruct (release_active_ok (t_chat_id t) (t_id t) w4) as [b Eb].
  pose proof (release_active_sqlview (t_chat_id t) (t_id t) w4) as H5.
  destruct (release_active _ _ w4) as [r w5] eqn:E6. simpl in Eb. subst r. erewrite pbind_ok by exact E6.
  do 2 eexists. split; [reflexivity|]. right. exists t. split; [done|].
  destruct Hf as (code & d & Hin & Hdb). exists code, d. split; [done|].
  unfold same in H5. apply sqlview_db in H5 as [H5 _]. simpl in H5. rewrite H5, Hdb.
  assert (dbview w3 = dbview w) as [= -> ->] by congruence. done.
Qed.

(** The lease check cannot tell a missing lease from a Redis it cannot reach: one lost
    command fails a turn whose worker and heartbeat are fine. *)
Lemma unreachable_redis_fails_turn chat_id t w fs :
  List.find (active_in_chat chat_id) (db_turns (w_db w)) = Some t -> t_codex_turn_id t <> None ->
  w_now w - t_heartbeat_at t < STALE_THRESHOLD -> w_faults w = LostRequest :: fs ->
  exists w', surviving_turn chat_id w = (Ok None, w') /\ turn_failed t w w'.
Proof.
  intros Hf Hc Hn Hl. destruct (surviving_turn_spec chat_id w) as (o & w' & E0 & Ho). rewrite Hf in Ho.
  destruct o as [t'|]; [exfalso|exists w'; split; [exact E0|]; by destruct Ho as [[[=] _]|(x & [= <-] & Hx)]].
  revert E0. unfold surviving_turn.
  assert (exists w1, with_session (get_active_for_chat chat_id) w = (Ok (Some t), w1) /\
    w_faults w1 = LostRequest :: fs /\ w_now w1 = w_now w) as (w1 & E1 & Hl1 & Hn1)
    by (eexists; split; [unfold with_session, get_active_for_chat, sql, gets; simpl; by rewrite Hf|done]).
  erewrite pbind_ok by exact E1. unfold reconcile_if_stale, pbind at 1 2, now, gets. rewrite Hn1.
  rewrite (proj2 (Z.ltb_lt _ _) Hn). cbn [pret fst snd]. destruct (t_codex_turn_id t); [|done].
  assert (exists_ (t_id t) w1 = (Ok false, set_faults fs w1)) as E2
    by (unfold exists_, redis_default, except, redis_op; by rewrite Hl1).
  erewrite pbind_ok by exact E2.
  unfold pbind at 1. destruct (finalize_failed t "lease_expired" (Some "worker lease missing — runner dead")
    (set_faults fs w1)) as (w3 & -> & _); [simpl; auto|].
  unfold pbind. destruct (release_active _ _ w3) as [[b|e] w4]; by intros [=].
Qed.

Lemma failed_frees chat_id t w w' :
  turns_wf (w_seq w) (db_turns (w_db w)) ->
  List.find (active_in_chat chat_id) (db_turns (w_db w)) = Some t -> turn_failed t w w' ->
  existsb (active_in_chat chat_id) (db_turns (w_db w')) = false.
Proof.
  intros Hwf Hf (code & d & _ & ->). apply find_some in Hf as [Hin Ha].
  apply not_true_is_false. intros (x & Hx & Hax)%existsb_exists. simpl in Hx.
  apply in_update_where in Hx as (r & Hr & ->). unfold active_in_chat in *.
  apply andb_true_iff in Ha as [Hc Hac]. apply andb_true_iff in Hax as [Hcx Hax].
  destruct (has_id (t_id t) r && active_row r) eqn:E0; [done|].
  assert (r = t) as -> by (eapply (wf_one _ _ Hwf); [done..|]; to_prop; congruence).
  unfold has_id in E0. by rewrite Z.eqb_refl, Hac in E0.
Qed.

(** What the handling of the active turn does, on every branch. *)
Definition active_outcome (p : PreparedRunTurn) (w : world) (r : result exn (option pb_kind)) (w' : world) : Prop :=
  let active := List.find (active_in_chat (p_chat_id p)) (db_turns (w_db w)) in
  match r with
  | Ok (Some (PbDone _ _ _ _)) => steer_stored p w w' /\ p_has_uploads p = false /\ active <> None
  | _ => w_db w' = w_db w \/ exists t, active = Some t /\ turn_failed t w w'
  end /\
  (r = Ok None ->
     existsb (active_in_chat (p_chat_id p)) (db_turns (w_db w')) = false \/
     exists t w1, active = Some t /\ (try_interrupt_active_turn (p_chat_id p) t w1).1 = Ok (true, None)).

Lemma handle_active_outcome p w :
  turns_wf (w_seq w) (db_turns (w_db w)) ->
  let '(r, w') := handle_active_turn p w in active_outcome p w r w'.
Proof.
  intros Hwf. unfold handle_active_turn.
  destruct (surviving_turn_spec (p_chat_id p) w) as (o & w1 & E1 & H1). erewrite pbind_ok by exact E1.
  unfold active_outcome. destruct o as [t|].
  - destruct H1 as [Ha Hv]. assert (Hdb : w_db w1 = w_db w) by (by injection Hv).
    destruct (bool_decide _); [by split; [left|]|]. destruct (p_has_uploads p) eqn:Hu; [by split; [left|]|].
    unfold pbind at 1. pose proof (try_steer_spec p t w1) as Hs.
    destruct (try_steer_active_turn p t w1) as [[[ev|]|e] w2]; simpl in Hs; [| |split; [left; congruence|done]].
    + destruct Hs as [[-> (i & chats & Hs)]|[-> Hf]].
      * split; [|done]. split; [|by rewrite Ha]. exists i, chats. by rewrite Hs, Hdb.
      * split; [|done]. right. exists t. split; [done|]. by eapply turn_failed_db.
    + assert (Hv2 : dbview w2 = dbview w) by (apply sqlview_dbview in Hs; congruence).
      unfold pbind. pose proof (try_interrupt_spec (p_chat_id p) t w2) as Hi.
      destruct (try_interrupt_active_turn (p_chat_id p) t w2) as [[[b ev]|e] w3] eqn:Ei; simpl in Hi;
        [|split; [left; injection Hv2; congruence|done]].
      destruct ev as [ev|]; cbn [fst snd].
      * destruct Hi as [-> Hf]. split; [|done]. right. exists t. split; [done|]. by eapply turn_failed_db.
      * assert (Hdb3 : w_db w3 = w_db w) by (injection Hi; injection Hv2; congruence).
        destruct b; (split; [by left|]); [|done]. intros _. right. exists t, w2. by rewrite Ei.
  - unfold pret. destruct H1 as [[Ha Hv]|(t & Ha & Hf)].
    + assert (Hdb : w_db w1 = w_db w) by (by injection Hv). split; [by left|]. intros _. left. rewrite Hdb.
      apply not_true_is_false. intros (x & Hx & Hax)%existsb_exists. by rewrite (find_none _ _ Ha x Hx) in Hax.
    + split; [right; by exists t|]. intros _. left. by eapply failed_frees.
Qed.

(* ------------------------------------------------------------------ *)
(** * The quota *)

(** The counter at [k] keeps its value, and a reachable Redis stays so. *)
Definition spares (k : string) (w w' : world) : Prop :=
  counter w' k = counter w k /\ (w_faults w = [] -> w_faults w' = []).

#[export] Instance spares_preorder k : PreOrder (spares k).
Proof. split; [by intros w|]. intros a b c [H1 H2] [H3 H4]. split; [congruence|auto]. Qed.

(** What the counter depends on. *)
Definition quotaview (k : string) (w : world) := (w_redis w !! k, w_now w, w_faults w).

Lemma quotaview_spares k w w' : quotaview k w' = quotaview k w -> spares k w w'.
Proof. unfold spares, counter, live. by intros [= -> -> ->]. Qed.

Lemma redis_op_spares {A} k (f : world -> A * world) :
  (forall w, quotaview k (f w).2 = quotaview k w) -> respects (spares k) (redis_op f).
Proof.
  intros Hf w. unfold redis_op.
  assert (Hs : forall fs, counter (f (set_faults fs w)).2 k = counter w k).
  { intros fs. pose proof (Hf (set_faults fs w)) as H. unfold quotaview in H. injection H as H1 H2 _.
    unfold counter, live. by rewrite H1, H2. }
  unfold spares. destruct (w_faults w) as [|[] fs] eqn:Ef.
  - destruct (quotaview_spares k w (f w).2 (Hf w)) as [H1 H2]. rewrite Ef in H2. by destruct (f w).
  - specialize (Hs fs). split; [by destruct (f _)|done].
  - by split.
  - by split; [apply Hs|].
Qed.

(** The other keys of the server are not rate-limit counters. *)
Lemma lock_key_other u c : active_key_of u <> active_key c.
Proof. by unfold active_key_of, ACTIVE_PREFIX, active_key. Qed.
Lemma lease_key_other u t : active_key_of u <> lease_key t.
Proof. by unfold active_key_of, ACTIVE_PREFIX, lease_key, LEASE_KEY_PREFIX. Qed.
Lemma steer_key_other u c : active_key_of u <> steer_key c.
Proof. by unfold active_key_of, ACTIVE_PREFIX, steer_key. Qed.
Lemma steer_count_key_other u t : active_key_of u <> steer_count_key t.
Proof. by unfold active_key_of, ACTIVE_PREFIX, steer_count_key. Qed.
Lemma quarantine_key_other u t : active_key_of u <> quarantine_key t.
Proof. by unfold active_key_of, ACTIVE_PREFIX, quarantine_key, QUARANTINE_KEY_PREFIX. Qed.


Ltac other_key :=
  intros ?; unfold set_ex, set_ifeq, set_nx_ex, delex_ifeq, expire_ifeq, redis_get, redis_exists, redis_del, redis_expire,
    redis_incrby, World.publish; repeat case_goal; unfold quotaview, put_key, del_key; simpl;
  rewrite ?lookup_insert_ne, ?lookup_delete_ne by
    (apply not_eq_sym; first [apply lock_key_other|apply lease_key_other|apply steer_key_other
     |apply steer_count_key_other|apply quarantine_key_other]); done.

Section Quota.
Context (u : user).
Notation spares := (spares (active_key_of u)).

Lemma redis_default_spares {A} (d : A) m : respects spares m -> respects spares (redis_default d m).
Proof. intros H. apply respects_except; [typeclasses eauto|done|]. intros []; by intros w. Qed.

Lemma note_steer_spares c t : respects spares (note_steer c t).
Proof. apply redis_default_spares, redis_op_spares. other_key. Qed.
Lemma bump_spares t : respects spares (bump_steer_count t).
Proof.
  apply redis_default_spares, respects_bind; [typeclasses eauto|apply redis_op_spares; other_key|].
  intros _. apply redis_op_spares. other_key.
Qed.
Lemma quarantine_spares t : respects spares (quarantine_thread t).
Proof.
  unfold quarantine_thread. destruct t as [t|]; [|by intros w]. destruct (nonempty t); [|by intros w].
  apply redis_default_spares, redis_op_spares. other_key.
Qed.
Lemma exists_spares t : respects spares (exists_ t).
Proof. apply redis_default_spares, redis_op_spares. other_key. Qed.
Lemma release_active_spares c t : respects spares (release_active c t).
Proof. apply redis_default_spares, redis_op_spares. other_key. Qed.
Lemma xread_spares k cursor : respects spares (redis_op (xread k cursor TAIL_COUNT)).
Proof. by apply redis_op_spares. Qed.

(** SQL does not touch Redis. *)
Lemma sql_spares {A} (f : database -> A) : respects spares (sql f).
Proof. by intros w. Qed.
Lemma sql_write_spares f : respects spares (sql_write f).
Proof. by intros w. Qed.
Lemma nextval_spares : respects spares nextval.
Proof. by intros w. Qed.
Lemma now_spares : respects spares now.
Proof. by intros w. Qed.
Lemma hook_spares h : respects spares (publish_after_commit h).
Proof. by intros w. Qed.
Lemma rollback_spares : respects spares rollback.
Proof. by intros w. Qed.
Lemma fire_spares h : respects spares (fire h).
Proof.
  unfold fire, publish_activity. apply respects_except; [typeclasses eauto| |intros []; by intros w].
  apply redis_op_spares. other_key.
Qed.
Lemma commit_spares : respects spares commit.
Proof.
  unfold commit. apply respects_bind; [typeclasses eauto|by intros w|]. intros hooks.
  apply respects_bind; [typeclasses eauto|by intros w|]. intros _.
  apply respects_for_each; [typeclasses eauto|]. apply fire_spares.
Qed.
Lemma session_spares {A} (m : prog world exn A) : respects spares m -> respects spares (with_session m).
Proof. intros H w. specialize (H (set_hooks [] (set_tx (w_db w) w))). unfold with_session. by destruct (m _). Qed.
Lemma attempt_spares {A} (m : prog world exn A) : respects spares m -> respects spares (attempt m).
Proof. intros H w. specialize (H w). unfold attempt. by destruct (m w). Qed.
Lemma interrupt_spares a th tu : respects spares (send_interrupt_turn_id a th tu).
Proof. apply interrupt_frame; [typeclasses eauto|done]. Qed.
Lemma steer_spares c a th tu text : respects spares (send_steer_by_ids c a th tu text).
Proof. apply send_steer_frame; [typeclasses eauto|done|apply note_steer_spares]. Qed.
End Quota.

#[export] Hint Resolve note_steer_spares bump_spares quarantine_spares exists_spares release_active_spares
  xread_spares sql_spares sql_write_spares nextval_spares now_spares hook_spares rollback_spares commit_spares
  session_spares attempt_spares interrupt_spares steer_spares : frame.

Section QuotaRun.
Context (u : user).
Notation spares := (spares (active_key_of u)).

Lemma update_turns_spares p f : respects spares (update_turns p f).
Proof. unfold update_turns. solve_frame. Qed.
#[local] Hint Resolve update_turns_spares : frame.

Lemma finalize_spares id st c d : respects spares (finalize_once id st c d).
Proof. unfold finalize_once. solve_frame. Qed.
#[local] Hint Resolve finalize_spares : frame.

Lemma append_spares c r t m : respects spares (msg_append c r t m).
Proof. unfold msg_append, touch_last_msg_at. solve_frame. Qed.
#[local] Hint Resolve append_spares : frame.

Lemma handle_stale_spares c t a : respects spares (handle_stale_turn c t a).
Proof. unfold handle_stale_turn. solve_frame; apply session_spares; solve_frame. Qed.
#[local] Hint Resolve handle_stale_spares : frame.

Lemma started_spares t : respects spares (started_id t).
Proof. unfold started_id. solve_frame. Qed.
#[local] Hint Resolve started_spares : frame.

Lemma store_steer_spares c t text : respects spares (store_steer c t text).
Proof. unfold store_steer. solve_frame. Qed.
#[local] Hint Resolve store_steer_spares : frame.

Lemma orphan_spares t : respects spares (finalize_orphan t).
Proof. unfold finalize_orphan. solve_frame. Qed.
#[local] Hint Resolve orphan_spares : frame.

Lemma surviving_spares c : respects spares (surviving_turn c).
Proof.
  unfold surviving_turn, get_active_for_chat, reconcile_if_stale.
  solve_frame; apply session_spares; solve_frame.
Qed.
#[local] Hint Resolve surviving_spares : frame.

Lemma handle_active_spares p : respects spares (handle_active_turn p).
Proof. unfold handle_active_turn, try_steer_active_turn, try_interrupt_active_turn. solve_frame. Qed.

Lemma create_starting_spares p : respects spares (try_create_starting p).
Proof. unfold try_create_starting, create_starting, insert_turn. solve_frame. Qed.
#[local] Hint Resolve create_starting_spares : frame.

Lemma create_spares p : respects spares (create_web_turn p).
Proof. unfold create_web_turn, emit_event. apply session_spares. solve_frame. Qed.

Lemma terminal_spares id : respects spares (terminal_for_turn_id id).
Proof. unfold terminal_for_turn_id, get_by_id, terminal_from_status. solve_frame. Qed.

Lemma get_by_id_spares id : respects spares (with_session (get_by_id id)).
Proof. apply session_spares. unfold get_by_id. auto with frame. Qed.

Lemma resolve_web_chat_spares request id : respects spares (resolve_web_chat request id).
Proof.
  unfold resolve_web_chat, load_chat_owned, chat_get, get_or_create_for_web, create_web_chat, insert_chat.
  apply session_spares. solve_frame.
Qed.
#[local] Hint Resolve resolve_web_chat_spares : frame.

(** A reservation counts one turn, a refusal none. *)
Lemma settings_load_spares : respects spares (with_session settings_load).
Proof. apply session_spares. unfold settings_load. solve_frame. Qed.

Lemma settings_spares : respects spares settings_get.
Proof.
  pose proof settings_load_spares. unfold settings_get, settings_remember, now.
  solve_frame; try exact settings_load_spares; by intros w.
Qed.

Lemma reserve_counts w :
  user_kind u <> KIND_ADMIN -> w_faults w = [] ->
  counter (reserve_turn u w).2 (active_key_of u) =
    counter w (active_key_of u) + match (reserve_turn u w).1 with Ok _ => 1 | Raise _ => 0 end /\
  w_faults (reserve_turn u w).2 = [].
Proof.
  intros Hk Hf. destruct (settings_spares w) as [Hc Hf1]. specialize (Hf1 Hf).
  destruct (settings_get w) as [[s|e] w1] eqn:Es; cbn [fst snd] in *.
  - destruct (reserve_decides u s w w1 Hk Es Hf1) as (_ & Hcnt & Hf2). rewrite Hcnt, <- Hc.
    split; [|exact Hf2]. destruct (reserve_turn u w).1; lia.
  - unfold reserve_turn. rewrite bool_decide_eq_false_2 by done. unfold pbind at 1 4 7. rewrite Es. cbn [fst snd].
    split; [lia|done].
Qed.
End QuotaRun.
(** Streams whose world, the client's moves included, follows [R]. *)
Definition gmoves (R : world -> world -> Prop) {A} (m : rpc_stream A) : Prop :=
  forall rw, gwp (client_step R) (m rw) (fun _ _ rw' => R rw.1 rw'.1).

Section Moves.
Context (R : world -> world -> Prop) `{!PreOrder R}.

Lemma gmoves_bind {A B} (m : rpc_stream A) (k : A -> rpc_stream B) :
  gmoves R m -> (forall a, gmoves R (k a)) -> gmoves R (gbind m k).
Proof.
  intros Hm Hk rw. apply gwp_bind. eapply gwp_mono; [|apply Hm]. cbn beta. intros ys [a|e] rw1 H; [|exact H].
  eapply gwp_mono; [|apply Hk]. cbn beta. intros _ _ rw2 H2. by etransitivity.
Qed.
Lemma gmoves_ret {A} (a : A) : gmoves R (gret a).
Proof. intros rw. by apply gwp_ret. Qed.
Lemma gmoves_server {A} (m : prog world exn A) : respects R m -> gmoves R (glift (on_server m)).
Proof. intros H [w l]. apply lift_server. intros r w' E0. specialize (H w). by rewrite E0 in H. Qed.
Lemma gmoves_modify (f : rpc_world -> rpc_world) : (forall rw, R rw.1 (f rw).1) -> gmoves R (glift (modify f)).
Proof. intros H rw. apply gwp_lift, H. Qed.
Lemma gmoves_show ev : gmoves R (show ev).
Proof. intros rw. apply gwp_yield. by intros rw' [_ H]. Qed.
End Moves.

Section QuotaTurn.
Context (u : user).
Notation k := (active_key_of u).
Context (resolve_uploads : list Z -> Z -> Z -> prog world exn ResolvedUploads).
Context (broker : queued_job -> world -> bool * result exn unit).
Context (meanwhile : suspension -> world -> world).
Context (env : list ((world -> world) * (world -> world))).
Context (Hup : forall ids user_id chat_id, respects (spares k) (resolve_uploads ids user_id chat_id)).
Context (Hmeanwhile : forall s, moves (spares k) (meanwhile s)).
Context (Henv : env_moves (spares k) env).

Lemma prepare_spares request text : respects (spares k) (prepare_run_turn resolve_uploads request text u).
Proof.
  unfold prepare_run_turn. apply respects_bind; [typeclasses eauto|apply resolve_web_chat_spares|]. intros c.
  apply respects_bind; [typeclasses eauto|apply Hup|by intros ? w].
Qed.

Lemma enqueue_spares t p : respects (spares k) (enqueue_turn broker t p).
Proof.
  unfold enqueue_turn. apply respects_bind; [typeclasses eauto|apply attempt_spares|].
  - intros w. unfold kiq. by destruct (broker _ w) as [[] r].
  - intros [a|e]; [by intros w|]. destruct (enqueue_error e); [|by intros w].
    apply respects_bind; [typeclasses eauto|apply session_spares|by intros ? w].
    apply respects_bind; [typeclasses eauto|apply finalize_spares|intros _; apply commit_spares].
Qed.

Lemma follow_spares id after_id : gmoves (spares k) (follow env id after_id).
Proof.
  intros rw. apply follow_spec; [typeclasses eauto|exact Henv|apply xread_spares|apply get_by_id_spares|].
  by intros ys r rw' [_ H].
Qed.

Lemma suspend_spares s : gmoves (spares k) (glift (suspend meanwhile s)).
Proof. apply gmoves_modify. intros rw. apply Hmeanwhile. Qed.

Lemma run_reserved_spares request text :
  gmoves (spares k) (run_reserved resolve_uploads broker meanwhile u request text env).
Proof.
  pose proof prepare_spares. pose proof enqueue_spares. pose proof follow_spares. pose proof suspend_spares.
  pose proof handle_active_spares. pose proof create_spares. pose proof terminal_spares.
  unfold run_reserved, show_opt.
  repeat first
    [ progress intros
    | apply gmoves_ret; typeclasses eauto
    | apply gmoves_show
    | solve [eauto]
    | apply gmoves_server; solve [eauto]
    | apply gmoves_modify; done
    | apply gmoves_bind; [typeclasses eauto| |]
    | case_goal ].
Qed.

Lemma run_turn_counts request w :
  user_kind u <> KIND_ADMIN -> w_faults w = [] -> 0 <= counter w k ->
  gwp (client_step (spares k)) (run_turn resolve_uploads broker meanwhile u request env (w, no_rpc_locals))
    (fun _ _ rw' => counter rw'.1 k = counter w k + if l_worker_owns rw'.2 then 1 else 0).
Proof.
  intros Hk Hf Hc. unfold run_turn.
  assert (Hshow : forall ev w1, counter w1 k = counter w k ->
    gwp (client_step (spares k)) ((show ev ;* gret Finished) (w1, no_rpc_locals))
      (fun _ _ rw' => counter rw'.1 k = counter w k + if l_worker_owns rw'.2 then 1 else 0)).
  { intros ev w1 H1. apply gwp_bind, gwp_yield. intros rw2 [Hl [H2 _]]. apply gwp_ret. rewrite Hl. simpl in *. lia. }
  destruct (negb _ && negb _); [by apply Hshow|].
  apply gwp_bind, lift_server. intros r1 w1 E1.
  destruct (reserve_counts u w Hk Hf) as [Hcnt Hf1]. unfold reserve, except, pbind in E1.
  destruct (reserve_turn u w) as [[v|e] w2]; cbn [fst snd] in *.
  2: { destruct (is_rate_limited e); injection E1 as <- <-; [apply Hshow; lia|]. simpl. lia. }
  injection E1 as <- <-. apply gwp_finally, gwp_bind, gwp_lift. cbn [suspend modify fst snd].
  eapply gwp_mono; [|apply run_reserved_spares].
  intros ys r rw [H3 Hf3]. cbn [fst] in *. destruct (Hmeanwhile AfterReserve w2) as [H4 Hf4].
  specialize (Hf3 (Hf4 Hf1)). unfold release_unowned, pbind, rpc_local, gets. cbn [fst snd].
  destruct (l_worker_owns rw.2) eqn:Eo; cbn [pret snd]; [rewrite Eo; lia|].
  unfold on_server. destruct (release_counter u rw.1 Hk Hf3) as [_ Hrel].
  destruct (release_turn u rw.1) as [rr w5]. cbn [fst snd] in *. rewrite Hrel, Eo. lia.
Qed.
End QuotaTurn.

(* ------------------------------------------------------------------ *)
(** * Properties *)

(** C10: RunTurn never strands a turn: whatever the sidecar, the broker, the other processes
    and the client do, a turn it created is queued for a worker or no longer active. The
    client sees a single refusal while the quota is still the handler's, and the turn's
    identifier before anything else once the worker owns it. *)
Theorem run_turn_never_strands
    (resolve_uploads : list Z -> Z -> Z -> prog world exn ResolvedUploads)
    (broker : queued_job -> world -> bool * result exn unit) (meanwhile : suspension -> world -> world)
    (env : list ((world -> world) * (world -> world))) (u : user) (request : RunTurnRequest) (w : world) ys r rw' :
  (forall q w, match broker q w with
               | (taken, Ok _) => taken = true
               | (_, Raise e) => enqueue_error e = true
               end) ->
  env_moves keeps_accounts env -> moves keeps_accounts (meanwhile AfterTail) ->
  trace (client_step keeps_accounts) (run_turn resolve_uploads broker meanwhile u request env (w, no_rpc_locals)) ys r rw' ->
  (forall t, l_turn rw'.2 = Some t ->
     Exists (fun q => q_turn_id q = t_id t) (w_jobs rw'.1) \/ settled (t_id t) rw'.1) /\
  if l_worker_owns rw'.2
  then exists t rest, l_turn rw'.2 = Some t /\ ys = ("", PbTurnStarted (t_id t)) :: rest
  else match r with
       | Ok _ => exists ev, ys = [("", ev)] /\ pb_terminal ev = true
       | Raise _ => ys = [] \/ exists ev, ys = [("", ev)] /\ pb_terminal ev = true
       end.
Proof.
  intros Hb He Hm Ht. by eapply (gwp_trace (client_step keeps_accounts) _ run_ok) in Ht; [|apply run_turn_ok].
Qed.



(* ------------------------------------------------------------------ *)
(** * Witnesses *)

(** A user with a web chat, and Redis up. *)
Definition demo_chat : chat := mk_chat 7 3 WEB None None None None 0.
Definition chat_world (turns : list turn) : world :=
  set_seq 10 (set_db (set_turns turns (set_chats [demo_chat] empty_db)) empty_world).
Definition web_user : user := mk_user 3 None (Some "a@b.c") None None None Role_USER.
Definition demo_request : RunTurnRequest := mk_run_turn "hello" [] (Some 7) "".
Definition no_uploads : list Z -> Z -> Z -> prog world exn ResolvedUploads :=
  fun _ _ _ => pret (mk_uploads [] [] [] [] []).
Definition taking_broker : queued_job -> world -> bool * result exn unit := fun _ _ => (true, Ok tt).
Definition failing_broker : queued_job -> world -> bool * result exn unit := fun _ _ => (false, Raise (TaskiqError "down")).
Definition alone : suspension -> world -> world := fun _ w => w.

(** The handler without other processes, and a client that reads everything. *)
Definition solo_run (u : user) (request : RunTurnRequest) (w : world)
    (broker : queued_job -> world -> bool * result exn unit) :
    list (string * pb_kind) * result exn run_end * rpc_world :=
  run_gen (run_turn no_uploads broker alone u request [] (w, no_rpc_locals)) [].

Lemma solo_trace R `{!PreOrder R} u request w broker :
  let '(ys, r, rw') := solo_run u request w broker in
  trace (client_step R) (run_turn no_uploads broker alone u request [] (w, no_rpc_locals)) ys r rw'.
Proof. apply run_gen_trace; [done|constructor]. Qed.

Notation quota_run := (solo_run web_user demo_request (chat_world [])).

(** The broker is down: the turn is created, finalised, and refused. *)
Lemma run_turn_never_strands_witness :
  exists t, l_turn (quota_run failing_broker).2.2 = Some t /\ settled (t_id t) (quota_run failing_broker).2.1 /\
    exists ev, (quota_run failing_broker).1.1 = [("", ev)] /\ pb_terminal ev = true.
Proof.
  assert (forall u request w broker, (forall q w, match broker q w with
      | (taken, Ok _) => taken = true | (_, Raise e) => enqueue_error e = true end) ->
    let run := solo_run u request w broker in
    forall t, l_turn run.2.2 = Some t -> l_worker_owns run.2.2 = false ->
    run.1.2 = Ok Finished -> w_jobs run.2.1 = [] ->
    settled (t_id t) run.2.1 /\ exists ev, run.1.1 = [("", ev)] /\ pb_terminal ev = true) as H.
  { intros u request w broker Hb run t Ht Ho Hr Hj.
    pose proof (solo_trace keeps_accounts u request w broker) as H. fold run in H.
    destruct run as [[ys r] rw']. cbn [fst snd] in *. subst r.
    apply run_turn_never_strands in H as [H1 H2]; [|exact Hb|by constructor|by intros x tid].
    rewrite Ho in H2. split; [|exact H2].
    destruct (H1 t Ht) as [Hq|Hs]; [|exact Hs]. rewrite Hj in Hq. by apply Exists_nil in Hq. }
  specialize (H web_user demo_request (chat_world []) failing_broker ltac:(done)).
  cbv zeta in H.
  assert (Ht : bool_decide (is_Some (l_turn (quota_run failing_broker).2.2)) = true) by (vm_compute; reflexivity).
  apply bool_decide_eq_true in Ht as [t Ht]. exists t. split; [exact Ht|].
  assert (H1 : l_worker_owns (quota_run failing_broker).2.2 = false) by (vm_compute; reflexivity).
  assert (H2 : (quota_run failing_broker).1.2 = Ok Finished) by (vm_compute; reflexivity).
  assert (H3 : w_jobs (quota_run failing_broker).2.1 = []) by (vm_compute; reflexivity).
  exact (H t Ht H1 H2 H3).
Defined.


(** A running turn whose sidecar accepts the steer. *)
Definition running_row : turn := mk_turn 5 7 3 4 None RUNNING (Some "th") (Some "ct") (Some "guest")
  "turn:5:events" None None None 0 None.
Definition steering_wire : wire := mk_wire (Ok tt) 0 [(0, Ok (JObj [])); (0, Ok (JObj []))] [] 1000.
Definition steer_world : world :=
  set_dials [(GUEST, Ok steering_wire)]
    (put_key (lease_key 5) (RStr "worker") (Some 30000) (chat_world [running_row])).
Definition demo_prepared : PreparedRunTurn :=
  mk_prepared 7 3 "more" (mk_uploads [] [] [] [] []) false false GUEST None.

