(* ===== verification/Markdown.v ===== *)
(** The Telegram renderer, [tg/markdown.py]: the rules that turn markdown-it tokens into
    the HTML subset Telegram accepts, the plain rendering for speech, and the splitting
    of a rendered answer into messages.

    markdown-it itself is a parameter: [md_events text] is the sequence of tokens on which
    [RendererHTML.render] calls the rules (inline tokens replaced by their children), and
    [md_parse text] the block tokens with their children. *)
From S2P Require Import Prelude PyStr Text.

Open Scope nat_scope.
Open Scope list_scope.

#[local] Notation length := List.length.

Module Markdown.

(** [_TG_MESSAGE_LIMIT]. *)
Definition TG_MESSAGE_LIMIT : nat := 4096.
Definition PRE_OPEN : ustr := U.lit "<pre>".
Definition PRE_CLOSE : ustr := U.lit "</pre>".
Definition ALLOWED_LINK_SCHEMES : list ustr :=
  [U.lit "http"; U.lit "https"; U.lit "tg"; U.lit "mailto"].

(** [html.escape(s)]: the ampersand is replaced first, so each character is replaced
    on its own. *)
Definition escape_char (quote : bool) (c : Z) : ustr :=
  if (c =? 38)%Z then U.lit "&amp;"
  else if (c =? 60)%Z then U.lit "&lt;"
  else if (c =? 62)%Z then U.lit "&gt;"
  else if quote && (c =? 34)%Z then [38; 113; 117; 111; 116; 59]%Z
  else if quote && (c =? 39)%Z then U.lit "&#x27;"
  else [c].
Definition html_escape (quote : bool) (s : ustr) : ustr := flat_map (escape_char quote) s.

(* ------------------------------------------------------------------ *)
(** * Tokens and the rendering environment *)

(** What the rules read of a markdown-it token; [start] and [href] are the attributes of
    these names. *)
Inductive Token :=
| mk_token (ty : string) (content info : ustr) (start : option Z) (href : option ustr)
    (children : list Token).

Definition tk_type (t : Token) : string := let 'mk_token x _ _ _ _ _ := t in x.
Definition tk_content (t : Token) : ustr := let 'mk_token _ x _ _ _ _ := t in x.
Definition tk_info (t : Token) : ustr := let 'mk_token _ _ x _ _ _ := t in x.
Definition tk_start (t : Token) : option Z := let 'mk_token _ _ _ x _ _ := t in x.
Definition tk_href (t : Token) : option ustr := let 'mk_token _ _ _ _ x _ := t in x.
Definition tk_children (t : Token) : list Token := let 'mk_token _ _ _ _ _ x := t in x.

Inductive list_kind := Ul | Ol.

(** The [env] dictionary: a missing key is [None]. The innermost list is the head of
    [list_stack] (the end of the Python list). *)
Record env := mk_env {
  list_stack : option (list (list_kind * Z));
  bq_depth : option Z;
  skip_link_close : option Z
}.
Definition empty_env : env := mk_env None None None.

Inductive render_error := KeyError | IndexError.

Definition rule : Type := env -> result render_error (ustr * env).

Definition const (s : ustr) : rule := fun e => Ok (s, e).

Definition NL : ustr := [10%Z].
Definition NL2 : ustr := [10; 10]%Z.

(* ------------------------------------------------------------------ *)
(** * The rules *)

Definition text (t : Token) : rule := const (html_escape true (tk_content t)).

Definition list_open (e : env) : bool :=
  match list_stack e with Some (_ :: _) => true | _ => false end.
Definition nonzero (o : option Z) : bool :=
  match o with Some n => negb (n =? 0)%Z | None => false end.

Definition paragraph_close : rule := fun e =>
  Ok (if list_open e || nonzero (bq_depth e) then NL else NL2, e).

Definition set_bq (n : Z) (e : env) : env := mk_env (list_stack e) (Some n) (skip_link_close e).
Definition set_stack (l : list (list_kind * Z)) (e : env) : env :=
  mk_env (Some l) (bq_depth e) (skip_link_close e).
Definition set_skip (n : Z) (e : env) : env := mk_env (list_stack e) (bq_depth e) (Some n).

Definition blockquote_open : rule := fun e =>
  Ok (U.lit "<blockquote>", set_bq (default 0 (bq_depth e) + 1)%Z e).

Definition blockquote_close : rule := fun e =>
  match bq_depth e with
  | None => Raise KeyError
  | Some n => Ok (U.lit "</blockquote>" ++ NL2, set_bq (n - 1)%Z e)
  end.

Definition push_list (k : list_kind) (num : Z) : rule := fun e =>
  Ok ([], set_stack ((k, num) :: default [] (list_stack e)) e).

Definition bullet_list_open : rule := push_list Ul 0%Z.

(** [int(attrGet("start") or 1)]: a list that starts at 0 is numbered from 1. *)
Definition ordered_list_open (t : Token) : rule :=
  push_list Ol (match tk_start t with Some 0%Z | None => 1%Z | Some n => n end).

(** [bullet_list_close] and [ordered_list_close]. *)
Definition list_close : rule := fun e =>
  match list_stack e with
  | None => Raise KeyError
  | Some [] => Raise IndexError
  | Some (_ :: l) => Ok (match l with [] => NL | _ => [] end, set_stack l e)
  end.

Fixpoint spaces (n : nat) : ustr := match n with O => [] | S n' => 32 :: 32 :: spaces n' end%Z.

Definition list_item_open : rule := fun e =>
  match list_stack e with
  | None => Raise KeyError
  | Some [] => Raise IndexError
  | Some ((Ol, num) :: l) =>
      Ok (spaces (length l) ++ U.lit (str_of_Z num) ++ U.lit ". ",
          set_stack ((Ol, num + 1)%Z :: l) e)
  | Some ((Ul, _) :: l) => Ok (spaces (length l) ++ [8226; 32]%Z, e)
  end.

(** [s.split(maxsplit=1)[0]] of a stripped string, [None] when it is empty. *)
Fixpoint word (s : ustr) : ustr :=
  match s with [] => [] | c :: s' => if U.is_space c then [] else c :: word s' end.
Definition first_word (s : ustr) : option ustr :=
  match U.strip s with [] => None | s' => Some (word s') end.

Definition PRE_CODE : ustr := U.lit "<pre><code>".
Definition CODE_PRE : ustr := U.lit "</code></pre>".
(** The opening of a [code] tag with a language, of a link, and the end of both. *)
Definition CODE_LANG : ustr := U.lit "<code class=" ++ [34%Z] ++ U.lit "language-".
Definition A_HREF : ustr := U.lit "<a href=" ++ [34%Z].
Definition QUOTE_GT : ustr := [34; 62]%Z.

Definition fence (t : Token) : rule := fun e =>
  let body := html_escape true (U.rstrip_nl (tk_content t)) in
  let code := match first_word (tk_info t) with
              | Some lang => CODE_LANG ++ html_escape true lang ++ QUOTE_GT
              | None => U.lit "<code>"
              end in
  Ok (PRE_OPEN ++ code ++ body ++ CODE_PRE ++ NL2, e).

Definition code_block (t : Token) : rule :=
  const (PRE_CODE ++ html_escape true (U.rstrip_nl (tk_content t)) ++ CODE_PRE ++ NL2).

Definition code_inline (t : Token) : rule :=
  const (U.lit "<code>" ++ html_escape true (tk_content t) ++ U.lit "</code>").

(** [urlparse(href).scheme.lower()]. The errors [urlparse] raises on bracketed hosts do
    not arise: markdown-it percent-encodes brackets in a link target. *)
Definition is_ascii_alpha (c : Z) : bool :=
  ((65 <=? c) && (c <=? 90) || (97 <=? c) && (c <=? 122))%Z.
Definition scheme_char (c : Z) : bool :=
  is_ascii_alpha c || ((48 <=? c) && (c <=? 57) || (c =? 43) || (c =? 45) || (c =? 46))%Z.
Definition lower_ascii (c : Z) : Z := if ((65 <=? c) && (c <=? 90))%Z then (c + 32)%Z else c.

Fixpoint lstrip_c0 (s : ustr) : ustr :=
  match s with [] => [] | c :: s' => if (c <=? 32)%Z then lstrip_c0 s' else s end.
Definition drop_unsafe (s : ustr) : ustr :=
  List.filter (fun c => negb ((c =? 9) || (c =? 10) || (c =? 13))%Z) s.

Definition url_scheme (href : ustr) : ustr :=
  let url := drop_unsafe (lstrip_c0 href) in
  match U.find [58%Z] url 0, url with
  | Some (S _ as i), c :: _ =>
      if is_ascii_alpha c && forallb scheme_char (take i url)
      then map lower_ascii (take i url) else []
  | _, _ => []
  end.

Definition allowed_href (href : ustr) : bool := bool_decide (url_scheme href ∈ ALLOWED_LINK_SCHEMES).

Definition link_open (t : Token) : rule := fun e =>
  let href := default [] (tk_href t) in
  if allowed_href href then Ok (A_HREF ++ html_escape true href ++ QUOTE_GT, e)
  else Ok ([], set_skip (default 0 (skip_link_close e) + 1)%Z e).

Definition link_close : rule := fun e =>
  if nonzero (skip_link_close e)
  then Ok ([], set_skip (default 0 (skip_link_close e) - 1)%Z e)
  else Ok (U.lit "</a>", e).

Definition image (t : Token) : rule := const (html_escape true (tk_content t)).

(** [self.rules]: the constant tags of [_STATIC_TAGS], then the methods; any other token
    goes to [renderToken] and renders as nothing. *)
Definition static_tag (ty : string) : option ustr :=
  if (ty =? "strong_open")%string then Some (U.lit "<b>")
  else if (ty =? "strong_close")%string then Some (U.lit "</b>")
  else if (ty =? "em_open")%string then Some (U.lit "<i>")
  else if (ty =? "em_close")%string then Some (U.lit "</i>")
  else if (ty =? "s_open")%string then Some (U.lit "<s>")
  else if (ty =? "s_close")%string then Some (U.lit "</s>")
  else if (ty =? "heading_open")%string then Some (U.lit "<b>")
  else if (ty =? "heading_close")%string then Some (U.lit "</b>" ++ NL2)
  else if (ty =? "softbreak")%string then Some NL
  else if (ty =? "hardbreak")%string then Some NL
  else if (ty =? "hr")%string then Some (repeat 9472%Z 12 ++ NL2)
  else None.

Definition render_rule (t : Token) : rule :=
  let ty := tk_type t in
  match static_tag ty with
  | Some s => const s
  | None =>
      if (ty =? "text")%string then text t
      else if (ty =? "paragraph_close")%string then paragraph_close
      else if (ty =? "blockquote_open")%string then blockquote_open
      else if (ty =? "blockquote_close")%string then blockquote_close
      else if (ty =? "bullet_list_open")%string then bullet_list_open
      else if (ty =? "bullet_list_close")%string then list_close
      else if (ty =? "ordered_list_open")%string then ordered_list_open t
      else if (ty =? "ordered_list_close")%string then list_close
      else if (ty =? "list_item_open")%string then list_item_open
      else if (ty =? "fence")%string then fence t
      else if (ty =? "code_block")%string then code_block t
      else if (ty =? "code_inline")%string then code_inline t
      else if (ty =? "link_open")%string then link_open t
      else if (ty =? "link_close")%string then link_close
      else if (ty =? "image")%string then image t
      else const []
  end.

(** [RendererHTML.render]: the concatenation of what the rules return, [env] threaded. *)
Fixpoint render (ts : list Token) (e : env) : result render_error (ustr * env) :=
  match ts with
  | [] => Ok ([], e)
  | t :: ts' =>
      match render_rule t e with
      | Raise x => Raise x
      | Ok (s, e1) => match render ts' e1 with
                      | Raise x => Raise x
                      | Ok (s', e2) => Ok (s ++ s', e2)
                      end
      end
  end.

(* ------------------------------------------------------------------ *)
(** * Splitting into messages *)

(** [_pre_ranges]; each round moves [pos] past a [</pre>], so the text's length is
    fuel enough. *)
Fixpoint pre_ranges_fuel (k : nat) (s : ustr) (pos : nat) : list (nat * nat) :=
  match k with
  | O => []
  | S k' => match U.find PRE_OPEN s pos with
            | None => []
            | Some start => match U.find PRE_CLOSE s start with
                            | None => [(start, length s)]
                            | Some e => let e' := e + length PRE_CLOSE in
                                        (start, e') :: pre_ranges_fuel k' s e'
                            end
            end
  end.
Definition pre_ranges (s : ustr) : list (nat * nat) := pre_ranges_fuel (S (length s)) s 0.

Definition inside (ranges : list (nat * nat)) (idx : nat) : bool :=
  existsb (fun r => (r.1 <? idx) && (idx <? r.2)) ranges.

(** [while idx > 0 and inside(idx): idx = text.rfind(sep, 0, idx)]; [idx] falls by the
    length of [sep] at least. *)
Fixpoint step_out (k : nat) (ranges : list (nat * nat)) (sep s : ustr) (idx : option nat)
  : option nat :=
  match k, idx with
  | S k', Some (S _ as i) =>
      if inside ranges i then step_out k' ranges sep s (U.rfind sep s i) else idx
  | _, _ => idx
  end.

Fixpoint try_seps (seps : list ustr) (ranges : list (nat * nat)) (s : ustr) (limit : nat)
  : option nat :=
  match seps with
  | [] => None
  | sep :: seps' =>
      let threshold := if bool_decide (sep = [32%Z]) then 0 else limit / 2 in
      match step_out (S limit) ranges sep s (U.rfind sep s limit) with
      | Some idx => if threshold <? idx then Some (idx + length sep)
                    else try_seps seps' ranges s limit
      | None => try_seps seps' ranges s limit
      end
  end.

Definition SEPARATORS : list ustr := [NL2; NL; [32%Z]].

Definition safe_cut (s : ustr) (limit : nat) : nat * bool :=
  let ranges := pre_ranges (take (limit + length PRE_CLOSE) s) in
  match try_seps SEPARATORS ranges s limit with
  | Some cut => (cut, false)
  | None =>
      let safe_limit := limit - length CODE_PRE in
      match U.rfind NL s safe_limit with
      | Some (S _ as nl) => (nl + 1, true)
      | _ => (safe_limit, true)
      end
  end.

(** The [while] loop of [_split_chunks]; [None] when the fuel does not suffice. *)
Fixpoint split_loop (k : nat) (rest : ustr) (limit : nat) : option (list ustr) :=
  if length rest <=? limit
  then Some (match rest with [] => [] | _ => [rest] end)
  else match k with
       | O => None
       | S k' =>
           let '(cut, force_pre_split) := safe_cut rest limit in
           let head := U.rstrip (take cut rest) in
           if force_pre_split
           then cons (head ++ CODE_PRE) <$>
                  split_loop k' (PRE_CODE ++ U.lstrip (drop cut rest)) limit
           else cons head <$> split_loop k' (U.lstrip (drop cut rest)) limit
       end.

Definition split_chunks (s : ustr) (limit : nat) : option (list ustr) :=
  split_loop (length s) s limit.

(* ------------------------------------------------------------------ *)
(** * Plain rendering *)

Definition inline_plain_one (t : Token) : ustr :=
  let ty := tk_type t in
  if ((ty =? "text") || (ty =? "code_inline"))%string then tk_content t
  else if (ty =? "softbreak")%string then [32%Z]
  else if (ty =? "hardbreak")%string then NL
  else if (ty =? "image")%string then tk_content t
  else [].
Definition inline_plain (children : list Token) : ustr := flat_map inline_plain_one children.

Definition plain_block_break (ty : string) : bool :=
  ((ty =? "paragraph_close") || (ty =? "heading_close") || (ty =? "blockquote_close")
   || (ty =? "hr"))%string.

Definition render_plain_one (t : Token) : ustr :=
  let ty := tk_type t in
  if (ty =? "inline")%string then inline_plain (tk_children t)
  else if ((ty =? "fence") || (ty =? "code_block"))%string
       then U.rstrip_nl (tk_content t) ++ NL
  else if plain_block_break ty then NL
  else [].
Definition render_plain (ts : list Token) : ustr := flat_map render_plain_one ts.

(* ------------------------------------------------------------------ *)
(** * [TelegramMarkdown] *)

Section Renderer.
Context (md_events md_parse : ustr -> list Token).

(** [render_html]; [Ok None] cannot happen (see [split_chunks_total]). *)
Definition render_html (s : ustr) : result render_error (option (list ustr)) :=
  match U.strip s with
  | [] => Ok (Some [])
  | _ => match render (md_events s) empty_env with
         | Raise x => Raise x
         | Ok (html, _) => Ok (split_chunks (U.strip html) TG_MESSAGE_LIMIT)
         end
  end.

Definition to_plain (s : ustr) : ustr :=
  match U.strip s with [] => [] | _ => U.strip (render_plain (md_parse s)) end.
End Renderer.

Definition has_unclosed_fence (s : ustr) : bool := Nat.odd (U.count (U.lit "```") s).
Definition escape (s : ustr) : ustr := html_escape false s.

(** A nested list with a link that is not allowed. *)
Definition tok (ty : string) : Token := mk_token ty [] [] None None [].
Definition tok_text (s : string) : Token := mk_token "text" (U.lit s) [] None None [].
Example render_list :
  render [tok "ordered_list_open"; tok "list_item_open"; tok_text "a<b"; tok "paragraph_close";
          tok "list_item_open";
          mk_token "link_open" [] [] None (Some (U.lit "javascript:x")) []; tok_text "c";
          tok "link_close"; tok "ordered_list_close"] empty_env
  = Ok (U.lit "1. a&lt;b" ++ NL ++ U.lit "2. c" ++ NL,
        mk_env (Some []) None (Some 0%Z)).
Proof. reflexivity. Qed.

Example split_small :
  split_chunks (U.lit "aaaa bbbb cccc dddd eeee ffff gggg") 26
  = Some [U.lit "aaaa bbbb cccc dddd eeee"; U.lit "ffff gggg"].
Proof. vm_compute. reflexivity. Qed.

(* ------------------------------------------------------------------ *)
(** * Specification: the HTML Telegram accepts *)

Definition plain_char (c : Z) : bool := negb ((c =? 38) || (c =? 60) || (c =? 62))%Z.

Definition entities : list ustr :=
  [U.lit "&amp;"; U.lit "&lt;"; U.lit "&gt;"; [38; 113; 117; 111; 116; 59]%Z; U.lit "&#x27;"].

(** Text that can stand inside an attribute in double quotes. *)
Inductive attr_text : ustr -> Prop :=
| attr_nil : attr_text []
| attr_char c s : plain_char c = true -> (c <> 34)%Z -> attr_text s -> attr_text (c :: s)
| attr_entity x s : In x entities -> attr_text s -> attr_text (x ++ s).

(** The elements Telegram accepts: opening and closing tag. A link has an allowed
    scheme. *)
Inductive element : ustr -> ustr -> Prop :=
| el_b : element (U.lit "<b>") (U.lit "</b>")
| el_i : element (U.lit "<i>") (U.lit "</i>")
| el_s : element (U.lit "<s>") (U.lit "</s>")
| el_quote : element (U.lit "<blockquote>") (U.lit "</blockquote>")
| el_pre : element PRE_OPEN PRE_CLOSE
| el_code : element (U.lit "<code>") (U.lit "</code>")
| el_code_lang x : attr_text x -> element (CODE_LANG ++ x ++ QUOTE_GT) (U.lit "</code>")
| el_link x : attr_text (html_escape true x) -> allowed_href x = true ->
    element (A_HREF ++ html_escape true x ++ QUOTE_GT) (U.lit "</a>").

(** Escaped text and tags of the accepted elements, in any order. *)
Inductive tg_html : ustr -> Prop :=
| tg_nil : tg_html []
| tg_char c : plain_char c = true -> tg_html [c]
| tg_entity x : In x entities -> tg_html x
| tg_open o c : element o c -> tg_html o
| tg_close o c : element o c -> tg_html c
| tg_app a b : tg_html a -> tg_html b -> tg_html (a ++ b).

(** The same with every element closed in the order it was opened. *)
Inductive balanced : ustr -> Prop :=
| bal_nil : balanced []
| bal_char c : plain_char c = true -> balanced [c]
| bal_entity x : In x entities -> balanced x
| bal_element o c body : element o c -> balanced body -> balanced (o ++ body ++ c)
| bal_app a b : balanced a -> balanced b -> balanced (a ++ b).

Create HintDb tg.
#[export] Hint Constructors attr_text element tg_html balanced : tg.

(* ------------------------------------------------------------------ *)
(** * Lemmas: escaping *)

Lemma escape_char_cases c :
  In (escape_char true c) entities \/
  escape_char true c = [c] /\ plain_char c = true /\ (c <> 34)%Z.
Proof.
  unfold escape_char, plain_char, entities. simpl andb.
  destruct (c =? 38)%Z eqn:E1; [left; simpl; tauto|].
  destruct (c =? 60)%Z eqn:E2; [left; simpl; tauto|].
  destruct (c =? 62)%Z eqn:E3; [left; simpl; tauto|].
  destruct (c =? 34)%Z eqn:E4; [left; simpl; tauto|].
  destruct (c =? 39)%Z; [left; simpl; tauto|].
  apply Z.eqb_neq in E4. right. split; [done|]. by split.
Qed.

Lemma attr_escape s : attr_text (html_escape true s).
Proof.
  induction s as [|c s IH]; simpl; [constructor|].
  destruct (escape_char_cases c) as [H | (-> & H1 & H2)]; [by constructor | simpl; by constructor].
Qed.

Lemma balanced_escape s : balanced (html_escape true s).
Proof.
  induction s as [|c s IH]; simpl; [constructor|]. apply bal_app; [|done].
  destruct (escape_char_cases c) as [H | (-> & H1 & H2)]; by constructor.
Qed.

(** Balanced text is text Telegram accepts. *)
Lemma balanced_tg s : balanced s -> tg_html s.
Proof. induction 1; eauto 6 with tg. Qed.

Lemma balanced_chars s : forallb plain_char s = true -> balanced s.
Proof.
  induction s as [|c s IH]; simpl; intros H; [constructor|].
  apply andb_true_iff in H as [Hc Hs]. apply (bal_app [c] s); [by constructor | auto].
Qed.

Lemma balanced_nl : balanced NL /\ balanced NL2.
Proof. split; by apply balanced_chars. Qed.
Lemma balanced_NL : balanced NL. Proof. apply balanced_nl. Qed.
Lemma balanced_NL2 : balanced NL2. Proof. apply balanced_nl. Qed.

Lemma plain_spaces n : forallb plain_char (spaces n) = true.
Proof. by induction n. Qed.

Lemma plain_digits s : all_digits s = true -> forallb plain_char (U.lit s) = true.
Proof.
  induction s as [|c s IH]; [done|]. simpl. intros H. apply andb_true_iff in H as [Hc Hs].
  rewrite (IH Hs), andb_true_r. unfold is_digit in Hc. unfold plain_char.
  apply andb_true_iff in Hc as [H1 H2]. apply Nat.leb_le in H1, H2.
  apply negb_true_iff. rewrite !orb_false_iff, !Z.eqb_neq. lia.
Qed.

Lemma plain_number z : forallb plain_char (U.lit (str_of_Z z)) = true.
Proof.
  unfold str_of_Z. destruct (Z.to_int z) as [u|u]; simpl.
  - apply plain_digits, all_digits_uint.
  - apply plain_digits, all_digits_uint.
Qed.

Lemma balanced_code s : balanced (U.lit "<code>" ++ html_escape true s ++ U.lit "</code>").
Proof. apply bal_element; [constructor | apply balanced_escape]. Qed.

Lemma balanced_pre o body :
  element o (U.lit "</code>") -> balanced body -> balanced (PRE_OPEN ++ o ++ body ++ CODE_PRE ++ NL2).
Proof.
  intros Ho Hb. change CODE_PRE with (U.lit "</code>" ++ PRE_CLOSE).
  replace (PRE_OPEN ++ o ++ body ++ (U.lit "</code>" ++ PRE_CLOSE) ++ NL2)
    with ((PRE_OPEN ++ (o ++ body ++ U.lit "</code>") ++ PRE_CLOSE) ++ NL2)
    by (rewrite <- !app_assoc; done).
  apply bal_app; [|apply balanced_NL2]. apply bal_element; [constructor|]. by apply bal_element.
Qed.

#[export] Hint Resolve attr_escape balanced_escape balanced_NL balanced_NL2 balanced_code : tg.

#[local] Arguments U.lit : simpl never.
#[local] Arguments A_HREF : simpl never.
#[local] Arguments PRE_CODE : simpl never.

(* ------------------------------------------------------------------ *)
(** * Lemmas: the rules *)

Ltac type_cases :=
  repeat match goal with
  | |- context [(?a =? ?b)%string] => destruct (String.eqb_spec a b); [subst|]
  end.

Lemma balanced_leaf s t : forallb plain_char s = true -> balanced t -> balanced (s ++ t).
Proof. intros H Ht. apply bal_app; [by apply balanced_chars | done]. Qed.

(** The tokens that stand for themselves: they render balanced text whatever the
    environment, and leave it as it was up to the number of the current list. *)
Definition leaf_type (ty : string) : bool :=
  existsb (String.eqb ty)
    ["text"; "softbreak"; "hardbreak"; "hr"; "fence"; "code_block"; "code_inline"; "image";
     "paragraph_open"; "paragraph_close"; "list_item_close"]%string.

Lemma leaf_balanced t e s e' :
  leaf_type (tk_type t) = true -> render_rule t e = Ok (s, e') -> balanced s.
Proof.
  intros Hl. destruct t as [ty content info start href ch]. unfold leaf_type in Hl. simpl in Hl.
  unfold render_rule, static_tag. simpl tk_type. unfold const, text, code_block, code_inline,
    image, paragraph_close, fence. simpl tk_content. simpl tk_info.
  repeat (apply orb_prop in Hl as [Hl|Hl]; [apply String.eqb_eq in Hl; subst; simpl|]); [..|done];
    intros [= <- _]; auto with tg.
  - by apply balanced_chars.
  - apply balanced_pre; [|auto with tg]. destruct (first_word info); constructor. auto with tg.
  - apply (balanced_pre (U.lit "<code>") (html_escape true (U.rstrip_nl content)));
      auto with tg.
  - exact (balanced_code content).
  - case_match; auto with tg.
Qed.

Lemma ok_out {E A B} (a a' : A) (b b' : B) : Ok (E := E) (a, b) = Ok (a', b') -> a = a'.
Proof. congruence. Qed.

(** A rule that emits accepted HTML whatever the environment. *)
Definition emits_tg (r : rule) : Prop := forall e s e', r e = Ok (s, e') -> tg_html s.

Lemma emits_const s : tg_html s -> emits_tg (const s).
Proof. intros H e s' e' Heq. injection Heq as <- _. done. Qed.

Lemma tg_open_nl2 o c : element o c -> tg_html (c ++ NL2).
Proof. intros H. apply tg_app; [eauto with tg | apply balanced_tg, balanced_NL2]. Qed.

Lemma static_tg ty s : static_tag ty = Some s -> tg_html s.
Proof.
  unfold static_tag.
  repeat match goal with
  | |- (if ?b then _ else _) = _ -> _ => destruct b; [intros <-%(inj Some)|]
  end; [..|done];
    eauto using tg_open_nl2 with tg; apply balanced_tg; auto with tg.
  by apply balanced_chars.
Qed.

Lemma paragraph_tg : emits_tg paragraph_close.
Proof.
  intros e s e' <-%ok_out.
  destruct (list_open e || nonzero (bq_depth e)); apply balanced_tg; auto with tg.
Qed.

Lemma quote_open_tg : emits_tg blockquote_open.
Proof. intros e s e' <-%ok_out. eauto with tg. Qed.

Lemma quote_close_tg : emits_tg blockquote_close.
Proof.
  intros e s e'. unfold blockquote_close. destruct (bq_depth e); [|done].
  intros <-%ok_out. eauto using tg_open_nl2 with tg.
Qed.

Lemma push_list_tg k n : emits_tg (push_list k n).
Proof. intros e s e' <-%ok_out. constructor. Qed.

Lemma list_close_tg : emits_tg list_close.
Proof.
  intros e s e'. unfold list_close. destruct (list_stack e) as [[|x l]|]; [done| |done].
  intros <-%ok_out. destruct l; apply balanced_tg; auto with tg.
Qed.

Lemma list_item_balanced e s e' : list_item_open e = Ok (s, e') -> balanced s.
Proof.
  unfold list_item_open. destruct (list_stack e) as [[|[[] n] l]|]; [done| | |done].
  - intros <-%ok_out. apply balanced_leaf; [apply plain_spaces | by apply balanced_chars].
  - intros <-%ok_out.
    repeat apply balanced_leaf; auto using plain_spaces, plain_number, balanced_chars.
Qed.

Lemma link_open_tg t : emits_tg (link_open t).
Proof.
  intros e s e'. unfold link_open. destruct (allowed_href _) eqn:E.
  - intros <-%ok_out. eapply tg_open. constructor; auto with tg.
  - intros <-%ok_out. constructor.
Qed.

Definition some_href : ustr := U.lit "http://x".
Lemma link_close_tg : emits_tg link_close.
Proof.
  intros e s e'. unfold link_close. destruct (nonzero _).
  - intros <-%ok_out. constructor.
  - intros <-%ok_out. apply (tg_close _ _ (el_link some_href (attr_escape _) eq_refl)).
Qed.

(** Whatever the token and the environment, a rule emits accepted HTML only. *)
Lemma rule_tg t : emits_tg (render_rule t).
Proof.
  destruct (leaf_type (tk_type t)) eqn:Hl.
  { intros e s e' H. eapply balanced_tg, leaf_balanced; eauto. }
  unfold leaf_type in Hl. simpl in Hl. rewrite !orb_false_iff in Hl.
  destruct Hl as (H1 & H2 & H3 & H4 & H5 & H6 & H7 & H8 & _ & H9 & _).
  unfold render_rule. destruct (static_tag (tk_type t)) as [s|] eqn:Es.
  { eapply emits_const, static_tg, Es. }
  rewrite H1, H5, H6, H7, H8, H9.
  repeat case_match; auto using quote_open_tg, quote_close_tg, push_list_tg, list_close_tg,
    link_open_tg, link_close_tg, emits_const, tg_nil; try apply push_list_tg.
  intros e s e' Hr. eapply balanced_tg, list_item_balanced, Hr.
Qed.

Lemma render_tg ts e s e' : render ts e = Ok (s, e') -> tg_html s.
Proof.
  revert e s. induction ts as [|t ts IH]; intros e s; simpl.
  - intros <-%ok_out. constructor.
  - destruct (render_rule t e) as [[s1 e1]|] eqn:E1; [|done].
    destruct (render ts e1) as [[s2 e2]|] eqn:E2; [|done].
    intros H. injection H as <- <-. apply tg_app; [by eapply rule_tg | by eapply IH].
Qed.

(* ------------------------------------------------------------------ *)
(** * Well-nested token sequences *)

(** Where a token sequence stands: between blocks, inside a link, or between the items
    of a list. *)
Inductive context := Block | Link | Items.

Definition inline_pairs : list (string * string) :=
  [("strong_open", "strong_close"); ("em_open", "em_close"); ("s_open", "s_close");
   ("heading_open", "heading_close")]%string.

(** The sequences a CommonMark parser emits: every opening token has its closing one,
    and links do not nest. *)
Inductive nested : context -> list Token -> Prop :=
| n_nil k : nested k []
| n_app k a b : nested k a -> nested k b -> nested k (a ++ b)
| n_leaf k t : k <> Items -> leaf_type (tk_type t) = true -> nested k [t]
| n_pair k o c body : k <> Items -> In (tk_type o, tk_type c) inline_pairs ->
    nested k body -> nested k (o :: body ++ [c])
| n_link o c body : tk_type o = "link_open"%string -> tk_type c = "link_close"%string ->
    nested Link body -> nested Block (o :: body ++ [c])
| n_quote o c body : tk_type o = "blockquote_open"%string ->
    tk_type c = "blockquote_close"%string -> nested Block body -> nested Block (o :: body ++ [c])
| n_list o c items : (tk_type o, tk_type c) = ("bullet_list_open", "bullet_list_close")%string \/
      (tk_type o, tk_type c) = ("ordered_list_open", "ordered_list_close")%string ->
    nested Items items -> nested Block (o :: items ++ [c])
| n_item o body : tk_type o = "list_item_open"%string ->
    nested Block body -> nested Items (o :: body).

(** A key keeps its value, a missing one counting as [d]; it is never removed. *)
Definition keeps {A} (d : A) (o o' : option A) : Prop :=
  default d o' = default d o /\ (is_Some o -> is_Some o').

Lemma keeps_refl {A} (d : A) o : keeps d o o.
Proof. by split. Qed.
Lemma keeps_trans {A} (d : A) o1 o2 o3 : keeps d o1 o2 -> keeps d o2 o3 -> keeps d o1 o3.
Proof. intros [H1 H2] [H3 H4]. split; [congruence | auto]. Qed.
Lemma keeps_some {A} (d x : A) o : keeps d (Some x) o -> o = Some x.
Proof. intros [H1 H2]. destruct H2 as [y ->]; [done|]. simpl in H1. congruence. Qed.

Definition env_keeps (e e' : env) : Prop :=
  keeps [] (list_stack e) (list_stack e') /\ keeps 0%Z (bq_depth e) (bq_depth e') /\
  keeps 0%Z (skip_link_close e) (skip_link_close e').

Lemma env_keeps_refl e : env_keeps e e.
Proof. repeat split; auto. Qed.
Lemma env_keeps_trans e1 e2 e3 : env_keeps e1 e2 -> env_keeps e2 e3 -> env_keeps e1 e3.
Proof. intros (?&?&?) (?&?&?). split_and!; eauto using keeps_trans. Qed.

Definition no_skip (e : env) : Prop := default 0%Z (skip_link_close e) = 0%Z.

Definition ctx_pre (k : context) (e : env) : Prop :=
  match k with
  | Link => True
  | Block => no_skip e
  | Items => no_skip e /\ exists x n l, list_stack e = Some ((x, n) :: l)
  end.

Definition ctx_post (k : context) (e e' : env) : Prop :=
  match k with
  | Link => e' = e
  | Block => env_keeps e e'
  | Items => (exists x n n' l, list_stack e = Some ((x, n) :: l) /\
                               list_stack e' = Some ((x, n') :: l)) /\
             keeps 0%Z (bq_depth e) (bq_depth e') /\
             keeps 0%Z (skip_link_close e) (skip_link_close e')
  end.

Lemma ctx_pre_step k e e' : ctx_pre k e -> ctx_post k e e' -> ctx_pre k e'.
Proof.
  destruct k; simpl; unfold no_skip.
  - intros H (_ & _ & [H1 _]). congruence.
  - done.
  - intros [H _] ((x & n & n' & l & _ & H2) & _ & [H3 _]). split; [congruence | eauto].
Qed.

Lemma ctx_post_refl k e : ctx_pre k e -> ctx_post k e e.
Proof.
  destruct k; simpl; [intros _; apply env_keeps_refl | done|].
  intros (_ & x & n & l & H). repeat split; eauto using keeps_refl. by exists x, n, n, l.
Qed.

Lemma ctx_post_trans k e1 e2 e3 : ctx_post k e1 e2 -> ctx_post k e2 e3 -> ctx_post k e1 e3.
Proof.
  destruct k; simpl; [apply env_keeps_trans | congruence|].
  intros ((x & n & n' & l & H1 & H2) & H3 & H4) ((y & m & m' & l' & H5 & H6) & H7 & H8).
  split; [|eauto using keeps_trans]. exists x, n, m', l. split; [done|]. congruence.
Qed.

Lemma render_app a b e :
  render (a ++ b) e = match render a e with
                      | Raise x => Raise x
                      | Ok (s, e1) => match render b e1 with
                                      | Raise x => Raise x
                                      | Ok (s', e2) => Ok (s ++ s', e2)
                                      end
                      end.
Proof.
  revert e. induction a as [|t a IH]; intros e; simpl.
  - by destruct (render b e) as [[s e']|].
  - destruct (render_rule t e) as [[s e1]|]; [|done]. rewrite IH.
    destruct (render a e1) as [[s1 e2]|]; [|done].
    destruct (render b e2) as [[s2 e3]|]; [|done]. by rewrite app_assoc.
Qed.

(** [renders ts e P]: the rules succeed on [ts] from [e]; the output and the environment
    left satisfy [P]. *)
Definition renders (ts : list Token) (e : env) (P : ustr -> env -> Prop) : Prop :=
  exists s e', render ts e = Ok (s, e') /\ P s e'.

Lemma renders_app a b e P Q :
  renders a e Q -> (forall s e1, Q s e1 -> renders b e1 (fun s' e2 => P (s ++ s') e2)) ->
  renders (a ++ b) e P.
Proof.
  intros (s & e1 & H & HQ) Hb. destruct (Hb s e1 HQ) as (s' & e2 & H2 & HP).
  exists (s ++ s'), e2. split; [|done]. by rewrite render_app, H, H2.
Qed.

(** An opening token, a body and a closing token. *)
Lemma renders_enclosed o body c e s1 e1 (P : ustr -> env -> Prop) Q :
  render_rule o e = Ok (s1, e1) -> renders body e1 Q ->
  (forall s e2, Q s e2 -> exists s3 e3, render_rule c e2 = Ok (s3, e3) /\ P (s1 ++ s ++ s3) e3) ->
  renders (o :: body ++ [c]) e P.
Proof.
  intros Ho (s & e2 & Hb & HQ) Hc. destruct (Hc s e2 HQ) as (s3 & e3 & Hc3 & HP).
  exists (s1 ++ s ++ s3), e3. split; [|done]. simpl. rewrite Ho, render_app, Hb. simpl.
  by rewrite Hc3, app_nil_r.
Qed.

(** What a rule of a known type is. *)
Lemma rule_of_type t ty : tk_type t = ty -> render_rule t = render_rule
  (mk_token ty (tk_content t) (tk_info t) (tk_start t) (tk_href t) (tk_children t)).
Proof. intros <-. by destruct t. Qed.

Lemma leaf_renders t e : leaf_type (tk_type t) = true -> exists s, render_rule t e = Ok (s, e).
Proof.
  destruct t as [ty content info start href ch]. unfold leaf_type. simpl. intros Hl.
  repeat (apply orb_prop in Hl as [Hl|Hl];
          [apply String.eqb_eq in Hl; subst ty; eexists; reflexivity|]). done.
Qed.

Lemma pair_rules o c :
  In (tk_type o, tk_type c) inline_pairs ->
  exists so sc tl, element so sc /\ balanced tl /\
    render_rule o = const so /\ render_rule c = const (sc ++ tl).
Proof.
  intros H. simpl in H.
  destruct H as [H|[H|[H|[H|[]]]]]; injection H as Ho Hc; symmetry in Ho, Hc;
    rewrite (rule_of_type _ _ Ho), (rule_of_type _ _ Hc).
  - exists (U.lit "<b>"), (U.lit "</b>"), []. repeat split; constructor.
  - exists (U.lit "<i>"), (U.lit "</i>"), []. repeat split; constructor.
  - exists (U.lit "<s>"), (U.lit "</s>"), []. repeat split; constructor.
  - exists (U.lit "<b>"), (U.lit "</b>"), NL2. repeat split; [constructor | apply balanced_NL2].
Qed.

(** The output of an element with something after its closing tag. *)
Lemma balanced_element so sc tl s :
  element so sc -> balanced tl -> balanced s -> balanced (so ++ s ++ (sc ++ tl)).
Proof.
  intros He Ht Hs. replace (so ++ s ++ (sc ++ tl)) with ((so ++ s ++ sc) ++ tl)
    by (rewrite <- !app_assoc; done).
  apply bal_app; [by apply bal_element | done].
Qed.

Definition sound (k : context) (ts : list Token) : Prop :=
  forall e, ctx_pre k e -> renders ts e (fun s e' => balanced s /\ ctx_post k e e').

Lemma sound_app k a b : sound k a -> sound k b -> sound k (a ++ b).
Proof.
  intros Ha Hb e Hpre. eapply renders_app; [apply Ha, Hpre|].
  intros s e1 [Hs H1]. destruct (Hb e1 (ctx_pre_step _ _ _ Hpre H1)) as (s' & e2 & H2 & Hs' & Hp).
  exists s', e2. split; [done|]. split; [by apply bal_app | by eapply ctx_post_trans].
Qed.

Lemma sound_pair k o c body :
  k <> Items -> In (tk_type o, tk_type c) inline_pairs -> sound k body -> sound k (o :: body ++ [c]).
Proof.
  intros Hk Hp Hb e Hpre. destruct (pair_rules o c Hp) as (so & sc & tl & He & Ht & Ho & Hc).
  eapply renders_enclosed; [by rewrite Ho | apply Hb, Hpre|].
  intros s e2 [Hs Hpost]. exists (sc ++ tl), e2. rewrite Hc. split; [done|].
  split; [by apply balanced_element | done].
Qed.

Lemma sound_link o c body :
  tk_type o = "link_open"%string -> tk_type c = "link_close"%string ->
  sound Link body -> sound Block (o :: body ++ [c]).
Proof.
  intros Ho Hc Hb e Hpre. unfold sound in Hb. simpl in *. unfold no_skip in Hpre.
  assert (Hr : render_rule o = link_open o) by (rewrite (rule_of_type _ _ Ho); done).
  assert (Hr' : render_rule c = link_close) by (rewrite (rule_of_type _ _ Hc); done).
  unfold link_open in Hr. destruct (allowed_href (default [] (tk_href o))) eqn:E.
  - eapply renders_enclosed; [by rewrite Hr | by apply Hb|]. simpl.
    intros s e2 [Hs ->]. exists (U.lit "</a>"), e. rewrite Hr'. unfold link_close. split.
    + destruct (skip_link_close e) as [n|]; simpl in *; subst; done.
    + split; [|apply env_keeps_refl].
      apply (bal_element (A_HREF ++ html_escape true (default [] (tk_href o)) ++ QUOTE_GT));
        [constructor; auto with tg | done].
  - eapply renders_enclosed; [by rewrite Hr | by apply Hb|]. simpl. rewrite Hpre.
    intros s e2 [Hs ->]. exists [], (set_skip 0 (set_skip 1 e)). rewrite Hr'. split; [done|].
    rewrite app_nil_r. split; [done|]. repeat split; simpl; auto.
Qed.

Lemma sound_quote o c body :
  tk_type o = "blockquote_open"%string -> tk_type c = "blockquote_close"%string ->
  sound Block body -> sound Block (o :: body ++ [c]).
Proof.
  intros Ho Hc Hb e Hpre.
  assert (Hr : render_rule o = blockquote_open) by (rewrite (rule_of_type _ _ Ho); done).
  assert (Hr' : render_rule c = blockquote_close) by (rewrite (rule_of_type _ _ Hc); done).
  eapply renders_enclosed; [by rewrite Hr | apply Hb; done|].
  intros s e2 (Hs & H1 & H2 & H3). apply keeps_some in H2. simpl in *.
  rewrite Hr'. unfold blockquote_close. rewrite H2. eexists _, _. split; [done|]. split.
  - apply (balanced_element (U.lit "<blockquote>") (U.lit "</blockquote>") NL2);
      [constructor | apply balanced_NL2 | done].
  - split; [done|]. split; [|done].
    split; simpl; [lia | by eauto].
Qed.

Lemma sound_list o c items :
  (tk_type o, tk_type c) = ("bullet_list_open", "bullet_list_close")%string \/
  (tk_type o, tk_type c) = ("ordered_list_open", "ordered_list_close")%string ->
  sound Items items -> sound Block (o :: items ++ [c]).
Proof.
  intros Hoc Hb e Hpre.
  assert (exists k n, render_rule o = push_list k n) as (k & n & Hr).
  { destruct Hoc as [H|H]; injection H as Ho _; rewrite (rule_of_type _ _ Ho); by eexists _, _. }
  assert (Hr' : render_rule c = list_close).
  { destruct Hoc as [H|H]; injection H as _ Hc; by rewrite (rule_of_type _ _ Hc). }
  eapply renders_enclosed; [by rewrite Hr | apply Hb; split; [done | simpl; eauto]|].
  intros s e2 (Hs & (x & m & m' & l & H1 & H2) & H3 & H4). simpl in *.
  injection H1 as <- <- <-. rewrite Hr'. unfold list_close. rewrite H2.
  eexists _, _. split; [done|]. split.
  - apply bal_app; [done|]. destruct (list_stack e) as [[|]|]; simpl; auto with tg.
  - split; [|done]. split; simpl; [done | eauto].
Qed.

Lemma sound_item o body :
  tk_type o = "list_item_open"%string -> sound Block body -> sound Items (o :: body).
Proof.
  intros Ho Hb e (Hpre & x & n & l & Hst).
  assert (Hr : render_rule o = list_item_open) by (rewrite (rule_of_type _ _ Ho); done).
  assert (exists s1 n' e1, list_item_open e = Ok (s1, e1) /\ list_stack e1 = Some ((x, n') :: l) /\
            bq_depth e1 = bq_depth e /\ skip_link_close e1 = skip_link_close e)
    as (s1 & n' & e1 & H1 & H2 & H3 & H4).
  { unfold list_item_open. rewrite Hst. destruct x; [eexists _, n, e | eexists _, _, _]; by split_and!. }
  pose proof (list_item_balanced _ _ _ H1) as Hs1.
  apply (renders_app [o] body e _ (fun s e' => s = s1 /\ e' = e1)).
  { exists s1, e1. simpl. rewrite Hr, H1, app_nil_r. done. }
  intros s e' [-> ->]. destruct (Hb e1) as (s' & e2 & H5 & Hs' & H6 & H7 & H8).
  { simpl. unfold no_skip. by rewrite H4. }
  exists s', e2. split; [done|]. split; [by apply bal_app|]. rewrite H2 in H6.
  apply keeps_some in H6. rewrite H3 in H7. rewrite H4 in H8. split; [|done].
  exists x, n, n', l. done.
Qed.

Lemma nested_sound k ts : nested k ts -> sound k ts.
Proof.
  induction 1 as [k|k a b _ IHa _ IHb|k t Hk Hl|k o c body Hk Hp _ IH|o c body Ho Hc _ IH
                 |o c body Ho Hc _ IH|o c items Hoc _ IH|o body Ho _ IH].
  - intros e Hpre. exists [], e. split; [done|]. split; [constructor | by apply ctx_post_refl].
  - by apply sound_app.
  - intros e Hpre. destruct (leaf_renders t e Hl) as [s Hs]. exists s, e. simpl.
    rewrite Hs, app_nil_r. split; [done|]. split; [by eapply leaf_balanced | by apply ctx_post_refl].
  - by apply sound_pair.
  - by apply sound_link.
  - by apply sound_quote.
  - by apply sound_list.
  - by apply sound_item.
Qed.

(* ------------------------------------------------------------------ *)
(** * Lemmas: where the text is cut *)

Lemma step_out_spec k ranges sep s hi i :
  U.rfind sep s hi = Some i -> sep <> [] -> i < k ->
  match step_out k ranges sep s (Some i) with
  | Some j => j + length sep <= hi /\ j + length sep <= length s /\
              U.starts_at sep s j = true /\ (0 < j -> inside ranges j = false)
  | None => True
  end.
Proof.
  intros Hf Hne. revert hi i Hf. induction k as [|k IH]; intros hi i Hf Hk; [lia|].
  pose proof (U.rfind_some _ _ _ _ Hf) as (H1 & H2 & H3).
  destruct i as [|i]; simpl; [split_and!; [done..|lia]|].
  destruct (inside ranges (S i)) eqn:Ei; [|by split_and!].
  destruct (U.rfind sep s (S i)) as [j|] eqn:E.
  - pose proof (U.rfind_some _ _ _ _ E) as (H4 & _).
    assert (length sep <> 0) by (destruct sep; simpl; [congruence | lia]).
    specialize (IH (S i) j E ltac:(lia)). destruct (step_out _ _ _ _ _); [|done].
    destruct IH as (H5 & H6 & H7 & H8). split_and!; [lia|done..].
  - by destruct k.
Qed.

Lemma step_out_none k ranges sep s : step_out k ranges sep s None = None.
Proof. by destruct k. Qed.

Lemma try_seps_spec seps ranges s limit cut :
  Forall (fun sep => sep <> []) seps -> try_seps seps ranges s limit = Some cut ->
  exists sep j, In sep seps /\ cut = j + length sep /\ cut <= limit /\ cut <= length s /\
                0 < j /\ U.starts_at sep s j = true /\ inside ranges j = false.
Proof.
  induction seps as [|sep seps IH]; [done|]. intros Hne. inversion Hne as [|? ? Hsep Hseps]; subst.
  cbn [try_seps]. destruct (U.rfind sep s limit) as [i|] eqn:E.
  - pose proof (U.rfind_some _ _ _ _ E) as (H1 & _).
    pose proof (step_out_spec (S limit) ranges sep s limit i E Hsep ltac:(lia)) as Hs.
    destruct (step_out (S limit) ranges sep s (Some i)) as [j|].
    + destruct Hs as (H2 & H3 & H4 & H5). match goal with |- context [?t <? j] => destruct (t <? j) eqn:Et end.
      * intros [= <-]. apply Nat.ltb_lt in Et. exists sep, j.
        split_and!; [by left | done | done | done | lia | done | apply H5; lia].
      * intros H. destruct (IH Hseps H) as (sep' & j' & Hin & Hr). exists sep', j'.
        split; [by right | done].
    + intros H. destruct (IH Hseps H) as (sep' & j' & Hin & Hr). exists sep', j'.
      split; [by right | done].
  - rewrite step_out_none. intros H. destruct (IH Hseps H) as (sep' & j' & Hin & Hr).
    exists sep', j'. split; [by right | done].
Qed.

Lemma separators_nonempty : Forall (fun sep => sep <> []) SEPARATORS.
Proof. repeat constructor; done. Qed.

Lemma sep_first sep :
  In sep SEPARATORS -> exists c, sep !! 0 = Some c /\ U.is_space c = true /\ 0 < length sep.
Proof.
  intros [<-|[<-|[<-|[]]]]; [exists 10%Z | exists 10%Z | exists 32%Z];
    (split; [done|]; split; [done | simpl; lia]).
Qed.

(** A cut: after an occurrence of a separator, or the forced position. *)
Definition good_cut (s : ustr) (limit cut : nat) (force : bool) : Prop :=
  cut <= length s /\ (if force then cut + length CODE_PRE <= limit else cut <= limit) /\
  ((exists j c, j < cut /\ 0 < j /\ s !! j = Some c /\ U.is_space c = true) \/
   cut = limit - length CODE_PRE).

Lemma safe_cut_good s limit cut force :
  13 < limit < length s -> safe_cut s limit = (cut, force) -> good_cut s limit cut force.
Proof.
  intros Hl. unfold safe_cut, good_cut. destruct (try_seps _ _ s limit) as [x|] eqn:E.
  - intros [= <- <-]. apply try_seps_spec in E; [|apply separators_nonempty].
    destruct E as (sep & j & Hin & -> & H1 & H2 & H3 & H4 & _). split_and!; [done..|].
    left. exists j. destruct (sep_first sep Hin) as (c & Hc & Hsp & Hlen).
    exists c. split_and!; [lia | done | | done].
    rewrite <- (Nat.add_0_r j). by eapply U.starts_at_lookup.
  - assert (H13 : length CODE_PRE = 13) by reflexivity. rewrite H13.
    assert (Hsafe : (limit - 13, true) = (cut, force) ->
              cut <= length s /\ (if force then cut + 13 <= limit else cut <= limit) /\ cut = limit - 13).
    { intros [= <- <-]. split_and!; lia. }
    destruct (U.rfind NL s (limit - 13)) as [[|nl]|] eqn:En; intros Hc;
      [destruct (Hsafe Hc) as (?&?&?); auto| |destruct (Hsafe Hc) as (?&?&?); auto].
    pose proof (U.rfind_some _ _ _ _ En) as (H1 & H2 & H3). simpl in H1, H2.
    injection Hc as <- <-. split_and!; [lia|lia|].
    left. exists (S nl), 10%Z. split_and!; [lia|lia| |done].
    rewrite <- (Nat.add_0_r (S nl)). by eapply U.starts_at_lookup.
Qed.

(** No white space in a reopened block's tags: a cut moves past them. *)
Lemma good_cut_past_pre s limit cut force :
  25 <= limit -> good_cut (PRE_CODE ++ s) limit cut force -> length PRE_CODE < cut.
Proof.
  intros Hl (_ & _ & [(j & c & Hj & _ & Hc & Hsp) | ->]).
  - destruct (decide (j < length PRE_CODE)) as [Hlt|]; [|lia]. exfalso.
    assert (Hp : PRE_CODE !! j = Some c) by (rewrite <- Hc; symmetry; by apply lookup_app_l).
    clear Hc. simpl in Hlt.
    do 11 (destruct j as [|j]; [injection Hp as <-; done|]). lia.
  - change (11 < limit - 13). lia.
Qed.

Lemma good_cut_pos s limit cut force : 25 <= limit -> good_cut s limit cut force -> 0 < cut.
Proof.
  intros Hl (_ & _ & [(j & c & Hj & _) | ->]); [lia|]. change (0 < limit - 13). lia.
Qed.

(* ------------------------------------------------------------------ *)
(** * Lemmas: the messages *)

(** A message carries a piece of the text; the tags of a code block cut in two are
    closed at its end and opened again in the next one. *)
Definition reopen (b : bool) (s : ustr) : ustr := if b then PRE_CODE ++ s else s.

Fixpoint dress (reopened : bool) (pieces : list (ustr * bool)) : list ustr :=
  match pieces with
  | [] => []
  | (p, force) :: l => reopen reopened (p ++ if force then CODE_PRE else []) :: dress force l
  end.

Lemma reopen_cut b s cut :
  (b = true -> length PRE_CODE <= cut) ->
  exists n, take cut (reopen b s) = reopen b (take n s) /\ drop cut (reopen b s) = drop n s /\
            cut = n + if b then length PRE_CODE else 0.
Proof.
  destruct b; simpl reopen.
  - intros H. exists (cut - length PRE_CODE). specialize (H eq_refl).
    split_and!; [exact (take_app_ge PRE_CODE s cut H) | exact (drop_app_ge PRE_CODE s cut H) | lia].
  - intros _. exists cut. split_and!; [done..|lia].
Qed.

Lemma rstrip_reopen b s : U.rstrip (reopen b s) = reopen b (U.rstrip s).
Proof.
  destruct b; [|done]. simpl reopen.
  exact (U.rstrip_keep (U.lit "<pre><code") 62%Z s eq_refl).
Qed.

Lemma length_reopen b s : length (reopen b s) = length s + if b then length PRE_CODE else 0.
Proof. destruct b; simpl; rewrite ?length_app; simpl; lia. Qed.

(** One round: the message, and what is left of the text. *)
Lemma split_round b s limit cut force :
  25 <= limit -> limit < length (reopen b s) -> safe_cut (reopen b s) limit = (cut, force) ->
  exists p s', U.rstrip (take cut (reopen b s)) = reopen b p /\
    U.lstrip (drop cut (reopen b s)) = s' /\
    length (reopen b p ++ if force then CODE_PRE else []) <= limit /\
    length s' < length s /\ U.inked s = U.inked p ++ U.inked s'.
Proof.
  intros Hl Hlen Hcut. assert (Hg : good_cut (reopen b s) limit cut force) by (apply safe_cut_good; [lia | done]).
  assert (Hpast : b = true -> length PRE_CODE < cut).
  { intros ->. by eapply good_cut_past_pre. }
  pose proof (good_cut_pos _ _ _ _ Hl Hg) as Hpos.
  destruct (reopen_cut b s cut) as (n & Ht & Hd & Hn); [intros Hb; apply Nat.lt_le_incl, Hpast, Hb|].
  destruct Hg as (Hle & Hlim & _).
  exists (U.rstrip (take n s)), (U.lstrip (drop n s)). rewrite Ht, Hd, rstrip_reopen.
  pose proof (U.length_rstrip (take n s)) as H1. pose proof (U.length_lstrip (drop n s)) as H2.
  rewrite length_reopen in Hle, Hlen. rewrite length_take in H1. rewrite length_drop in H2.
  split_and!; [done|done| | |].
  - rewrite length_app, length_reopen. destruct b, force; simpl in *; lia.
  - assert (0 < n) by (destruct b; [specialize (Hpast eq_refl)|]; lia).
    destruct b; lia.
  - rewrite U.inked_rstrip, U.inked_lstrip, <- U.inked_app. by rewrite take_drop.
Qed.

Lemma split_loop_spec k b s limit :
  25 <= limit -> length s <= k ->
  exists pieces, split_loop k (reopen b s) limit = Some (dress b pieces) /\
    Forall (fun m => length m <= limit) (dress b pieces) /\
    List.concat (map (fun x => U.inked x.1) pieces) = U.inked s.
Proof.
  intros Hl. revert b s. induction k as [|k IH]; intros b s Hk; simpl.
  all: destruct (length (reopen b s) <=? limit) eqn:E;
    [apply Nat.leb_le in E; destruct (reopen b s) as [|c r] eqn:Er;
     [exists []; destruct b, s; try done; repeat split; constructor
     |exists [(s, false)]; simpl; rewrite !app_nil_r, Er; repeat split; [repeat constructor; done]]|].
  - apply Nat.leb_gt in E. rewrite length_reopen in E. destruct s; [|simpl in Hk; lia].
    destruct b; simpl in E; lia.
  - apply Nat.leb_gt in E. destruct (safe_cut (reopen b s) limit) as [cut force] eqn:Hc.
    destruct (split_round b s limit cut force Hl E Hc) as (p & s' & H1 & H2 & H3 & H4 & H5).
    destruct (IH force s' ltac:(lia)) as (pieces & H6 & H7 & H8).
    exists ((p, force) :: pieces). rewrite H1, H2. cbn [dress map List.concat fst].
    assert (Hm : reopen b (p ++ if force then CODE_PRE else []) =
                 reopen b p ++ if force then CODE_PRE else [])
      by (destruct b; [exact (app_assoc PRE_CODE p _) | done]).
    rewrite Hm, H8, H5. split_and!; [|by constructor|done].
    destruct force; simpl reopen in H6; rewrite H6; simpl; rewrite ?app_nil_r; done.
Qed.

(* ------------------------------------------------------------------ *)
(** * Lemmas: text without white space *)

Definition unbroken (s : ustr) : Prop := Forall (fun c => U.is_space c = false) s.

Lemma rstrip_unbroken s : unbroken s -> U.rstrip s = s.
Proof.
  intros H. unfold U.rstrip. assert (Hr : unbroken (reverse s)) by (by apply Forall_reverse).
  destruct (reverse s) as [|c r] eqn:E.
  - rewrite <- (reverse_involutive s), E. done.
  - inversion Hr as [|? ? Hc _]; subst. simpl. rewrite Hc, <- E. apply reverse_involutive.
Qed.

Lemma rfind_unbroken sep s hi :
  In sep SEPARATORS -> unbroken s -> U.rfind sep s hi = None.
Proof.
  intros Hin Hs. destruct (U.rfind sep s hi) as [j|] eqn:E; [|done]. exfalso.
  apply U.rfind_some in E as (_ & _ & Hj). destruct (sep_first sep Hin) as (c & Hc & Hsp & _).
  pose proof (U.starts_at_lookup _ _ _ _ _ Hj Hc) as Hl.
  rewrite (proj1 (Forall_lookup _ _) Hs _ _ Hl) in Hsp. done.
Qed.

Lemma safe_cut_unbroken s limit :
  unbroken s -> safe_cut s limit = (limit - length CODE_PRE, true).
Proof.
  intros Hs. unfold safe_cut. unfold SEPARATORS at 1. cbn [try_seps].
  rewrite !(rfind_unbroken _ s) by (done || (simpl; tauto)). by rewrite !step_out_none.
Qed.

(* ------------------------------------------------------------------ *)
(** * Theorems *)

(** C36: a well-nested token sequence renders without an error, and what it renders is
    balanced HTML of the elements Telegram accepts: every tag is closed in order, every
    ampersand and angle bracket of the source text is escaped, and every link has an
    allowed scheme. *)
Theorem render_balanced (ts : list Token) (Hn : nested Block ts) :
  exists html e, render ts empty_env = Ok (html, e) /\ balanced html /\ tg_html html.
Proof.
  destruct (nested_sound _ _ Hn empty_env eq_refl) as (html & e & H1 & H2 & _).
  exists html, e. eauto using balanced_tg.
Qed.

Lemma render_balanced_witness :
  nested Block [tok "blockquote_open"; tok "strong_open"; tok_text "a<b"; tok "strong_close";
                tok "blockquote_close"] /\
  exists html e, render [tok "blockquote_open"; tok "strong_open"; tok_text "a<b";
                         tok "strong_close"; tok "blockquote_close"] empty_env = Ok (html, e) /\
    balanced html /\ tg_html html.
Proof.
  assert (H : nested Block [tok "blockquote_open"; tok "strong_open"; tok_text "a<b";
                            tok "strong_close"; tok "blockquote_close"]).
  { apply (n_quote _ _ [tok "strong_open"; tok_text "a<b"; tok "strong_close"]);
      [reflexivity | reflexivity|].
    apply (n_pair Block _ _ [tok_text "a<b"]); [discriminate | simpl; tauto|].
    apply n_leaf; [discriminate | reflexivity]. }
  split; [exact H | apply (render_balanced _ H)].
Defined.



(** A text longer than a message with no white space in it is cut short of the limit
    and its first message ends with [</code></pre>], whether or not it holds a [<pre>]. *)
Theorem unbroken_text_forced (s : ustr) (limit : nat)
    (Hl : 25 <= limit < length s) (Hs : unbroken s) :
  exists rest, split_chunks s limit =
    Some ((take (limit - length CODE_PRE) s ++ CODE_PRE) :: rest).
Proof.
  destruct (split_loop_spec (length s) false s limit) as (pieces & H & _); [lia | done|].
  unfold split_chunks in *. simpl reopen in H.
  destruct s as [|c s]; [simpl in Hl; lia|]. cbn [split_loop length] in *.
  rewrite leb_correct_conv in * by (simpl in *; lia).
  rewrite safe_cut_unbroken in * by done.
  rewrite rstrip_unbroken in * by (by apply Forall_take).
  destruct (split_loop _ _ limit) as [l|]; [|done]. by exists l.
Qed.

Lemma unbroken_text_forced_witness :
  25 <= 30 < length (repeat 97%Z 40) /\
  exists rest, split_chunks (repeat 97%Z 40) 30 =
    Some ((take (30 - length CODE_PRE) (repeat 97%Z 40) ++ CODE_PRE) :: rest).
Proof.
  assert (H : 25 <= 30 < length (repeat 97%Z 40)) by (simpl; lia).
  split; [exact H|]. apply (unbroken_text_forced _ _ H). repeat constructor.
Defined.

(** A cut at the white space inside a tag. *)
Example cut_inside_tag :
  split_chunks (U.lit "aaaaaaaaaaaaaaa" ++ A_HREF ++ U.lit "http://x" ++ QUOTE_GT
                ++ U.lit "t</a>") 30
  = Some [U.lit "aaaaaaaaaaaaaaa<a"; U.lit "href=" ++ [34%Z] ++ U.lit "http://x" ++ QUOTE_GT
          ++ U.lit "t</a>"].
Proof. vm_compute. reflexivity. Qed.
End Markdown.
