(* ===== verification/CodexPrefs.v ===== *)
(** The preferences of a user for Codex ([services/codex_prefs]): the model catalogue of a
    sidecar with its Redis cache, the stored preference and its validation, the options a
    turn resolves them to, and the RPC over them ([rpc/codex.py]).

    The coercion of pydantic's [bool] fields is a parameter. *)
From S2P Require Import Prelude PyStr Json Models Events World Translate CodexRemote Services Session CodexClient.

Open Scope Z_scope.
Open Scope string_scope.

(* ------------------------------------------------------------------ *)
(** * Schemas *)

Record ReasoningEffortOption := mk_effort { eo_value : string; eo_description : string }.

Record CodexModel := mk_model {
  cm_id : string;
  cm_display_name : string;
  cm_description : string;
  cm_is_default : bool;
  cm_default_reasoning_effort : string;
  cm_supported_reasoning_efforts : list ReasoningEffortOption
}.

Record TurnOptions := mk_options { to_model : option string; to_effort : option string }.

(** [[f(x) for x in l]] where [f] may fail. *)
Fixpoint all_some {A B} (f : A -> option B) (l : list A) : option (list B) :=
  match l with
  | [] => Some []
  | x :: l' => y ← f x; ys ← all_some f l'; Some (y :: ys)
  end.

(** A required [str] field, and one with a default. *)
Definition req_str (k : string) (d : dict) : option string :=
  match assoc k d with Some (JStr s) => Some s | _ => None end.
Definition str_or (k default : string) (d : dict) : option string :=
  match assoc k d with None => Some default | Some (JStr s) => Some s | Some _ => None end.

Section Catalogue.
(** pydantic's lax validation of a [bool]. *)
Context (pyd_bool : json -> option bool).

Definition req_bool (k : string) (d : dict) : option bool :=
  match assoc k d with Some j => pyd_bool j | None => None end.
Definition bool_or (k : string) (default : bool) (d : dict) : option bool :=
  match assoc k d with None => Some default | Some j => pyd_bool j end.

(** [CodexModel.model_validate], of what [model_dump] wrote. *)
Definition effort_validate (j : json) : option ReasoningEffortOption :=
  match j with
  | JObj d => v ← req_str "value" d; x ← req_str "description" d; Some (mk_effort v x)
  | _ => None
  end.

Definition codex_model_validate (j : json) : option CodexModel :=
  match j with
  | JObj d =>
      id ← req_str "id" d;
      name ← req_str "display_name" d;
      description ← req_str "description" d;
      is_default ← req_bool "is_default" d;
      effort ← req_str "default_reasoning_effort" d;
      supported ← (match assoc "supported_reasoning_efforts" d with
                   | Some (JArr l) => all_some effort_validate l
                   | _ => None
                   end);
      Some (mk_model id name description is_default effort supported)
  | _ => None
  end.

Definition effort_dump (o : ReasoningEffortOption) : json :=
  JObj [("value", JStr (eo_value o)); ("description", JStr (eo_description o))].

Definition model_dump (m : CodexModel) : json :=
  JObj [("id", JStr (cm_id m)); ("display_name", JStr (cm_display_name m));
        ("description", JStr (cm_description m)); ("is_default", JBool (cm_is_default m));
        ("default_reasoning_effort", JStr (cm_default_reasoning_effort m));
        ("supported_reasoning_efforts", JArr (map effort_dump (cm_supported_reasoning_efforts m)))].

(** [ReasoningEffortOptionIn] and [CodexModelIn] with [to_domain]; the second component is
    [hidden]. *)
Definition effort_in (j : json) : option ReasoningEffortOption :=
  match j with
  | JObj d => v ← req_str "reasoningEffort" d; x ← str_or "description" "" d; Some (mk_effort v x)
  | _ => None
  end.

Definition model_in (j : json) : option (CodexModel * bool) :=
  match j with
  | JObj d =>
      id ← req_str "id" d;
      name ← req_str "displayName" d;
      description ← str_or "description" "" d;
      hidden ← bool_or "hidden" false d;
      is_default ← bool_or "isDefault" false d;
      effort ← str_or "defaultReasoningEffort" "" d;
      supported ← (match assoc "supportedReasoningEfforts" d with
                   | None => Some []
                   | Some (JArr l) => all_some effort_in l
                   | Some _ => None
                   end);
      Some (mk_model id name description is_default effort supported, hidden)
  | _ => None
  end.

(** [_parse]: an item that does not validate is skipped, a hidden one left out. *)
Fixpoint parse_models (raw : list json) : list CodexModel :=
  match raw with
  | [] => []
  | item :: raw' =>
      match model_in item with
      | Some (m, false) => m :: parse_models raw'
      | _ => parse_models raw'
      end
  end.

(* ------------------------------------------------------------------ *)
(** * Catalogue *)

Definition MODELS_CACHE_KEY_PREFIX : string := "codex:models:".
Definition MODELS_CACHE_TTL_S : Z := 600.
Definition models_cache_key (sidecar : SidecarName) : string :=
  MODELS_CACHE_KEY_PREFIX ++ SidecarName_value sidecar.

(** [_read_cache]; a text that is not JSON or does not validate counts as a miss. *)
Definition read_cache (sidecar : SidecarName) : prog world exn (option (list CodexModel)) :=
  let! raw := except (fun e => match e with RedisError => pret None | _ => praise e end)
                (redis_op (redis_get (models_cache_key sidecar))) in
  match raw with
  | Some (RJson j) =>
      let! items := lift_result (iterate j) in
      pret (all_some codex_model_validate items)
  | _ => pret None
  end.

Definition write_cache (sidecar : SidecarName) (models : list CodexModel) : prog world exn unit :=
  redis_quiet (redis_op (set_json_ex (models_cache_key sidecar) (JArr (map model_dump models)) MODELS_CACHE_TTL_S)).

Definition catalog_list (sidecar : SidecarName) : prog world exn (list CodexModel) :=
  let! cached := read_cache sidecar in
  match cached with
  | Some models => pret models
  | None =>
      let! raw := one_shot_client (bool_decide (sidecar = ADMIN)) list_models in
      let models := parse_models raw in
      write_cache sidecar models ;;
      pret models
  end.

Definition catalog_find (sidecar : SidecarName) (model_id : string) : prog world exn (option CodexModel) :=
  let! models := catalog_list sidecar in
  pret (List.find (fun m => String.eqb (cm_id m) model_id) models).

(* ------------------------------------------------------------------ *)
(** * Service *)

Definition UnknownModelError (model_id : string) : exn :=
  OtherException "UnknownModelError" ("unknown model: " ++ model_id).
Definition UnsupportedReasoningEffortError (model_id effort : string) : exn :=
  OtherException "UnsupportedReasoningEffortError"
    ("model " ++ model_id ++ " does not support reasoning effort " ++ effort).

Definition supports (m : CodexModel) (effort : string) : bool :=
  match cm_supported_reasoning_efforts m with
  | [] => true
  | l => existsb (fun o => String.eqb (eo_value o) effort) l
  end.

(** [settings.CODEX_REASONING_EFFORT]. *)
Context (CODEX_REASONING_EFFORT : string).

Definition fallback_reasoning_effort : option string :=
  if nonempty CODEX_REASONING_EFFORT then Some CODEX_REASONING_EFFORT else None.

Definition no_prefs : CodexPreferences := mk_prefs None None.

Definition prefs_of (user_id : Z) (rows : list (Z * CodexPreferences)) : CodexPreferences :=
  match List.find (fun r => Z.eqb r.1 user_id) rows with Some (_, p) => p | None => no_prefs end.

Definition prefs_get (user_id : Z) : prog world exn CodexPreferences :=
  sql (fun d => prefs_of user_id (db_prefs d)).

Definition effective_model (sidecar : SidecarName) (model_id : option string) :
    prog world exn (option CodexModel) :=
  match model_id with
  | Some m => catalog_find sidecar m
  | None => let! models := catalog_list sidecar in pret (List.find cm_is_default models)
  end.

Definition validate_prefs (sidecar : SidecarName) (prefs : CodexPreferences) : prog world exn unit :=
  let! model := effective_model sidecar (pr_model prefs) in
  match pr_model prefs, model with
  | Some m, None => praise (UnknownModelError m)
  | _, _ =>
      match pr_effort prefs, model with
      | Some effort, Some model =>
          if supports model effort then pret tt
          else praise (UnsupportedReasoningEffortError (cm_id model) effort)
      | _, _ => pret tt
      end
  end.

(** [INSERT .. ON CONFLICT (user_id) DO UPDATE]. *)
Fixpoint upsert (user_id : Z) (p : CodexPreferences) (rows : list (Z * CodexPreferences)) :
    list (Z * CodexPreferences) :=
  match rows with
  | [] => [(user_id, p)]
  | (u, q) :: rows' => if Z.eqb u user_id then (u, p) :: rows' else (u, q) :: upsert user_id p rows'
  end.

Definition prefs_update (user_id : Z) (sidecar : SidecarName) (prefs : CodexPreferences) :
    prog world exn CodexPreferences :=
  validate_prefs sidecar prefs ;;
  sql_write (fun d => set_prefs (upsert user_id prefs (db_prefs d)) d) ;;
  pret prefs.

Definition or_default (o : option string) : string :=
  match o with Some s => if nonempty s then s else "default" | None => "default" end.

(** The options for a model the catalogue has. *)
Definition options_for (prefs : CodexPreferences) (model : CodexModel) : TurnOptions :=
  match pr_effort prefs with
  | Some e => mk_options (Some (cm_id model)) (Some e)
  | None =>
      match fallback_reasoning_effort with
      | Some f => if supports model f then mk_options (Some (cm_id model)) (Some f)
                  else mk_options (Some (cm_id model)) None
      | None => mk_options (Some (cm_id model)) None
      end
  end.

Definition resolve_turn_options (user_id : Z) (sidecar : SidecarName) : prog world exn TurnOptions :=
  let! prefs := prefs_get user_id in
  let! model := effective_model sidecar (pr_model prefs) in
  match model with
  | None => praise (UnknownModelError (or_default (pr_model prefs)))
  | Some model => pret (options_for prefs model)
  end.

(* ------------------------------------------------------------------ *)
(** * RPC *)

Definition sidecar_for (role : UserRole) : SidecarName :=
  if bool_decide (role = Role_ADMIN) then ADMIN else GUEST.

(** [_SIDECAR_ERRORS]. *)
Definition is_sidecar_error (e : exn) : bool :=
  match e with
  | WebSocketException _ | OSError _ | TimeoutError => true
  | _ => bool_decide (is_Some (as_app_error e))
  end.

Definition sidecar_unavailable (e : exn) : exn :=
  ConnectError "unavailable" ("sidecar unavailable: " ++ exn_str e).

Definition is_prefs_error (e : exn) : bool :=
  bool_decide (is_Some (raised "UnknownModelError" e)) ||
  bool_decide (is_Some (raised "UnsupportedReasoningEffortError" e)).

(** The models and the fallback effort of the answer. *)
Definition rpc_list_models (u : user) : prog world exn (list CodexModel * string) :=
  let! models := except (fun e => if is_sidecar_error e then praise (sidecar_unavailable e) else praise e)
                   (catalog_list (sidecar_for (u_role u))) in
  pret (models, default "" fallback_reasoning_effort).

Definition get_preferences (u : user) : prog world exn CodexPreferences :=
  with_session (prefs_get (u_id u)).

(** [value.strip() or None if HasField else None]. *)
Definition blank_to_none (o : option string) : option string :=
  match o with Some s => if nonempty (strip s) then Some (strip s) else None | None => None end.

Definition update_preferences (u : user) (model reasoning_effort : option string) :
    prog world exn CodexPreferences :=
  let prefs := mk_prefs (blank_to_none model) (blank_to_none reasoning_effort) in
  except (fun e => if is_prefs_error e then praise (ConnectError "invalid_argument" (exn_str e))
                   else if is_sidecar_error e then praise (sidecar_unavailable e) else praise e)
    (with_session (
       let! saved := prefs_update (u_id u) (sidecar_for (u_role u)) prefs in
       commit ;;
       pret saved)).
End Catalogue.

(* ------------------------------------------------------------------ *)
(** * Lemmas *)

Section Lemmas.
Context (pyd_bool : json -> option bool) (CODEX_REASONING_EFFORT : string).
(** A JSON boolean is a valid [bool]. *)
Context (Hbool : forall b, pyd_bool (JBool b) = Some b).
Notation catalog_list := (catalog_list pyd_bool).
Notation effective_model := (effective_model pyd_bool).
Notation prefs_update := (prefs_update pyd_bool).
Notation resolve_turn_options := (resolve_turn_options pyd_bool CODEX_REASONING_EFFORT).

Lemma all_some_map {A B} (f : A -> option B) (g : B -> A) l :
  (forall x, f (g x) = Some x) -> all_some f (map g l) = Some l.
Proof. intros H. induction l as [|x l IH]; [done|]. simpl. by rewrite H, IH. Qed.

(** A model survives [model_dump] and [model_validate]. *)
Lemma model_validate_dump m : codex_model_validate pyd_bool (model_dump m) = Some m.
Proof.
  destruct m as [id name de def eff sup]. unfold codex_model_validate, model_dump, req_str, req_bool.
  cbn [assoc String.eqb Ascii.eqb Bool.eqb mbind option_bind cm_id cm_display_name cm_description
       cm_is_default cm_default_reasoning_effort cm_supported_reasoning_efforts].
  rewrite Hbool. cbn [mbind option_bind].
  rewrite all_some_map; [done|]. by intros [].
Qed.

(** The cache holds these models, and Redis answers. *)
Definition catalogue_cached (sidecar : SidecarName) (models : list CodexModel) (w : world) : Prop :=
  live w (models_cache_key sidecar) = Some (RJson (JArr (map model_dump models))) /\ w_faults w = [].

Lemma cached_list sidecar models w :
  catalogue_cached sidecar models w -> catalog_list sidecar w = (Ok models, w).
Proof.
  intros [Hl Hf]. unfold catalog_list, read_cache, pbind, except, redis_op. rewrite Hf.
  unfold redis_get. rewrite Hl. unfold lift_result. cbn [iterate].
  rewrite all_some_map by apply model_validate_dump. done.
Qed.

Definition effective (models : list CodexModel) (model_id : option string) : option CodexModel :=
  match model_id with
  | Some m => List.find (fun x => String.eqb (cm_id x) m) models
  | None => List.find cm_is_default models
  end.

Lemma cached_effective sidecar models id w :
  catalogue_cached sidecar models w -> effective_model sidecar id w = (Ok (effective models id), w).
Proof.
  intros H. destruct id; unfold effective_model, catalog_find, pbind; by rewrite (cached_list _ _ _ H).
Qed.

(** What [_validate] finds wrong with a preference, the catalogue being [models]. *)
Definition prefs_rejected (models : list CodexModel) (p : CodexPreferences) : option exn :=
  match pr_model p, effective models (pr_model p) with
  | Some m, None => Some (UnknownModelError m)
  | None, None => None
  | _, Some model =>
      match pr_effort p with
      | Some e => if supports model e then None
                  else Some (UnsupportedReasoningEffortError (cm_id model) e)
      | None => None
      end
  end.

Lemma cached_update user_id sidecar models p w :
  catalogue_cached sidecar models w ->
  prefs_update user_id sidecar p w =
  match prefs_rejected models p with
  | Some e => (Raise e, w)
  | None => (Ok p, set_tx (set_prefs (upsert user_id p (db_prefs (w_tx w))) (w_tx w)) w)
  end.
Proof.
  intros H. unfold prefs_update, validate_prefs, pbind at 1 2. rewrite (cached_effective _ _ _ _ H).
  unfold prefs_rejected. destruct (pr_model p) as [m|], (effective _ _) as [x|]; try done.
  all: destruct (pr_effort p) as [e|]; try done; by destruct (supports x e).
Qed.

Lemma prefs_of_upsert u p rows : prefs_of u (upsert u p rows) = p.
Proof.
  unfold prefs_of. induction rows as [|[v q] rows IH]; simpl; [by rewrite Z.eqb_refl|].
  destruct (Z.eqb v u) eqn:E; simpl; rewrite E; [done|apply IH].
Qed.

Lemma prefs_of_upsert_ne u v p rows : u <> v -> prefs_of v (upsert u p rows) = prefs_of v rows.
Proof.
  intros Hne. unfold prefs_of. induction rows as [|[x q] rows IH]; simpl.
  - by destruct (Z.eqb_spec u v).
  - destruct (Z.eqb_spec x u) as [->|]; simpl.
    + by destruct (Z.eqb_spec u v).
    + by destruct (Z.eqb x v).
Qed.

(** One-shot clients change the server only by taking a scripted connection. *)
Lemma request_tables m p : respects (same fst) (request m p).
Proof. intros cw. unfold request. by destruct (s_replies cw.2) as [|[d r] l]. Qed.
#[local] Hint Resolve request_tables : frame.

Lemma handshake_server x : respects (same fst) (handshake x).
Proof. unfold handshake. solve_frame. Qed.
#[local] Hint Resolve handshake_server : frame.

Lemma list_models_from_server fuel : forall c ms, respects (same fst) (list_models_from fuel c ms).
Proof. induction fuel as [|fuel IH]; intros c ms; simpl; solve_frame. Qed.

Lemma list_models_server : respects (same fst) list_models.
Proof. intros cw. apply list_models_from_server. Qed.

Lemma one_shot_models b w :
  exists rest, (one_shot_client b list_models w).2 = set_dials rest w.
Proof.
  unfold one_shot_client, with_client, pbind at 1, dial.
  destruct (next_dial _ (w_dials w)) as [r rest]. exists rest. destruct r as [x|e]; [|done].
  pose proof (respects_bind (same fst) (handshake x) (fun _ => list_models) (handshake_server x)
    (fun _ => list_models_server) (set_dials rest w, fresh_session None x)) as H.
  match goal with |- (let '(_, _) := ?z in _).2 = _ => transitivity z.2.1; [by destruct z|exact H] end.
Qed.

(** A miss that succeeds leaves the catalogue in the cache. *)
Lemma miss_fills sidecar models w w1 :
  w_faults w = [] -> live w (models_cache_key sidecar) = None ->
  catalog_list sidecar w = (Ok models, w1) ->
  exists rest, w1 = put_key (models_cache_key sidecar) (RJson (JArr (map model_dump models)))
                      (Some (w_now w + seconds MODELS_CACHE_TTL_S)) (set_dials rest w).
Proof.
  intros Hf Hl. unfold catalog_list, pbind at 1, read_cache, pbind at 1, except, redis_op at 1.
  rewrite Hf. unfold redis_get. rewrite Hl. cbn [fst snd pret]. unfold pbind at 1.
  destruct (one_shot_models (bool_decide (sidecar = ADMIN)) w) as [rest Hr].
  destruct (one_shot_client (bool_decide (sidecar = ADMIN)) list_models w) as [[raw|e] w2];
    simpl in Hr; subst w2; [|done].
  unfold pbind, write_cache, redis_quiet, redis_default, except, redis_op. simpl. rewrite Hf.
  intros [= <- <-]. by exists rest.
Qed.

(* ------------------------------------------------------------------ *)
(** * Theorems *)

(** The catalogue a miss fetched is served from the cache for the next ten minutes:
    the same models, no connection to the sidecar and no change of the server. *)
Theorem catalogue_cached_once sidecar models w w1 t
    (Hf : w_faults w = []) (Hmiss : live w (models_cache_key sidecar) = None)
    (H : catalog_list sidecar w = (Ok models, w1))
    (Ht : t <= w_now w + seconds MODELS_CACHE_TTL_S) :
  catalog_list sidecar (set_now t w1) = (Ok models, set_now t w1).
Proof.
  destruct (miss_fills _ _ _ _ Hf Hmiss H) as [rest ->]. apply cached_list.
  split; [|done]. unfold live, put_key. cbn [w_redis set_redis set_now w_now].
  rewrite lookup_insert_eq. by apply Z.leb_le in Ht as ->.
Qed.

(** an update is validated against the catalogue. A rejected one raises and changes
    nothing; an accepted one is what the user's turns resolve to: the chosen model, or the
    sidecar's default one, with the chosen effort, or the configured one if the model
    supports it. Only when no model was chosen and the catalogue has no default is an
    accepted preference one that no turn can resolve. *)
Theorem accepted_prefs_resolve user_id sidecar models p w
    (H : catalogue_cached sidecar models w) :
  match prefs_rejected models p with
  | Some e => prefs_update user_id sidecar p w = (Raise e, w)
  | None => exists w1, prefs_update user_id sidecar p w = (Ok p, w1) /\
      resolve_turn_options user_id sidecar w1 =
        (match effective models (pr_model p) with
         | Some m => Ok (options_for CODEX_REASONING_EFFORT p m)
         | None => Raise (UnknownModelError "default")
         end, w1) /\
      (effective models (pr_model p) = None -> pr_model p = None) /\
      (forall v, v <> user_id -> prefs_of v (db_prefs (w_tx w1)) = prefs_of v (db_prefs (w_tx w)))
  end.
Proof.
  pose proof (cached_update user_id _ _ p _ H) as Hu. destruct (prefs_rejected models p) eqn:Er; [done|].
  eexists. split; [exact Hu|]. set (w1 := set_tx _ w).
  assert (H1 : catalogue_cached sidecar models w1) by exact H. split_and!.
  - unfold resolve_turn_options, pbind at 1, prefs_get, sql, gets. cbn [fst snd].
    replace (prefs_of user_id (db_prefs (w_tx w1))) with p by (symmetry; apply prefs_of_upsert).
    unfold pbind. rewrite (cached_effective _ _ _ _ H1).
    destruct (effective models (pr_model p)) eqn:Ee; [done|].
    unfold prefs_rejected in Er. rewrite Ee in Er. by destruct (pr_model p).
  - unfold prefs_rejected in Er. intros Ee. rewrite Ee in Er. by destruct (pr_model p).
  - intros v Hv. by apply prefs_of_upsert_ne.
Qed.
End Lemmas.

(* ------------------------------------------------------------------ *)
(** * Witnesses *)

Definition demo_bool (j : json) : option bool := match j with JBool b => Some b | _ => None end.

Definition demo_item : json :=
  JObj [("id", JStr "gpt"); ("displayName", JStr "GPT"); ("isDefault", JBool true);
        ("supportedReasoningEfforts", JArr [JObj [("reasoningEffort", JStr "low")]])].
Definition demo_model : CodexModel := mk_model "gpt" "GPT" "" true "" [mk_effort "low" ""].

(** A sidecar that answers [initialize] and one page of [model/list]. *)
Definition demo_dialed : world :=
  set_dials [(ADMIN, Ok (mk_wire (Ok tt) 0
    [(5, Ok (JObj [])); (5, Ok (JObj [("data", JArr [demo_item])]))] [] 100))] empty_world.

Lemma catalogue_cached_once_witness :
  catalog_list demo_bool ADMIN (set_now 1000 (catalog_list demo_bool ADMIN demo_dialed).2) =
    (Ok [demo_model], set_now 1000 (catalog_list demo_bool ADMIN demo_dialed).2).
Proof.
  apply (catalogue_cached_once demo_bool (fun b => eq_refl) ADMIN [demo_model] demo_dialed).
  - reflexivity.
  - vm_compute. reflexivity.
  - vm_compute. reflexivity.
  - vm_compute. discriminate.
Defined.

Definition demo_cached : world :=
  put_key (models_cache_key GUEST) (RJson (JArr (map model_dump [demo_model]))) None empty_world.

Lemma accepted_prefs_resolve_witness :
  exists w1, prefs_update demo_bool 7 GUEST (mk_prefs (Some "gpt") (Some "low")) demo_cached =
      (Ok (mk_prefs (Some "gpt") (Some "low")), w1) /\
    resolve_turn_options demo_bool "high" 7 GUEST w1 =
      (Ok (mk_options (Some "gpt") (Some "low")), w1).
Proof.
  assert (H : catalogue_cached GUEST [demo_model] demo_cached) by (split; vm_compute; reflexivity).
  destruct (accepted_prefs_resolve demo_bool "high" (fun b => eq_refl) 7 GUEST [demo_model]
    (mk_prefs (Some "gpt") (Some "low")) demo_cached H) as (w1 & H1 & H2 & _).
  exists w1. split; [exact H1 | exact H2].
Defined.
