(* ===== verification/McpAuthz.v ===== *)
(** Who a tool call acts for ([services/mcp_authz], [mcp/authz.py]): the signed token put
    into a thread's configuration, its verification, and the identity resolved against the
    database at each call; and the token of a sidecar's WebSocket ([services/codex/jwt.py]).

    PyJWT and pydantic's coercion of [int] fields are parameters; the texts of their errors
    are left out of the messages. *)
From S2P Require Import Prelude PyStr Json Models Events World Translate Services.

Open Scope Z_scope.
Open Scope string_scope.

Inductive McpAuthzRole := Mcp_ADMIN | Mcp_USER.
#[export] Instance McpAuthzRole_eq : EqDecision McpAuthzRole. Proof. solve_decision. Defined.

Record McpAuthzClaims := mk_claims {
  mc_user_id : Z;
  mc_chat_id : Z;
  mc_sidecar : SidecarName;
  mc_iat : Z
}.

Record McpIdentity := mk_identity { mi_user_id : Z; mi_chat_id : Z; mi_role : McpAuthzRole }.

Definition McpAuthzError (msg : string) : exn := OtherException "McpAuthzError" msg.
Definition ToolError (msg : string) : exn := OtherException "ToolError" msg.

Definition AUTHZ_HEADER : string := "X-Codex-Authz".
Definition MCP_SERVER_NAME : string := "codex_app".
Definition ISSUER : string := "codex-server".

Section Authz.
(** [jwt.encode(payload, secret)] and [jwt.decode(token, secret, issuer=..)] at a time in
    seconds; [None] stands for an [InvalidTokenError]. *)
Context (jwt_encode : dict -> string -> string).
Context (jwt_decode : string -> string -> string -> Z -> option dict).
Context (pyd_int : json -> option Z).
(** [settings.MCP_AUTHZ_SECRET]. *)
Context (secret : string).

(** [int(time.time())]. *)
Definition unix_time (w : world) : Z := w_now w / 1000.

Definition claims_payload (user_id chat_id : Z) (sidecar : SidecarName) (iat : Z) : dict :=
  [("iss", JStr ISSUER); ("user_id", JNum user_id); ("chat_id", JNum chat_id);
   ("sidecar", JStr (SidecarName_value sidecar)); ("iat", JNum iat)].

Definition issue (user_id chat_id : Z) (sidecar : SidecarName) : prog world exn string :=
  fun w => (Ok (jwt_encode (claims_payload user_id chat_id sidecar (unix_time w)) secret), w).

(** [McpAuthzClaims.model_validate]: every field required, no other allowed. *)
Definition claims_validate (d : dict) : option McpAuthzClaims :=
  if only_keys ["user_id"; "chat_id"; "sidecar"; "iat"] d then
    user_id ← assoc "user_id" d ≫= pyd_int;
    chat_id ← assoc "chat_id" d ≫= pyd_int;
    sidecar ← (match assoc "sidecar" d with
               | Some (JStr s) => SidecarName_of_value s
               | _ => None
               end);
    iat ← assoc "iat" d ≫= pyd_int;
    Some (mk_claims user_id chat_id sidecar iat)
  else None.

Definition verify (token : string) : prog world exn McpAuthzClaims :=
  let! now := gets unix_time in
  match jwt_decode token secret ISSUER now with
  | None => praise (McpAuthzError "invalid_authz")
  | Some payload =>
      match claims_validate (assoc_del "iss" payload) with
      | None => praise (McpAuthzError "malformed_claims")
      | Some claims => pret claims
      end
  end.

Definition resolve (claims : McpAuthzClaims) : prog world exn McpIdentity :=
  let! user := user_get (mc_user_id claims) in
  match user with
  | None => praise (McpAuthzError ("unknown_user: " ++ str_of_Z (mc_user_id claims)))
  | Some u =>
      let is_admin := bool_decide (u_role u = Role_ADMIN) && bool_decide (mc_sidecar claims = ADMIN) in
      pret (mk_identity (u_id u) (mc_chat_id claims) (if is_admin then Mcp_ADMIN else Mcp_USER))
  end.

Definition thread_config (token : string) : dict :=
  [("mcp_servers." ++ MCP_SERVER_NAME,
    JObj [("http_headers", JObj [(AUTHZ_HEADER, JStr token)])])].

(* ------------------------------------------------------------------ *)
(** * [mcp/authz.py] *)

Definition authz_header (headers : list (string * string)) : option string :=
  snd <$> List.find (fun kv => String.eqb (lower kv.1) (lower AUTHZ_HEADER)) headers.

(** [except McpAuthzError as exc: raise ToolError(str(exc))]. *)
Definition as_tool_error {A} (m : prog world exn A) : prog world exn A :=
  except (fun e => match raised "McpAuthzError" e with
                   | Some msg => praise (ToolError msg)
                   | None => praise e
                   end) m.

Definition require_claims (headers : list (string * string)) : prog world exn McpAuthzClaims :=
  match authz_header headers with
  | Some token =>
      if nonempty token then as_tool_error (verify token)
      else praise (ToolError (AUTHZ_HEADER ++ " header missing: tool called outside a Codex thread"))
  | None => praise (ToolError (AUTHZ_HEADER ++ " header missing: tool called outside a Codex thread"))
  end.

Definition require_identity (headers : list (string * string)) : prog world exn McpIdentity :=
  let! claims := require_claims headers in
  as_tool_error (with_session (resolve claims)).

(* ------------------------------------------------------------------ *)
(** * [services/codex/jwt.py] *)

Definition WS_TOKEN_TTL_S : Z := 60.

(** The payload and secret of [make_ws_token]; issuer, audiences and secrets are settings,
    a pair per sidecar. *)
Definition ws_token_payload (issuer audience : string) (now : Z) : dict :=
  [("iss", JStr issuer); ("aud", JStr audience); ("iat", JNum now); ("exp", JNum (now + WS_TOKEN_TTL_S))].

Definition make_ws_token (issuer : string) (audience ws_secret : SidecarName -> string)
    (sidecar : SidecarName) : prog world exn string :=
  fun w => (Ok (jwt_encode (ws_token_payload issuer (audience sidecar) (unix_time w)) (ws_secret sidecar)), w).
End Authz.

(* ------------------------------------------------------------------ *)
(** * Theorems *)

Section Properties.
Context (jwt_encode : dict -> string -> string).
Context (jwt_decode : string -> string -> string -> Z -> option dict).
Context (pyd_int : json -> option Z) (secret : string).
Notation issue := (issue jwt_encode secret).
Notation require_identity := (require_identity jwt_decode pyd_int secret).

(** A JSON integer is a valid [int]. *)
Context (Hpyd : forall z, pyd_int (JNum z) = Some z).
(** A token of the service decodes with its secret to its payload, once it was issued. *)
Context (Hjwt : forall u c s iat now, iat <= now ->
  jwt_decode (jwt_encode (claims_payload u c s iat) secret) secret ISSUER now =
  Some (claims_payload u c s iat)).
(** Its text is not empty. *)
Context (Hne : forall p, jwt_encode p secret <> "").

Lemma verify_issued user_id chat_id sidecar iat w :
  iat <= unix_time w ->
  verify jwt_decode pyd_int secret (jwt_encode (claims_payload user_id chat_id sidecar iat) secret) w =
    (Ok (mk_claims user_id chat_id sidecar iat), w).
Proof.
  intros Ht. unfold verify, pbind, gets. rewrite Hjwt by done. cbn -[SidecarName_value].
  rewrite !Hpyd. cbn -[SidecarName_value].
  by destruct sidecar.
Qed.

Lemma session_user_get id w :
  (with_session (user_get id) w).1 = Ok (List.find (fun u => Z.eqb (u_id u) id) (db_users (w_db w))).
Proof. done. Qed.

(** the token a thread was opened with identifies its owner at every later call: the
    identity is the owner's user and the thread's chat; it is an administrator exactly
    when the database says so now and the thread runs on the administrators' sidecar; and
    for a deleted user the call is refused. *)
Theorem issued_token_identity user_id chat_id sidecar w0 token w0' w headers
    (Hissue : issue user_id chat_id sidecar w0 = (Ok token, w0'))
    (Hlater : unix_time w0 <= unix_time w) (Hheader : authz_header headers = Some token) :
  (require_identity headers w).1 =
  match List.find (fun u => Z.eqb (u_id u) user_id) (db_users (w_db w)) with
  | None => Raise (ToolError ("unknown_user: " ++ str_of_Z user_id))
  | Some u => Ok (mk_identity user_id chat_id
      (if bool_decide (u_role u = Role_ADMIN /\ sidecar = ADMIN) then Mcp_ADMIN else Mcp_USER))
  end.
Proof.
  injection Hissue as <- _. unfold require_identity, require_claims. rewrite Hheader.
  set (token := jwt_encode _ secret).
  assert (nonempty token = true) as -> by (apply nonempty_true; apply Hne).
  unfold pbind at 1, as_tool_error at 1, except at 1.
  unfold token. rewrite verify_issued by done. unfold as_tool_error, except, with_session, resolve, pbind.
  unfold user_get, sql, gets. cbn [w_tx set_hooks set_tx mc_user_id fst snd].
  destruct (List.find _ (db_users (w_db w))) as [u|] eqn:E; [|done].
  apply List.find_some in E as [_ E]. apply Z.eqb_eq in E. cbn. rewrite E. do 3 f_equal.
  repeat case_bool_decide; simpl; done || tauto.
Qed.

(** No call becomes an administrator's without the database: whatever the headers, an
    administrator's identity is that of an existing user whose row has the role now. *)
Theorem admin_identity_in_db headers w identity w'
    (H : require_identity headers w = (Ok identity, w')) (Hadmin : mi_role identity = Mcp_ADMIN) :
  exists u, In u (db_users (w_db w)) /\ u_id u = mi_user_id identity /\ u_role u = Role_ADMIN.
Proof.
  unfold require_identity, pbind at 1 in H.
  destruct (require_claims jwt_decode pyd_int secret headers w) as [[claims|e] w1] eqn:Ec; [|done].
  assert (w1 = w) as ->.
  { unfold require_claims in Ec. destruct (authz_header headers) as [t|]; [|done].
    destruct (nonempty t); [|done]. unfold as_tool_error, except, verify, pbind, gets in Ec.
    destruct (jwt_decode _ _ _ _) as [p|]; [|done]. destruct (claims_validate _ _); [|done].
    by injection Ec. }
  unfold as_tool_error, except, with_session, resolve, pbind, user_get, sql, gets in H.
  cbn [w_tx set_hooks set_tx fst snd] in H.
  destruct (List.find _ (db_users (w_db w))) as [u|] eqn:E; [|done].
  apply List.find_some in E as [Hin _]. cbn in H. injection H as <- _.
  exists u. split; [done|]. split; [done|]. simpl in Hadmin.
  by destruct (decide (u_role u = Role_ADMIN)); [|rewrite bool_decide_false in Hadmin].
Qed.
End Properties.

(* ------------------------------------------------------------------ *)
(** * Witnesses *)

(** A signing function that writes the claims as one number. *)
Definition demo_jwt_encode (p : dict) (_ : string) : string :=
  match get_or_null "user_id" p, get_or_null "chat_id" p, get_or_null "iat" p with
  | JNum u, JNum c, JNum t =>
      str_of_Z (Zpos (encode (u, c, bool_decide (get_str "sidecar" p = Some "admin"), t)))
  | _, _, _ => "-"
  end.

Definition demo_jwt_decode (token _ _ : string) (now : Z) : option dict :=
  match py_int token with
  | Some (Zpos x) =>
      match decode (A := Z * Z * bool * Z) x with
      | Some (u, c, b, t) =>
          if Z.leb t now then Some (claims_payload u c (if b : bool then ADMIN else GUEST) t) else None
      | None => None
      end
  | _ => None
  end.

Definition demo_int (j : json) : option Z := match j with JNum z => Some z | _ => None end.

Lemma demo_jwt u c s iat now : iat <= now ->
  demo_jwt_decode (demo_jwt_encode (claims_payload u c s iat) "k") "k" ISSUER now =
  Some (claims_payload u c s iat).
Proof.
  intros Ht. unfold demo_jwt_encode, demo_jwt_decode. cbn [get_or_null claims_payload assoc String.eqb
    Ascii.eqb Bool.eqb]. rewrite py_int_str_of_Z, decode_encode. apply Z.leb_le in Ht as ->. by destruct s.
Qed.

Lemma demo_jwt_nonempty p : demo_jwt_encode p "k" <> "".
Proof.
  unfold demo_jwt_encode. repeat case_match; try done.
  intros Hs. apply (f_equal py_int) in Hs. by rewrite py_int_str_of_Z in Hs.
Qed.

Definition demo_admin : user := mk_user 4 None None None None None Role_ADMIN.
Definition demo_users_world : world :=
  set_db (set_users [demo_admin] empty_db) (set_now 5000 empty_world).
Definition demo_token : string :=
  demo_jwt_encode (claims_payload 4 9 ADMIN 5) "k".

Lemma issued_token_identity_witness :
  (require_identity demo_jwt_decode demo_int "k" [("x-codex-authz", demo_token)] demo_users_world).1 =
    Ok (mk_identity 4 9 Mcp_ADMIN).
Proof.
  exact (issued_token_identity demo_jwt_encode demo_jwt_decode demo_int "k" (fun z => eq_refl) demo_jwt
    demo_jwt_nonempty 4 9 ADMIN demo_users_world demo_token demo_users_world demo_users_world
    [("x-codex-authz", demo_token)] eq_refl (Z.le_refl _) eq_refl).
Defined.

Lemma admin_identity_in_db_witness :
  exists u, In u (db_users (w_db demo_users_world)) /\ u_id u = 4 /\ u_role u = Role_ADMIN.
Proof.
  pose (r := require_identity demo_jwt_decode demo_int "k" [("x-codex-authz", demo_token)] demo_users_world).
  assert (H : r = (Ok (mk_identity 4 9 Mcp_ADMIN), r.2)) by (vm_compute; reflexivity).
  exact (admin_identity_in_db demo_jwt_decode demo_int "k" _ _ _ _ H eq_refl).
Defined.
