(* ===== verification/OpenTurn.v ===== *)
(** The opening of a turn ([open_codex_turn], [services/codex/runner.py]): the stored thread
    and its quarantine, the options of the turn, the signed thread configuration, the
    connection, and the thread that is resumed or started, stored and seeded. *)
From S2P Require Import Prelude PyStr Json Models Events World Translate CodexRemote Services.
From S2P Require Import Session CodexClient CodexPrefs McpAuthz.

Open Scope Z_scope.
Open Scope string_scope.

Section Open.
Context (pyd_bool : json -> option bool) (jwt_encode : dict -> string -> string).
(** The settings [CODEX_REASONING_EFFORT], [MCP_AUTHZ_SECRET], [CODEX_THREAD_REUSE_ENABLED],
    [CODEX_CWD], [CODEX_APPROVAL_POLICY] and [CODEX_SANDBOX]. *)
Context (CODEX_REASONING_EFFORT MCP_AUTHZ_SECRET : string) (CODEX_THREAD_REUSE_ENABLED : bool).
Context (cwd approval_policy sandbox : string).

Definition load_turn_options (user_id : Z) (sidecar : SidecarName) : prog world exn TurnOptions :=
  with_session (resolve_turn_options pyd_bool CODEX_REASONING_EFFORT user_id sidecar).

Definition load_stored_thread_id (db_chat_id : Z) : prog world exn (option string) :=
  with_session (
    let! chat := chat_get db_chat_id in
    pret (match chat with Some c => c_codex_thread_id c | None => None end)).

Definition thread_change_callback (db_chat_id : Z) (new_thread_id : option string) : cprog unit :=
  on_server (with_session (set_codex_thread_id db_chat_id new_thread_id ;; commit)).

(** What runs on the connected client before it is handed to the caller. *)
Definition prepare_thread (db_chat_id : Z) (stored_thread_id : option string) (config : dict)
    (seed : bool) : cprog unit :=
  if seed then
    ensure_thread cwd approval_policy sandbox (Some config) (Some (thread_change_callback db_chat_id)) ;;
    let! current := sess s_thread_id in
    if bool_decide (current = stored_thread_id) then pret tt else seed_history db_chat_id
  else pret tt.

(** [async with open_codex_turn(..) as client: body]; the body takes what the client was
    built with: the options of the turn, the thread configuration, the thread callback. *)
Definition open_codex_turn {A} (db_chat_id user_id : Z) (is_admin seed : bool)
    (body : TurnOptions -> dict -> (option string -> cprog unit) -> cprog A) : prog world exn A :=
  let! stored := load_stored_thread_id db_chat_id in
  let! initial := initial_thread CODEX_THREAD_REUSE_ENABLED stored in
  let sidecar := if is_admin then ADMIN else GUEST in
  let! options := load_turn_options user_id sidecar in
  let! token := issue jwt_encode MCP_AUTHZ_SECRET user_id db_chat_id sidecar in
  let config := thread_config token in
  with_client sidecar initial
    (prepare_thread db_chat_id stored config seed ;;
     body options config (thread_change_callback db_chat_id)).
End Open.

(* ------------------------------------------------------------------ *)
(** * Lemmas *)

Section Lemmas.
Context (cwd approval_policy sandbox : string) (config : dict) (chat_id : Z).
Notation callback := (thread_change_callback chat_id).
Notation ensure := (ensure_thread cwd approval_policy sandbox (Some config) (Some callback)).

Definition chat_row (w : world) : option chat := List.find (chat_is chat_id) (db_chats (w_db w)).
Definition chat_messages (w : world) : list message :=
  last_page HISTORY_REPLAY_LIMIT
    (List.filter (fun m => Z.eqb (m_chat_id m) chat_id) (db_messages (w_db w))).

(** The chat's thread is [id] and its messages are as before. *)
Definition thread_stored (id : option string) (w w' : world) : Prop :=
  chat_row w' = with_thread id <$> chat_row w /\ chat_messages w' = chat_messages w.

Lemma callback_stores id w s :
  exists w', callback id (w, s) = (Ok tt, (w', s)) /\ thread_stored id w w'.
Proof.
  eexists. split; [reflexivity|]. unfold thread_stored, chat_row, chat_messages. simpl. split; [|done].
  unfold update_where, chat_is. induction (db_chats (w_db w)) as [|c l IH]; [done|]. simpl.
  destruct (Z.eqb (c_id c) chat_id) eqn:E; simpl; rewrite E; [done|exact IH].
Qed.

Lemma emit_stores id w s :
  exists w', emit_thread_change (Some callback) id (w, s) = (Ok tt, (w', s)) /\ thread_stored id w w'.
Proof.
  destruct (callback_stores id w s) as (w' & H1 & H2). exists w'. split; [|done].
  unfold emit_thread_change, except. by rewrite H1.
Qed.

Lemma thread_stored_trans a b w1 w2 w3 :
  thread_stored a w1 w2 -> thread_stored b w2 w3 -> thread_stored b w1 w3.
Proof.
  intros [H1 H2] [H3 H4]. split; [|congruence]. rewrite H3, H1. by destruct (chat_row w1) as [[]|].
Qed.

Definition methods (s : session) : list string := map fst (s_requests s).

(** A request appends itself and keeps the server, the thread and its readiness. *)
Lemma request_cases m p w s r cw :
  request m p (w, s) = (r, cw) ->
  cw.1 = w /\ s_thread_id cw.2 = s_thread_id s /\ s_resumed_or_started cw.2 = s_resumed_or_started s /\
  s_requests cw.2 = (s_requests s ++ [(m, p)])%list.
Proof.
  unfold request. cbn [snd fst]. destruct (s_replies s) as [|[d x] l]; by intros [= <- <-].
Qed.

(** A thread that was opened is the session's and the chat's. *)
Definition now_open (ms : list string) (id : string) (w : world) (s : session) (cw : cworld) : Prop :=
  s_thread_id cw.2 = Some id /\ s_resumed_or_started cw.2 = true /\
  methods cw.2 = (methods s ++ ms)%list /\ thread_stored (Some id) w cw.1.

Lemma open_new_cases w s id cw :
  open_new_thread cwd approval_policy sandbox (Some config) (Some callback) (w, s) = (Ok id, cw) ->
  now_open ["thread/start"] id w s cw.
Proof.
  unfold open_new_thread, pbind at 1. destruct (request _ _ _) as [[j|e] [w1 s1]] eqn:E; [|done].
  apply request_cases in E as (H1 & H2 & H3 & H4). cbn [fst snd] in H1, H2, H3, H4. subst w1.
  unfold pbind at 1, lift_result. destruct (returned_id "thread" "id" j) as [x|]; [|done].
  unfold pbind at 1, mod_sess, modify. cbn [fst snd]. unfold pbind.
  destruct (emit_stores (Some x) w (set_thread (Some x) true s1)) as (w2 & -> & Hw).
  intros [= -> <-]. unfold now_open, methods. cbn [fst snd s_thread_id s_resumed_or_started s_requests set_thread].
  rewrite H4, map_app. done.
Qed.

(** How [ensure_thread] can succeed on a fresh session. *)
Lemma ensure_cases w s id cw :
  s_resumed_or_started s = false -> ensure (w, s) = (Ok id, cw) ->
  (s_thread_id s = Some id /\ cw.1 = w /\ s_thread_id cw.2 = Some id /\
   s_resumed_or_started cw.2 = true /\ methods cw.2 = (methods s ++ ["thread/resume"])%list) \/
  (is_Some (s_thread_id s) /\ now_open ["thread/resume"; "thread/start"] id w s cw) \/
  (s_thread_id s = None /\ now_open ["thread/start"] id w s cw).
Proof.
  intros Hr. unfold ensure_thread, pbind at 1 2, sess, gets. cbn [fst snd]. rewrite Hr.
  destruct (s_thread_id s) as [t|] eqn:Et; [|intros H; right; right; split; [done|by apply open_new_cases]].
  unfold pbind at 1. unfold try_resume, except_app, except, pbind at 1.
  destruct (request "thread/resume" _ (w, s)) as [r [w1 s1]] eqn:E.
  apply request_cases in E as (H1 & H2 & H3 & H4). cbn [fst snd] in H1, H2, H3, H4. subst w1.
  assert (Hm : methods s1 = (methods s ++ ["thread/resume"])%list)
    by (unfold methods; by rewrite H4, map_app).
  destruct r as [j|e].
  - cbn. intros [= <- <-]. left. rewrite H2. done.
  - destruct (as_app_error e) as [err|]; [|done]. destruct (_ || _); [|done]. cbn [pret].
    unfold reset_thread, pbind at 1 2, mod_sess, modify. cbn [fst snd].
    destruct (emit_stores None w (set_thread None false s1)) as (w2 & -> & Hw).
    intros H. apply open_new_cases in H as (Ha & Hb & Hc & Hd). right. left. split; [by eexists|].
    split_and!; [done|done| |by eapply thread_stored_trans].
    rewrite Hc. unfold methods in *. cbn [s_requests set_thread]. rewrite Hm, <- app_assoc. done.
Qed.

(** The history a fresh thread gets. *)
Definition history_of (w : world) : list json := messages_to_history_items (drop_pending_user (chat_messages w)).

Definition seeding (t : string) (w : world) : list string :=
  match history_of w with [] => [] | _ => if nonempty t then ["thread/inject_items"] else [] end.

Lemma seed_cases t w s cw :
  s_thread_id s = Some t -> seed_history chat_id (w, s) = (Ok tt, cw) ->
  thread_stored (match chat_row w with Some c => c_codex_thread_id c | None => None end) w cw.1 /\
  s_thread_id cw.2 = Some t /\ s_resumed_or_started cw.2 = s_resumed_or_started s /\
  methods cw.2 = (methods s ++ seeding t w)%list.
Proof.
  intros Ht.
  assert (Hsame : forall w', w_db w' = w_db w ->
    thread_stored (match chat_row w with Some c => c_codex_thread_id c | None => None end) w w').
  { intros w' Hw. unfold thread_stored, chat_row, chat_messages. rewrite Hw. split; [|done].
    by destruct (List.find _ _) as [[]|]. }
  set (w1 := set_hooks [] (set_tx (w_db w) (set_hooks [] (set_tx (w_db w) w)))).
  unfold seed_history, pbind at 1, on_server. cbn [fst snd].
  change (with_session (list_recent chat_id HISTORY_REPLAY_LIMIT) w)
    with (Ok (E := exn) (chat_messages w), w1).
  cbn [fst snd]. unfold seeding. fold (history_of w).
  destruct (history_of w) as [|i items]; [intros [= <-]; rewrite app_nil_r; split_and!; auto; by apply Hsame|].
  unfold inject_history, pbind at 1, sess, gets. cbn [fst snd]. rewrite Ht.
  destruct (nonempty t); [|intros [= <-]; rewrite app_nil_r; split_and!; auto; by apply Hsame].
  unfold except_app, except, pbind.
  destruct (request "thread/inject_items" _ (w1, s)) as [r [w2 s2]] eqn:E.
  apply request_cases in E as (H1 & H2 & H3 & H4). cbn [fst snd] in H1, H2, H3, H4. subst w2.
  assert (Hm : methods s2 = (methods s ++ ["thread/inject_items"])%list)
    by (unfold methods; by rewrite H4, map_app).
  destruct r as [j|e]; [|destruct (as_app_error e); [|done]]; intros [= <-]; cbn [fst snd];
    rewrite H2, H3, Hm; split_and!; auto; by apply Hsame.
Qed.

(** The thread is resumed when it was given, and history is sent when it is another one. *)
Lemma prepare_cases stored c w s cw :
  chat_row w = Some c -> c_codex_thread_id c = stored ->
  s_thread_id s = None \/ s_thread_id s = stored -> s_resumed_or_started s = false ->
  prepare_thread cwd approval_policy sandbox chat_id stored config true (w, s) = (Ok tt, cw) ->
  exists id opening, s_thread_id cw.2 = Some id /\ s_resumed_or_started cw.2 = true /\
    c_codex_thread_id <$> chat_row cw.1 = Some (Some id) /\
    methods cw.2 = (methods s ++ opening ++ if bool_decide (Some id = stored) then [] else seeding id w)%list /\
    match s_thread_id s with
    | None => opening = ["thread/start"]
    | Some _ => opening = ["thread/resume"] /\ Some id = stored \/ opening = ["thread/resume"; "thread/start"]
    end.
Proof.
  intros Hrow Hst Hs Hr. unfold prepare_thread, pbind at 1.
  destruct (ensure (w, s)) as [[id|e] [w1 s1]] eqn:E; [|done].
  assert (exists opening, s_thread_id s1 = Some id /\ s_resumed_or_started s1 = true /\
    c_codex_thread_id <$> chat_row w1 = Some (Some id) /\ chat_messages w1 = chat_messages w /\
    methods s1 = (methods s ++ opening)%list /\
    match s_thread_id s with
    | None => opening = ["thread/start"]
    | Some _ => opening = ["thread/resume"] /\ Some id = stored \/ opening = ["thread/resume"; "thread/start"]
    end) as (opening & H1 & H2 & H3 & H4 & H5 & H6).
  { apply ensure_cases in E as [(H1 & H2 & H3 & H4 & H5)|[(H1 & H2 & H3 & H4 & H5 & H6)|(H1 & H2 & H3 & H4 & H5 & H6)]];
      [| | |done]; cbn [fst snd] in *.
    - subst w1. exists ["thread/resume"]. rewrite H1 in Hs |- *. destruct Hs as [|Hs]; [done|].
      split_and!; auto. rewrite Hrow. simpl. congruence.
    - exists ["thread/resume"; "thread/start"]. destruct H1 as [t ->]. rewrite Hrow in H5.
      split_and!; auto. by rewrite H5.
    - exists ["thread/start"]. rewrite H1. rewrite Hrow in H5. split_and!; auto. by rewrite H5. }
  unfold pbind, sess, gets. cbn [fst snd]. rewrite H1.
  destruct (bool_decide (Some id = stored)) eqn:Eb.
  - intros [= <-]. exists id, opening. rewrite Eb, app_nil_r. done.
  - intros H. destruct (seed_cases id w1 s1 cw H1 H) as ([H7 _] & H8 & H9 & H10). exists id, opening.
    rewrite Eb, H9, H10, H5, <- app_assoc. unfold seeding, history_of in *. rewrite H4.
    split_and!; auto. rewrite H7. destruct (chat_row w1) as [c1|]; [|done]. simpl in H3 |- *. congruence.
Qed.

(** Loading the options reads the database only. *)
Lemma load_options_db pyd_bool effort user_id sidecar :
  respects (same w_db) (load_turn_options pyd_bool effort user_id sidecar).
Proof.
  assert (Hone : forall b, respects (same w_db) (one_shot_client b list_models)).
  { intros b w. destruct (one_shot_models b w) as [rest H]. unfold same. by rewrite H. }
  assert (Hl : respects (same w_db) (catalog_list pyd_bool sidecar)).
  { unfold catalog_list, read_cache, write_cache, redis_quiet, redis_default.
    assert (forall k, respects (same w_db) (redis_op (redis_get k))) by (intros; redis_frame).
    assert (forall k j t, respects (same w_db) (redis_op (set_json_ex k j t)))
      by (intros; apply respects_redis_op; done).
    solve_frame. }
  assert (Hres : respects (same w_db) (resolve_turn_options pyd_bool effort user_id sidecar)).
  { unfold resolve_turn_options, prefs_get, effective_model, catalog_find.
    apply (respects_bind (same w_db)); [by intros w1|intros p].
    apply respects_bind; [typeclasses eauto| |].
    - destruct (pr_model p); solve_frame.
    - intros [m|]; solve_frame. }
  intros w. unfold load_turn_options, with_session.
  match goal with |- same _ _ (let '(_, _) := ?z in _).2 =>
    assert (Hz : same w_db w z.2) by exact (Hres (set_hooks [] (set_tx (w_db w) w))); destruct z; exact Hz end.
Qed.

Lemma handshake_cases x w s cw :
  handshake x (w, s) = (Ok tt, cw) ->
  cw.1 = w /\ s_thread_id cw.2 = s_thread_id s /\ s_resumed_or_started cw.2 = s_resumed_or_started s /\
  methods cw.2 = (methods s ++ ["initialize"])%list.
Proof.
  unfold handshake, pbind at 1. destruct (request _ _ _) as [[j|e] [w1 s1]] eqn:E; [|done].
  apply request_cases in E as (H1 & H2 & H3 & H4). cbn [fst snd] in *.
  assert (Hm : methods s1 = (methods s ++ ["initialize"])%list) by (unfold methods; by rewrite H4, map_app).
  unfold pbind, lift_result. destruct (wi_notify x); [|done].
  destruct (truthy j); [destruct (getattr_get j "userAgent"); [|done]|]; intros [= <-]; done.
Qed.

(** Whether Redis marks a thread as broken. *)
Definition quarantined (t : string) (w : world) : bool :=
  match live w (quarantine_key t) with
  | Some (RStr s) => nonempty s
  | Some _ => true
  | None => false
  end.

Lemma initial_cases reuse stored w r w' :
  initial_thread reuse stored w = (Ok r, w') ->
  w_db w' = w_db w /\
  (r = None \/ exists t, r = Some t /\ stored = Some t /\ reuse = true /\ quarantined t w = false).
Proof.
  unfold initial_thread. destruct reuse; [|intros [= <- <-]; auto].
  destruct stored as [t|]; [|intros [= <- <-]; auto]. unfold pbind.
  destruct (redis_op (redis_get (quarantine_key t)) w) as [[q|e] w1] eqn:E; [|done].
  assert (q = live w (quarantine_key t) /\ w_db w1 = w_db w) as [-> Hdb].
  { unfold redis_op, redis_get in E. destruct (w_faults w) as [|[] fs]; by simplify_eq. }
  intros [= <- <-]. split; [done|]. unfold quarantined.
  destruct (live w (quarantine_key t)) as [[s| | | |]|] eqn:El; try (by left);
    [destruct (nonempty s) eqn:En; [by left|]|]; right; exists t; rewrite El; auto.
Qed.
End Lemmas.

(* ------------------------------------------------------------------ *)
(** * Theorem *)

Section Opened.
Context (pyd_bool : json -> option bool) (jwt_encode : dict -> string -> string).
Context (CODEX_REASONING_EFFORT MCP_AUTHZ_SECRET : string) (CODEX_THREAD_REUSE_ENABLED : bool).
Context (cwd approval_policy sandbox : string).
Notation open_codex_turn := (open_codex_turn pyd_bool jwt_encode CODEX_REASONING_EFFORT MCP_AUTHZ_SECRET
  CODEX_THREAD_REUSE_ENABLED cwd approval_policy sandbox).

(** C33: a turn that was opened and completed ran its body on a thread that is the session's
    and the chat's at once. The thread was resumed only if it was the chat's stored one
    and was not quarantined; a resume the sidecar refuses leads to one new thread; and the
    chat's history is sent exactly when the thread is not the stored one. The body is
    given a configuration signed for this user, chat and sidecar. *)
Theorem opened_turn_thread {A} chat_id user_id is_admin body w c (a : A) w'
    (Hrow : chat_row chat_id w = Some c)
    (H : open_codex_turn chat_id user_id is_admin true body w = (Ok a, w')) :
  exists options iat cw id opening s',
    body options
      (thread_config (jwt_encode (claims_payload user_id chat_id (if is_admin then ADMIN else GUEST) iat)
         MCP_AUTHZ_SECRET)) (thread_change_callback chat_id) cw = (Ok a, (w', s')) /\
    s_thread_id cw.2 = Some id /\ s_resumed_or_started cw.2 = true /\
    c_codex_thread_id <$> chat_row chat_id cw.1 = Some (Some id) /\
    methods cw.2 = ("initialize" :: opening ++
      if bool_decide (Some id = c_codex_thread_id c) then [] else seeding chat_id id w)%list /\
    (opening = ["thread/start"] \/
     (opening = ["thread/resume"] /\ Some id = c_codex_thread_id c \/
      opening = ["thread/resume"; "thread/start"]) /\
     CODEX_THREAD_REUSE_ENABLED = true /\
     exists t, c_codex_thread_id c = Some t /\ quarantined t w = false).
Proof.
  unfold open_codex_turn, pbind at 1 in H.
  change (load_stored_thread_id chat_id w) with
    (Ok (E := exn) (match chat_row chat_id w with Some c => c_codex_thread_id c | None => None end),
     set_hooks [] (set_tx (w_db w) (set_hooks [] (set_tx (w_db w) w)))) in H.
  rewrite Hrow in H. set (w1 := set_hooks [] _) in H. unfold pbind at 1 in H.
  destruct (initial_thread _ _ w1) as [[initial|] w2] eqn:Ei; [|done].
  apply initial_cases in Ei as (Hd2 & Hinit). unfold pbind at 1 in H.
  pose proof (load_options_db pyd_bool CODEX_REASONING_EFFORT user_id (if is_admin then ADMIN else GUEST) w2) as Hd3.
  destruct (load_turn_options _ _ _ _ w2) as [[options|] w3]; [|done]. unfold same in Hd3. simpl in Hd3.
  unfold pbind at 1, issue in H. unfold with_client, pbind at 1, dial in H.
  destruct (next_dial _ (w_dials w3)) as [[x|] rest]; [|done].
  unfold pbind at 1 in H. set (w4 := set_dials rest w3) in H.
  assert (Hdb : w_db w4 = w_db w) by (unfold w4; simpl; rewrite Hd3, Hd2; done).
  destruct (handshake x (w4, fresh_session initial x)) as [[[]|] [w5 s5]] eqn:Eh; [|done].
  apply handshake_cases in Eh as (H1 & H2 & H3 & H4). cbn [fst snd] in H1, H2, H3, H4. subst w5.
  unfold pbind in H.
  destruct (prepare_thread _ _ _ _ _ _ _ _) as [[[]|] cw] eqn:Ep; [|done].
  destruct (body options _ _ cw) as [r [w6 s6]] eqn:Eb. injection H as -> <-.
  apply (prepare_cases _ _ _ _ _ _ c) in Ep as (id & opening & P1 & P2 & P3 & P4 & P5);
    [|by unfold chat_row; rewrite Hdb|done| |done].
  - eexists options, _, cw, id, opening, s6. split; [exact Eb|]. split_and!; auto.
    + rewrite P4, H4. unfold seeding, history_of, chat_messages. by rewrite Hdb.
    + rewrite H2 in P5. cbn [s_thread_id fresh_session] in P5.
      destruct Hinit as [->|(t & -> & Ht & Hre & Hq)]; [by left|]. right. eauto.
  - rewrite H2. destruct Hinit as [->|(t & -> & Ht & _)]; [by left|right]. by rewrite Ht.
Qed.
End Opened.

(* ------------------------------------------------------------------ *)
(** * Witness *)

Definition demo_chat : chat := mk_chat 3 7 WEB None None (Some "th1") None 0.

(** A chat with a stored thread and a message, a cached catalogue, and a sidecar that has
    lost the thread. *)
Definition demo_open_world : world :=
  set_dials [(GUEST, Ok (mk_wire (Ok tt) 0
    [(1, Ok (JObj [])); (1, Raise lost_thread); (1, Ok (thread_answer "th2")); (1, Ok JNull)] [] 100))]
  (put_key (models_cache_key GUEST) (RJson (JArr [model_dump demo_model])) None
     (set_db (set_chats [demo_chat] (set_messages
        [mk_message 1 3 Msg_USER "hi" None; mk_message 2 3 Msg_ASSISTANT "hello" None] empty_db))
        empty_world)).

#[local] Notation demo_open :=
  (open_codex_turn demo_bool (fun _ _ => "token") "" "secret" true "/w" "never" "ro" 3 7 false true).

Lemma opened_turn_thread_witness :
  exists cw id, c_codex_thread_id <$> chat_row 3 cw.1 = Some (Some id) /\ s_thread_id cw.2 = Some id /\
    methods cw.2 = ["initialize"; "thread/resume"; "thread/start"; "thread/inject_items"].
Proof.
  pose (body := fun (_ : TurnOptions) (_ : dict) (_ : option string -> cprog unit) => sess methods).
  pose (r := demo_open body demo_open_world).
  assert (H : r = (Ok ["initialize"; "thread/resume"; "thread/start"; "thread/inject_items"], r.2))
    by (vm_compute; reflexivity).
  destruct (opened_turn_thread demo_bool (fun _ _ => "token") "" "secret" true "/w" "never" "ro" 3 7 false
    body demo_open_world demo_chat _ r.2 eq_refl H)
    as (options & iat & cw & id & opening & s' & Hb & Hid & _ & Hrow & _).
  exists cw, id. split; [exact Hrow|]. split; [exact Hid|]. injection Hb as Hm _. exact Hm.
Defined.
