(* ===== verification/Auth.v ===== *)
(** Who may use the server: the throttle of failed logins ([services/auth/throttle.py]),
    passwords and session tokens ([services/auth/service.py], [cookie.py]), single-use
    invites ([services/invites/service.py]), and the RPC over them ([rpc/auth.py],
    [rpc/_auth.py]).

    Argon2, PyJWT, the e-mail validator and the random token of an invite are parameters;
    handlers take the session token their cookie carries. *)
From S2P Require Import Prelude PyStr Json Models Events World Translate CodexRemote Services.

Open Scope Z_scope.
Open Scope string_scope.

(* ------------------------------------------------------------------ *)
(** * Throttle *)

Definition BF_KEY_PREFIX : string := "auth:bf:".
Definition MAX_ATTEMPTS : Z := 5.
Definition WINDOW_S : Z := 15 * 60.
Definition LOCKOUT_S : Z := 15 * 60.

Definition LoginThrottled (msg : string) : exn := OtherException "LoginThrottled" msg.

(** [if not ip: return]. *)
Definition with_ip (ip : option string) (m : string -> prog world exn unit) : prog world exn unit :=
  match ip with
  | Some i => if nonempty i then m (BF_KEY_PREFIX ++ i) else pret tt
  | None => pret tt
  end.

(** [int(attempts)] of a stored string. *)
Definition int_of_value (v : redis_value) : result exn Z :=
  match v with
  | RInt n => Ok n
  | RStr s => match py_int s with Some n => Ok n | None => Raise (ValueError "invalid literal for int()") end
  | _ => Raise (OtherException "TypeError" "")
  end.

Definition throttle_check (ip : option string) : prog world exn unit :=
  with_ip ip (fun key =>
    let! attempts := redis_default None (redis_op (redis_get key)) in
    match attempts with
    | None => pret tt
    | Some v =>
        let! n := lift_result (int_of_value v) in
        if Z.leb MAX_ATTEMPTS n
        then praise (LoginThrottled ("too many failed attempts; try again in "
                                     ++ str_of_Z (LOCKOUT_S / 60) ++ "min"))
        else pret tt
    end).

Definition register_failure (ip : option string) : prog world exn unit :=
  with_ip ip (fun key =>
    redis_quiet (
      let! count := redis_op (redis_incrby key 1) in
      if Z.eqb count 1 then redis_op (redis_expire key WINDOW_S)
      else if Z.leb MAX_ATTEMPTS count then redis_op (redis_expire key LOCKOUT_S)
      else pret tt)).

Definition throttle_clear (ip : option string) : prog world exn unit :=
  with_ip ip (fun key => redis_quiet (redis_op (redis_del key))).

(* ------------------------------------------------------------------ *)
(** * Invites *)

Definition DEFAULT_TTL_DAYS : Z := 7.
Definition MAX_TTL_DAYS : Z := 30.
Definition days (n : Z) : Z := seconds (n * 86400).

Definition InviteNotFound (token : string) : exn := OtherException "InviteNotFound" token.
Definition InviteUsed (token : string) : exn := OtherException "InviteUsed" token.
Definition InviteExpired (token : string) : exn := OtherException "InviteExpired" token.

Definition has_token (token : string) (i : invite) : bool := String.eqb (i_token i) token.
Definition invite_is (id : Z) (i : invite) : bool := Z.eqb (i_id i) id.

Definition mark_used (user_id now : Z) (i : invite) : invite :=
  mk_invite (i_id i) (i_token i) (i_created_by_user_id i) (Some user_id) (i_expires_at i) (Some now)
    (i_created_at i).

(** [fresh] is the random token. *)
Definition invite_create (fresh : string) (created_by_user_id ttl_days : Z) : prog world exn invite :=
  let d := if Z.ltb 0 ttl_days && Z.leb ttl_days MAX_TTL_DAYS then ttl_days else DEFAULT_TTL_DAYS in
  let! now := now in
  let! id := nextval in
  let i := mk_invite id fresh created_by_user_id None (now + days d) None now in
  let! clash := sql (fun db => existsb (has_token fresh) (db_invites db)) in
  if clash then praise IntegrityError
  else sql_write (fun db => set_invites (db_invites db ++ [i])%list db) ;; pret i.

Definition get_by_token (token : string) : prog world exn (option invite) :=
  sql (fun d => List.find (has_token token) (db_invites d)).

Definition redeem (token : string) (user_id : Z) : prog world exn invite :=
  let! found := get_by_token token in
  match found with
  | None => praise (InviteNotFound token)
  | Some i =>
      match i_used_at i with
      | Some _ => praise (InviteUsed token)
      | None =>
          let! now := now in
          if Z.leb (i_expires_at i) now then praise (InviteExpired token)
          else
            sql_write (fun d => set_invites
              (update_where (invite_is (i_id i)) (mark_used user_id now) (db_invites d)) d) ;;
            pret (mark_used user_id now i)
      end
  end.

Definition list_all_invites : prog world exn (list invite) :=
  sql (fun d => order_by (fun i => - i_created_at i) (db_invites d)).

Definition list_active_invites : prog world exn (list invite) :=
  let! now := now in
  sql (fun d => order_by (fun i => - i_created_at i)
    (List.filter (fun i => bool_decide (i_used_at i = None) && Z.ltb now (i_expires_at i)) (db_invites d))).

Definition revoke (invite_id : Z) : prog world exn bool :=
  let! found := sql (fun d => List.find (invite_is invite_id) (db_invites d)) in
  match found with
  | None => pret false
  | Some i =>
      if bool_decide (is_Some (i_used_at i)) then pret false
      else sql_write (fun d => set_invites
             (List.filter (fun x => negb (invite_is invite_id x)) (db_invites d)) d) ;;
           pret true
  end.

(* ------------------------------------------------------------------ *)
(** * Passwords and tokens *)

Section Auth.
(** Argon2: [verify plain stored], whether a hash has outdated parameters, and the hash of
    a password (its salt being drawn by the library). *)
Context (argon_verify : string -> string -> bool) (argon_needs_rehash : string -> bool).
Context (argon_hash : string -> string).
(** [jwt.encode(payload, secret)], and [jwt.decode] at a time in seconds. *)
Context (jwt_encode : dict -> string -> string) (jwt_decode : string -> string -> Z -> result string dict).
(** [EmailStr]: the normalised address of a valid one. *)
Context (validate_email : string -> option string).
(** Settings. *)
Context (JWT_SECRET ADMIN_EMAIL : string) (JWT_TTL_HOURS : Z) (COOKIES_SECURE : bool).

Definition verify_password (plain : string) (stored_hash : option string) : bool :=
  match stored_hash with
  | Some h => nonempty h && argon_verify plain h
  | None => false
  end.

Definition needs_rehash (stored_hash : option string) : bool :=
  match stored_hash with Some h => nonempty h && argon_needs_rehash h | None => false end.

Definition InvalidToken (msg : string) : exn := OtherException "InvalidToken" msg.

(** The clock in whole seconds. *)
Definition unix_seconds (w : world) : Z := w_now w / 1000.

Definition session_payload (subject : string) (iat : Z) : dict :=
  [("sub", JStr subject); ("iat", JNum iat); ("exp", JNum (iat + JWT_TTL_HOURS * 3600))].

Definition issue_token (subject : string) : prog world exn (string * Z) :=
  fun w => (Ok (jwt_encode (session_payload subject (unix_seconds w)) JWT_SECRET, JWT_TTL_HOURS * 3600), w).

Definition validate_token (raw : string) : prog world exn string :=
  let! t := gets unix_seconds in
  match jwt_decode raw JWT_SECRET t with
  | Raise msg => praise (InvalidToken msg)
  | Ok payload =>
      match get_or_null "sub" payload with
      | JStr sub => if nonempty sub then pret sub else praise (InvalidToken "missing subject")
      | _ => praise (InvalidToken "missing subject")
      end
  end.

(* ------------------------------------------------------------------ *)
(** * Cookies *)

Definition JWT_COOKIE_NAME : string := "codex_jwt".

Definition cookie_attrs (token : string) (max_age : Z) : list string :=
  ([(JWT_COOKIE_NAME ++ "=" ++ token)%string; "HttpOnly"; "SameSite=Lax"; "Path=/api";
    ("Max-Age=" ++ str_of_Z max_age)%string] ++ if COOKIES_SECURE then ["Secure"] else [])%list.

Definition build_set_cookie (token : string) (ttl_seconds : Z) : string :=
  join "; " (cookie_attrs token ttl_seconds).
Definition build_clear_cookie : string := join "; " (cookie_attrs "" 0).

(* ------------------------------------------------------------------ *)
(** * [rpc/_auth.py] *)

(** [token] is the cookie's value. *)
Definition jwt_subject (token : option string) : prog world exn string :=
  match token with
  | None => praise (ConnectError "unauthenticated" "missing session cookie")
  | Some t =>
      except (fun e => match raised "InvalidToken" e with
                       | Some msg => praise (ConnectError "unauthenticated" msg)
                       | None => praise e
                       end) (validate_token t)
  end.

Definition require_user (token : option string) : prog world exn user :=
  let! email := jwt_subject token in
  with_session (
    let! found := get_by_email email in
    match found with
    | None => praise (ConnectError "unauthenticated" "user not found")
    | Some u => pret u
    end).

Definition require_admin (token : option string) : prog world exn user :=
  let! u := require_user token in
  if bool_decide (u_role u = Role_ADMIN) then pret u
  else praise (ConnectError "permission_denied" "admin role required").

(* ------------------------------------------------------------------ *)
(** * [rpc/auth.py] *)

(** The answer of a login: the token, its life and the cookie set. *)
Record LoginResponse := mk_login { access_token : string; expires_in : Z; set_cookie : string }.

Definition check_throttle (ip : option string) : prog world exn unit :=
  except (fun e => match raised "LoginThrottled" e with
                   | Some msg => praise (ConnectError "resource_exhausted" msg)
                   | None => praise e
                   end) (throttle_check ip).

Definition answer (subject : string) : prog world exn LoginResponse :=
  let! t := issue_token subject in
  pret (mk_login t.1 t.2 (build_set_cookie t.1 t.2)).

Definition login (ip : option string) (email password : string) : prog world exn LoginResponse :=
  check_throttle ip ;;
  let email := lower (strip email) in
  with_session (
    let! found := get_by_email email in
    let refuse := register_failure ip ;; praise (ConnectError "unauthenticated" "invalid email or password") in
    match found with
    | None => refuse
    | Some u =>
        if negb (verify_password password (u_password_hash u)) then refuse
        else if needs_rehash (u_password_hash u)
        then set_password_hash u (argon_hash password) ;; commit
        else pret tt
    end) ;;
  throttle_clear ip ;;
  answer email.

(** ORM assignments, flushed with the session. *)
Definition update_user (id : Z) (f : user -> user) : prog world exn unit :=
  sql_write (fun d => set_users (update_where (fun v => Z.eqb (u_id v) id) f (db_users d)) d).

Definition redeem_for (invite_token : string) (user_id : Z) : prog world exn unit :=
  except (fun e =>
      if bool_decide (is_Some (raised "InviteNotFound" e)) then praise (ConnectError "not_found" "invite not found")
      else if bool_decide (is_Some (raised "InviteUsed" e))
      then praise (ConnectError "failed_precondition" "invite already used")
      else if bool_decide (is_Some (raised "InviteExpired" e))
      then praise (ConnectError "failed_precondition" "invite expired")
      else praise e)
    (redeem invite_token user_id ;; pret tt).

(** [if display_name and not user.display_name: user.display_name = display_name]. *)
Definition name_user (u : user) (display_name : option string) : prog world exn unit :=
  if truthy_opt display_name && negb (truthy_opt (u_display_name u))
  then update_user (u_id u) (with_display_name display_name) else pret tt.

Definition none_if_blank (s : string) : option string :=
  if nonempty (strip s) then Some (strip s) else None.

(** The transaction of [register], after its checks. *)
Definition register_user (ip : option string) (email password invite_token : string)
    (admin_bypass : bool) (display_name : option string) : prog world exn unit :=
  with_session (
    let! existing := get_by_email email in
    match existing with
    | Some u =>
        if truthy_opt (u_password_hash u)
        then register_failure ip ;; praise (ConnectError "already_exists" "email already registered")
        else pret tt
    | None => pret tt
    end ;;
    let! u := (match existing with Some u => pret u | None => get_or_create_by_email email display_name end) in
    (if admin_bypass then update_user (u_id u) (with_role Role_ADMIN)
     else redeem_for invite_token (u_id u) ;; update_user (u_id u) (with_role Role_USER)) ;;
    name_user u display_name ;;
    set_password_hash u (argon_hash password) ;;
    commit).

Definition register (ip : option string) (email password invite_token display_name : string) :
    prog world exn LoginResponse :=
  check_throttle ip ;;
  match validate_email (lower (strip email)) with
  | None => praise (ConnectError "invalid_argument" "valid email required")
  | Some email =>
      if (String.length password <? 8)%nat
      then praise (ConnectError "invalid_argument" "password must be ≥ 8 chars")
      else
        let admin_bypass := String.eqb email (lower (strip ADMIN_EMAIL)) && nonempty email in
        let invite_token := strip invite_token in
        if negb admin_bypass && negb (nonempty invite_token)
        then praise (ConnectError "invalid_argument" "invite_token required")
        else
          register_user ip email password invite_token admin_bypass (none_if_blank display_name) ;;
          throttle_clear ip ;;
          answer email
  end.

Definition refresh (token : option string) : prog world exn LoginResponse :=
  let! subject := jwt_subject token in
  answer subject.

(** The cookie [logout] sets. *)
Definition logout : prog world exn string := pret build_clear_cookie.
End Auth.

(* ------------------------------------------------------------------ *)
(** * Lemmas: the throttle *)

(** The failures registered for an address at these times. *)
Definition attempts (ip : string) (ts : list Z) (w : world) : world :=
  foldl (fun w t => (register_failure (Some ip) (set_now t w)).2) w ts.

(** The counter of an address and when it is forgotten. *)
Definition counted (ip : string) (n until : Z) (w : world) : Prop :=
  w_faults w = [] /\ w_redis w !! (BF_KEY_PREFIX ++ ip) = Some (mk_entry (RInt n) (Some until)).

Lemma counted_live ip n until w t :
  counted ip n until w -> live (set_now t w) (BF_KEY_PREFIX ++ ip) =
    if Z.leb t until then Some (RInt n) else None.
Proof. intros [_ H]. unfold live. cbn [w_redis set_now w_now]. by rewrite H. Qed.

(** One more failure, on a counter that may be absent. *)
Lemma failure_counts ip n exp w :
  nonempty ip = true -> w_faults w = [] ->
  (n = 0 /\ live w (BF_KEY_PREFIX ++ ip) = None \/
   0 < n /\ counted ip n exp w /\ w_now w <= exp) ->
  counted ip (n + 1)
    (if Z.eqb n 0 then w_now w + seconds WINDOW_S
     else if Z.leb MAX_ATTEMPTS (n + 1) then w_now w + seconds LOCKOUT_S else exp)
    (register_failure (Some ip) w).2.
Proof.
  intros Hip Hf Hn. unfold register_failure, with_ip. rewrite Hip.
  set (key := BF_KEY_PREFIX ++ ip) in *.
  assert (exists e0, redis_incrby key 1 w = (n + 1, put_key key (RInt (n + 1)) e0 w) /\
            (0 < n -> e0 = Some exp) /\ (n = 0 -> e0 = None)) as (e0 & Hi & He & He').
  { unfold redis_incrby, live_expiry. destruct Hn as [[-> Hl]|(H0 & [_ Hc] & Ht)].
    - rewrite Hl. exists None. split_and!; [done|lia|done].
    - assert (Hl : live w key = Some (RInt n)).
      { unfold live. fold key in Hc. rewrite Hc. by apply Z.leb_le in Ht as ->. }
      fold key in Hc. rewrite Hl, Hc. exists (Some exp). split_and!; [done|done|lia]. }
  assert (Hlive : live (put_key key (RInt (n + 1)) e0 w) key = Some (RInt (n + 1))).
  { unfold live, put_key. cbn [w_redis set_redis w_now]. rewrite lookup_insert_eq.
    destruct Hn as [[-> _]|(H0 & _ & Ht)]; [by rewrite He'|]. rewrite He by done.
    by apply Z.leb_le in Ht as ->. }
  unfold redis_quiet, redis_default, except, pbind, redis_op.
  set (wp := put_key key (RInt (n + 1)) e0 w) in *.
  assert (Hfp : w_faults wp = []) by exact Hf. rewrite Hf, Hi. cbv beta iota.
  destruct Hn as [[-> _]|(H0 & [_ Hc] & Ht)].
  - change (Z.eqb (0 + 1) 1) with true. cbv beta iota. rewrite Hfp. unfold redis_expire. rewrite Hlive. cbn [snd].
    split; [done|]. simpl. by rewrite lookup_insert_eq.
  - assert (Z.eqb (n + 1) 1 = false) as -> by (apply Z.eqb_neq; lia).
    assert (Z.eqb n 0 = false) as -> by (apply Z.eqb_neq; lia).
    destruct (Z.leb MAX_ATTEMPTS (n + 1)).
    + cbv beta. rewrite Hfp. unfold redis_expire. rewrite Hlive. cbn [snd]. split; [done|]. simpl.
      by rewrite lookup_insert_eq.
    + cbn [snd pret]. split; [done|]. simpl. rewrite lookup_insert_eq. by rewrite He.
Qed.

Lemma Zlt_0_of_nat_S n : 0 < Z.of_nat (S n).
Proof. lia. Qed.

Definition forgotten (t0 last : Z) (n : nat) : Z :=
  if Z.leb MAX_ATTEMPTS (Z.of_nat n) then last + seconds LOCKOUT_S else t0 + seconds WINDOW_S.

Lemma attempts_counted ip t0 ts w :
  nonempty ip = true -> w_faults w = [] -> live (set_now t0 w) (BF_KEY_PREFIX ++ ip) = None ->
  Forall (fun t => t0 <= t <= t0 + seconds WINDOW_S) ts ->
  counted ip (Z.of_nat (S (List.length ts))) (forgotten t0 (default t0 (last (t0 :: ts))) (S (List.length ts)))
    (attempts ip (t0 :: ts) w).
Proof.
  intros Hip Hf Hl. induction ts as [|t ts IH] using rev_ind; intros Hts.
  - apply (failure_counts ip 0 0 (set_now t0 w) Hip Hf). by left.
  - apply Forall_app in Hts as [Hts Ht]. apply Forall_cons_1 in Ht as [Ht _]. cbv beta in Ht. specialize (IH Hts).
    unfold attempts in *. rewrite app_comm_cons, foldl_app. cbn [foldl].
    set (w1 := foldl _ w (t0 :: ts)) in *. rewrite length_app. cbn [List.length].
    replace (default t0 (last ((t0 :: ts) ++ [t])%list)) with t by (symmetry; by rewrite last_snoc).
    assert (Hin : forall x, last (t0 :: ts) = Some x -> t0 <= x).
    { intros x Hx. apply last_Some_elem_of in Hx.
      apply list_elem_of_In in Hx as [<-|Hx]; [lia|]. rewrite Forall_forall in Hts.
      apply list_elem_of_In in Hx. specialize (Hts x Hx). cbv beta in Hts. lia. }
    assert (Hexp : w_now (set_now t w1) <=
              forgotten t0 (default t0 (last (t0 :: ts))) (S (List.length ts))).
    { cbn [w_now set_now]. unfold forgotten, LOCKOUT_S, WINDOW_S, seconds in *.
      destruct (last (t0 :: ts)) as [x|]; simpl default; [specialize (Hin x eq_refl)|]; case_match; lia. }
    assert (Hc : counted ip (Z.of_nat (S (List.length ts)))
              (forgotten t0 (default t0 (last (t0 :: ts))) (S (List.length ts))) (set_now t w1)) by exact IH.
    pose proof (failure_counts ip _ _ (set_now t w1) Hip (proj1 IH)
      (or_intror (conj (Zlt_0_of_nat_S _) (conj Hc Hexp)))) as H.
    cbn [w_now set_now] in H.
    replace (Z.of_nat (S (List.length ts)) + 1) with (Z.of_nat (S (List.length ts + 1))) in H by lia.
    unfold counted in *. destruct H as [H1 H2]. split; [exact H1|]. etransitivity; [exact H2|]. do 3 f_equal.
    unfold forgotten. assert (Z.eqb (Z.of_nat (S (List.length ts))) 0 = false) as -> by (apply Z.eqb_neq; lia).
    destruct (Z.leb MAX_ATTEMPTS (Z.of_nat (S (List.length ts + 1)))) eqn:E; [done|].
    assert (Z.leb MAX_ATTEMPTS (Z.of_nat (S (List.length ts))) = false) as ->; [|done].
    apply Z.leb_gt in E. apply Z.leb_gt. lia.
Qed.

(** a client address is locked out by its fifth failed attempt: after failures at the
    given times, all within the window of the first, a login is refused exactly when there
    were five of them and the lockout of fifteen minutes since the last has not passed. *)
Theorem throttle_window ip t0 ts t w
    (Hip : nonempty ip = true) (Hf : w_faults w = [])
    (Hnew : live (set_now t0 w) (BF_KEY_PREFIX ++ ip) = None)
    (Hts : Forall (fun t => t0 <= t <= t0 + seconds WINDOW_S) ts) :
  let failed := S (List.length ts) in
  let final := default t0 (last (t0 :: ts)) in
  (throttle_check (Some ip) (set_now t (attempts ip (t0 :: ts) w))).1 =
  if Z.leb MAX_ATTEMPTS (Z.of_nat failed) && Z.leb t (final + seconds LOCKOUT_S)
  then Raise (LoginThrottled "too many failed attempts; try again in 15min") else Ok tt.
Proof.
  pose proof (attempts_counted ip t0 ts w Hip Hf Hnew Hts) as H. intros failed final.
  unfold throttle_check, with_ip. rewrite Hip. unfold pbind at 1, redis_default, except, redis_op.
  cbn [w_faults set_now]. rewrite (proj1 H). unfold redis_get.
  rewrite (counted_live _ _ _ _ t H). unfold forgotten. fold failed final.
  destruct (Z.leb MAX_ATTEMPTS (Z.of_nat failed)) eqn:E.
  - destruct (Z.leb t (final + seconds LOCKOUT_S)); [|done].
    unfold pbind, lift_result, int_of_value. by rewrite E.
  - simpl andb. destruct (Z.leb t (t0 + seconds WINDOW_S)); [|done].
    unfold pbind, lift_result, int_of_value. by rewrite E.
Qed.

Lemma throttle_window_witness :
  (throttle_check (Some "10.0.0.1")
     (set_now 9000 (attempts "10.0.0.1" [0; 1000; 2000; 3000; 4000] empty_world))).1 =
  Raise (LoginThrottled "too many failed attempts; try again in 15min").
Proof.
  etransitivity; [apply (throttle_window "10.0.0.1" 0 [1000; 2000; 3000; 4000] 9000 empty_world)|].
  - reflexivity.
  - reflexivity.
  - vm_compute. reflexivity.
  - repeat constructor; vm_compute; discriminate.
  - vm_compute. reflexivity.
Defined.

(* ------------------------------------------------------------------ *)
(** * Lemmas: transactions *)

(** [find] through an update that keeps what is looked for. *)
Lemma find_update_pred {A} (p q : A -> bool) f rows :
  (forall r, p (f r) = p r) ->
  List.find p (update_where q f rows) = (fun r => if q r then f r else r) <$> List.find p rows.
Proof.
  intros Hp. unfold update_where. induction rows as [|r rows IH]; [done|]. simpl.
  replace (p (if q r then f r else r)) with (p r) by (destruct (q r); auto).
  destruct (p r); [done|apply IH].
Qed.

(** The committed state and the clock. *)
Definition dbview (w : world) := (w_db w, w_now w).
Definition same_db : world -> world -> Prop := same dbview.

Lemma same_db_inv w w' : same_db w w' -> w_db w' = w_db w /\ w_now w' = w_now w.
Proof. intros H. by injection H. Qed.

(** Failures of Redis are quiet. *)
Lemma throttle_quiet ip w :
  (register_failure ip w).1 = Ok tt /\ (throttle_clear ip w).1 = Ok tt.
Proof.
  unfold register_failure, throttle_clear, with_ip. destruct ip as [i|]; [|done].
  destruct (nonempty i); [|done]. split.
  - unfold redis_quiet, redis_default, except, pbind.
    destruct (redis_op _ w) as [[n|e] w1] eqn:E.
    + destruct (Z.eqb n 1); [|destruct (Z.leb MAX_ATTEMPTS n); [|done]];
        match goal with |- context [redis_op ?f w1] =>
          destruct (redis_op_cases f w1) as [[[] H]|H]; destruct (redis_op f w1) as [r w2]; simpl in H; by subst r end.
    + match type of E with redis_op ?f w = _ => destruct (redis_op_cases f w) as [[a H]|H]; rewrite E in H end;
        [done|]. simpl in H. by injection H as ->.
  - match goal with |- context [redis_quiet (redis_op ?f)] => destruct (redis_default_ok tt f w) as [[] H] end.
    exact H.
Qed.

Lemma throttle_check_db ip : respects same_db (throttle_check ip).
Proof.
  assert (H : forall k, respects same_db (redis_default None (redis_op (redis_get k)))).
  { intros k. unfold redis_default, same_db. apply respects_except; [typeclasses eauto|redis_frame|].
    intros e. solve_frame. }
  unfold throttle_check, with_ip, same_db. destruct ip as [i|]; [|solve_frame].
  destruct (nonempty i); [|solve_frame]. apply respects_bind; [typeclasses eauto|apply H|].
  intros [v|]; [|solve_frame]. apply respects_bind; [typeclasses eauto|solve_frame|].
  intros n. destruct (Z.leb MAX_ATTEMPTS n); solve_frame.
Qed.

Lemma register_failure_db ip : respects same_db (register_failure ip).
Proof.
  unfold register_failure, with_ip, redis_quiet, redis_default, same_db.
  assert (forall k, respects (same dbview) (redis_op (redis_incrby k 1))) by (intros; redis_frame).
  assert (forall k t, respects (same dbview) (redis_op (redis_expire k t))) by (intros; redis_frame).
  destruct ip; solve_frame.
Qed.

Lemma throttle_clear_db ip : respects same_db (throttle_clear ip).
Proof.
  unfold throttle_clear, with_ip, redis_quiet, redis_default, same_db.
  assert (forall k, respects (same dbview) (redis_op (redis_del k))) by (intros; redis_frame).
  destruct ip; solve_frame.
Qed.

Lemma check_throttle_db ip : respects same_db (check_throttle ip).
Proof.
  unfold check_throttle. apply respects_except; [typeclasses eauto|apply throttle_check_db|].
  intros e. unfold same_db. solve_frame.
Qed.

Section Outcomes.
Context (argon_verify : string -> string -> bool) (argon_needs_rehash : string -> bool).
Context (argon_hash : string -> string).
Context (jwt_encode : dict -> string -> string) (jwt_decode : string -> string -> Z -> result string dict).
Context (validate_email : string -> option string).
Context (JWT_SECRET ADMIN_EMAIL : string) (JWT_TTL_HOURS : Z) (COOKIES_SECURE : bool).
Notation register := (register argon_hash jwt_encode validate_email JWT_SECRET ADMIN_EMAIL JWT_TTL_HOURS COOKIES_SECURE).
Notation register_user := (register_user argon_hash).
Notation login := (login argon_verify argon_needs_rehash argon_hash jwt_encode JWT_SECRET JWT_TTL_HOURS COOKIES_SECURE).
Notation answer := (answer jwt_encode JWT_SECRET JWT_TTL_HOURS COOKIES_SECURE).
Notation require_user := (require_user jwt_decode JWT_SECRET).

Definition with_email (email : string) (u : user) : bool := bool_decide (u_email u = Some email).
Definition user_of (email : string) (d : database) : option user := List.find (with_email email) (db_users d).
Definition invite_of (token : string) (d : database) : option invite := List.find (has_token token) (db_invites d).

(** What statements leave alone. *)
Definition stmtview (w : world) := (w_db w, w_hooks w, w_now w).

(** What a part of a session leaves in its working copy. *)
Definition tx_ok {A} (m : prog world exn A) (w : world) (P : A -> database -> Prop) : Prop :=
  match m w with
  | (Ok a, w') => stmtview w' = stmtview w /\ P a (w_tx w')
  | (Raise _, w') => w_db w' = w_db w
  end.

(** A transaction that commits, or leaves the database alone. *)
Definition tx_done {A} (m : prog world exn A) (w : world) (P : database -> Prop) : Prop :=
  match m w with
  | (Ok _, w') => P (w_db w')
  | (Raise _, w') => w_db w' = w_db w
  end.

Lemma done_bind {A B} (m : prog world exn A) (k : A -> prog world exn B) w Q P :
  tx_ok m w Q ->
  (forall a w1, stmtview w1 = stmtview w -> Q a (w_tx w1) -> tx_done (k a) w1 P) ->
  tx_done (pbind m k) w P.
Proof.
  unfold tx_ok, tx_done, pbind. destruct (m w) as [[a|e] w1]; [|done]. intros [H1 H2] Hk.
  specialize (Hk a w1 H1 H2). destruct (k a w1) as [[b|e] w2]; [done|].
  injection H1 as H1 _ _. congruence.
Qed.

Lemma done_commit w (P : database -> Prop) : P (w_tx w) -> tx_done commit w P.
Proof.
  intros H. unfold tx_done. pose proof (commit_ok w) as H4. pose proof (commit_sqlview w) as H5.
  destruct (commit w) as [r w2]. simpl in H4, H5. subst r. injection H5 as H5 _ _ _ _. by rewrite H5.
Qed.

Lemma done_session {A} (m : prog world exn A) w P :
  tx_done m (set_hooks [] (set_tx (w_db w) w)) P -> tx_done (with_session m) w P.
Proof. unfold tx_done, with_session. destruct (m _) as [[a|e] w1]; done. Qed.

Lemma tx_ret {A} (a : A) w (P : A -> database -> Prop) : P a (w_tx w) -> tx_ok (pret a) w P.
Proof. done. Qed.
Lemma tx_write f w (P : unit -> database -> Prop) : P tt (f (w_tx w)) -> tx_ok (sql_write f) w P.
Proof. done. Qed.

(* ------------------------------------------------------------------ *)
(** * Registration *)

(** Row updates that keep the address find the same row. *)
Lemma user_of_update email id f d :
  (forall u, u_email (f u) = u_email u) ->
  user_of email (set_users (update_where (fun v => Z.eqb (u_id v) id) f (db_users d)) d) =
  (fun u => if Z.eqb (u_id u) id then f u else u) <$> user_of email d.
Proof.
  intros Hf. unfold user_of. cbn [db_users set_users]. apply find_update_pred.
  intros r. unfold with_email. by rewrite Hf.
Qed.

Lemma invite_of_used token i user_id now d :
  invite_of token d = Some i ->
  invite_of token (set_invites (update_where (invite_is (i_id i)) (mark_used user_id now) (db_invites d)) d) =
  Some (mark_used user_id now i).
Proof.
  intros H. unfold invite_of in *. cbn [db_invites set_invites].
  rewrite find_update_pred by done. rewrite H. simpl. unfold invite_is. by rewrite Z.eqb_refl.
Qed.

(** What a registration leaves: the account of the address with this password; it had none
    before; and without the administrator's address, an invite that was good and is used. *)
Definition registered (email password invite_token : string) (admin_bypass : bool) (now : Z)
    (d d' : database) : Prop :=
  (forall u, user_of email d = Some u -> truthy_opt (u_password_hash u) = false) /\
  exists u, user_of email d' = Some u /\ u_password_hash u = Some (argon_hash password) /\
    u_role u = (if admin_bypass then Role_ADMIN else Role_USER) /\
    if admin_bypass then db_invites d' = db_invites d
    else exists i, invite_of invite_token d = Some i /\ i_used_at i = None /\ now < i_expires_at i /\
           invite_of invite_token d' = Some (mark_used (u_id u) now i).

Lemma find_app_email email rows u :
  List.find (with_email email) rows = None -> u_email u = Some email ->
  List.find (with_email email) (rows ++ [u])%list = Some u.
Proof.
  intros H Hu. induction rows as [|r rows IH]; simpl in *.
  - unfold with_email. by rewrite bool_decide_true.
  - destruct (with_email email r); [done|auto].
Qed.

(** The account the registration works on. *)
Lemma tx_account email display_name existing w :
  existing = user_of email (w_tx w) ->
  tx_ok (match existing with Some u => pret u | None => get_or_create_by_email email display_name end) w
    (fun u d => user_of email d = Some u /\ db_invites d = db_invites (w_tx w)).
Proof.
  intros He. destruct existing as [u|]; [by apply tx_ret|].
  unfold tx_ok, get_or_create_by_email, pbind, nextval, get_by_email, sql, gets. cbn [fst snd w_tx set_seq].
  unfold user_of, with_email in He. rewrite <- He. cbn. split_and!; [done| |done].
  apply find_app_email; [by unfold with_email|done].
Qed.

Lemma tx_update id f w (P : database -> Prop) :
  P (set_users (update_where (fun v => Z.eqb (u_id v) id) f (db_users (w_tx w))) (w_tx w)) ->
  tx_ok (update_user id f) w (fun _ => P).
Proof. intros H. by apply tx_write. Qed.

Lemma tx_redeem token user_id w :
  tx_ok (redeem_for token user_id) w (fun _ d =>
    db_users d = db_users (w_tx w) /\
    exists i, invite_of token (w_tx w) = Some i /\ i_used_at i = None /\ w_now w < i_expires_at i /\
      invite_of token d = Some (mark_used user_id (w_now w) i)).
Proof.
  unfold tx_ok, redeem_for, redeem, except, pbind, get_by_token, sql, gets, now.
  cbn [fst snd]. fold (invite_of token (w_tx w)).
  destruct (invite_of token (w_tx w)) as [i|] eqn:Ei.
  - destruct (i_used_at i) as [t|] eqn:Eu; [done|]. cbn [fst snd].
    unfold gets. cbn [fst snd]. destruct (Z.leb (i_expires_at i) (w_now w)) eqn:Et; [done|].
    cbn. split_and!; [done|done|]. exists i. split_and!; [done|done|by apply Z.leb_gt in Et|].
    by apply invite_of_used.
  - done.
Qed.

Lemma name_user_spec u display_name w :
  tx_ok (name_user u display_name) w (fun _ d =>
    db_invites d = db_invites (w_tx w) /\
    forall email v, user_of email (w_tx w) = Some v ->
      exists v', user_of email d = Some v' /\ u_id v' = u_id v /\ u_role v' = u_role v).
Proof.
  unfold name_user. destruct (truthy_opt display_name && _).
  - apply tx_write. split; [done|]. intros email v Hv. rewrite user_of_update by done. rewrite Hv.
    simpl. destruct (Z.eqb (u_id v) (u_id u)); by eexists.
  - apply tx_ret. split; [done|]. by eexists.
Qed.

(** The transaction of a registration. *)
Lemma register_user_done ip email password invite_token admin_bypass display_name w :
  tx_done (register_user ip email password invite_token admin_bypass display_name) w
    (registered email password invite_token admin_bypass (w_now w) (w_db w)).
Proof.
  unfold Auth.register_user. apply done_session. set (w0 := set_hooks [] (set_tx (w_db w) w)).
  apply (done_bind _ _ _ (fun e d => e = user_of email (w_db w) /\ d = w_db w)); [done|].
  intros existing w1 H1 [He Ht1].
  apply (done_bind _ _ _ (fun _ d => d = w_db w /\
    forall u, existing = Some u -> truthy_opt (u_password_hash u) = false)).
  { destruct existing as [u|]; [|done].
    destruct (truthy_opt (u_password_hash u)) eqn:Eu; [|apply tx_ret; split; [done|by intros ? [= <-]]].
    unfold tx_ok, pbind. pose proof (same_db_inv _ _ (register_failure_db ip w1)) as [Hd _].
    destruct (register_failure ip w1) as [[[]|e] w2]; exact Hd. }
  intros _ w2 H2 [Ht2 Hnew]. rewrite He in Hnew.
  eapply done_bind; [apply tx_account; congruence|]. intros u w3 H3 [Hu Hi3].
  apply (done_bind _ _ _ (fun _ d => exists v, user_of email d = Some v /\ u_id v = u_id u /\
    u_role v = (if admin_bypass then Role_ADMIN else Role_USER) /\
    if admin_bypass then db_invites d = db_invites (w_db w)
    else exists i, invite_of invite_token (w_db w) = Some i /\ i_used_at i = None /\ w_now w < i_expires_at i /\
           invite_of invite_token d = Some (mark_used (u_id u) (w_now w) i))).
  { assert (Hrole : forall d r, user_of email d = Some u ->
      exists v, user_of email (set_users (update_where (fun v => Z.eqb (u_id v) (u_id u)) (with_role r) (db_users d)) d)
        = Some v /\ u_id v = u_id u /\ u_role v = r).
    { intros d r Hd. rewrite user_of_update, Hd by done. simpl. rewrite Z.eqb_refl. by eexists. }
    destruct admin_bypass.
    - apply tx_update. destruct (Hrole (w_tx w3) Role_ADMIN Hu) as (v & Hv1 & Hv2 & Hv3).
      exists v. split_and!; [done..|]. simpl. congruence.
    - unfold tx_ok, pbind. pose proof (tx_redeem invite_token (u_id u) w3) as Hr. unfold tx_ok in Hr.
      destruct (redeem_for invite_token (u_id u) w3) as [[[]|e] w4]; [|exact Hr].
      destruct Hr as (H4 & Hus & i & I1 & I2 & I3 & I4). cbn.
      split; [exact H4|].
      assert (Hu4 : user_of email (w_tx w4) = Some u) by (unfold user_of in *; congruence).
      destruct (Hrole (w_tx w4) Role_USER Hu4) as (v & Hv1 & Hv2 & Hv3).
      assert (Hn3 : w_now w3 = w_now w) by (unfold stmtview in *; simplify_eq; simpl in *; congruence).
      exists v. split_and!; [done..|]. rewrite Hn3 in *. exists i.
      split_and!; [|done|done|exact I4]. unfold invite_of in *. congruence. }
  intros _ w4 H4 (v & V1 & V2 & V3 & V4).
  eapply done_bind; [apply name_user_spec|]. intros _ w5 H5 [N1 N2].
  destruct (N2 _ _ V1) as (v5 & V5 & V6 & V7).
  apply (done_bind _ _ _ (fun _ => registered email password invite_token admin_bypass (w_now w) (w_db w)));
    [|intros _ w6 _ HP; by apply done_commit].
  apply tx_write. split; [exact Hnew|]. exists (with_password (argon_hash password) v5).
  rewrite user_of_update by done. rewrite V5. simpl. rewrite V6, V2, Z.eqb_refl.
  split_and!; [done|done|congruence|]. destruct admin_bypass; [congruence|].
  destruct V4 as (i & I1 & I2 & I3 & I4). exists i. split_and!; [done..|].
  unfold invite_of in *. cbn [db_invites set_users]. rewrite N1. simpl. congruence.
Qed.

(** The test for the administrator's address. *)
Definition is_admin_email (email : string) : bool :=
  String.eqb email (lower (strip ADMIN_EMAIL)) && nonempty email.

(** C34: a registration is all or nothing. If it is refused, for whatever reason, the
    database is as it was: no account, no role, no invite used up. If it succeeds, the
    address had no password yet and its account now has this one; the account is the
    administrator's exactly for the configured address, and otherwise an existing, unused
    and unexpired invite has been marked as used by it. *)
Theorem register_all_or_nothing ip email password invite_token display_name w :
  match register ip email password invite_token display_name w with
  | (Raise _, w') => w_db w' = w_db w
  | (Ok r, w') => exists address, validate_email (lower (strip email)) = Some address /\
      (8 <= String.length password)%nat /\
      registered address password (strip invite_token) (is_admin_email address) (w_now w) (w_db w) (w_db w')
  end.
Proof.
  unfold Auth.register, pbind at 1. destruct (same_db_inv _ _ (check_throttle_db ip w)) as [Hd Hn].
  destruct (check_throttle ip w) as [[[]|e] w1]; cbn [snd] in Hd, Hn; [|exact Hd].
  destruct (validate_email (lower (strip email))) as [address|]; [|exact Hd].
  destruct (_ <? 8)%nat eqn:El; [exact Hd|]. fold (is_admin_email address).
  destruct (negb (is_admin_email address) && negb (nonempty (strip invite_token))); [exact Hd|].
  unfold pbind at 1. pose proof (register_user_done ip address password (strip invite_token)
    (is_admin_email address) (none_if_blank display_name) w1) as H. unfold tx_done in H.
  destruct (register_user _ _ _ _ _ _ w1) as [[[]|e] w2]; [|congruence].
  unfold pbind at 1. destruct (throttle_quiet ip w2) as [_ Hq].
  destruct (same_db_inv _ _ (throttle_clear_db ip w2)) as [Hd3 _].
  destruct (throttle_clear ip w2) as [[[]|e] w3]; [|done]. cbn [snd] in Hd3.
  unfold Auth.answer, pbind, issue_token. cbn [pret]. exists address. split; [done|].
  split; [by apply Nat.ltb_ge|]. rewrite Hd3, <- Hn, <- Hd. exact H.
Qed.

(** an invite is good for one account: once a registration has used it, every later
    attempt to redeem it, by whomever, is refused and changes nothing. *)
Theorem invite_single_use ip email password invite_token display_name w r w1 w2 address user_id
    (H : register ip email password invite_token display_name w = (Ok r, w1))
    (Hemail : validate_email (lower (strip email)) = Some address)
    (Hguest : is_admin_email address = false)
    (Hkept : invite_of (strip invite_token) (w_tx w2) = invite_of (strip invite_token) (w_db w1)) :
  redeem (strip invite_token) user_id w2 = (Raise (InviteUsed (strip invite_token)), w2).
Proof.
  assert (Hreg : exists i, invite_of (strip invite_token) (w_db w1) = Some i /\ is_Some (i_used_at i)).
  { unfold Auth.register, pbind at 1 in H.
    destruct (check_throttle ip w) as [[[]|e] w3]; [|done]. rewrite Hemail in H.
    destruct (_ <? 8)%nat; [done|]. fold (is_admin_email address) in H. rewrite Hguest in H.
    destruct (negb false && negb (nonempty (strip invite_token))); [done|]. unfold pbind at 1 in H.
    pose proof (register_user_done ip address password (strip invite_token) false
      (none_if_blank display_name) w3) as Hd. unfold tx_done in Hd.
    destruct (register_user _ _ _ _ _ _ w3) as [[[]|e] w4]; [|done].
    destruct Hd as (_ & u & _ & _ & _ & i & _ & _ & _ & Hi).
    unfold pbind at 1 in H. destruct (same_db_inv _ _ (throttle_clear_db ip w4)) as [Hd _].
    destruct (throttle_clear ip w4) as [[[]|e] w5]; [|done]. injection H as _ <-.
    cbn [snd] in Hd. rewrite Hd. eexists. split; [exact Hi|by eexists]. }
  destruct Hreg as (i & Hi & [t Ht]). unfold redeem, pbind, get_by_token, sql, gets. cbn [fst snd].
  fold (invite_of (strip invite_token) (w_tx w2)). by rewrite Hkept, Hi, Ht.
Qed.

(** A session token decodes with its secret from its issue to its expiry. *)
Context (Hjwt : forall sub iat t, iat <= t < iat + JWT_TTL_HOURS * 3600 ->
  jwt_decode (jwt_encode (session_payload JWT_TTL_HOURS sub iat) JWT_SECRET) JWT_SECRET t =
  Ok (session_payload JWT_TTL_HOURS sub iat)).

(** C35: a login that succeeds was with the password of the account, and the session it
    opens is that account's until the token expires: every call with its cookie is made
    by the user the address has at that time, and refused once there is none. *)
Theorem login_session ip email password w r w1 w2
    (H : login ip email password w = (Ok r, w1)) (Haddr : nonempty (lower (strip email)) = true)
    (Ht : unix_seconds w1 <= unix_seconds w2 < unix_seconds w1 + JWT_TTL_HOURS * 3600) :
  (exists u, user_of (lower (strip email)) (w_db w) = Some u /\
     verify_password argon_verify password (u_password_hash u) = true) /\
  (require_user (Some (access_token r)) w2).1 =
    match user_of (lower (strip email)) (w_db w2) with
    | Some u => Ok u
    | None => Raise (ConnectError "unauthenticated" "user not found")
    end.
Proof.
  unfold Auth.login, pbind at 1 in H. destruct (same_db_inv _ _ (check_throttle_db ip w)) as [Hd _].
  destruct (check_throttle ip w) as [[[]|e] w3]; [|done]. cbn [snd] in Hd. unfold pbind at 1 in H.
  unfold with_session, pbind at 1, get_by_email, sql, gets in H. cbn [fst snd w_tx set_hooks set_tx] in H.
  fold (with_email (lower (strip email))) in H. fold (user_of (lower (strip email)) (w_db w3)) in H.
  rewrite Hd in H. split.
  - destruct (user_of (lower (strip email)) (w_db w)) as [u|].
    + exists u. split; [done|].
      destruct (verify_password argon_verify password (u_password_hash u)) eqn:Ev; [done|]. exfalso.
      match type of H with context [let (_, _) := ?z in _] => destruct z as [[a|e] w4] eqn:E end; [|done].
      cbn [negb] in E. unfold pbind in E. by destruct (register_failure ip _) as [[[]|e] w5].
    + exfalso. unfold pbind at 1 in H. destruct (register_failure ip _) as [[[]|e] w4]; done.
  - match type of H with context [let (_, _) := ?z in _] => destruct z as [[a|e] w4] end; [|done].
    unfold pbind at 1 in H. destruct (throttle_clear ip _) as [[[]|e] w5]; [|done].
    unfold Auth.answer, pbind, issue_token in H. injection H as <- <-. cbn [access_token fst].
    unfold Auth.require_user, jwt_subject, validate_token, pbind, except, gets. cbn [fst snd].
    rewrite Hjwt by done. cbn [get_or_null session_payload assoc String.eqb Ascii.eqb Bool.eqb].
    rewrite Haddr. cbn [pret]. unfold with_session, get_by_email, sql, gets. cbn [fst snd w_tx set_hooks set_tx].
    fold (with_email (lower (strip email))). fold (user_of (lower (strip email)) (w_db w2)).
    by destruct (user_of _ (w_db w2)).
Qed.
End Outcomes.

(* ------------------------------------------------------------------ *)
(** * Witnesses *)

Definition demo_verify (plain stored : string) : bool := String.eqb stored ("#" ++ plain).
Definition demo_hash (plain : string) : string := "#" ++ plain.
Definition demo_email (s : string) : option string := if str_contains "@" s then Some s else None.

Definition demo_session_encode (p : dict) (_ : string) : string :=
  match get_or_null "sub" p, get_or_null "iat" p with
  | JStr s, JNum t => str_of_Z (Zpos (encode (s, t)))
  | _, _ => ""
  end.
Definition demo_session_decode (token _ : string) (t : Z) : result string dict :=
  match py_int token with
  | Some (Zpos x) =>
      match decode (A := string * Z) x with
      | Some (s, iat) => if Z.leb iat t && Z.ltb t (iat + 24 * 3600) then Ok (session_payload 24 s iat)
                         else Raise "Signature has expired"
      | None => Raise "Invalid token"
      end
  | _ => Raise "Invalid token"
  end.

Lemma demo_session sub iat t : iat <= t < iat + 24 * 3600 ->
  demo_session_decode (demo_session_encode (session_payload 24 sub iat) "k") "k" t = Ok (session_payload 24 sub iat).
Proof.
  intros [H1 H2]. unfold demo_session_encode, demo_session_decode.
  cbn [get_or_null session_payload assoc String.eqb Ascii.eqb Bool.eqb].
  rewrite py_int_str_of_Z, decode_encode. apply Z.leb_le in H1 as ->. by apply Z.ltb_lt in H2 as ->.
Qed.

Definition demo_account : user := mk_user 4 None (Some "a@b") (Some "#secret12") None None Role_USER.
Definition demo_login_world : world := set_db (set_users [demo_account] empty_db) empty_world.
#[local] Notation demo_login :=
  (login demo_verify (fun _ => false) demo_hash demo_session_encode "k" 24 true None " A@b" "secret12" demo_login_world).

Lemma login_session_witness :
  exists r w1, demo_login = (Ok r, w1) /\
    (require_user demo_session_decode "k" (Some (access_token r)) (set_now 5000 demo_login_world)).1 =
      Ok demo_account.
Proof.
  destruct demo_login as [[r|e] w1] eqn:E; [|vm_compute in E; discriminate]. exists r, w1. split; [reflexivity|].
  assert (Hw : w_now w1 = 0) by (change w1 with (Ok (E := exn) r, w1).2; rewrite <- E; vm_compute; reflexivity).
  assert (Ht : unix_seconds w1 <= unix_seconds (set_now 5000 demo_login_world) < unix_seconds w1 + 24 * 3600)
    by (unfold unix_seconds; rewrite Hw; vm_compute; split; [discriminate|reflexivity]).
  destruct (login_session demo_verify (fun _ => false) demo_hash demo_session_encode demo_session_decode
    "k" 24 true demo_session None " A@b" "secret12" demo_login_world r w1 (set_now 5000 demo_login_world)
    E eq_refl Ht) as [_ H].
  etransitivity; [exact H|vm_compute; reflexivity].
Defined.

Definition demo_invite : invite := mk_invite 1 "tok" 9 None 1000 None 0.
Definition demo_invite_world : world := set_db (set_invites [demo_invite] empty_db) empty_world.
#[local] Notation demo_register :=
  (register demo_hash demo_session_encode demo_email "k" "root@b" 24 true None "c@d" "secret12" "tok" "" demo_invite_world).

Lemma invite_single_use_witness :
  exists r w1, demo_register = (Ok r, w1) /\
    redeem (strip "tok") 77 (set_tx (w_db w1) w1) = (Raise (InviteUsed (strip "tok")), set_tx (w_db w1) w1).
Proof.
  assert (exists r w1, demo_register = (Ok r, w1)) as (r & w1 & E).
  { destruct demo_register as [[r|e] w1] eqn:E; [by exists r, w1|vm_compute in E; discriminate]. }
  exists r, w1. split; [exact E|].
  assert (Hv : demo_email (lower (strip "c@d")) = Some "c@d") by (vm_compute; reflexivity).
  assert (Ha : is_admin_email "root@b" "c@d" = false) by (vm_compute; reflexivity).
  apply (invite_single_use demo_hash demo_session_encode demo_email "k" "root@b" 24 true None "c@d" "secret12" "tok" ""
    demo_invite_world r w1 (set_tx (w_db w1) w1) "c@d" 77); [exact E|exact Hv|exact Ha|reflexivity].
Defined.
