(* ===== verification/TgProgress.v ===== *)
(** The Telegram side of a turn: the bot as a turn sees it, what it sends
    ([tg/output.py]) and the progress reporter that streams the answer by editing one
    message ([tg/progress.py]). *)
From S2P Require Import Prelude PyStr Text Json Models Events World WebStream Markdown.

Open Scope Z_scope.
Open Scope string_scope.

(* ------------------------------------------------------------------ *)
(** * The bot *)

(** How a call of the bot ends: an error of the API or the network, an answer that cannot
    be decoded and the cancellation of the caller may come after it had its effect. *)
Inductive tg_reply :=
| Delivered
| RetryAfter (retry_after : Z) (msg : string)
| ApiError (done : bool) (msg : string)
| Undecoded (done : bool) (msg : string)
| Interrupted (done : bool).

Inductive input_file := URLInputFile (url : string) | FSInputFile (path : string).

(** The calls of a turn, all to the chat (and topic) of the message it answers. *)
Inductive tg_action :=
| SendMessage (text : ustr) (stop_button : bool)
| EditText (message_id : Z) (text : ustr) (stop_button : bool)
| DeleteMessage (message_id : Z)
| SendVoice (spoken : ustr)
| SendFile (kind : AttachmentKind) (file : input_file) (caption : option ustr)
| SendChatAction
| SendDraft (text : ustr)
| AnswerCallback (text : option ustr).

(** The next answers (all delivered when the list is exhausted), the calls that had their
    effect with the identifier of the message they created, the next identifier. *)
Record telegram := mk_telegram {
  tg_script : list tg_reply;
  tg_log : list (Z * tg_action);
  tg_next_id : Z
}.

(** [TelegramRetryAfter] is a [TelegramAPIError]. *)
Definition TelegramAPIError (msg : string) : exn := OtherException "TelegramAPIError" msg.
Definition TelegramRetryAfter (msg : string) : exn := OtherException "TelegramRetryAfter" msg.
Definition ClientDecodeError (msg : string) : exn := OtherException "ClientDecodeError" msg.
Definition telegram_error (e : exn) : bool :=
  bool_decide (is_Some (raised "TelegramAPIError" e)) ||
  bool_decide (is_Some (raised "TelegramRetryAfter" e)).

(* ------------------------------------------------------------------ *)
(** * State *)

Inductive tool_status := TOOL_RUNNING | TOOL_DONE | TOOL_ERROR.

#[export] Instance tool_status_eq : EqDecision tool_status.
Proof. solve_decision. Defined.

(** The fields of [TurnProgressReporter]; times are those of the monotonic clock. The
    task is [None] before [start] and after [stop]; it ends by itself on an exception. *)
Record progress := mk_progress {
  pg_draft_enabled : bool;
  pg_tools : list (string * tool_status);
  pg_last_draft_text : ustr;
  pg_last_draft_at : Z;
  pg_status_message : option Z;
  pg_last_status_text : ustr;
  pg_stream_message : option Z;
  pg_stream_text : ustr;
  pg_stream_throttle_at : Z;
  pg_status_paused_until : Z;
  pg_task : option bool;
  pg_last_chat_action_at : Z
}.

Definition new_progress (draft_enabled : bool) : progress :=
  mk_progress draft_enabled [] [] 0 None [] None [] 0 0 None 0.

Definition set_tools x p := mk_progress (pg_draft_enabled p) x (pg_last_draft_text p)
  (pg_last_draft_at p) (pg_status_message p) (pg_last_status_text p) (pg_stream_message p)
  (pg_stream_text p) (pg_stream_throttle_at p) (pg_status_paused_until p) (pg_task p)
  (pg_last_chat_action_at p).
Definition set_draft x t p := mk_progress (pg_draft_enabled p) (pg_tools p) x
  t (pg_status_message p) (pg_last_status_text p) (pg_stream_message p)
  (pg_stream_text p) (pg_stream_throttle_at p) (pg_status_paused_until p) (pg_task p)
  (pg_last_chat_action_at p).
Definition set_status_message x p := mk_progress (pg_draft_enabled p) (pg_tools p)
  (pg_last_draft_text p) (pg_last_draft_at p) x (pg_last_status_text p) (pg_stream_message p)
  (pg_stream_text p) (pg_stream_throttle_at p) (pg_status_paused_until p) (pg_task p)
  (pg_last_chat_action_at p).
Definition set_status_text x p := mk_progress (pg_draft_enabled p) (pg_tools p)
  (pg_last_draft_text p) (pg_last_draft_at p) (pg_status_message p) x (pg_stream_message p)
  (pg_stream_text p) (pg_stream_throttle_at p) (pg_status_paused_until p) (pg_task p)
  (pg_last_chat_action_at p).
Definition set_stream_message x p := mk_progress (pg_draft_enabled p) (pg_tools p)
  (pg_last_draft_text p) (pg_last_draft_at p) (pg_status_message p) (pg_last_status_text p) x
  (pg_stream_text p) (pg_stream_throttle_at p) (pg_status_paused_until p) (pg_task p)
  (pg_last_chat_action_at p).
Definition set_stream_text x p := mk_progress (pg_draft_enabled p) (pg_tools p)
  (pg_last_draft_text p) (pg_last_draft_at p) (pg_status_message p) (pg_last_status_text p)
  (pg_stream_message p) x (pg_stream_throttle_at p) (pg_status_paused_until p) (pg_task p)
  (pg_last_chat_action_at p).
Definition set_throttle x p := mk_progress (pg_draft_enabled p) (pg_tools p)
  (pg_last_draft_text p) (pg_last_draft_at p) (pg_status_message p) (pg_last_status_text p)
  (pg_stream_message p) (pg_stream_text p) x (pg_status_paused_until p) (pg_task p)
  (pg_last_chat_action_at p).
Definition set_paused x p := mk_progress (pg_draft_enabled p) (pg_tools p)
  (pg_last_draft_text p) (pg_last_draft_at p) (pg_status_message p) (pg_last_status_text p)
  (pg_stream_message p) (pg_stream_text p) (pg_stream_throttle_at p) x (pg_task p)
  (pg_last_chat_action_at p).
Definition set_task x p := mk_progress (pg_draft_enabled p) (pg_tools p)
  (pg_last_draft_text p) (pg_last_draft_at p) (pg_status_message p) (pg_last_status_text p)
  (pg_stream_message p) (pg_stream_text p) (pg_stream_throttle_at p)
  (pg_status_paused_until p) x (pg_last_chat_action_at p).
Definition set_chat_action x p := mk_progress (pg_draft_enabled p) (pg_tools p)
  (pg_last_draft_text p) (pg_last_draft_at p) (pg_status_message p) (pg_last_status_text p)
  (pg_stream_message p) (pg_stream_text p) (pg_stream_throttle_at p)
  (pg_status_paused_until p) (pg_task p) x.

(** [ChatSession] of [services/sessions/store.py], without its lock and task, by chat and
    topic. *)
Record chat_session := mk_chat_session {
  cs_db_chat_id : Z;
  cs_db_user_id : Z;
  cs_is_admin : bool
}.
Definition session_key : Type := Z * option Z.

(** The bot with the reporter and the locals of the turn's coroutines (the collector of
    [stream_turn], the heartbeat task, the [terminal] variables of [_run_locked]), and the
    sessions of the process. *)
Record tg_state := mk_tg_state {
  ts_bot : telegram;
  ts_progress : progress;
  ts_collector : StreamCollector;
  ts_beating : bool;
  ts_terminal : option TurnStatus;
  ts_terminal_error : option string * option string;
  ts_sessions : list (session_key * chat_session)
}.

Definition tworld : Type := world * tg_state.

Definition set_bot x s := mk_tg_state x (ts_progress s) (ts_collector s) (ts_beating s)
  (ts_terminal s) (ts_terminal_error s) (ts_sessions s).
Definition set_progress x s := mk_tg_state (ts_bot s) x (ts_collector s) (ts_beating s)
  (ts_terminal s) (ts_terminal_error s) (ts_sessions s).
Definition set_tg_collector x s := mk_tg_state (ts_bot s) (ts_progress s) x (ts_beating s)
  (ts_terminal s) (ts_terminal_error s) (ts_sessions s).
Definition set_tg_beating x s := mk_tg_state (ts_bot s) (ts_progress s) (ts_collector s) x
  (ts_terminal s) (ts_terminal_error s) (ts_sessions s).
Definition set_terminal st err s := mk_tg_state (ts_bot s) (ts_progress s) (ts_collector s)
  (ts_beating s) st err (ts_sessions s).
Definition set_sessions x s := mk_tg_state (ts_bot s) (ts_progress s) (ts_collector s)
  (ts_beating s) (ts_terminal s) (ts_terminal_error s) x.

(** A call of the server's services. *)
Definition srv {A} (m : prog world exn A) : prog tworld exn A :=
  fun tw => let '(r, w) := m tw.1 in (r, (w, tw.2)).
Definition tg_get {A} (f : tg_state -> A) : prog tworld exn A := gets (fun tw => f tw.2).
Definition tg_mod (f : tg_state -> tg_state) : prog tworld exn unit :=
  modify (fun tw => (tw.1, f tw.2)).
Definition mod_progress (f : progress -> progress) : prog tworld exn unit :=
  tg_mod (fun s => set_progress (f (ts_progress s)) s).

(** A call: its answer, and the identifier of the message if it created one. *)
Definition perform (a : tg_action) (b : telegram) : telegram :=
  mk_telegram (tl (tg_script b)) (tg_log b ++ [(tg_next_id b, a)])%list (tg_next_id b + 1).
Definition skip_reply (b : telegram) : telegram :=
  mk_telegram (tl (tg_script b)) (tg_log b) (tg_next_id b).

Definition tg_try (a : tg_action) : prog tworld exn (tg_reply * Z) :=
  let! b := tg_get ts_bot in
  let reply := hd Delivered (tg_script b) in
  tg_mod (set_bot (match reply with
                   | Delivered | ApiError true _ | Undecoded true _ | Interrupted true => perform a b
                   | _ => skip_reply b
                   end)) ;;
  pret (reply, tg_next_id b).

Definition tg_call (a : tg_action) : prog tworld exn Z :=
  let! r := tg_try a in
  match r.1 with
  | Delivered => pret r.2
  | RetryAfter _ msg => praise (TelegramRetryAfter msg)
  | ApiError _ msg => praise (TelegramAPIError msg)
  | Undecoded _ msg => praise (ClientDecodeError msg)
  | Interrupted _ => praise CancelledError
  end.

(** [contextlib.suppress]. *)
Definition suppress {W} (p : exn -> bool) (m : prog W exn unit) : prog W exn unit :=
  except (fun e => if p e then pret tt else praise e) m.

(** [message.answer]. *)
Definition answer (text : ustr) : prog tworld exn unit :=
  tg_call (SendMessage text false) ;; pret tt.

(** A system message. *)
Definition notify (text : string) : prog tworld exn unit := answer (Markdown.escape (U.utf8 text)).

(* ------------------------------------------------------------------ *)
(** * Sending ([tg/output.py]) *)

(** What lies outside the server: the Markdown parser, the URL parser, the resolution of
    a path on disk under the trusted roots, and speech synthesis; and two settings,
    [TG_DRAFT_ENABLED] and [TG_ADMIN_USER_IDS]. *)
Record tg_env := {
  te_markdown : ustr -> list Markdown.Token;
  te_url_scheme : string -> string;
  te_trusted_path : string -> option string;
  te_tts_enabled : bool;
  te_synthesize : ustr -> prog world exn unit;
  te_draft_enabled : bool;
  te_admin_ids : list Z
}.

Section Output.
Context (E : tg_env).

Definition SpeechSynthesisError (msg : string) : exn := OtherException "SpeechSynthesisError" msg.

(** [tg_markdown.render_html]; by [split_chunks_total] the third case does not occur. *)
Definition render_html (text : ustr) : prog tworld exn (list ustr) :=
  match Markdown.render_html (te_markdown E) text with
  | Ok (Some chunks) => pret chunks
  | Raise Markdown.KeyError => praise (OtherException "KeyError" "")
  | Ok None | Raise Markdown.IndexError => praise (OtherException "IndexError" "")
  end.

Definition send_text (text : ustr) : prog tworld exn unit :=
  let! pieces := render_html text in
  for_each pieces (fun piece => tg_call (SendMessage piece false) ;; pret tt).

Definition is_speech_error (e : exn) : bool := bool_decide (is_Some (raised "SpeechSynthesisError" e)).

Definition send_voice_reply (text : ustr) : prog tworld exn bool :=
  match Markdown.to_plain (te_markdown E) text with
  | [] => pret false
  | spoken =>
      if negb (te_tts_enabled E) then pret false
      else
        let! ok := except (fun e => if is_speech_error e then pret false else praise e)
                     (srv (te_synthesize E spoken) ;; pret true) in
        if negb ok then pret false
        else tg_call (SendVoice spoken) ;; pret true
  end.

Definition resolve_input_file (source : string) : prog tworld exn input_file :=
  let scheme := te_url_scheme E source in
  if String.eqb scheme "http" || String.eqb scheme "https" then pret (URLInputFile source)
  else match te_trusted_path E source with
       | None => praise (ValueError ("untrusted attachment source: " ++ source))
       | Some path => pret (FSInputFile path)
       end.

Definition send_attachment (a : Attachment) : prog tworld exn unit :=
  let! file := resolve_input_file (a_source a) in
  let caption := if nonempty (a_caption a) then Some (Markdown.escape (U.lit (a_caption a))) else None in
  tg_call (SendFile (a_kind a) file caption) ;; pret tt.

(* ------------------------------------------------------------------ *)
(** * The progress reporter ([tg/progress.py]) *)

Definition status_icon (s : tool_status) : ustr :=
  match s with
  | TOOL_RUNNING => U.utf8 "🔧"
  | TOOL_DONE => U.utf8 "✓"
  | TOOL_ERROR => U.utf8 "✗"
  end.

Definition DRAFT_TEXT_MAX : nat := 4000.
Definition STREAM_BUBBLE_MAX : nat := 3500.
Definition STREAM_THROTTLE : Z := seconds 1.
Definition CHAT_ACTION_PERIOD : Z := seconds 4.
Definition DRAFT_THROTTLE : Z := 250.

Definition WINDOW_SEPARATORS : list ustr := [[10; 10]; [10]; [46; 32]; [32]].

(** The end of the last separator in the window, trying the separators in order. *)
Fixpoint window_cut (seps : list ustr) (window : ustr) : option nat :=
  match seps with
  | [] => None
  | sep :: seps' =>
      match U.rfind sep window (List.length window) with
      | Some (S _ as idx) => Some (idx + List.length sep)%nat
      | _ => window_cut seps' window
      end
  end.

Definition stream_window (text : ustr) : ustr :=
  if Nat.leb (List.length text) STREAM_BUBBLE_MAX then text
  else match window_cut WINDOW_SEPARATORS (take STREAM_BUBBLE_MAX text) with
       | Some n => take n text
       | None => take STREAM_BUBBLE_MAX text
       end.

Definition upsert_stream_message (text : ustr) : prog tworld exn unit :=
  let! chunks := render_html text in
  match chunks with
  | [] => pret tt
  | rendered :: _ =>
      let! shown := tg_get (fun s => pg_stream_message (ts_progress s)) in
      match shown with
      | None =>
          let! id := tg_call (SendMessage rendered false) in
          mod_progress (set_stream_message (Some id))
      | Some id => tg_call (EditText id rendered false) ;; pret tt
      end
  end.

Definition delete_stream_message : prog tworld exn unit :=
  let! shown := tg_get (fun s => pg_stream_message (ts_progress s)) in
  match shown with
  | None => pret tt
  | Some id =>
      suppress telegram_error (tg_call (DeleteMessage id) ;; pret tt) ;;
      mod_progress (set_stream_message None) ;;
      mod_progress (set_stream_text [])
  end.

(** A [try] around the call with [except TelegramAPIError] in it. *)
Definition delivered (m : prog tworld exn unit) : prog tworld exn bool :=
  except (fun e => if telegram_error e then pret false else praise e) (m ;; pret true).

Definition note_partial (full_text : ustr) : prog tworld exn unit :=
  if bool_decide (full_text = []) || Markdown.has_unclosed_fence full_text then pret tt
  else
    let! now := srv now in
    let! p := tg_get ts_progress in
    if Z.ltb (now - pg_stream_throttle_at p) STREAM_THROTTLE then pret tt
    else
      let visible := U.strip (stream_window full_text) in
      if bool_decide (visible = []) || bool_decide (visible = pg_stream_text p) then pret tt
      else if Markdown.has_unclosed_fence visible then pret tt
      else
        let! ok := delivered (upsert_stream_message visible) in
        if ok then mod_progress (set_stream_text visible) ;; mod_progress (set_throttle now)
        else pret tt.

Definition finalize_stream (final_text : ustr) : prog tworld exn ustr :=
  if bool_decide (final_text = []) then pret []
  else
    let visible := U.strip (stream_window final_text) in
    if bool_decide (visible = []) then pret []
    else if Markdown.has_unclosed_fence visible then delete_stream_message ;; pret []
    else
      let! ok := delivered (upsert_stream_message visible) in
      if ok then mod_progress (set_stream_text visible) ;; pret visible else pret [].

Definition running_tool (e : string * tool_status) : bool := bool_decide (e.2 = TOOL_RUNNING).

Definition compose_status_text (tools : list (string * tool_status)) : ustr :=
  match List.find running_tool tools with
  | Some (name, st) => status_icon st ++ [32] ++ U.lit name
  | None => U.utf8 "⏳ Thinking…"
  end%list.

Definition refresh_status : prog tworld exn unit :=
  let! p := tg_get ts_progress in
  let text := compose_status_text (pg_tools p) in
  if bool_decide (text = pg_last_status_text p) then pret tt
  else
    let! now := srv now in
    if Z.ltb now (pg_status_paused_until p) then pret tt
    else
      let rendered := Markdown.escape text in
      let! r := tg_try (match pg_status_message p with
                        | None => SendMessage rendered true
                        | Some id => EditText id rendered true
                        end) in
      match r.1 with
      | Delivered =>
          match pg_status_message p with
          | None => mod_progress (set_status_message (Some r.2))
          | Some _ => pret tt
          end ;;
          mod_progress (set_status_text text)
      | RetryAfter retry_after _ => mod_progress (set_paused (now + seconds retry_after))
      | ApiError _ _ => pret tt
      | Undecoded _ msg => praise (ClientDecodeError msg)
      | Interrupted _ => praise CancelledError
      end.

Fixpoint join_lines (l : list ustr) : ustr :=
  match l with
  | [] => []
  | [x] => x
  | x :: l' => x ++ [10] ++ join_lines l'
  end%list.

Definition compose_draft_text (tools : list (string * tool_status)) : ustr :=
  join_lines (map (fun e => status_icon e.2 ++ [32] ++ U.lit e.1)%list tools).

Definition render_draft (force : bool) : prog tworld exn unit :=
  let! p := tg_get ts_progress in
  if negb (pg_draft_enabled p) then pret tt
  else
    let text := compose_draft_text (pg_tools p) in
    if bool_decide (text = []) then pret tt
    else
      let! now := srv now in
      if negb force && Z.ltb (now - pg_last_draft_at p) DRAFT_THROTTLE then pret tt
      else if bool_decide (text = pg_last_draft_text p) then pret tt
      else
        let! ok := delivered (
          tg_call (SendDraft (drop (List.length text - DRAFT_TEXT_MAX) text)) ;; pret tt) in
        if ok then mod_progress (set_draft text now) else pret tt.

Definition note_tool (name : string) : prog tworld exn unit :=
  mod_progress (fun p => set_tools (pg_tools p ++ [(name, TOOL_RUNNING)])%list p) ;;
  refresh_status ;;
  render_draft true.

(** The last running entry of that name is finished. *)
Fixpoint finish_first (name : string) (st : tool_status) (l : list (string * tool_status)) :
    list (string * tool_status) :=
  match l with
  | [] => []
  | e :: l' =>
      if String.eqb e.1 name && running_tool e then (e.1, st) :: l'
      else e :: finish_first name st l'
  end.

Definition mark_tool_done (name : string) (error : bool) : prog tworld exn unit :=
  mod_progress (fun p => set_tools
    (rev (finish_first name (if error then TOOL_ERROR else TOOL_DONE) (rev (pg_tools p)))) p) ;;
  refresh_status ;;
  render_draft true.

Definition start : prog tworld exn unit := mod_progress (set_task (Some true)).

(** One round of [_run]; an exception ends the task. *)
Definition run_round : prog tworld exn unit :=
  let! p := tg_get ts_progress in
  match pg_task p with
  | Some true =>
      except (fun _ => mod_progress (set_task (Some false))) (
        refresh_status ;;
        let! now := srv now in
        let! p := tg_get ts_progress in
        if Z.leb CHAT_ACTION_PERIOD (now - pg_last_chat_action_at p) then
          suppress is_exception (tg_call SendChatAction ;; pret tt) ;;
          mod_progress (set_chat_action now)
        else pret tt)
  | _ => pret tt
  end.

Definition stop : prog tworld exn unit :=
  mod_progress (set_task None) ;;
  let! status := tg_get (fun s => pg_status_message (ts_progress s)) in
  match status with
  | None => pret tt
  | Some id =>
      suppress is_exception (tg_call (DeleteMessage id) ;; pret tt) ;;
      mod_progress (set_status_message None)
  end.
End Output.

(* ------------------------------------------------------------------ *)
(** * A small environment for the witnesses *)

(** A parser without markup: the whole text is one text token. *)
Definition plain_parser (s : ustr) : list Markdown.Token := [Markdown.mk_token "text" s [] None None []].

Definition demo_env : tg_env := {|
  te_markdown := plain_parser; te_url_scheme := fun _ => ""; te_trusted_path := fun p => Some p;
  te_tts_enabled := false; te_synthesize := fun _ => pret tt; te_draft_enabled := false; te_admin_ids := [] |}.

Definition demo_tg_state : tg_state :=
  mk_tg_state (mk_telegram [] [] 100) (new_progress false) empty_collector false None (None, None) [].
