(* ===== verification/TgOutcome.v ===== *)
(** What a Telegram message leads to ([tg/turn] with [tg/progress.py] and [tg/output.py]):
    the balance of the user's quota, the text the chat shows at the end of a turn, and
    what the runner does when the sidecar reports the turn completed or when the user
    stops it. *)
From S2P Require Import Prelude PyStr Text Json Models Events World TurnStore Locks Recovery RateLimit TurnStream CodexRemote Services WebStream TurnRunner CodexClient ChatRpc Markdown TgProgress TgTurn.

Open Scope Z_scope.
Open Scope string_scope.

(* ------------------------------------------------------------------ *)
(** * Lemmas: the quota *)

(** A goal of [respects] that the hints close. *)
Ltac framed := auto with frame.
#[local] Hint Resolve spares_preorder : frame.

#[local] Hint Resolve redis_default_spares update_turns_spares finalize_spares append_spares orphan_spares
  create_starting_spares : frame.

Section Quota.
Context (u : user).
Notation k := (active_key_of u).

(** The user's counter keeps its value, and a reachable Redis stays so. *)
Definition tg_spares (tw tw' : tworld) : Prop := spares k tw.1 tw'.1.

#[export] Instance tg_spares_preorder : PreOrder tg_spares.
Proof. split; [by intros tw|]. intros a b c H1 H2. unfold tg_spares in *. by etransitivity. Qed.

Lemma srv_spares {A} (m : prog world exn A) : respects (spares k) m -> respects tg_spares (srv m).
Proof. intros H tw. specialize (H tw.1). unfold srv. by destruct (m tw.1). Qed.
Lemma tg_get_spares {A} (f : tg_state -> A) : respects tg_spares (tg_get f).
Proof. by intros tw. Qed.
Lemma tg_mod_spares f : respects tg_spares (tg_mod f).
Proof. by intros tw. Qed.
Lemma mod_progress_spares f : respects tg_spares (mod_progress f).
Proof. by intros tw. Qed.
Lemma tg_try_spares a : respects tg_spares (tg_try a).
Proof. by intros tw. Qed.
#[local] Hint Resolve srv_spares tg_get_spares tg_mod_spares mod_progress_spares tg_try_spares : frame.

Lemma tg_call_spares a : respects tg_spares (tg_call a).
Proof. unfold tg_call. solve_frame. Qed.
Lemma suppress_spares {W} R `{!PreOrder R} p (m : prog W exn unit) : respects R m -> respects R (suppress p m).
Proof. intros H. unfold suppress. solve_frame. Qed.
#[local] Hint Resolve tg_call_spares : frame.
Lemma answer_spares text : respects tg_spares (answer text).
Proof. unfold answer. solve_frame. Qed.
Lemma notify_spares text : respects tg_spares (notify text).
Proof. apply answer_spares. Qed.
#[local] Hint Resolve answer_spares notify_spares : frame.

Context (E : tg_env).
Context (persist_attachments : Z -> Z -> list Attachment -> prog world exn (list Z)).
Context (usage_payload : Z -> list (string * json) -> usage_parse).
Context (dumps : list (string * json) -> string).
Context (Hpersist : forall c v l, respects (spares k) (persist_attachments c v l)).
Context (Htts : forall s, respects (spares k) (te_synthesize E s)).
#[local] Hint Resolve Hpersist Htts : frame.

Lemma emit_spares kind c v p : respects (spares k) (emit_event kind c v p).
Proof. unfold emit_event. solve_frame. Qed.
#[local] Hint Resolve emit_spares : frame.

Lemma persist_user_spares s p : respects (spares k) (persist_user_turn s p).
Proof. unfold persist_user_turn. apply session_spares. solve_frame. Qed.
Lemma persist_assistant_spares s text atts calls partial turn_id :
  respects (spares k) (TgTurn.persist_assistant_turn persist_attachments s text atts calls partial turn_id).
Proof. unfold TgTurn.persist_assistant_turn, attach_assistant_message. apply session_spares. solve_frame. Qed.
Lemma emit_failure_spares s c d x : respects (spares k) (emit_failure s c d x).
Proof. unfold emit_failure. apply session_spares. solve_frame. Qed.
Lemma auto_reset_spares s : respects (spares k) (auto_reset_thread s).
Proof.
  unfold auto_reset_thread, get_active_for_chat. solve_frame; apply session_spares; solve_frame.
Qed.
#[local] Hint Resolve persist_user_spares persist_assistant_spares emit_failure_spares auto_reset_spares : frame.

Lemma render_spares text : respects tg_spares (render_html E text).
Proof. unfold render_html. solve_frame. Qed.
#[local] Hint Resolve render_spares : frame.
Lemma upsert_spares text : respects tg_spares (upsert_stream_message E text).
Proof. unfold upsert_stream_message. solve_frame. Qed.
Lemma delivered_spares m : respects tg_spares m -> respects tg_spares (delivered m).
Proof. intros H. unfold delivered. solve_frame. Qed.
#[local] Hint Resolve upsert_spares delivered_spares : frame.
Lemma now_tg_spares : respects tg_spares (srv now).
Proof. apply srv_spares, now_spares. Qed.
#[local] Hint Resolve now_tg_spares : frame.
Lemma note_partial_spares text : respects tg_spares (note_partial E text).
Proof. unfold note_partial. solve_frame. Qed.
Lemma delete_stream_spares : respects tg_spares delete_stream_message.
Proof. unfold delete_stream_message, suppress. solve_frame. Qed.
#[local] Hint Resolve note_partial_spares delete_stream_spares : frame.
Lemma finalize_stream_spares text : respects tg_spares (finalize_stream E text).
Proof. unfold finalize_stream. solve_frame. Qed.
Lemma refresh_spares : respects tg_spares refresh_status.
Proof. unfold refresh_status. solve_frame. Qed.
Lemma draft_spares force : respects tg_spares (render_draft force).
Proof. unfold render_draft. solve_frame; apply delivered_spares; solve_frame. Qed.
#[local] Hint Resolve finalize_stream_spares refresh_spares draft_spares : frame.
Lemma note_tool_spares name : respects tg_spares (note_tool name).
Proof. unfold note_tool. solve_frame. Qed.
Lemma mark_done_spares name error : respects tg_spares (mark_tool_done name error).
Proof. unfold mark_tool_done. solve_frame. Qed.
Lemma run_round_spares : respects tg_spares run_round.
Proof. unfold run_round, suppress. solve_frame. Qed.
Lemma start_spares : respects tg_spares start.
Proof. unfold start. framed. Qed.
Lemma stop_spares : respects tg_spares stop.
Proof. unfold stop, suppress. solve_frame. Qed.
#[local] Hint Resolve note_tool_spares mark_done_spares run_round_spares start_spares stop_spares : frame.

Lemma send_text_spares text : respects tg_spares (send_text E text).
Proof. unfold send_text. solve_frame. Qed.
Lemma send_voice_spares text : respects tg_spares (send_voice_reply E text).
Proof. unfold send_voice_reply. solve_frame. Qed.
Lemma send_attachment_spares a : respects tg_spares (send_attachment E a).
Proof. unfold send_attachment, resolve_input_file. solve_frame. Qed.
#[local] Hint Resolve send_text_spares send_voice_spares send_attachment_spares : frame.
Lemma send_response_spares text atts committed voice :
  respects tg_spares (send_response E text atts committed voice).
Proof. unfold send_response. solve_frame. Qed.
#[local] Hint Resolve send_response_spares : frame.
Lemma handle_done_spares s p text atts calls committed turn_id :
  respects tg_spares (handle_done E persist_attachments s p text atts calls committed turn_id).
Proof. unfold handle_done, handle_empty_response. solve_frame. Qed.
Lemma dropped_spares s p buffer atts calls committed :
  respects tg_spares (handle_dropped_stream E persist_attachments s p buffer atts calls committed).
Proof. unfold handle_dropped_stream. solve_frame. Qed.
#[local] Hint Resolve handle_done_spares dropped_spares : frame.

(** A client whose calls leave the counter alone. *)
Definition client_spares (c : codex_client) : Prop :=
  (forall a b, respects (spares k) (cl_interrupt c a b)) /\ (forall a b, respects (spares k) (cl_probe c a b)).

Lemma interrupt_client_spares c : client_spares c -> respects (spares k) (interrupt_best_effort c).
Proof. intros [H _]. unfold interrupt_best_effort. solve_frame. Qed.
Lemma on_idle_spares c : client_spares c -> respects (spares k) (on_idle c).
Proof.
  intros Hc. pose proof (interrupt_client_spares c Hc). destruct Hc as [_ Hp].
  unfold on_idle, probe_or_extend_idle. solve_frame.
Qed.
Lemma on_started_spares t c th : respects (spares k) (on_started t c th).
Proof. unfold on_started, mark_running. apply session_spares. solve_frame. Qed.
Lemma bus_spares c ev : respects (spares k) (bus_publish c ev).
Proof. unfold bus_publish, redis_quiet. apply redis_default_spares, redis_op_spares. other_key. Qed.
Lemma usage_key_other sidecar : k <> usage_key sidecar.
Proof. by unfold active_key_of, ACTIVE_PREFIX, usage_key. Qed.
Lemma usage_spares sidecar snapshot : respects (spares k) (publish_rate_limits usage_payload sidecar snapshot).
Proof.
  unfold publish_rate_limits, publish_usage, redis_quiet. apply respects_bind; [typeclasses eauto|by intros w|].
  intros t. destruct (usage_payload t snapshot); [solve_frame..|].
  apply redis_default_spares, respects_bind; [typeclasses eauto| |intros _]; apply redis_op_spares; intros w.
  - unfold quotaview, set_json_ex, put_key. simpl. by rewrite lookup_insert_ne by (apply not_eq_sym, usage_key_other).
  - done.
Qed.
#[local] Hint Resolve interrupt_client_spares on_idle_spares on_started_spares bus_spares usage_spares : frame.

Ltac bind_frame := apply respects_bind; [typeclasses eauto| |].

Lemma on_chat_event_spares a ev : respects tg_spares (on_chat_event E persist_attachments a ev).
Proof.
  unfold on_chat_event. bind_frame; [framed|]. intros c. destruct ev; framed.
  - destruct (pt_had_voice_input _); framed.
  - bind_frame; [destruct (pt_had_voice_input _); framed|]. intros committed.
    bind_frame; framed.
  - bind_frame; [framed|]. intros _. bind_frame; framed.
Qed.
#[local] Hint Resolve on_chat_event_spares : frame.

Lemma on_item_spares a item :
  client_spares (tga_client a) -> respects tg_spares (on_item E persist_attachments usage_payload a item).
Proof.
  intros Hc. destruct item; cbn [on_item]; framed.
  - bind_frame; [framed|]. intros _. bind_frame; framed.
  - bind_frame; [framed|]. intros []; framed.
Qed.

Lemma stale_spares a d :
  client_spares (tga_client a) -> respects tg_spares (on_stale_stream persist_attachments a d).
Proof. intros Hc. unfold on_stale_stream. solve_frame; apply srv_spares, session_spares; solve_frame. Qed.

(** Steps of other processes that leave the counter alone. *)
Definition step_spares (s : tg_step) : Prop :=
  match s with Elsewhere f => forall w, spares k w (f w) | _ => True end.

Lemma heartbeat_active_spares c t : respects (spares k) (heartbeat_active c t).
Proof. apply redis_default_spares, redis_op_spares. other_key. Qed.
Lemma heartbeat_spares t : respects (spares k) (heartbeat t).
Proof. unfold heartbeat. solve_frame. Qed.
#[local] Hint Resolve heartbeat_active_spares heartbeat_spares : frame.
Lemma beat_spares t c : respects tg_spares (beat t c).
Proof.
  unfold beat, heartbeat_round. solve_frame; apply srv_spares; solve_frame; apply session_spares; solve_frame.
Qed.

Lemma run_step_spares t c s : step_spares s -> respects tg_spares (run_step t c s).
Proof.
  intros Hs. destruct s as [| |f|]; cbn [run_step]; [apply run_round_spares|apply beat_spares| |by intros tw].
  intros tw. apply Hs.
Qed.

Lemma stream_loop_spares a items fin sched :
  client_spares (tga_client a) -> Forall (Forall step_spares) sched ->
  respects tg_spares (TgTurn.stream_loop E persist_attachments usage_payload a items fin sched).
Proof.
  intros Hc. revert sched. induction items as [|item items IH]; intros sched Hs; cbn [TgTurn.stream_loop].
  all: bind_frame; [|intros _].
  1, 3: destruct Hs as [|steps sched Hh Ht]; cbn [hd]; [framed|];
    induction Hh as [|st steps Hst Hh IHs]; cbn [for_each]; [framed|];
    bind_frame; [by apply run_step_spares|intros _; exact IHs].
  - destruct fin; framed.
  - bind_frame; [by apply on_item_spares|]. intros _. apply IH. by destruct Hs.
Qed.

Lemma stream_turn_spares a items fin sched :
  client_spares (tga_client a) -> Forall (Forall step_spares) sched ->
  respects tg_spares (TgTurn.stream_turn E persist_attachments usage_payload a items fin sched).
Proof.
  intros Hc Hs. unfold TgTurn.stream_turn. bind_frame; [framed|]. intros _. bind_frame.
  - apply respects_except; [typeclasses eauto|by apply stream_loop_spares|].
    intros []; framed. by apply stale_spares.
  - intros _. bind_frame; [framed|]. intros c. bind_frame; [|framed].
    destruct (negb _); [|framed]. bind_frame; [|framed].
    destruct (pt_had_voice_input _); framed.
Qed.

Lemma hold_spares {A} c t (body : LockAcquireOutcome -> prog tworld exn A) :
  (forall o, respects tg_spares (body o)) -> respects tg_spares (hold c t body).
Proof.
  intros Hb tw. unfold hold.
  assert (H : respects (spares k) (hold_turn_locks c t
    (fun o w => let '(r, (w', s')) := body o (w, tw.2) in (Ok (r, s'), w')))).
  { assert (Hbody : forall o, respects (spares k)
      (fun w => let '(r, (w', s')) := body o (w, tw.2) in (Ok (E := exn) (r, s'), w'))).
    { intros o w. specialize (Hb o (w, tw.2)). by destruct (body o (w, tw.2)) as [r [w' s']]. }
    unfold hold_turn_locks, try_acquire_active, active_lock_value. bind_frame.
    - apply redis_default_spares, redis_op_spares. other_key.
    - intros []; cbn [negb].
      + apply respects_finally; [typeclasses eauto|apply Hbody|]. bind_frame; [apply release_active_spares|framed].
      + bind_frame.
        * bind_frame; [|framed]. apply redis_default_spares, redis_op_spares. other_key.
        * intros holder. destruct (bool_decide _); apply Hbody. }
  specialize (H tw.1). by destruct (hold_turn_locks _ _ _ tw.1) as [[[r s']|e] w'].
Qed.

(** What a turn's sidecar does leaves the counter alone. *)
Definition codex_spares (c : codex_turn) : Prop :=
  respects (spares k) (ct_open c) /\ respects (spares k) (ct_close c) /\
  forall w opened w', ct_open c w = (Ok opened, w') -> client_spares opened.1.

Lemma locked_body_spares s p t codex sched o :
  codex_spares codex -> Forall (Forall step_spares) sched ->
  respects tg_spares (TgTurn.locked_body E persist_attachments usage_payload s p t codex sched o).
Proof.
  intros (Ho & Hc & Hopen) Hs. destruct o; cbn [TgTurn.locked_body];
    [|bind_frame; framed|bind_frame; framed].
  bind_frame; [framed|]. intros _. apply respects_finally; [typeclasses eauto| |framed].
  intros tw. unfold TgTurn.in_codex, pbind at 1, srv at 1. pose proof (Ho tw.1) as Ho1.
  destruct (ct_open codex tw.1) as [[opened|e] w1] eqn:Eo; [|exact Ho1].
  transitivity (w1, tw.2); [exact Ho1|]. apply (respects_finally tg_spares).
  - bind_frame; [|framed]. apply stream_turn_spares; [|exact Hs]. by eapply Hopen.
  - by apply srv_spares.
Qed.

Lemma on_failure_spares s e : respects tg_spares (TgTurn.on_failure s e).
Proof.
  unfold TgTurn.on_failure. bind_frame; [framed|]. intros err.
  assert (respects tg_spares (on_unexpected s e)).
  { unfold on_unexpected. bind_frame; framed. }
  destruct e; framed; (bind_frame; [framed|]; intros _; try done; framed).
  unfold on_timeout. bind_frame; [framed|]. intros _. bind_frame; framed.
Qed.

Lemma run_locked_spares s p t codex sched :
  codex_spares codex -> Forall (Forall step_spares) sched ->
  respects tg_spares (run_locked E persist_attachments usage_payload s p t codex sched).
Proof.
  intros Hc Hs. unfold run_locked. bind_frame; [framed|]. intros _.
  apply respects_finally; [typeclasses eauto| |].
  - apply respects_except; [typeclasses eauto| |intros e; apply on_failure_spares].
    apply hold_spares. intros o. by apply locked_body_spares.
  - unfold finalize_terminal. bind_frame; [framed|]. intros st. bind_frame; [framed|].
    intros err. destruct st; [|framed]. apply srv_spares, session_spares. bind_frame; framed.
Qed.

Lemma accepted_spares m : respects (spares k) m -> respects tg_spares (accepted_by m).
Proof.
  intros H. unfold accepted_by. bind_frame.
  - intros tw. specialize (H tw.1). unfold attempt, srv. by destruct (m tw.1).
  - intros [b|e]; [framed|]. destruct (control_rpc_error e); framed.
Qed.

Lemma get_active_spares c : respects (spares k) (with_session (get_active_for_chat c)).
Proof. apply session_spares. unfold get_active_for_chat. framed. Qed.

Lemma reconcile_spares t : respects (spares k) (reconcile_if_stale t).
Proof.
  unfold reconcile_if_stale. bind_frame; [apply now_spares|]. intros n. destruct (Z.ltb _ _); [framed|].
  bind_frame; [|framed]. apply session_spares. bind_frame; framed.
Qed.

Lemma handle_active_tg_spares s p : respects tg_spares (handle_active_tg_turn dumps s p).
Proof.
  unfold handle_active_tg_turn. bind_frame; [apply srv_spares, get_active_spares|]. intros active. bind_frame.
  { destruct active as [t|]; [|framed]. bind_frame; [apply srv_spares, reconcile_spares|framed]. }
  intros [t|]; [|framed]. destruct (t_codex_turn_id t) as [tid|]; [|bind_frame; framed].
  destruct (_ || _); [bind_frame; framed|]. bind_frame.
  { destruct (nonempty _); [|framed]. apply accepted_spares, steer_spares. }
  intros [].
  - bind_frame; [framed|]. intros _. bind_frame; [framed|]. intros _. bind_frame; framed.
  - bind_frame; [apply accepted_spares, interrupt_spares|]. intros []; [framed|]. bind_frame; framed.
Qed.

Lemma create_tg_spares s id : respects (spares k) (create_tg_turn s id).
Proof.
  unfold create_tg_turn. apply session_spares. bind_frame; [framed|]. intros [t|]; [|framed].
  bind_frame; framed.
Qed.

Lemma handle_reserved_spares s p codex sched :
  codex_spares codex -> Forall (Forall step_spares) sched ->
  respects tg_spares (handle_reserved E persist_attachments usage_payload dumps s p codex sched).
Proof.
  intros Hc Hs. unfold handle_reserved. bind_frame; [apply handle_active_tg_spares|]. intros []; [framed|].
  bind_frame; [framed|]. intros id. bind_frame; [apply srv_spares, create_tg_spares|].
  intros [t|]; [|framed]. bind_frame; [framed|]. intros _. bind_frame; [framed|].
  intros _. apply respects_finally; [typeclasses eauto|by apply run_locked_spares|framed].
Qed.

Lemma sender_rows_spares key id name : respects (spares k) (sender_rows E key id name).
Proof.
  unfold sender_rows, get_or_create_by_tg, insert_user, get_or_create_for_tg, insert_chat.
  apply session_spares. solve_frame; apply now_spares.
Qed.

Lemma get_or_open_spares key id name : respects tg_spares (get_or_open E key id name).
Proof.
  unfold get_or_open, bootstrap. bind_frame; [framed|]. intros [s|]; [framed|]. bind_frame.
  - apply srv_spares. bind_frame; [apply sender_rows_spares|framed].
  - intros s. bind_frame; framed.
Qed.

End Quota.

(* ------------------------------------------------------------------ *)
(** * What a turn leaves unsaid *)

(** The idle probe finds the turn completed (its last event was lost): the runner gets the
    status [COMPLETED], but no answer is sent and none is stored. *)
Lemma probe_completed_silent E persist_attachments usage_payload a rest fin tw thread_id turn_id :
  cl_thread_id (tga_client a) = Some thread_id -> cl_turn_id (tga_client a) = Some turn_id ->
  nonempty thread_id && nonempty turn_id = true ->
  cl_probe (tga_client a) thread_id turn_id tw.1 = (Ok (Some "completed"), tw.1) ->
  TgTurn.stream_loop E persist_attachments usage_payload a (CIdle :: rest) fin [] tw =
    (Raise (CodexTurnTerminal COMPLETED None (Some "completed")), tw).
Proof.
  intros Hth Htu Hne Hp. destruct tw as [w st]. cbn [TgTurn.stream_loop hd for_each on_item]. unfold pbind at 1.
  cbn [pret]. unfold pbind at 1 2, srv, on_idle, pbind at 1, probe_or_extend_idle. rewrite Hth, Htu, Hne.
  cbn [negb]. unfold pbind at 1, except, pbind at 1. cbn [fst] in *. by rewrite Hp.
Qed.

(** A session belongs to whoever wrote first: later senders of the same chat get it with
    the first one's user and role. *)
Lemma session_kept E key first_sender name sender' name' tw s tw1 tw2 :
  get_or_open E key first_sender name tw = (Ok s, tw1) ->
  ts_sessions tw2.2 = ts_sessions tw1.2 ->
  get_or_open E key sender' name' tw2 = (Ok s, tw2).
Proof.
  intros H Hs. unfold get_or_open, pbind, tg_get, gets in *. rewrite Hs.
  destruct (find_session key (ts_sessions tw.2)) as [s0|] eqn:Ef.
  - injection H as <- <-. by rewrite Ef.
  - destruct (srv _ tw) as [[s1|e] tw3]; [|done]. cbn in H. injection H as <- <-.
    unfold find_session. simpl. by rewrite bool_decide_eq_true_2.
Qed.

(** A steer the sidecar refuses because it runs another turn is not among the errors the
    handler knows. *)
Lemma stale_steer_escapes expected actual tw :
  accepted_by (praise (StaleSidecarTurnError expected actual)) tw =
  (Raise (StaleSidecarTurnError expected actual), tw).
Proof. by destruct tw. Qed.

Lemma find_settled turn_id w :
  settled turn_id w -> List.find (fun t => has_id turn_id t && active_row t) (db_turns (w_db w)) = None.
Proof.
  intros H. destruct (List.find _ _) as [t|] eqn:Ef; [|done]. apply List.find_some in Ef as [Hin Hp].
  apply andb_true_iff in Hp as [H1 H2]. apply has_id_true in H1. by rewrite (H t Hin H1) in H2.
Qed.

Lemma finalize_nothing turn_id st c d w :
  is_terminal st = true ->
  List.find (fun t => has_id turn_id t && active_row t) (db_turns (w_tx w)) = None ->
  (finalize_once turn_id st c d w).1 = Ok false.
Proof. intros Hst Hn. unfold finalize_once. rewrite Hst. cbn. by rewrite Hn. Qed.

(** [/stop] leaves no trace in the journal: the cancelled task finalises the turn before
    [cancel_turn] does, so its own finalisation never wins and [TURN_INTERRUPTED] is not
    written. *)
Lemma stop_not_journaled cancel s t w :
  List.find (active_in_chat (cs_db_chat_id s)) (db_turns (w_db w)) = Some t ->
  (forall w, match cancel w with
             | (Ok _, w') => settled (t_id t) w' /\ db_events (w_db w') = db_events (w_db w)
             | (Raise _, w') => w_db w' = w_db w
             end) ->
  db_events (w_db (cancel_turn (fun A m => m) cancel s w).2) = db_events (w_db w).
Proof.
  intros Ht Hcancel. unfold cancel_turn, pbind at 1, with_session at 1, get_active_for_chat, sql, gets.
  cbn [fst snd w_tx set_hooks set_tx]. simpl (db_turns _). rewrite Ht. cbn [fst snd].
  set (w0 := set_hooks [] _).
  assert (H0 : w_db w0 = w_db w) by done. unfold pbind at 1.
  assert (Hint : forall x : prog world exn unit, respects (same w_db) x -> w_db (x w0).2 = w_db w)
    by (intros x Hx; rewrite <- H0; apply Hx).
  set (stop_sidecar := match t_codex_turn_id t with Some _ => _ | None => _ end).
  assert (Hstop : respects (same w_db) stop_sidecar).
  { unfold stop_sidecar, suppress. destruct (t_codex_turn_id t); [|solve_frame].
    apply respects_except; [typeclasses eauto| |intros e; destruct (is_exception e); solve_frame].
    apply respects_bind; [typeclasses eauto| |solve_frame]. apply interrupt_frame; [typeclasses eauto|done]. }
  specialize (Hint _ Hstop). destruct (stop_sidecar w0) as [[[]|e] w1]; simpl in Hint; [|simpl; congruence].
  unfold pbind at 1. specialize (Hcancel w1). destruct (cancel w1) as [[b|e] w2]; [|simpl; congruence].
  destruct Hcancel as [Hset Hev]. destruct b; cbn [negb]; [|simpl; congruence].
  transitivity (db_events (w_db w2)); [|congruence].
  unfold pbind at 1, with_session. set (w3 := set_hooks [] (set_tx (w_db w2) w2)).
  pose proof (finalize_nothing (t_id t) CANCELLED (Some "user_cancelled") None w3 eq_refl (find_settled _ _ Hset)) as Hn.
  destruct (finalize_once_tx (t_id t) CANCELLED (Some "user_cancelled") None w3 eq_refl) as (b & _ & Htx & Hdb & _).
  unfold pbind at 1. destruct (finalize_once _ _ _ _ w3) as [r w4]. simpl in Hn, Htx, Hdb. subst r.
  unfold pbind at 1, pret. pose proof (commit_db w4) as Hc. pose proof (commit_ok w4) as Hok.
  destruct (commit w4) as [r w5]. simpl in Hc, Hok. subst r. simpl. by rewrite Hc, Htx.
Qed.

(* ------------------------------------------------------------------ *)
(** * Witnesses *)

(** The Telegram user 42 (row 3), who has one more turn in another chat, writes to the bot. *)
Definition demo_tg_world : world :=
  put_key (active_key_of RateLimit.demo_user) (RInt 1) None
    (set_db (set_users [RateLimit.demo_user] empty_db) empty_world).
Definition demo_message : incoming := {|
  im_from_user := 42; im_display_name := None; im_key := (42, None);
  im_prepare := fun _ _ _ => pret (inr demo_prepared_turn); im_codex := demo_codex; im_sched := [[Tick]; [Heartbeat]] |}.
#[local] Notation demo_handled := (handle demo_env WebStream.no_uploads no_usage no_dumps demo_message (demo_tg_world, demo_tg_state)).

