(* ===== verification/TgAnswer.v ===== *)
(** The answer of a Telegram turn: which calls of the bot carry it, and what is stored with
    it. *)
From S2P Require Import Prelude PyStr Text Json Models Events World TurnStore CodexRemote Services WebStream Markdown TgProgress TgTurn.

Open Scope Z_scope.
Open Scope string_scope.

(* ------------------------------------------------------------------ *)
(** * Lemmas: the streamed window and the rest *)

Lemma stream_window_prefix text : exists n, stream_window text = take n text.
Proof.
  unfold stream_window. destruct (Nat.leb _ _) eqn:E.
  - exists (List.length text). by rewrite firstn_all.
  - destruct (window_cut _ _) as [n|]; by eexists.
Qed.

(** What a streamed message shows and what is sent after it make up the text, up to the
    white space between them; a text that starts with white space is sent again. *)
Lemma committed_split text :
  let visible := U.strip (stream_window text) in
  let remainder := strip_committed_prefix text visible in
  (exists gap, text = visible ++ gap ++ remainder /\ U.inked gap = [])%list \/ remainder = text.
Proof.
  intros visible remainder. unfold remainder, strip_committed_prefix.
  destruct (decide (visible = [])) as [Hv|Hv]; [rewrite bool_decide_eq_true_2 by done; by right|].
  rewrite (bool_decide_eq_false_2 (visible = [])) by done.
  destruct (decide (take (List.length visible) text = visible)) as [Ht|Ht];
    [|rewrite bool_decide_eq_false_2 by done; by right].
  rewrite bool_decide_eq_true_2 by done. cbn [negb]. left.
  destruct (U.lstrip_split (drop (List.length visible) text)) as (p & Hp & Hi).
  exists p. split; [|done]. rewrite <- Hp. rewrite <- Ht at 1. symmetry. apply take_drop.
Qed.

(** The text starts with something visible: nothing is sent twice. *)
Lemma committed_prefix text c text' :
  text = c :: text' -> U.is_space c = false ->
  let visible := U.strip (stream_window text) in
  take (List.length visible) text = visible.
Proof.
  intros -> Hc. destruct (stream_window_prefix (c :: text')) as (n & Hn). cbn zeta. rewrite Hn.
  destruct n as [|n]; [done|]. cbn [take]. unfold U.strip. cbn [U.lstrip]. rewrite Hc.
  destruct (U.rstrip_split (c :: take n text')) as (p & Hp & _).
  set (v := U.rstrip (c :: take n text')) in *.
  assert (Hpre : take (List.length v) (c :: text') = take (List.length v) (take (S n) (c :: text'))).
  { rewrite take_take. f_equal. assert (List.length v <= List.length (c :: take n text'))%nat.
    { rewrite Hp, length_app. lia. } cbn [List.length] in *. rewrite length_take in *. lia. }
  rewrite Hpre. cbn [take]. rewrite Hp at 1. apply take_app_length.
Qed.

(* ------------------------------------------------------------------ *)
(** * Lemmas: calls of the bot *)

(** The state after calls that are all delivered. *)
Definition performs (l : list tg_action) (b : telegram) : telegram := foldl (fun b a => perform a b) b l.

Lemma performs_script l b : tg_script b = [] -> tg_script (performs l b) = [].
Proof. revert b. induction l as [|a l IH]; intros b H; [done|]. apply IH. simpl. by rewrite H. Qed.

Lemma performs_log l b : map snd (tg_log (performs l b)) = (map snd (tg_log b) ++ l)%list.
Proof.
  revert b. induction l as [|a l IH]; intros b; [by rewrite app_nil_r|]. cbn [performs foldl].
  fold (performs l (perform a b)). rewrite IH. simpl. rewrite map_app. simpl. by rewrite <- app_assoc.
Qed.

Lemma performs_app l l' b : performs (l ++ l') b = performs l' (performs l b).
Proof. apply foldl_app. Qed.

Lemma tg_call_ok a w s :
  tg_script (ts_bot s) = [] ->
  tg_call a (w, s) = (Ok (tg_next_id (ts_bot s)), (w, set_bot (performs [a] (ts_bot s)) s)).
Proof. intros H. unfold tg_call, tg_try, pbind, tg_get, gets, tg_mod, modify, pret. simpl. by rewrite H. Qed.

Definition send (chunk : ustr) : tg_action := SendMessage chunk false.

Section Answer.
Context (E : tg_env).

(** The messages a text is rendered to. *)
Definition chunks (text : ustr) : list ustr :=
  match Markdown.render_html (te_markdown E) text with Ok (Some l) => l | _ => [] end.

Definition first_call (pg : progress) (chunk : ustr) : tg_action :=
  match pg_stream_message pg with
  | None => SendMessage chunk false
  | Some id => EditText id chunk false
  end.

(** The calls of [finalize_stream] and the text it has committed. *)
Definition opening (pg : progress) (text : ustr) : list tg_action * ustr :=
  let visible := U.strip (stream_window text) in
  if bool_decide (visible = []) then ([], [])
  else if Markdown.has_unclosed_fence visible then
    (match pg_stream_message pg with None => [] | Some id => [DeleteMessage id] end, [])
  else (map (first_call pg) (take 1 (chunks visible)), visible).

(** All the calls that carry an answer. *)
Definition answer_calls (pg : progress) (text : ustr) : list tg_action :=
  ((opening pg text).1 ++ map send (chunks (strip_committed_prefix text (opening pg text).2)))%list.

Context (Hparser : forall s, Markdown.nested Markdown.Block (te_markdown E s)).

Lemma render_ok text tw : render_html E text tw = (Ok (chunks text), tw).
Proof.
  unfold render_html, chunks, Markdown.render_html. destruct (U.strip text); [done|].
  destruct (Markdown.nested_sound _ _ (Hparser text) Markdown.empty_env eq_refl) as (html & e & -> & _).
  destruct (Markdown.split_loop_spec (List.length (U.strip html)) false (U.strip html)
    Markdown.TG_MESSAGE_LIMIT) as (pieces & Hp & _); [apply Nat.leb_le; vm_compute; done|done|].
  unfold Markdown.split_chunks. cbn [Markdown.reopen] in Hp. by rewrite Hp.
Qed.

Lemma send_all_calls l w s :
  tg_script (ts_bot s) = [] ->
  for_each l (fun piece => tg_call (SendMessage piece false) ;; pret tt) (w, s) =
  (Ok tt, (w, set_bot (performs (map send l) (ts_bot s)) s)).
Proof.
  revert s. induction l as [|x l IH]; intros s H; [by destruct s|]. cbn [for_each].
  unfold pbind. rewrite tg_call_ok by done. cbn [pret]. rewrite IH; [done|]. simpl. by rewrite H.
Qed.

Lemma send_text_calls text w s :
  tg_script (ts_bot s) = [] ->
  send_text E text (w, s) = (Ok tt, (w, set_bot (performs (map send (chunks text)) (ts_bot s)) s)).
Proof. intros H. unfold send_text, pbind. rewrite render_ok. by apply send_all_calls. Qed.

Lemma upsert_calls text w s :
  tg_script (ts_bot s) = [] ->
  exists s', upsert_stream_message E text (w, s) = (Ok tt, (w, s')) /\
    ts_bot s' = performs (map (first_call (ts_progress s)) (take 1 (chunks text))) (ts_bot s).
Proof.
  intros H. unfold upsert_stream_message, pbind at 1. rewrite render_ok.
  destruct (chunks text) as [|x l]; [by exists s|]. cbn [take map].
  unfold pbind at 1, tg_get, gets. cbn [snd]. unfold first_call.
  destruct (pg_stream_message (ts_progress s)); unfold pbind; rewrite tg_call_ok by done; by eexists.
Qed.

Lemma finalize_stream_calls text w s :
  tg_script (ts_bot s) = [] ->
  exists s', finalize_stream E text (w, s) = (Ok (opening (ts_progress s) text).2, (w, s')) /\
    ts_bot s' = performs (opening (ts_progress s) text).1 (ts_bot s).
Proof.
  intros H. unfold finalize_stream, opening. destruct (decide (text = [])) as [->|Ht].
  { rewrite bool_decide_eq_true_2 by done. by exists s. }
  rewrite (bool_decide_eq_false_2 (text = [])) by done. cbv zeta.
  destruct (bool_decide (U.strip _ = [])); [by exists s|].
  destruct (Markdown.has_unclosed_fence _).
  - unfold delete_stream_message, pbind, tg_get, gets. cbn [snd].
    destruct (pg_stream_message (ts_progress s)); [|by exists s].
    unfold suppress, except. rewrite tg_call_ok by done. by eexists.
  - destruct (upsert_calls (U.strip (stream_window text)) w s H) as (s' & Hu & Hb).
    unfold pbind at 1, delivered, except, pbind at 1. rewrite Hu. cbn [pret]. by eexists.
Qed.
End Answer.

(* ------------------------------------------------------------------ *)
(** * Properties *)

Section Answered.
Context (E : tg_env).
Context (persist_attachments : Z -> Z -> list Attachment -> prog world exn (list Z)).
Context (Hparser : forall s, Markdown.nested Markdown.Block (te_markdown E s)).
(** Without attachments nothing is uploaded. *)
Context (Hnone : forall c u w, persist_attachments c u [] w = (Ok [], w)).

(** The rows an answer is stored in, committed together. *)
Definition stored (s : chat_session) (turn_id : Z) (text : string) (w w' : world) : Prop :=
  exists m e,
    m_chat_id m = cs_db_chat_id s /\ m_role m = Msg_ASSISTANT /\ m_text m = text /\
    e_kind e = TURN_COMPLETED /\ e_chat_id e = Some (cs_db_chat_id s) /\
    db_messages (w_db w') = (db_messages (w_db w) ++ [m])%list /\
    db_events (w_db w') = (db_events (w_db w) ++ [e])%list /\
    db_turns (w_db w') = attached (Some turn_id) m (db_turns (w_db w)).

Lemma persist_stores s turn_id text calls w :
  exists w', TgTurn.persist_assistant_turn persist_attachments s text [] calls false (Some turn_id) w = (Ok tt, w') /\
    stored s turn_id text w w'.
Proof.
  unfold TgTurn.persist_assistant_turn, with_session. unfold pbind at 1. rewrite Hnone.
  erewrite pbind_ok by apply msg_append_eq. cbv beta.
  erewrite pbind_ok by apply (attach_opt_eq (Some turn_id)). cbv beta.
  erewrite pbind_ok by apply emit_event_eq.
  lazymatch goal with |- context [commit ?w2] =>
    pose proof (commit_ok w2) as Hc; pose proof (commit_db w2) as Hd; destruct (commit w2) as [r w'] end.
  simpl in Hc, Hd. subst r. eexists. split; [done|]. unfold stored. simpl. rewrite Hd. simpl.
  eexists (mk_message _ _ _ _ _), (mk_event_row _ _ _ _ _). simpl. split_and!; reflexivity.
Qed.


(** A text that fits the window but renders to several messages: only the first of them is
    sent, the rest of the text reaches nobody. *)
Lemma overflow_lost pg text c1 c2 l :
  U.strip (stream_window text) = text -> text <> [] -> Markdown.has_unclosed_fence text = false ->
  chunks E text = c1 :: c2 :: l ->
  answer_calls E pg text = [first_call pg c1].
Proof.
  intros Hw Hne Hf Hc. unfold answer_calls, opening. rewrite Hw, Hf, bool_decide_eq_false_2, Hc by done.
  cbn [fst snd take map]. unfold strip_committed_prefix.
  rewrite bool_decide_eq_false_2, firstn_all, bool_decide_eq_true_2 by done. cbn [negb].
  by rewrite drop_all.
Qed.
End Answered.

(* ------------------------------------------------------------------ *)
(** * Witnesses *)

Lemma plain_nested s : Markdown.nested Markdown.Block (plain_parser s).
Proof. apply Markdown.n_leaf; [discriminate|reflexivity]. Qed.

Definition demo_turn_args : TgTurn.turn_args := {|
  tga_client := demo_client; tga_session := demo_session; tga_prepared := demo_prepared_turn;
  tga_turn_id := 3; tga_sidecar := GUEST |}.

(** A streamed answer that is completed: the message is edited, nothing is sent after it. *)
Definition streaming_state : tg_state :=
  set_tg_collector (mk_collector "Hi the" [] [] "Hi there" true)
    (set_progress (set_stream_message (Some 41) (new_progress false)) demo_tg_state).


(** 1500 ampersands fit the window and render to three messages. *)
Definition ampersands : ustr := 38 :: flat_map (fun _ => [32; 38]) (repeat tt 1499).

Example ampersands_overflow :
  (bool_decide (U.strip (stream_window ampersands) = ampersands),
   Markdown.has_unclosed_fence ampersands, List.length (chunks demo_env ampersands)) = (true, false, 3%nat).
Proof. vm_compute. reflexivity. Qed.
