(* ===== verification/Uploads.v ===== *)
(** Uploads: the S3 storage ([services/storage/s3.py]), trusted paths ([utils/paths.py]),
    the upload service and the workspace files ([services/uploads]), the resolution of a
    request's uploads ([rpc/chat/uploads.py]) and the RPC handlers ([rpc/uploads.py]).

    The bucket, the regular files and the uploads table are parts of the world. A request
    to S3 meets the next fault of its script, as a Redis command does. *)
From S2P Require Import Prelude PyStr PyLib Json Models Events World TurnStore Services WebStream ChatRpc.

Open Scope Z_scope.
Open Scope string_scope.

(** Settings, and what other code answers. *)
Record upload_env := {
  ue_bucket : string;                                  (** [S3_BUCKET] *)
  ue_endpoint : string;                                (** [S3_ENDPOINT] *)
  ue_public_endpoint : string;                         (** [S3_PUBLIC_ENDPOINT] *)
  ue_presign : string -> string -> Z -> string;        (** [generate_presigned_url] *)
  ue_guess_type : string -> option string;             (** [mimetypes.guess_type(name)[0]] *)
  ue_workspace_root : string;                          (** [_WORKSPACE_ROOT] *)
  ue_trusted_roots : list string;                      (** [_TRUSTED_OUTPUT_ROOTS] *)
  ue_bracketed_ok : string -> bool;                    (** a URL host in brackets *)
  ue_expanduser : string -> result exn string;         (** home directories *)
  ue_resolve : string -> world -> result exn string;   (** [os.path.realpath] *)
  ue_presigned_ttl : Z;                                (** [S3_PRESIGNED_DEFAULT_TTL_SECONDS] *)
  ue_presigned_max_ttl : Z                             (** [S3_PRESIGNED_MAX_TTL_SECONDS] *)
}.

Section Uploads.
Context (E : upload_env).

(* ------------------------------------------------------------------ *)
(** * Files and the bucket *)

Definition file_not_found : exn := OSError "No such file or directory".

(** [path.read_bytes()], also of an opened file. *)
Definition read_file (path : string) : prog world exn string :=
  fun w => match w_files w !! path with
           | Some body => (Ok body, w)
           | None => (Raise file_not_found, w)
           end.

Definition write_file (path body : string) : prog world exn unit :=
  modify (fun w => set_files (<[path := body]> (w_files w)) w).

(** [path.unlink(missing_ok=True)]. *)
Definition unlink (path : string) : prog world exn unit :=
  modify (fun w => set_files (delete path (w_files w)) w).

Definition client_error : exn := OtherException "ClientError" "s3 request failed".
Definition no_such_key : exn := OtherException "ClientError" "NoSuchKey".

(** [BotoCoreError] and [ClientError]. *)
Definition boto_error (e : exn) : bool :=
  bool_decide (is_Some (raised "ClientError" e)) || bool_decide (is_Some (raised "BotoCoreError" e)).

(** A request to S3 under the next fault of the script. *)
Definition s3_op {A} (m : prog world exn A) : prog world exn A :=
  fun w => match w_s3_faults w with
           | [] => m w
           | NoFault :: fs => m (set_s3_faults fs w)
           | LostRequest :: fs => (Raise client_error, set_s3_faults fs w)
           | LostReply :: fs => (Raise client_error, (m (set_s3_faults fs w)).2)
           end.

Definition s3_scheme : string := "s3://".

(** [S3Storage.upload_file]. *)
Definition upload_file (key source content_type : string) : prog world exn string :=
  let! body := read_file source in
  s3_op (modify (fun w => set_objects (<[key := mk_object body content_type]> (w_objects w)) w)) ;;
  pret (s3_scheme ++ ue_bucket E ++ "/" ++ key).

(** [S3Storage.presigned_url]. *)
Definition presigned_url (key : string) (expires_s : Z) (public : bool) : prog world exn string :=
  let url := ue_presign E (ue_bucket E) key expires_s in
  pret (if public && nonempty (ue_public_endpoint E)
           && negb (String.eqb (ue_public_endpoint E) (ue_endpoint E))
        then replace_first (ue_endpoint E) (ue_public_endpoint E) url else url).

(** [S3Storage.download_bytes]. *)
Definition download_bytes (key : string) : prog world exn string :=
  s3_op (fun w => match w_objects w !! key with
                  | Some o => (Ok (so_body o), w)
                  | None => (Raise no_such_key, w)
                  end).

(** [S3Storage.delete]: a failure becomes a [StorageError]; an absent key is no failure. *)
Definition s3_delete (key : string) : prog world exn unit :=
  except (fun e => if boto_error e
                   then praise (OtherException "StorageError" ("S3 delete failed for " ++ key ++ ": " ++ exn_str e))
                   else praise e)
    (s3_op (modify (fun w => set_objects (delete key (w_objects w)) w))).

(* ------------------------------------------------------------------ *)
(** * Trusted paths *)

(** [Path(a) / b]. *)
Definition path_join (a b : string) : string := if is_absolute b then b else a ++ "/" ++ b.

Definition is_inside_trusted_root (path : string) : bool :=
  existsb (fun root => is_relative_to root path) (ue_trusted_roots E).

Definition resolve_trusted_local_path (source : string) : prog world exn (option string) :=
  fun w =>
    match url_scheme (ue_bracketed_ok E) source with
    | None => (Raise (ValueError "Invalid IPv6 URL"), w)
    | Some scheme =>
        if existsb (String.eqb scheme) ["http"; "https"] then (Ok None, w)
        else match ue_expanduser E source with
             | Raise e => (Raise e, w)
             | Ok path =>
                 match ue_resolve E (path_join (ue_workspace_root E) path) w with
                 | Raise e => (Raise e, w)
                 | Ok path =>
                     if negb (is_inside_trusted_root path)
                        || negb (bool_decide (is_Some (w_files w !! path)))
                     then (Ok None, w) else (Ok (Some path), w)
                 end
             end
    end.

(* ------------------------------------------------------------------ *)
(** * The upload service *)

(** [uuid4().hex], and the random part of a temporary file's name: a name not used before. *)
Definition fresh_name : prog world exn string :=
  let! n := nextval in pret (str_of_Z n).

(** [_key_from_s3_path]. *)
Definition key_from_s3_path (path : string) : option string :=
  if negb (startswith path s3_scheme) then None
  else match partition_char "/" (str_drop (String.length s3_scheme) path) with
       | (_, true, key) => Some key
       | _ => None
       end.

Definition or_else (o : option string) (d : string) : string :=
  match o with Some s => if nonempty s then s else d | None => d end.

Definition chat_segment (chat_id : option Z) (user_id : Z) : string :=
  match chat_id with Some c => str_of_Z c | None => "users/" ++ str_of_Z user_id end.

Definition upload_key (chat_id : option Z) (user_id : Z) (hex filename : string) : string :=
  "chats/" ++ chat_segment chat_id user_id ++ "/uploads/" ++ hex ++ path_suffix filename.

Definition file_mime (mime : option string) (filename : string) : string :=
  or_else mime (or_else (ue_guess_type E filename) "application/octet-stream").

(** [_persist_local_file]. *)
Definition persist_local_file (chat_id : option Z) (user_id : Z) (source : string)
    (filename mime : option string) : prog world exn upload :=
  let! body := read_file source in
  let size := Z.of_nat (String.length body) in
  let resolved_filename := or_else filename (path_name source) in
  let resolved_mime := file_mime mime resolved_filename in
  let! hex := fresh_name in
  let key := upload_key chat_id user_id hex resolved_filename in
  let! s3_path := upload_file key source resolved_mime in
  let! id := nextval in
  let! t := now in
  let row := mk_upload id user_id chat_id resolved_filename resolved_mime size s3_path None t in
  sql_write (fun d => set_uploads (db_uploads d ++ [row])%list d) ;;
  pret row.

(** [_unique_local_paths]. *)
Fixpoint unique_local_paths (seen : list string) (attachments : list Attachment) :
    prog world exn (list string) :=
  match attachments with
  | [] => pret []
  | a :: rest =>
      let! path := resolve_trusted_local_path (a_source a) in
      match path with
      | None => unique_local_paths seen rest
      | Some p =>
          if existsb (String.eqb p) seen then unique_local_paths seen rest
          else let! out := unique_local_paths (p :: seen) rest in pret (p :: out)
      end
  end.

(** What [persist_attachments] logs and passes over. *)
Definition persist_failure (e : exn) : bool :=
  match e with OSError _ | IntegrityError => true | _ => boto_error e end.

Fixpoint persist_paths (chat_id user_id : Z) (paths : list string) : prog world exn (list Z) :=
  match paths with
  | [] => pret []
  | p :: rest =>
      let! r := attempt (persist_local_file (Some chat_id) user_id p None None) in
      match r with
      | Ok u => let! ids := persist_paths chat_id user_id rest in pret (ul_id u :: ids)
      | Raise e => if persist_failure e then persist_paths chat_id user_id rest else praise e
      end
  end.

Definition persist_attachments (chat_id user_id : Z) (attachments : list Attachment) :
    prog world exn (list Z) :=
  let! paths := unique_local_paths [] attachments in
  persist_paths chat_id user_id paths.

(** [persist_chunks]; [chunks] are what the iterator yields. *)
Definition persist_chunks (user_id : Z) (chat_id : option Z) (filename mime : string)
    (chunks : list string) : prog world exn upload :=
  let! hex := fresh_name in
  let tmp_path := "/tmp/tmp" ++ hex ++ path_suffix filename in
  write_file tmp_path (String.concat "" chunks) ;;
  finally (unlink tmp_path)
    (persist_local_file chat_id user_id tmp_path (Some filename) (Some mime)).

Definition owned_upload (upload_id user_id : Z) (u : upload) : bool :=
  Z.eqb (ul_id u) upload_id && Z.eqb (ul_user_id u) user_id.

(** [UploadService.get]. *)
Definition upload_get (upload_id user_id : Z) : prog world exn (option upload) :=
  sql (fun d => List.find (owned_upload upload_id user_id) (db_uploads d)).

(** Most recent first; rows of one instant come in the order the database picks, here the
    order of insertion. *)
Fixpoint insert_recent (u : upload) (l : list upload) : list upload :=
  match l with
  | [] => [u]
  | v :: l' => if (ul_created_at v <? ul_created_at u)%Z then u :: l else v :: insert_recent u l'
  end.
Definition by_recency (l : list upload) : list upload := fold_left (fun acc u => insert_recent u acc) l [].

(** [UploadService.list]. *)
Definition upload_list (user_id : Z) (chat_id : option Z) (limit offset : Z) : prog world exn (list upload) :=
  sql (fun d =>
    let mine := List.filter (fun u => Z.eqb (ul_user_id u) user_id &&
      match chat_id with Some c => bool_decide (ul_chat_id u = Some c) | None => true end) (db_uploads d) in
    take (Z.to_nat limit) (drop (Z.to_nat offset) (by_recency mine))).

(** [UploadService.delete]. *)
Definition upload_delete (upload_id user_id : Z) : prog world exn bool :=
  let! u := upload_get upload_id user_id in
  match u with
  | None => pret false
  | Some u =>
      match key_from_s3_path (ul_s3_path u) with
      | Some key =>
          except (fun e => if match e with OSError _ => true | _ => boto_error e end
                           then pret tt else praise e) (s3_delete key)
      | None => pret tt
      end ;;
      sql_write (fun d => set_uploads
        (List.filter (fun v => negb (Z.eqb (ul_id v) (ul_id u))) (db_uploads d)) d) ;;
      pret true
  end.

Definition non_s3_path (u : upload) : exn :=
  ValueError ("upload " ++ str_of_Z (ul_id u) ++ " has non-S3 path: " ++ ul_s3_path u).

Definition presigned_for_upload (u : upload) (ttl_s : Z) (public : bool) : prog world exn string :=
  match key_from_s3_path (ul_s3_path u) with
  | None => praise (non_s3_path u)
  | Some key => presigned_url key ttl_s public
  end.

(** [download_to_stream]: what is written to [dest]. *)
Definition download_to_stream (u : upload) : prog world exn string :=
  match key_from_s3_path (ul_s3_path u) with
  | None => praise (non_s3_path u)
  | Some key => download_bytes key
  end.

(* ------------------------------------------------------------------ *)
(** * Workspace files *)

Definition safe_extra (c : ascii) : bool := char_in c "._-".

(** [_safe_filename]. *)
Definition safe_filename (filename : string) : string :=
  let cleaned := map_chars (fun c => if isalnum c || safe_extra c then c else "_"%char) (path_name filename) in
  let stripped := strip_chars safe_extra cleaned in
  if nonempty stripped then stripped else "file".

Definition workspace_path (chat_id upload_id : Z) (filename : string) : string :=
  "uploads" ++ "/" ++ ("chat-" ++ str_of_Z chat_id) ++ "/" ++
  (str_of_Z upload_id ++ "-" ++ safe_filename filename).

(** [WorkspaceUploads.materialize_for_chat]. *)
Definition materialize_for_chat (data : string) (chat_id upload_id : Z) (filename : string) :
    prog world exn string :=
  let relative := workspace_path chat_id upload_id filename in
  write_file (path_join (ue_workspace_root E) relative) data ;;
  pret relative.

(* ------------------------------------------------------------------ *)
(** * The uploads of a request *)

Definition data_url (mime data : string) : string := "data:" ++ mime ++ ";base64," ++ b64encode data.

Definition not_found (what : string) (id : Z) : exn :=
  ConnectError "not_found" (what ++ " " ++ str_of_Z id ++ " not found").

Definition no_resolved : ResolvedUploads := mk_uploads [] [] [] [] [].

Definition add_audio uid r := mk_uploads (up_image_urls r) (up_image_ids r) (up_audio_ids r ++ [uid])%list
  (up_file_paths r) (up_file_ids r).
Definition add_image uid url r := mk_uploads (up_image_urls r ++ [url])%list (up_image_ids r ++ [uid])%list
  (up_audio_ids r) (up_file_paths r) (up_file_ids r).
Definition add_file uid path r := mk_uploads (up_image_urls r) (up_image_ids r) (up_audio_ids r)
  (up_file_paths r ++ [path])%list (up_file_ids r ++ [uid])%list.

Fixpoint resolve_each (ids : list Z) (user_id chat_id : Z) (acc : ResolvedUploads) :
    prog world exn ResolvedUploads :=
  match ids with
  | [] => pret acc
  | uid :: rest =>
      let! u := upload_get uid user_id in
      match u with
      | None => praise (not_found "upload" uid)
      | Some u =>
          if startswith (ul_mime u) "audio/" then resolve_each rest user_id chat_id (add_audio uid acc)
          else
            let! data := download_to_stream u in
            if startswith (ul_mime u) "image/"
            then resolve_each rest user_id chat_id (add_image uid (data_url (ul_mime u) data) acc)
            else
              let! path := materialize_for_chat data chat_id uid (ul_filename u) in
              resolve_each rest user_id chat_id (add_file uid path acc)
      end
  end.

Definition resolve_uploads (upload_ids : list Z) (user_id chat_id : Z) : prog world exn ResolvedUploads :=
  match upload_ids with
  | [] => pret no_resolved
  | _ => with_session (resolve_each upload_ids user_id chat_id no_resolved)
  end.

(* ------------------------------------------------------------------ *)
(** * RPC handlers; [user] is the caller [require_user] returned *)

Definition DEFAULT_LIMIT : Z := 50.
Definition MAX_LIMIT : Z := 200.

Definition resolve_ttl (seconds : Z) : Z :=
  if (seconds <=? 0)%Z then ue_presigned_ttl E else Z.min seconds (ue_presigned_max_ttl E).

Definition resolve_page (limit offset : Z) : Z * Z :=
  (Z.min (if (0 <? limit)%Z then limit else DEFAULT_LIMIT) MAX_LIMIT, Z.max offset 0).

Definition upload_once (u : user) (filename mime data : string) (chat_id : option Z) :
    prog world exn (upload * string * Z) :=
  if negb (nonempty filename) || negb (nonempty mime)
  then praise (ConnectError "invalid_argument" "filename and mime required")
  else
    let! row := with_session (
      let! row := persist_chunks (u_id u) chat_id filename mime [data] in
      commit ;; pret row) in
    let! url := presigned_for_upload row (ue_presigned_ttl E) true in
    pret (row, url, ue_presigned_ttl E).

(** The link, when it expires, and the row. [upload_id] is the target of the request. *)
Definition get_presigned (u : user) (upload_id : option Z) (ttl_seconds : Z) :
    prog world exn (string * Z * upload) :=
  let ttl_s := resolve_ttl ttl_seconds in
  match upload_id with
  | None => praise (ConnectError "invalid_argument" "upload_id required")
  | Some id =>
      let! row := with_session (upload_get id (u_id u)) in
      match row with
      | None => praise (not_found "upload" id)
      | Some row =>
          let! url := presigned_for_upload row ttl_s true in
          let! t := now in
          pret (url, t + seconds ttl_s, row)
      end
  end.

Definition list_uploads (u : user) (chat_id : option Z) (limit offset : Z) : prog world exn (list upload) :=
  let '(limit, offset) := resolve_page limit offset in
  with_session (upload_list (u_id u) chat_id limit offset).

Definition delete_upload (u : user) (upload_id : Z) : prog world exn unit :=
  with_session (
    let! removed := upload_delete upload_id (u_id u) in
    if negb removed then praise (not_found "upload" upload_id) else commit).

(** [transcribe] is the speech-to-text service. *)
Definition transcribe_upload (transcribe : string -> string -> prog world exn string) (u : user)
    (upload_id : Z) : prog world exn string :=
  let! row := with_session (upload_get upload_id (u_id u)) in
  match row with
  | None => praise (not_found "upload" upload_id)
  | Some row =>
      if negb (startswith (ul_mime row) "audio/" || startswith (ul_mime row) "video/")
      then praise (ConnectError "invalid_argument" ("upload " ++ str_of_Z (ul_id row) ++ " is not audio/video"))
      else let! data := download_to_stream row in transcribe data (ul_filename row)
  end.
End Uploads.

(* ------------------------------------------------------------------ *)
(** * Lemmas: names and keys *)

(** Keys made with the fresh name [n]. *)
Definition made_from (n : Z) (key : string) : Prop :=
  exists seg suffix, key = "chats/" ++ seg ++ "/uploads/" ++ str_of_Z n ++ suffix /\
    free_of "/" suffix /\ (suffix = "" \/ exists r, suffix = String "." r).

Lemma named_component n suffix : free_of "/" suffix -> component (str_of_Z n ++ suffix).
Proof.
  intros H. pose proof (str_of_Z_ne n) as Hne. split_and!.
  - apply free_of_app. split; [by apply free_of_num|done].
  - destruct (str_of_Z n) eqn:E; [done|]. discriminate.
  - pose proof (free_of_num "." n eq_refl eq_refl) as Hd. unfold free_of in Hd.
    destruct (str_of_Z n) as [|c s] eqn:E; [done|]. simpl in *. intros [= -> _].
    by rewrite Ascii.eqb_refl in Hd.
Qed.

Lemma made_from_inj n m key : made_from n key -> made_from m key -> n = m.
Proof.
  intros (s1 & x1 & -> & Hf1 & Hx1) (s2 & x2 & H & Hf2 & Hx2).
  assert (Hname : forall s k x, free_of "/" x ->
    path_name ("chats/" ++ s ++ "/uploads/" ++ str_of_Z k ++ x) = str_of_Z k ++ x).
  { intros s k x Hx. rewrite !append_assoc.
    replace ((("chats/" ++ s) ++ "/uploads/") ++ str_of_Z k) with
      ((("chats/" ++ s) ++ "/uploads") ++ String "/" (str_of_Z k)) by by rewrite <- !append_assoc.
    rewrite <- (append_assoc _ (String "/" _) x). simpl String.append at 3.
    change (String "/" (str_of_Z k) ++ x) with (String "/" (str_of_Z k ++ x)).
    by apply path_name_join, named_component. }
  apply (f_equal path_name) in H. rewrite !Hname in H by done.
  assert (Hpart : forall k x, (x = "" \/ exists r, x = String "." r) ->
    (partition_char "." (str_of_Z k ++ x)).1.1 = str_of_Z k).
  { intros k x Hx. pose proof (free_of_num "." k eq_refl eq_refl) as Hk.
    destruct Hx as [->|[r ->]]; [|by rewrite partition_char_app].
    rewrite append_nil_r. revert Hk. unfold free_of. generalize (str_of_Z k).
    induction s as [|c s IH]; [done|]. simpl. rewrite andb_true_iff, negb_true_iff. intros [-> Hs].
    specialize (IH Hs). destruct (partition_char "." s) as [[a f] b]. simpl in *. congruence. }
  apply (f_equal (fun s => (partition_char "." s).1.1)) in H. rewrite !Hpart in H by done.
  by apply str_of_Z_inj.
Qed.

Lemma key_roundtrip bucket key :
  free_of "/" bucket -> key_from_s3_path (s3_scheme ++ bucket ++ "/" ++ key) = Some key.
Proof.
  intros H. unfold key_from_s3_path. rewrite startswith_app. simpl negb. cbv iota.
  rewrite str_drop_app. change ("/" ++ key) with (String "/" key). by rewrite partition_char_app.
Qed.

(** ** Workspace names *)

Lemma safe_filename_chars f : all_chars (fun c => isalnum c || safe_extra c) (safe_filename f) = true.
Proof.
  unfold safe_filename. destruct (nonempty _); [|done].
  apply all_chars_strip, all_chars_map. intros c. by destruct (isalnum c || safe_extra c) eqn:E.
Qed.

Lemma safe_filename_free f : free_of "/" (safe_filename f).
Proof.
  eapply all_chars_impl; [|apply safe_filename_chars]. intros c H. apply negb_true_iff, Ascii.eqb_neq.
  intros ->. done.
Qed.

Lemma safe_filename_ne f : safe_filename f <> "".
Proof. unfold safe_filename. destruct (nonempty _) eqn:E; [by apply nonempty_true|done]. Qed.

Lemma safe_filename_head f c r : safe_filename f = String c r -> safe_extra c = false.
Proof.
  unfold safe_filename. set (s := strip_chars _ _). destruct (nonempty s) eqn:E.
  - intros H. pose proof (strip_chars_head safe_extra (map_chars (fun c => if isalnum c || safe_extra c then c else "_"%char)
      (path_name f))) as Hh. fold s in Hh. by rewrite H in Hh.
  - by intros [= <- _].
Qed.

Definition workspace_name (upload_id : Z) (filename : string) : string :=
  str_of_Z upload_id ++ "-" ++ safe_filename filename.

Lemma workspace_name_component uid f : component (workspace_name uid f).
Proof.
  unfold workspace_name. pose proof (str_of_Z_ne uid) as Hne. split_and!.
  - apply free_of_app. split; [by apply free_of_num|]. apply free_of_app. split; [done|].
    apply safe_filename_free.
  - destruct (str_of_Z uid); done.
  - pose proof (safe_filename_ne f). destruct (str_of_Z uid) as [|c [|d r]]; [done|..]; simpl; intros [= ? ?]; done.
Qed.

Lemma chat_component c : component ("chat-" ++ str_of_Z c).
Proof. split_and!; [|done..]. apply free_of_app. split; [done|]. by apply free_of_num. Qed.

Lemma workspace_parts chat_id uid f :
  path_parts (workspace_path chat_id uid f) = ["uploads"; "chat-" ++ str_of_Z chat_id; workspace_name uid f].
Proof.
  unfold workspace_path. fold (workspace_name uid f).
  change ("uploads" ++ "/" ++ ?x) with ("uploads" ++ String "/" x).
  rewrite path_parts_cons by done. f_equal.
  change ("/" ++ workspace_name uid f) with (String "/" (workspace_name uid f)).
  rewrite path_parts_cons by apply chat_component. f_equal.
  apply path_parts_one, workspace_name_component.
Qed.


(* ------------------------------------------------------------------ *)
(** * The invariant of rows and objects *)

(** The object of a row is in the bucket, with the row's size. *)
Definition stored (objs : gmap string s3_object) (u : upload) : Prop :=
  exists key o, key_from_s3_path (ul_s3_path u) = Some key /\ objs !! key = Some o /\
    Z.of_nat (String.length (so_body o)) = ul_size u.

(** Keys come from fresh names; rows have objects and identifiers of their own. *)
Record uploads_wf (rows : list upload) (objs : gmap string s3_object) (seq : Z) : Prop := {
  wf_keys : forall key, is_Some (objs !! key) -> exists n, made_from n key /\ n < seq;
  wf_stored : Forall (stored objs) rows;
  wf_objects : NoDup (map (fun u => key_from_s3_path (ul_s3_path u)) rows);
  wf_ids : NoDup (map ul_id rows);
  wf_fresh : Forall (fun u => ul_id u < seq) rows
}.

(** Both the committed rows and those of the open session are well formed. *)
Definition world_wf (w : world) : Prop :=
  uploads_wf (db_uploads (w_db w)) (w_objects w) (w_seq w) /\
  uploads_wf (db_uploads (w_tx w)) (w_objects w) (w_seq w).

Lemma uploads_wf_mono rows objs seq seq' : seq <= seq' -> uploads_wf rows objs seq -> uploads_wf rows objs seq'.
Proof.
  intros Hle [H1 H2 H3 H4 H5]. split; [|done..|].
  - intros key Hk. destruct (H1 key Hk) as (n & ? & ?). exists n. split; [done|lia].
  - eapply Forall_impl; [exact H5|]. simpl. lia.
Qed.

Lemma fresh_key rows objs n key : uploads_wf rows objs n -> made_from n key -> objs !! key = None.
Proof.
  intros [H1 _ _ _ _] Hk. destruct (objs !! key) eqn:Ek; [|done].
  destruct (H1 key) as (m & Hm & Hlt); [by eexists|]. pose proof (made_from_inj _ _ _ Hk Hm). lia.
Qed.

Lemma stored_put objs key o u : objs !! key = None -> stored objs u -> stored (<[key := o]> objs) u.
Proof.
  intros Hk (k & o' & H1 & H2 & H3). exists k, o'. split_and!; [done| |done].
  rewrite lookup_insert_ne; [done|congruence].
Qed.

Lemma uploads_wf_put rows objs n key o :
  made_from n key -> uploads_wf rows objs n -> uploads_wf rows (<[key := o]> objs) (n + 1).
Proof.
  intros Hk H. pose proof (fresh_key _ _ _ _ H Hk) as Hn. destruct H as [H1 H2 H3 H4 H5].
  split; [|by eapply Forall_impl; [exact H2|]; intros u; apply stored_put|done..|].
  - intros k [o' Ho]. destruct (decide (k = key)) as [->|Hne]; [exists n; split; [done|lia]|].
    rewrite lookup_insert_ne in Ho by done. destruct (H1 k) as (m & ? & ?); [by eexists|].
    exists m. split; [done|lia].
  - eapply Forall_impl; [exact H5|]. simpl. lia.
Qed.

Lemma uploads_wf_add rows objs n key o u :
  made_from n key -> key_from_s3_path (ul_s3_path u) = Some key ->
  Z.of_nat (String.length (so_body o)) = ul_size u -> ul_id u = n + 1 ->
  uploads_wf rows objs n -> uploads_wf (rows ++ [u])%list (<[key := o]> objs) (n + 2).
Proof.
  intros Hk Hu Hs Hid H. pose proof (fresh_key _ _ _ _ H Hk) as Hn.
  pose proof (uploads_wf_put _ _ _ _ o Hk H) as H'. destruct H as [_ H2 _ _ _], H' as [H1 H2' H3 H4 H5].
  split.
  - intros k Ho. destruct (H1 k Ho) as (m & ? & ?). exists m. split; [done|lia].
  - apply Forall_app. split; [done|]. constructor; [|done]. exists key, o. split_and!; [done| |done].
    apply lookup_insert_eq.
  - rewrite List.map_app. apply NoDup_app. split_and!; [done| |apply NoDup_singleton].
    intros p (v & -> & Hv)%list_elem_of_fmap Hp. apply list_elem_of_singleton in Hp.
    apply (proj1 (Forall_forall _ _) H2) in Hv as (k & o' & Hk' & Ho' & _). congruence.
  - rewrite List.map_app. apply NoDup_app. split_and!; [done| |apply NoDup_singleton].
    intros p (v & -> & Hv)%list_elem_of_fmap Hp. apply list_elem_of_singleton in Hp.
    apply (proj1 (Forall_forall _ _) H5) in Hv. lia.
  - apply Forall_app. split; [eapply Forall_impl; [exact H5|]; simpl; lia|]. constructor; [lia|done].
Qed.

Definition without (u : upload) (rows : list upload) : list upload :=
  List.filter (fun v => negb (Z.eqb (ul_id v) (ul_id u))) rows.

Lemma without_elem u v rows : v ∈ without u rows <-> v ∈ rows /\ ul_id v <> ul_id u.
Proof.
  unfold without. rewrite !list_elem_of_In, filter_In, negb_true_iff, Z.eqb_neq. done.
Qed.

Lemma without_fmap_NoDup {A} (f : upload -> A) u rows : NoDup (map f rows) -> NoDup (map f (without u rows)).
Proof.
  intros H. apply (sublist_NoDup _ (map f rows)); [done|]. apply fmap_sublist. clear.
  induction rows as [|v rows IH]; [done|]. unfold without. simpl.
  destruct (negb _); by constructor.
Qed.

Lemma uploads_wf_delete rows objs seq u key :
  u ∈ rows -> key_from_s3_path (ul_s3_path u) = Some key ->
  uploads_wf rows objs seq -> uploads_wf (without u rows) (delete key objs) seq.
Proof.
  intros Hu Hk [H1 H2 H3 H4 H5]. split; [| |by apply without_fmap_NoDup..|].
  - intros k [o Ho]. apply H1. apply lookup_delete_Some in Ho as [_ Ho]. by eexists.
  - apply Forall_forall. intros v [Hv Hne]%without_elem.
    pose proof (proj1 (Forall_forall _ _) H2 v Hv) as (k & o & Hk' & Ho & Hs).
    exists k, o. split_and!; [done| |done]. rewrite lookup_delete_ne; [done|]. intros ->.
    apply Hne. f_equal. apply list_elem_of_lookup in Hv as [i Hi], Hu as [j Hj].
    assert (i = j) as ->; [|congruence]. eapply (NoDup_lookup _ i j (Some k) H3);
      rewrite list_lookup_fmap; [rewrite Hi|rewrite Hj]; simpl; congruence.
  - apply Forall_forall. intros v [Hv _]%without_elem. by apply (proj1 (Forall_forall _ _) H5).
Qed.

(* ------------------------------------------------------------------ *)
(** * The operations on every branch *)

Section Operations.
Context (E : upload_env).

Lemma read_file_cases path w :
  w_files w !! path = None /\ read_file path w = (Raise file_not_found, w) \/
  exists body, w_files w !! path = Some body /\ read_file path w = (Ok body, w).
Proof. unfold read_file. destruct (w_files w !! path) as [body|]; [right; by exists body|by left]. Qed.

Definition key_for (chat_id : option Z) (user_id n : Z) (name : string) : string :=
  upload_key chat_id user_id (str_of_Z n) name.

Lemma key_for_made chat_id user_id n name : made_from n (key_for chat_id user_id n name).
Proof.
  exists (chat_segment chat_id user_id), (path_suffix name). split; [done|].
  destruct (path_suffix_shape name) as [->|(r & H & Hf)]; [by split; [|left]|].
  split; [done|]. right. by exists r.
Qed.

Lemma upload_file_spec key source mime w :
  match upload_file E key source mime w with
  | (Ok p, w') => exists body fs, w_files w !! source = Some body /\ fs `suffix_of` w_s3_faults w /\
      p = s3_scheme ++ ue_bucket E ++ "/" ++ key /\
      w' = set_objects (<[key := mk_object body mime]> (w_objects w)) (set_s3_faults fs w)
  | (Raise e, w') => persist_failure e = true /\ exists fs objs, fs `suffix_of` w_s3_faults w /\
      w' = set_objects objs (set_s3_faults fs w) /\
      (objs = w_objects w \/ exists o, objs = <[key := o]> (w_objects w)) /\
      (w_s3_faults w = [] -> w_files w !! source = None)
  end.
Proof.
  unfold upload_file, pbind at 1.
  destruct (read_file_cases source w) as [[Hn ->]|(body & Hb & ->)].
  { split; [done|]. exists (w_s3_faults w), (w_objects w). split_and!; [done|by destruct w|by left|done]. }
  unfold pbind, s3_op, modify. destruct (w_s3_faults w) as [|[] fs] eqn:Ef.
  - exists body, []. split_and!; [done..|]. destruct w. simpl in Ef. by rewrite Ef.
  - exists body, fs. split_and!; [done|by exists [NoFault]|done|done].
  - split; [done|]. exists fs, (w_objects w). split_and!; [by exists [LostRequest]|by destruct w|by left|done].
  - split; [done|]. exists fs, (<[key := mk_object body mime]> (w_objects w)).
    split_and!; [by exists [LostReply]|done|right; by eexists|done].
Qed.

(** The row made of [body]. *)
Definition row_of (chat_id : option Z) (user_id : Z) (name mime body : string) (w : world) : upload :=
  mk_upload (w_seq w + 1) user_id chat_id name mime (Z.of_nat (String.length body))
    (s3_scheme ++ ue_bucket E ++ "/" ++ key_for chat_id user_id (w_seq w) name) None (w_now w).

(** The world with [body] stored and its row added. *)
Definition persisted (u : upload) (key body mime : string) (fs : list fault) (w : world) : world :=
  set_tx (set_uploads (db_uploads (w_tx w) ++ [u])%list (w_tx w))
    (set_seq (w_seq w + 2)
       (set_objects (<[key := mk_object body mime]> (w_objects w)) (set_s3_faults fs w))).

(** What a failed [persist_local_file] leaves: at most an object without a row. *)
Definition abandoned (key : string) (w w' : world) : Prop :=
  exists fs objs seq, w' = set_seq seq (set_objects objs (set_s3_faults fs w)) /\
    fs `suffix_of` w_s3_faults w /\ w_seq w <= seq <= w_seq w + 1 /\
    (objs = w_objects w \/ seq = w_seq w + 1 /\ exists o, objs = <[key := o]> (w_objects w)).

Lemma persist_local_file_spec chat_id user_id source filename mime w :
  let name := or_else filename (path_name source) in
  let key := key_for chat_id user_id (w_seq w) name in
  match persist_local_file E chat_id user_id source filename mime w with
  | (Ok u, w') => exists body fs, w_files w !! source = Some body /\ fs `suffix_of` w_s3_faults w /\
      u = row_of chat_id user_id name (file_mime E mime name) body w /\
      w' = persisted u key body (file_mime E mime name) fs w
  | (Raise e, w') => persist_failure e = true /\ abandoned key w w' /\
      (w_s3_faults w = [] -> w_files w !! source = None)
  end.
Proof.
  cbv zeta. unfold persist_local_file, pbind at 1. set (name := or_else _ _).
  destruct (read_file_cases source w) as [[Hn ->]|(body & Hb & ->)].
  { split_and!; [done| |done]. exists (w_s3_faults w), (w_objects w), (w_seq w).
    split_and!; [by destruct w|done|lia|lia|by left]. }
  cbv zeta. unfold fresh_name. unfold pbind at 1. unfold pbind at 1. unfold nextval at 1. cbn [pret].
  fold (key_for chat_id user_id (w_seq w) name). unfold pbind at 1.
  pose proof (upload_file_spec (key_for chat_id user_id (w_seq w) name) source (file_mime E mime name)
    (set_seq (w_seq w + 1) w)) as H.
  destruct (upload_file _ _ _ _ _) as [[p|e] w'].
  - destruct H as (body' & fs & Hb' & Hfs & -> & ->). simpl in Hb'. rewrite Hb in Hb'. injection Hb' as <-.
    unfold pbind, nextval, now, gets, sql_write, modify. cbn.
    exists body, fs. split_and!; [done..|]. unfold persisted. by replace (w_seq w + 2) with (w_seq w + 1 + 1) by lia.
  - destruct H as (He & fs & objs & Hfs & -> & Ho & Hn). split_and!; [done| |done].
    exists fs, objs, (w_seq w + 1). split_and!; [by destruct w|done|lia|lia|].
    destruct Ho as [->|[o ->]]; [by left|right; split; [done|by exists o]].
Qed.

Lemma persist_chunks_spec user_id chat_id filename mime chunks w :
  let body := String.concat "" chunks in
  let tmp := "/tmp/tmp" ++ str_of_Z (w_seq w) ++ path_suffix filename in
  let w1 := set_files (<[tmp := body]> (w_files w)) (set_seq (w_seq w + 1) w) in
  let name := or_else (Some filename) (path_name tmp) in
  let key := key_for chat_id user_id (w_seq w + 1) name in
  match persist_chunks E user_id chat_id filename mime chunks w with
  | (Ok u, w') => exists fs, fs `suffix_of` w_s3_faults w /\
      u = row_of chat_id user_id name (file_mime E (Some mime) name) body w1 /\
      w' = set_files (delete tmp (w_files w1))
             (persisted u key body (file_mime E (Some mime) name) fs w1)
  | (Raise e, w') => persist_failure e = true /\
      exists w2, abandoned key w1 w2 /\ w' = set_files (delete tmp (w_files w2)) w2
  end.
Proof.
  cbv zeta. unfold persist_chunks, fresh_name. unfold pbind at 1. unfold pbind at 1. unfold nextval at 1.
  cbn [pret]. set (tmp := "/tmp/tmp" ++ _). unfold write_file. unfold pbind at 1. unfold modify at 1.
  set (body := String.concat _ _). set (w1 := set_files _ _).
  change (set_files (<[tmp:=body]> (w_files (set_seq (w_seq w + 1) w))) (set_seq (w_seq w + 1) w)) with w1.
  pose proof (persist_local_file_spec chat_id user_id tmp (Some filename) (Some mime) w1) as H. cbv zeta in H.
  unfold finally. destruct (persist_local_file _ _ _ _ _ _ _) as [[u|e] w2].
  - destruct H as (body' & fs & Hb & Hfs & Hu & Hw). simpl in Hb. rewrite lookup_insert_eq in Hb.
    injection Hb as <-. cbn. exists fs. split_and!; [done|done|]. rewrite Hw. done.
  - destruct H as (He & Ha & _). cbn. split; [done|]. exists w2. done.
Qed.
End Operations.

(* ------------------------------------------------------------------ *)
(** * What every operation keeps *)

(** The rows a world knows of. *)
Definition rows_of (w : world) : list upload := db_uploads (w_db w) ++ db_uploads (w_tx w).

Definition object_of (w : world) (u : upload) : option s3_object :=
  key ← key_from_s3_path (ul_s3_path u); w_objects w !! key.

(** Well-formed uploads stay so, and a row is either new or has the object it had. *)
Definition safe_step (w w' : world) : Prop :=
  world_wf w -> world_wf w' /\ w_seq w <= w_seq w' /\
  forall u, u ∈ rows_of w' -> u ∈ rows_of w /\ object_of w' u = object_of w u \/ w_seq w <= ul_id u.

#[export] Instance safe_step_preorder : PreOrder safe_step.
Proof.
  split.
  - intros w H. split_and!; [done|lia|]. auto.
  - intros a b c H1 H2 Ha. destruct (H1 Ha) as (Hb & Hs1 & Hu1), (H2 Hb) as (Hc & Hs2 & Hu2).
    split_and!; [done|lia|]. intros u Hu. destruct (Hu2 u Hu) as [[Hu' E]|]; [|right; lia].
    destruct (Hu1 u Hu') as [[Hu'' E']|]; [|by right]. left. split; [done|congruence].
Qed.

(** What the uploads depend on. *)
Definition upview (w : world) := (db_uploads (w_db w), db_uploads (w_tx w), w_objects w, w_seq w).

Lemma same_safe w w' : upview w' = upview w -> safe_step w w'.
Proof.
  unfold upview. intros [= H1 H2 H3 H4] H. unfold world_wf, rows_of, object_of. rewrite H1, H2, H3, H4.
  split_and!; [by destruct H..|lia|]. auto.
Qed.

Lemma respects_safe {A} (m : prog world exn A) : respects (same upview) m -> respects safe_step m.
Proof. intros H w. apply same_safe, H. Qed.

Lemma nextval_safe : respects safe_step nextval.
Proof.
  intros w [H1 H2]. simpl. split_and!; [|lia|auto].
  split; (eapply uploads_wf_mono; [|done]; simpl; lia).
Qed.

Lemma sql_write_safe f : (forall d, db_uploads (f d) = db_uploads d) -> respects safe_step (sql_write f).
Proof. intros H. apply respects_safe. intros w. unfold same, upview. simpl. by rewrite H. Qed.

Lemma redis_safe {A} (f : world -> A * world) :
  (forall w, same upview w (f w).2) -> respects safe_step (redis_op f).
Proof. intros H. apply respects_safe, respects_redis_op; [done|]. done. Qed.

Lemma publish_safe u c t k : respects safe_step (publish_activity u c t k).
Proof.
  apply respects_except; [typeclasses eauto|by apply redis_safe|].
  intros []; auto with frame typeclass_instances.
Qed.
#[export] Hint Resolve nextval_safe publish_safe : frame.

Lemma commit_safe : respects safe_step commit.
Proof.
  unfold commit. apply respects_bind; [typeclasses eauto|by auto with frame typeclass_instances|]. intros hooks.
  apply respects_bind; [typeclasses eauto| |intros _; apply respects_for_each; [typeclasses eauto|]; intros; apply publish_safe].
  intros w [H1 H2]. split_and!; [by split|simpl; lia|].
  intros u Hu. left. split; [|done]. unfold rows_of in *. simpl in Hu.
  apply elem_of_app in Hu as [Hu|Hu]; apply elem_of_app; by right.
Qed.

Lemma with_session_safe {A} (m : prog world exn A) : respects safe_step m -> respects safe_step (with_session m).
Proof.
  intros Hm w. unfold with_session. specialize (Hm (set_hooks [] (set_tx (w_db w) w))).
  destruct (m _) as [r w1]. intros [H1 H2]. destruct Hm as ([H3 H4] & Hs & Hu); [by split|].
  split_and!; [by split|done|]. intros u Hin. unfold rows_of in *. simpl in *.
  destruct (Hu u) as [[Hu' E]|]; [|left|by right].
  - apply elem_of_app in Hin as [?|?]; apply elem_of_app; by left.
  - split; [|done]. apply elem_of_app in Hu' as [?|?]; apply elem_of_app; by left.
Qed.

#[export] Hint Resolve commit_safe with_session_safe : frame.

Section SafeOperations.
Context (E : upload_env).
(** The name of an S3 bucket holds no slash. *)
Context (Hbucket : free_of "/" (ue_bucket E)).

Lemma row_key chat_id user_id name mime body w :
  key_from_s3_path (ul_s3_path (row_of E chat_id user_id name mime body w)) =
  Some (key_for chat_id user_id (w_seq w) name).
Proof. by apply key_roundtrip. Qed.

(** Storing under a fresh key changes no other row's object. *)
Lemma object_of_put objs key o u rows n :
  uploads_wf rows objs n -> made_from n key -> u ∈ rows ->
  (k ← key_from_s3_path (ul_s3_path u); <[key := o]> objs !! k) =
  (k ← key_from_s3_path (ul_s3_path u); objs !! k).
Proof.
  intros H Hk Hu. pose proof (fresh_key _ _ _ _ H Hk) as Hn.
  destruct (proj1 (Forall_forall _ _) (wf_stored _ _ _ H) u Hu) as (k & o' & -> & Ho & _). simpl.
  rewrite lookup_insert_ne; [done|congruence].
Qed.

Lemma persisted_safe chat_id user_id name mime body fs w :
  let u := row_of E chat_id user_id name mime body w in
  safe_step w (persisted u (key_for chat_id user_id (w_seq w) name) body mime fs w).
Proof.
  cbv zeta. set (u := row_of _ _ _ _ _ _ _). pose proof (key_for_made chat_id user_id (w_seq w) name) as Hk.
  intros [H1 H2]. split_and!.
  - split; simpl.
    + eapply uploads_wf_mono; [|by eapply uploads_wf_put]. lia.
    + by eapply uploads_wf_add; [exact Hk|apply row_key|..].
  - simpl. lia.
  - intros v Hv. unfold rows_of, persisted, object_of in *. simpl in *. rewrite app_assoc in Hv.
    apply elem_of_app in Hv as [Hv|Hv].
    + left. split; [done|]. apply elem_of_app in Hv as [Hv|Hv];
        [exact (object_of_put _ _ _ _ _ _ H1 Hk Hv)|exact (object_of_put _ _ _ _ _ _ H2 Hk Hv)].
    + right. apply list_elem_of_singleton in Hv as ->. simpl. lia.
Qed.

Lemma abandoned_safe chat_id user_id name w w' :
  abandoned (key_for chat_id user_id (w_seq w) name) w w' -> safe_step w w'.
Proof.
  pose proof (key_for_made chat_id user_id (w_seq w) name) as Hk.
  intros (fs & objs & seq & -> & _ & Hseq & Ho) [H1 H2].
  assert (Hwf : forall rows, uploads_wf rows (w_objects w) (w_seq w) -> uploads_wf rows objs seq).
  { intros rows H. destruct Ho as [->|[-> [o ->]]]; [by eapply uploads_wf_mono; [|exact H]; lia|].
    by eapply uploads_wf_put. }
  split_and!; [split; by apply Hwf|simpl; lia|].
  intros u Hu. left. split; [done|]. unfold object_of. simpl.
  destruct Ho as [->|[-> [o ->]]]; [done|].
  unfold rows_of in Hu. apply elem_of_app in Hu as [Hu|Hu];
    [exact (object_of_put _ _ _ _ _ _ H1 Hk Hu)|exact (object_of_put _ _ _ _ _ _ H2 Hk Hu)].
Qed.

Lemma persist_local_file_safe chat_id user_id source filename mime :
  respects safe_step (persist_local_file E chat_id user_id source filename mime).
Proof.
  intros w. pose proof (persist_local_file_spec E chat_id user_id source filename mime w) as H. cbv zeta in H.
  destruct (persist_local_file _ _ _ _ _ _ w) as [[u|e] w'].
  - destruct H as (body & fs & _ & _ & -> & ->). apply persisted_safe.
  - destruct H as (_ & H & _). by eapply abandoned_safe.
Qed.

Lemma s3_read_safe {A} (m : prog world exn A) : (forall w, (m w).2 = w) -> respects safe_step (s3_op m).
Proof.
  intros H w. apply same_safe. unfold s3_op. destruct (w_s3_faults w) as [|[] fs]; simpl; by rewrite ?H.
Qed.

Lemma file_safe f : respects safe_step (modify (E := exn) (fun w => set_files (f w) w)).
Proof. intros w. by apply same_safe. Qed.

Lemma read_file_safe path : respects safe_step (read_file path).
Proof. intros w. apply same_safe. by destruct (read_file_cases path w) as [[_ ->]|(? & _ & ->)]. Qed.

Lemma upload_get_safe id user_id : respects safe_step (upload_get id user_id).
Proof. intros w. by apply same_safe. Qed.

Lemma download_safe u : respects safe_step (download_to_stream u).
Proof.
  unfold download_to_stream, download_bytes. destruct (key_from_s3_path _); [|intros w; by apply same_safe].
  apply s3_read_safe. intros w. by destruct (w_objects w !! s).
Qed.

Lemma trusted_path_same source w : (resolve_trusted_local_path E source w).2 = w.
Proof.
  unfold resolve_trusted_local_path. destruct (url_scheme _ _); [|done]. destruct (existsb _ _); [done|].
  destruct (ue_expanduser _ _); [|done]. destruct (ue_resolve _ _ _); [|done]. by destruct (_ || _).
Qed.

#[local] Hint Resolve persist_local_file_safe file_safe read_file_safe upload_get_safe download_safe : frame.

Lemma unique_paths_same seen atts w : (unique_local_paths E seen atts w).2 = w.
Proof.
  revert seen w. induction atts as [|a atts IH]; intros seen w; [done|]. simpl. unfold pbind.
  pose proof (trusted_path_same (a_source a) w) as H.
  destruct (resolve_trusted_local_path _ _ w) as [[[p|]|e] w']; simpl in H; subst; [|apply IH|done].
  destruct (existsb _ _); [apply IH|]. specialize (IH (p :: seen) w).
  by destruct (unique_local_paths _ _ _ w) as [[]].
Qed.

Lemma persist_paths_safe chat_id user_id paths : respects safe_step (persist_paths E chat_id user_id paths).
Proof.
  induction paths as [|p paths IH]; [apply respects_ret; typeclasses eauto|]. simpl.
  apply respects_bind; [typeclasses eauto| |intros []; solve_frame].
  intros w. unfold attempt. pose proof (persist_local_file_safe (Some chat_id) user_id p None None w).
  by destruct (persist_local_file _ _ _ _ _ _ w) as [[u|e] w'].
Qed.

Lemma persist_attachments_safe chat_id user_id atts :
  respects safe_step (persist_attachments E chat_id user_id atts).
Proof.
  apply respects_bind; [typeclasses eauto| |intros; apply persist_paths_safe].
  intros w. apply same_safe. by rewrite unique_paths_same.
Qed.

Lemma persist_chunks_safe user_id chat_id filename mime chunks :
  respects safe_step (persist_chunks E user_id chat_id filename mime chunks).
Proof. unfold persist_chunks, fresh_name, write_file, unlink. solve_frame. Qed.

Lemma upload_once_safe u filename mime data chat_id :
  respects safe_step (upload_once E u filename mime data chat_id).
Proof.
  unfold upload_once. destruct (_ || _); [solve_frame|].
  apply respects_bind; [typeclasses eauto| |].
  - apply with_session_safe, respects_bind; [typeclasses eauto|apply persist_chunks_safe|solve_frame].
  - intros row. unfold presigned_for_upload, presigned_url. solve_frame.
Qed.

Lemma resolve_each_safe ids user_id chat_id acc : respects safe_step (resolve_each E ids user_id chat_id acc).
Proof.
  revert acc. induction ids as [|id ids IH]; intros acc; [solve_frame|]. simpl.
  unfold materialize_for_chat, write_file. solve_frame.
Qed.

Lemma resolve_uploads_safe ids user_id chat_id : respects safe_step (resolve_uploads E ids user_id chat_id).
Proof. destruct ids; [solve_frame|]. apply with_session_safe, resolve_each_safe. Qed.
End SafeOperations.

(* ------------------------------------------------------------------ *)
(** * Deletion *)

(** The next request to S3 works, is lost, or works while its reply is lost. *)
Definition next_s3 (w : world) : fault := default NoFault (head (w_s3_faults w)).

Definition uploads_same (w w' : world) : Prop :=
  db_uploads (w_db w') = db_uploads (w_db w) /\ w_objects w' = w_objects w /\
  w_seq w' = w_seq w /\ w_tx w' = w_db w'.

Definition storage_error (key : string) : exn :=
  OtherException "StorageError" ("S3 delete failed for " ++ key ++ ": " ++ exn_str client_error).

Lemma s3_delete_spec key w :
  match s3_delete key w with
  | (Ok _, w') => next_s3 w = NoFault /\ exists fs, w' = set_objects (delete key (w_objects w)) (set_s3_faults fs w)
  | (Raise e, w') => next_s3 w <> NoFault /\ e = storage_error key /\ exists fs,
      w' = set_objects (match next_s3 w with LostReply => delete key (w_objects w) | _ => w_objects w end)
             (set_s3_faults fs w)
  end.
Proof.
  unfold s3_delete, except, s3_op, next_s3. destruct (w_s3_faults w) as [|[] fs] eqn:Ef; simpl.
  - split; [done|]. exists []. f_equal. destruct w. simpl in Ef. by rewrite Ef.
  - split; [done|]. by exists fs.
  - split_and!; [done..|]. exists fs. by destruct w.
  - split_and!; [done..|]. by exists fs.
Qed.

Lemma commit_effect w :
  let w' := (commit w).2 in
  w_db w' = w_tx w /\ w_tx w' = w_tx w /\ w_seq w' = w_seq w /\ w_objects w' = w_objects w.
Proof.
  cbv zeta. pose proof (commit_sqlview w) as [= H1 H2 _ H3 _].
  split_and!; [done..|]. unfold commit, pbind, gets, modify.
  assert (H : forall hooks w, w_objects (for_each hooks fire w).2 = w_objects w).
  { intros hooks w0. apply (respects_for_each (same w_objects)).
    intros h. unfold fire, publish_activity. apply respects_except; [typeclasses eauto|by apply respects_redis_op|].
    intros []; auto with frame typeclass_instances. }
  by rewrite H.
Qed.

Definition deleted (u : upload) (key : string) (w w' : world) : Prop :=
  db_uploads (w_db w') = without u (db_uploads (w_db w)) /\ w_objects w' = delete key (w_objects w) /\
  w_seq w' = w_seq w /\ w_tx w' = w_db w'.

(** Deleting an upload removes the row and its object together when S3 answers. Somebody
    else's upload is not found and nothing changes. When S3 fails, the [StorageError] of
    the storage is none of the exceptions [UploadService.delete] passes over: the request
    ends with it and the row stays, also when the object is gone and only the reply was
    lost. *)
Theorem delete_upload_outcomes u upload_id w :
  let '(r, w') := delete_upload u upload_id w in
  match List.find (owned_upload upload_id (u_id u)) (db_uploads (w_db w)) with
  | None => r = Raise (not_found "upload" upload_id) /\ uploads_same w w'
  | Some row =>
      match key_from_s3_path (ul_s3_path row) with
      | None => r = Ok tt /\ db_uploads (w_db w') = without row (db_uploads (w_db w)) /\ w_objects w' = w_objects w
      | Some key =>
          match next_s3 w with
          | NoFault => r = Ok tt /\ deleted row key w w'
          | LostRequest => r = Raise (storage_error key) /\ uploads_same w w'
          | LostReply => r = Raise (storage_error key) /\
              db_uploads (w_db w') = db_uploads (w_db w) /\ w_objects w' = delete key (w_objects w)
          end
      end
  end.
Proof.
  unfold delete_upload, with_session, upload_delete, upload_get, sql, gets. unfold pbind. simpl w_tx.
  set (w1 := set_hooks [] (set_tx (w_db w) w)).
  destruct (List.find _ _) as [row|] eqn:Ef; [|done].
  destruct (key_from_s3_path _) as [key|] eqn:Ek; cbn [pret negb].
  - unfold except. pose proof (s3_delete_spec key w1) as H. change (next_s3 w1) with (next_s3 w) in H.
    destruct (s3_delete key w1) as [[[]|e] w2].
    + destruct H as (-> & fs & ->). unfold sql_write, modify.
      set (w3 := set_tx _ _). pose proof (commit_ok w3) as Hc. pose proof (commit_effect w3) as He.
      destruct (commit w3) as [[[]|e] w4]; simpl in Hc; [|done].
      destruct He as (H1 & H2 & H3 & H4). simpl in *. split; [done|]. unfold deleted. simpl.
      by split_and!.
    + destruct H as (Hn & -> & fs & ->). cbn. by destruct (next_s3 w).
  - unfold sql_write, modify. set (w3 := set_tx _ _). pose proof (commit_ok w3) as Hc.
    pose proof (commit_effect w3) as He. destruct (commit w3) as [[[]|e] w4]; simpl in Hc; [|done].
    destruct He as (H1 & _ & _ & H4). by simpl in *.
Qed.

Lemma delete_upload_safe u upload_id w :
  next_s3 w <> LostReply -> safe_step w (delete_upload u upload_id w).2.
Proof.
  intros Hn [H1 H2]. pose proof (delete_upload_outcomes u upload_id w) as H.
  destruct (delete_upload u upload_id w) as [r w']. cbn [snd].
  assert (Hsame : uploads_same w w' -> world_wf w' /\ w_seq w <= w_seq w' /\
    forall v, v ∈ rows_of w' -> v ∈ rows_of w /\ object_of w' v = object_of w v \/ w_seq w <= ul_id v).
  { intros (Hr & Ho & Hs & Ht). unfold world_wf, rows_of, object_of. rewrite Ht, Hr, Ho, Hs.
    split_and!; [done..|lia|]. intros v Hv. left. split; [|done].
    apply elem_of_app. left. by apply elem_of_app in Hv as [?|?]. }
  destruct (List.find _ _) as [row|] eqn:Ef; [|by destruct H as [_ H]; auto].
  apply List.find_some in Ef as [Hin _]. apply list_elem_of_In in Hin.
  destruct (proj1 (Forall_forall _ _) (wf_stored _ _ _ H1) row Hin) as (key & o & Hk & Ho & _).
  rewrite Hk in H. destruct (next_s3 w); [|by destruct H as [_ H]; auto|done].
  destruct H as (_ & Hr & Hobj & Hs & Ht). clear Hsame.
  pose proof (uploads_wf_delete _ _ _ _ _ Hin Hk H1) as Hwf.
  unfold world_wf, rows_of, object_of. rewrite Ht, Hr, Hobj, Hs.
  split_and!; [done|done|lia|]. intros v Hv. left.
  assert (Hv' : v ∈ without row (db_uploads (w_db w))) by by apply elem_of_app in Hv as [?|?].
  pose proof Hv' as [Hdb Hne]%without_elem. split; [apply elem_of_app; by left|].
  destruct (proj1 (Forall_forall _ _) (wf_stored _ _ _ Hwf) v Hv') as (k & o' & -> & Ho' & _). simpl.
  rewrite lookup_delete_ne; [done|]. intros ->. by rewrite lookup_delete_eq in Ho'.
Qed.

(* ------------------------------------------------------------------ *)
(** * Properties *)

(** What may happen to the uploads: the handlers, the last transaction of a web turn, and
    anything that leaves rows and objects alone. A deletion meets no lost reply. *)
Inductive upload_step (E : upload_env) : world -> world -> Prop :=
| StepUpload u filename mime data chat_id w :
    upload_step E w (upload_once E u filename mime data chat_id w).2
| StepResolve ids user_id chat_id w : upload_step E w (resolve_uploads E ids user_id chat_id w).2
| StepDelete u upload_id w : next_s3 w <> LostReply -> upload_step E w (delete_upload u upload_id w).2
| StepTurn chat_id user_id text calls atts client_id turn_id partials w :
    upload_step E w (finalize_turn_persist (persist_attachments E) chat_id user_id text calls atts
      client_id turn_id partials w).2
| StepDropped chat_id user_id text calls atts partial client_id journal w :
    upload_step E w (persist_assistant_turn (persist_attachments E) chat_id user_id text calls atts
      partial client_id journal w).2
| StepElsewhere w w' : upview w' = upview w -> upload_step E w w'.

Section Properties.
Context (E : upload_env).
Context (Hbucket : free_of "/" (ue_bucket E)).

#[local] Hint Extern 1 (respects safe_step (sql_write _)) => apply sql_write_safe; done : frame.

Lemma msg_append_safe chat_id role text meta : respects safe_step (msg_append chat_id role text meta).
Proof. unfold msg_append, touch_last_msg_at, now. solve_frame. Qed.

Lemma emit_event_safe kind chat_id user_id payload : respects safe_step (emit_event kind chat_id user_id payload).
Proof. unfold emit_event. solve_frame. Qed.

Lemma attach_safe turn_id message_id : respects safe_step (attach_assistant_message turn_id message_id).
Proof. unfold attach_assistant_message, update_turns, sql. solve_frame. Qed.

Lemma delete_many_safe ids : respects safe_step (delete_many ids).
Proof. destruct ids; [solve_frame|]. unfold delete_many. solve_frame. Qed.

Lemma attachments_safe chat_id user_id atts : respects safe_step (persist_attachments E chat_id user_id atts).
Proof. by apply persist_attachments_safe. Qed.

#[local] Hint Resolve msg_append_safe emit_event_safe attach_safe delete_many_safe attachments_safe : frame.

Lemma upload_step_safe w w' : upload_step E w w' -> safe_step w w'.
Proof.
  destruct 1.
  - by apply upload_once_safe.
  - apply resolve_uploads_safe.
  - by apply delete_upload_safe.
  - apply with_session_safe. solve_frame.
  - apply with_session_safe. solve_frame.
  - by apply same_safe.
Qed.

Lemma upload_run_safe w w' : rtc (upload_step E) w w' -> safe_step w w'.
Proof. induction 1; [reflexivity|]. etransitivity; [by apply upload_step_safe|done]. Qed.


(** What [download_to_stream] writes when S3 answers. *)
Lemma download_object u key o w :
  key_from_s3_path (ul_s3_path u) = Some key -> w_objects w !! key = Some o -> next_s3 w = NoFault ->
  (download_to_stream u w).1 = Ok (so_body o).
Proof.
  intros Hk Ho Hn. unfold download_to_stream, download_bytes, s3_op, next_s3 in *. rewrite Hk.
  destruct (w_s3_faults w) as [|[] fs]; simpl in *; try done; by rewrite Ho.
Qed.

Lemma upload_once_ok u filename mime data chat_id w row url ttl w1 :
  upload_once E u filename mime data chat_id w = (Ok (row, url, ttl), w1) ->
  row ∈ db_uploads (w_db w1) /\ ul_id row < w_seq w1 /\ (exists key o,
    key_from_s3_path (ul_s3_path row) = Some key /\ w_objects w1 !! key = Some o /\ so_body o = data) /\
  ul_user_id row = u_id u /\ ul_filename row = filename /\ ul_mime row = mime /\
  ul_chat_id row = chat_id /\ ul_size row = Z.of_nat (String.length data).
Proof.
  unfold upload_once. destruct (_ || _) eqn:Ene; [done|]. apply orb_false_iff in Ene as [Hf Hm].
  unfold pbind at 1, with_session, pbind at 1. set (w0 := set_hooks _ _).
  pose proof (persist_chunks_spec E (u_id u) chat_id filename mime [data] w0) as H. cbv zeta in H.
  destruct (persist_chunks _ _ _ _ _ _ w0) as [[r|e] w2]; [|done].
  destruct H as (fs & _ & -> & ->). unfold or_else, file_mime, or_else in *.
  apply negb_false_iff in Hf, Hm. rewrite Hf, Hm.
  unfold pbind at 1. set (w3 := set_files _ _).
  pose proof (commit_ok w3) as Hc. pose proof (commit_effect w3) as (H1 & _ & H3 & H4).
  destruct (commit w3) as [[[]|e] w4]; simpl in Hc; [|done]. cbn [pret fst snd] in *.
  unfold presigned_for_upload, pbind, presigned_url, pret. rewrite row_key by done. intros [= <- <- <- <-].
  cbn [w_db set_hooks set_tx w_objects w_seq]. rewrite H1, H3, H4. subst w3.
  split_and!; [|simpl; lia| |done..].
  - simpl. apply elem_of_app. right. by apply list_elem_of_singleton.
  - eexists _, _. split_and!; [by apply row_key|simpl; apply lookup_insert_eq|done].
Qed.

(** What [UploadOnce] accepted is what every later download of the row gives, for as long
    as the row exists, whatever the other requests and turns do in between; the row tells
    the caller's identity, the file's name and its size. *)
Theorem upload_roundtrip u filename mime data chat_id w row url ttl w1 w2 :
  world_wf w -> upload_once E u filename mime data chat_id w = (Ok (row, url, ttl), w1) ->
  rtc (upload_step E) w1 w2 -> row ∈ db_uploads (w_db w2) -> next_s3 w2 = NoFault ->
  (download_to_stream row w2).1 = Ok data /\
  ul_user_id row = u_id u /\ ul_filename row = filename /\ ul_size row = Z.of_nat (String.length data) /\
  row ∈ db_uploads (w_db w1).
Proof.
  intros Hw Ho Hrun Hin Hn.
  assert (Hstep : safe_step w w1).
  { replace w1 with (upload_once E u filename mime data chat_id w).2 by by rewrite Ho. by apply upload_once_safe. }
  destruct (Hstep Hw) as (Hw1 & _ & _). destruct (upload_run_safe _ _ Hrun Hw1) as (_ & _ & Hrows).
  destruct (upload_once_ok _ _ _ _ _ _ _ _ _ _ Ho) as (Hin1 & Hid & (key & o & Hk & Hobj & <-) & H1 & H2 & _ & _ & H3).
  destruct (Hrows row) as [[_ E2]|]; [apply elem_of_app; by left| |lia].
  split_and!; [|done..]. unfold object_of in E2. rewrite Hk in E2. simpl in E2.
  apply (download_object row key); [done|congruence|done].
Qed.
End Properties.

(* ------------------------------------------------------------------ *)
(** * Workspace files *)

Definition workspace_file (E : upload_env) (chat_id upload_id : Z) (filename : string) : string :=
  path_join (ue_workspace_root E) (workspace_path chat_id upload_id filename).

Lemma workspace_file_parts E chat_id upload_id filename :
  path_parts (workspace_file E chat_id upload_id filename) =
  (path_parts (ue_workspace_root E) ++
   ["uploads"; ("chat-" ++ str_of_Z chat_id)%string; workspace_name upload_id filename])%list.
Proof.
  unfold workspace_file, path_join. change (is_absolute _) with false. cbv iota.
  change ("/" ++ ?x) with (String "/" x). by rewrite path_parts_join, workspace_parts.
Qed.

Lemma workspace_name_inj uid uid' f f' : workspace_name uid f = workspace_name uid' f' -> uid = uid'.
Proof. unfold workspace_name. apply str_of_Z_dash_inj. Qed.

(** Whatever name a client gives its file, the upload is written to a file of its chat's
    directory [uploads/chat-<id>] below the workspace root: three further components, none
    of them a parent reference. Files of different chats or uploads have different paths. *)
Theorem workspace_files_confined E data chat_id upload_id filename w :
  let path := workspace_file E chat_id upload_id filename in
  materialize_for_chat E data chat_id upload_id filename w =
    (Ok (workspace_path chat_id upload_id filename), set_files (<[path := data]> (w_files w)) w) /\
  (exists name, path_parts path = (path_parts (ue_workspace_root E) ++
     ["uploads"; ("chat-" ++ str_of_Z chat_id)%string; name])%list /\ name <> ".." /\ free_of "/" name) /\
  forall chat_id' upload_id' filename',
    path_parts (workspace_file E chat_id' upload_id' filename') = path_parts path ->
    chat_id' = chat_id /\ upload_id' = upload_id.
Proof.
  cbv zeta. split; [done|]. split.
  - exists (workspace_name upload_id filename). split_and!; [apply workspace_file_parts| |apply workspace_name_component].
    unfold workspace_name. pose proof (free_of_num "." upload_id eq_refl eq_refl) as Hd.
    destruct (str_of_Z upload_id) as [|c s]; [done|]. unfold free_of in Hd. simpl in Hd.
    intros [= -> _]. done.
  - intros c' u' f' H. rewrite !workspace_file_parts in H. apply app_inv_head in H.
    injection H as H1 H2. split; [by apply str_of_Z_inj|by eapply workspace_name_inj].
Qed.

(* ------------------------------------------------------------------ *)
(** * The attachments of an answer *)

Section Attachments.
Context (E : upload_env).
Context (Hbucket : free_of "/" (ue_bucket E)).

(** A trusted file named by one of the attachments. *)
Definition trusted_source (atts : list Attachment) (w : world) (path : string) : Prop :=
  (exists a, a ∈ atts /\ resolve_trusted_local_path E (a_source a) w = (Ok (Some path), w)) /\
  is_inside_trusted_root E path = true /\ is_Some (w_files w !! path).

Lemma trusted_path_inv source w path w' :
  resolve_trusted_local_path E source w = (Ok (Some path), w') ->
  w' = w /\ is_inside_trusted_root E path = true /\ is_Some (w_files w !! path).
Proof.
  unfold resolve_trusted_local_path. destruct (url_scheme _ _); [|done]. destruct (existsb _ _); [done|].
  destruct (ue_expanduser _ _); [|done]. destruct (ue_resolve _ _ _); [|done].
  destruct (_ || _) eqn:Eo; [done|]. intros [= <- <-]. to_prop. done.
Qed.

Lemma existsb_eqb_false p l : existsb (String.eqb p) l = false <-> p ∉ l.
Proof.
  induction l as [|x l IH]; simpl; [split; [intros _ []%not_elem_of_nil|done]|].
  rewrite orb_false_iff, not_elem_of_cons, IH, String.eqb_neq. done.
Qed.

(** The distinct trusted files, or the exception of a malformed source. *)
Lemma unique_paths_spec seen atts w :
  match (unique_local_paths E seen atts w).1 with
  | Ok ps => NoDup ps /\ Forall (trusted_source atts w) ps /\ Forall (fun p => p ∉ seen) ps
  | Raise e => exists a, a ∈ atts /\ (resolve_trusted_local_path E (a_source a) w).1 = Raise e
  end.
Proof.
  revert seen. induction atts as [|a atts IH]; intros seen; [simpl; split_and!; constructor|].
  simpl. unfold pbind.
  assert (Hmore : forall ps, Forall (trusted_source atts w) ps -> Forall (trusted_source (a :: atts) w) ps).
  { intros ps Hps. eapply Forall_impl; [exact Hps|]. intros p ((b & Hb & H) & Hp). split; [|done].
    exists b. split; [by right|done]. }
  assert (Hrec : forall seen', match (unique_local_paths E seen' atts w).1 with
    | Ok ps => NoDup ps /\ Forall (trusted_source (a :: atts) w) ps /\ Forall (fun p => p ∉ seen') ps
    | Raise e => exists b, b ∈ a :: atts /\ (resolve_trusted_local_path E (a_source b) w).1 = Raise e
    end).
  { intros seen'. specialize (IH seen'). destruct (unique_local_paths _ _ _ w) as [[ps|e] w1]; simpl in *.
    - destruct IH as (H1 & H2 & H3). auto.
    - destruct IH as (b & Hb & H). exists b. split; [by right|done]. }
  destruct (resolve_trusted_local_path E (a_source a) w) as [[[p|]|e] w1] eqn:Er.
  - destruct (trusted_path_inv _ _ _ _ Er) as (-> & Hin & Hfile).
    destruct (existsb (String.eqb p) seen) eqn:Es; [apply Hrec|]. apply existsb_eqb_false in Es.
    specialize (Hrec (p :: seen)). destruct (unique_local_paths _ _ _ w) as [[ps|e] w2]; simpl in *; [|done].
    destruct Hrec as (H1 & H2 & H3). split_and!.
    + constructor; [|done]. intros Hp. apply (proj1 (Forall_forall _ _) H3) in Hp. apply Hp. by left.
    + constructor; [|done]. split; [|done]. exists a. split; [by left|done].
    + constructor; [done|]. eapply Forall_impl; [exact H3|]. intros q Hq Hs. apply Hq. by right.
  - pose proof (trusted_path_same E (a_source a) w) as Hs. rewrite Er in Hs. simpl in Hs. subst w1. apply Hrec.
  - exists a. split; [by left|]. by rewrite Er.
Qed.

(** A row made of the file [path]. *)
Definition row_from (chat_id user_id : Z) (w w' : world) (path : string) (row : upload) : Prop :=
  ul_chat_id row = Some chat_id /\ ul_user_id row = user_id /\
  exists body, w_files w !! path = Some body /\ so_body <$> object_of w' row = Some body.

(** Rows of [w1] with their objects are there in [w2]. *)
Lemma row_from_later chat_id user_id w0 w1 w2 path row :
  safe_step w1 w2 -> world_wf w1 -> row ∈ rows_of w1 -> row ∈ rows_of w2 ->
  row_from chat_id user_id w0 w1 path row -> row_from chat_id user_id w0 w2 path row.
Proof.
  intros Hs Hw H1 H2 (Hc & Hu & body & Hf & Ho). split_and!; [done..|]. exists body. split; [done|].
  destruct (Hs Hw) as (_ & _ & Hrows). destruct (Hrows row H2) as [[_ ->]|Hid]; [done|].
  destruct Hw as [Hw1 Hw2]. apply elem_of_app in H1 as [H1|H1];
    [pose proof (wf_fresh _ _ _ Hw1) as Hf'|pose proof (wf_fresh _ _ _ Hw2) as Hf'];
    apply (proj1 (Forall_forall _ _) Hf') in H1; lia.
Qed.

(** The trusted files become rows of the open session, those S3 refuses excepted. *)
Lemma persist_paths_spec chat_id user_id paths w :
  world_wf w ->
  match persist_paths E chat_id user_id paths w with
  | (Ok ids, w') => exists kept rows, kept `sublist_of` paths /\ ids = map ul_id rows /\
      w_db w' = w_db w /\ w_files w' = w_files w /\
      w_tx w' = set_uploads (db_uploads (w_tx w) ++ rows)%list (w_tx w) /\
      Forall2 (row_from chat_id user_id w w') kept rows /\
      (w_s3_faults w = [] -> Forall (fun p => is_Some (w_files w !! p)) paths -> kept = paths /\ w_s3_faults w' = [])
  | (Raise e, _) => False
  end.
Proof.
  revert w. induction paths as [|p paths IH]; intros w Hw; cbn [persist_paths].
  { exists [], []. split_and!; try done. rewrite app_nil_r. by destruct (w_tx w). }
  unfold pbind at 1, attempt.
  pose proof (persist_local_file_spec E (Some chat_id) user_id p None None w) as H. cbv zeta in H.
  pose proof (persist_local_file_safe E Hbucket (Some chat_id) user_id p None None w Hw) as (Hw1 & _ & _).
  destruct (persist_local_file _ _ _ _ _ _ w) as [[u|e] w1].
  - destruct H as (body & fs & Hb & Hfs & Hu & Hw1'). unfold pbind.
    pose proof (persist_paths_safe E Hbucket chat_id user_id paths w1) as Hsafe.
    specialize (IH w1 Hw1). destruct (persist_paths _ _ _ paths w1) as [[ids|e] w2]; [|done]. cbn [pret].
    destruct IH as (kept & rows & Hk & -> & Hdb & Hfiles & Htx & Hrows & Hall).
    assert (Hf1 : w_files w1 = w_files w) by by rewrite Hw1'.
    exists (p :: kept), (u :: rows). split_and!.
    + by constructor.
    + done.
    + rewrite Hdb. by rewrite Hw1'.
    + congruence.
    + rewrite Htx, Hw1'. simpl. by rewrite <- app_assoc.
    + constructor.
      * apply (row_from_later _ _ _ w1); [done|done|..].
        -- unfold rows_of. rewrite Hw1'. simpl. set_solver.
        -- unfold rows_of. rewrite Htx, Hw1'. simpl. set_solver.
        -- rewrite Hu. split_and!; [done..|]. exists body. split; [done|].
           unfold object_of. rewrite row_key by done. rewrite Hw1'. simpl. by rewrite lookup_insert_eq.
      * eapply Forall2_impl; [exact Hrows|]. intros q r (H1 & H2 & b & H3 & H4).
        split_and!; [done..|]. exists b. by rewrite <- Hf1.
    + intros Hno Hex. apply Forall_cons in Hex as [_ Hex]. destruct Hall as [-> ?]; [|by rewrite Hf1|done].
      rewrite Hw1'. simpl. rewrite Hno in Hfs. by apply suffix_nil_inv in Hfs.
  - destruct H as (He & Ha & Hn). rewrite He. specialize (IH w1 Hw1).
    destruct Ha as (fs & objs & seq & -> & Hfs & _ & _).
    destruct (persist_paths _ _ _ paths _) as [[ids|e'] w2]; [|done].
    destruct IH as (kept & rows & Hk & H1 & H2 & H3 & H4 & H5 & H6). exists kept, rows.
    split_and!; [by constructor|done..|]. intros Hno [[b Hb] _]%Forall_cons. by rewrite Hn in Hb.
Qed.

(** The files stored for an answer. *)
Lemma persist_attachments_spec chat_id user_id atts w :
  world_wf w ->
  match persist_attachments E chat_id user_id atts w with
  | (Ok ids, w') => exists trusted kept rows,
      NoDup trusted /\ Forall (trusted_source atts w) trusted /\ kept `sublist_of` trusted /\
      Forall2 (row_from chat_id user_id w w') kept rows /\ ids = map ul_id rows /\
      w_db w' = w_db w /\ w_tx w' = set_uploads (db_uploads (w_tx w) ++ rows)%list (w_tx w) /\
      (w_s3_faults w = [] -> kept = trusted)
  | (Raise e, w') => w' = w /\ exists a, a ∈ atts /\ (resolve_trusted_local_path E (a_source a) w).1 = Raise e
  end.
Proof.
  intros Hw. unfold persist_attachments, pbind.
  pose proof (unique_paths_spec [] atts w) as Hp. pose proof (unique_paths_same E [] atts w) as Hs.
  destruct (unique_local_paths E [] atts w) as [[ps|e] w1]; simpl in Hs, Hp; subst w1; [|done].
  destruct Hp as (Hnd & Htr & _). pose proof (persist_paths_spec chat_id user_id ps w Hw) as H.
  destruct (persist_paths _ _ _ ps w) as [[ids|e] w2]; [|done].
  destruct H as (kept & rows & H1 & H2 & H3 & H4 & H5 & H6 & H7). exists ps, kept, rows.
  split_and!; [done..|]. intros Hno. apply H7; [done|].
  eapply Forall_impl; [exact Htr|]. by intros p (_ & _ & ?).
Qed.

(** C16: Storing the attachments of an answer reads only existing files below a trusted root
    that an attachment names, each once: every new row belongs to the chat and its owner and
    its object holds one of these files. Nothing is committed. Files that cannot be read and
    requests S3 refuses are passed over; without such failures every trusted file is stored.
    The only exceptions are those of a malformed source, before anything is written. *)
Theorem attachments_trusted chat_id user_id atts w :
  world_wf w ->
  match persist_attachments E chat_id user_id atts w with
  | (Ok ids, w') => exists trusted kept rows,
      NoDup trusted /\ Forall (trusted_source atts w) trusted /\ kept `sublist_of` trusted /\
      Forall2 (row_from chat_id user_id w w') kept rows /\ ids = map ul_id rows /\
      w_db w' = w_db w /\ w_tx w' = set_uploads (db_uploads (w_tx w) ++ rows)%list (w_tx w) /\
      (w_s3_faults w = [] -> kept = trusted)
  | (Raise e, w') => w' = w /\ exists a, a ∈ atts /\ (resolve_trusted_local_path E (a_source a) w).1 = Raise e
  end.
Proof. apply persist_attachments_spec. Qed.

(** The last transaction of a web turn, with the rows it may cite. *)
Definition cites (ids : list Z) (m : message) : Prop :=
  exists calls client, m_meta m = nonempty_meta (calls ++
    opt_entry (negb (Nat.eqb (List.length ids) 0)) "upload_ids" (JArr (map JNum ids)) ++ client)%list /\
    Forall (fun kv => kv.1 <> "upload_ids") calls /\ Forall (fun kv => kv.1 <> "upload_ids") client.

(** The row of an answer never cites a missing upload: when the last transaction of a web
    turn succeeds, each upload identifier in the assistant message's meta is a committed row
    of the same user and chat whose object is in the bucket; when it fails no row is
    committed. *)
Theorem answer_uploads_committed chat_id user_id text calls atts client_id turn_id partials w :
  world_wf w ->
  match finalize_turn_persist (persist_attachments E) chat_id user_id text calls atts client_id turn_id partials w with
  | (Ok m, w') => exists ids, cites ids m /\
      Forall (fun id => exists row, row ∈ db_uploads (w_db w') /\ ul_id row = id /\
        ul_user_id row = user_id /\ ul_chat_id row = Some chat_id /\ stored (w_objects w') row) ids
  | (Raise e, w') => db_uploads (w_db w') = db_uploads (w_db w)
  end.
Proof.
  intros Hw. pose proof (upload_step_safe E Hbucket _ _
    (StepTurn E chat_id user_id text calls atts client_id turn_id partials w) Hw) as ([Hwf _] & _).
  destruct (finalize_turn_persist _ _ _ _ _ _ _ _ _ w) as [r w'] eqn:Ef. simpl in Hwf. revert Ef.
  unfold finalize_turn_persist, with_session. unfold pbind at 1.
  set (w0 := set_hooks [] (set_tx (w_db w) w)).
  assert (Hw0 : world_wf w0) by by destruct Hw.
  pose proof (persist_attachments_spec chat_id user_id atts w0 Hw0) as H.
  destruct (persist_attachments E chat_id user_id atts w0) as [[ids|e] w1].
  2:{ destruct H as [-> _]. by intros [= <- <-]. }
  destruct H as (_ & kept & rows & _ & _ & _ & Hrows & Hids & Hdb & Htx & _). cbv zeta.
  erewrite !pbind_ok by apply msg_append_eq. cbv beta.
  erewrite !pbind_ok by apply attach_opt_eq. cbv beta.
  erewrite !pbind_ok by apply delete_many_eq. cbv beta.
  erewrite !pbind_ok by apply emit_event_eq. cbv beta.
  match goal with |- context [(commit ;; pret ?a)%prog ?w2] =>
    pose proof (pret_after_commit a w2) as Hc; destruct ((commit ;; pret a)%prog w2) as [r' w2'] end.
  destruct Hc as [-> Hc]. intros [= <- <-]. simpl in Hc, Hwf |- *. rewrite Hc, Htx in *. simpl in *.
  exists ids. split.
  - do 2 eexists. split; [done|]. split; unfold opt_entry; case_goal; by repeat constructor.
  - rewrite Hids. apply Forall_map. apply Forall_forall. intros row Hr. simpl.
    assert (Hin : row ∈ (db_uploads (w_db w) ++ rows)%list) by (apply elem_of_app; by right).
    pose proof Hr as [i Hi]%list_elem_of_lookup.
    destruct (Forall2_lookup_r _ _ _ _ _ Hrows Hi) as (p & _ & Hc' & Hu' & _).
    exists row. split_and!; [done|done|done|done|].
    by apply (proj1 (Forall_forall _ _) (wf_stored _ _ _ Hwf)).
Qed.
End Attachments.

(* ------------------------------------------------------------------ *)
(** * The uploads of a request *)

Section Resolution.
Context (E : upload_env).
Context (user_id chat_id : Z).

Definition row_for (w : world) (id : Z) : option upload :=
  List.find (owned_upload id user_id) (db_uploads (w_db w)).

Definition is_audio (u : upload) : bool := startswith (ul_mime u) "audio/".
Definition is_image (u : upload) : bool := negb (is_audio u) && startswith (ul_mime u) "image/".
Definition is_file (u : upload) : bool := negb (is_audio u) && negb (startswith (ul_mime u) "image/").

(** The requested identifiers whose rows are of the kind [k], in order. *)
Definition of_kind (k : upload -> bool) (w : world) (ids : list Z) : list Z :=
  List.filter (fun id => match row_for w id with Some u => k u | None => false end) ids.

(** An image becomes a [data:] URL that decodes to its object. *)
Definition url_shows (w : world) (id : Z) (url : string) : Prop :=
  exists u o b64, row_for w id = Some u /\ object_of w u = Some o /\
    url = "data:" ++ ul_mime u ++ ";base64," ++ b64 /\ b64decode b64 = Some (so_body o).

(** Another file is a workspace file with the bytes of its object. *)
Definition file_holds (w w' : world) (id : Z) (path : string) : Prop :=
  exists u o, row_for w id = Some u /\ object_of w u = Some o /\
    path = workspace_path chat_id id (ul_filename u) /\
    w_files w' !! path_join (ue_workspace_root E) path = Some (so_body o).

Record resolution (w w' : world) (ids : list Z) (acc r : ResolvedUploads) : Prop := {
  rs_owned : Forall (fun id => is_Some (row_for w id)) ids;
  rs_audio : up_audio_ids r = (up_audio_ids acc ++ of_kind is_audio w ids)%list;
  rs_images : up_image_ids r = (up_image_ids acc ++ of_kind is_image w ids)%list;
  rs_files : up_file_ids r = (up_file_ids acc ++ of_kind is_file w ids)%list;
  rs_urls : exists urls, up_image_urls r = (up_image_urls acc ++ urls)%list /\
    Forall2 (url_shows w) (of_kind is_image w ids) urls;
  rs_paths : exists paths, up_file_paths r = (up_file_paths acc ++ paths)%list /\
    Forall2 (file_holds w w') (of_kind is_file w ids) paths;
  rs_kept : forall id path, file_holds w w id path -> file_holds w w' id path;
  rs_rest : upview w' = upview w
}.

Lemma row_for_id w id u : row_for w id = Some u -> ul_id u = id /\ ul_user_id u = user_id.
Proof. unfold row_for. intros [_ H]%List.find_some. unfold owned_upload in H. by to_prop. Qed.

Lemma row_for_same w w' id : upview w' = upview w -> row_for w' id = row_for w id.
Proof. unfold row_for. by intros [= -> _ _ _]. Qed.
Lemma object_of_same w w' u : upview w' = upview w -> object_of w' u = object_of w u.
Proof. unfold object_of. by intros [= _ _ -> _]. Qed.
Lemma of_kind_same k w w' ids : upview w' = upview w -> of_kind k w' ids = of_kind k w ids.
Proof.
  intros H. unfold of_kind. apply List.filter_ext. intros id. by rewrite (row_for_same w w').
Qed.

Lemma url_shows_same w w' id url : upview w' = upview w -> url_shows w' id url -> url_shows w id url.
Proof.
  intros H (u & o & b & H1 & H2 & H3). exists u, o, b. by rewrite <- (row_for_same w w'), <- (object_of_same w w').
Qed.
Lemma file_holds_same w w1 w' id path :
  upview w1 = upview w -> file_holds w1 w' id path <-> file_holds w w' id path.
Proof.
  intros H. unfold file_holds. by setoid_rewrite (row_for_same w w1); [setoid_rewrite (object_of_same w w1)|].
Qed.

Lemma download_ok u w data w' :
  download_to_stream u w = (Ok data, w') ->
  (exists o, object_of w u = Some o /\ so_body o = data) /\ upview w' = upview w /\ w_files w' = w_files w.
Proof.
  unfold download_to_stream, download_bytes, s3_op, object_of. destruct (key_from_s3_path _) as [key|]; [|done]. simpl.
  destruct (w_s3_faults w) as [|[] fs]; simpl; destruct (w_objects w !! key) as [o|]; try done;
    intros [= <- <-]; (split; [by exists o|done]).
Qed.

(** Writing the object of an upload keeps the files that hold theirs. *)
Lemma write_keeps w id0 u0 o0 id path :
  row_for w id0 = Some u0 -> object_of w u0 = Some o0 ->
  file_holds w w id path ->
  file_holds w (set_files (<[workspace_file E chat_id id0 (ul_filename u0) := so_body o0]> (w_files w)) w) id path.
Proof.
  intros H1 H2 (u & o & H3 & H4 & -> & H5). exists u, o. split_and!; [done..|]. simpl.
  fold (workspace_file E chat_id id (ul_filename u)) in *.
  destruct (decide (workspace_file E chat_id id0 (ul_filename u0) = workspace_file E chat_id id (ul_filename u))) as [He|Hne].
  - rewrite He, lookup_insert_eq. apply (f_equal path_parts) in He. rewrite !workspace_file_parts in He.
    apply app_inv_head in He. injection He as He%workspace_name_inj. subst id0. congruence.
  - by rewrite lookup_insert_ne.
Qed.

Lemma of_kind_cons k w id u ids :
  row_for w id = Some u -> of_kind k w (id :: ids) = if k u then id :: of_kind k w ids else of_kind k w ids.
Proof. intros H. unfold of_kind. simpl. by rewrite H. Qed.

(** One more identifier in front of a resolved rest. *)
Lemma resolution_cons w w1 w' id u ids acc acc1 r :
  row_for w id = Some u -> upview w1 = upview w ->
  (forall i p, file_holds w w i p -> file_holds w w1 i p) ->
  up_audio_ids acc1 = (up_audio_ids acc ++ (if is_audio u then [id] else []))%list ->
  up_image_ids acc1 = (up_image_ids acc ++ (if is_image u then [id] else []))%list ->
  up_file_ids acc1 = (up_file_ids acc ++ (if is_file u then [id] else []))%list ->
  (exists us, up_image_urls acc1 = (up_image_urls acc ++ us)%list /\
     Forall2 (url_shows w) (if is_image u then [id] else []) us) ->
  (exists ps, up_file_paths acc1 = (up_file_paths acc ++ ps)%list /\
     Forall2 (file_holds w w1) (if is_file u then [id] else []) ps) ->
  resolution w1 w' ids acc1 r -> resolution w w' (id :: ids) acc r.
Proof.
  intros Hrow Hv Hk Ha Hi Hf (us & Hus & Hus2) (ps & Hps & Hps2) [R1 R2 R3 R4 (us' & R5 & R5') (ps' & R6 & R6') R7 R8].
  rewrite !(of_kind_same _ w w1) in * by done.
  assert (Hkeep : forall i p, file_holds w w1 i p -> file_holds w w' i p).
  { intros i p H. apply (file_holds_same w w1); [done|]. apply R7. by apply (file_holds_same w w1). }
  split.
  - constructor; [by rewrite Hrow|]. eapply Forall_impl; [exact R1|]. intros i. cbv beta. by rewrite (row_for_same w w1).
  - rewrite R2, Ha, (of_kind_cons _ _ _ u), <- app_assoc by done. by destruct (is_audio u).
  - rewrite R3, Hi, (of_kind_cons _ _ _ u), <- app_assoc by done. by destruct (is_image u).
  - rewrite R4, Hf, (of_kind_cons _ _ _ u), <- app_assoc by done. by destruct (is_file u).
  - exists (us ++ us')%list. rewrite R5, Hus, <- app_assoc. split; [done|].
    rewrite (of_kind_cons _ _ _ u) by done.
    assert (Hsame : Forall2 (url_shows w) (of_kind is_image w ids) us').
    { eapply Forall2_impl; [exact R5'|]. intros i url. by apply url_shows_same. }
    destruct (is_image u); [|by inversion Hus2].
    change (id :: ?l) with ([id] ++ l)%list. by apply Forall2_app.
  - exists (ps ++ ps')%list. rewrite R6, Hps, <- app_assoc. split; [done|].
    rewrite (of_kind_cons _ _ _ u) by done.
    assert (Hsame : Forall2 (file_holds w w') (of_kind is_file w ids) ps').
    { eapply Forall2_impl; [exact R6'|]. intros i q. by apply file_holds_same. }
    destruct (is_file u); [|by inversion Hps2]. change (id :: ?l) with ([id] ++ l)%list.
    apply Forall2_app; [|done]. eapply Forall2_impl; [exact Hps2|]. apply Hkeep.
  - intros i q H. by apply Hkeep, Hk.
  - congruence.
Qed.

Lemma resolve_each_spec ids acc w r w' :
  db_uploads (w_tx w) = db_uploads (w_db w) ->
  resolve_each E ids user_id chat_id acc w = (Ok r, w') -> resolution w w' ids acc r.
Proof.
  revert acc w. induction ids as [|id ids IH]; intros acc w Htx; cbn [resolve_each].
  { intros [= <- <-]. split; try done; try (by rewrite app_nil_r); exists []; by rewrite app_nil_r. }
  unfold pbind at 1, upload_get, sql, gets. rewrite Htx. fold (row_for w id).
  destruct (row_for w id) as [u|] eqn:Hrow; [|done].
  assert (Hnext : forall acc1 w1, upview w1 = upview w ->
    resolve_each E ids user_id chat_id acc1 w1 = (Ok r, w') -> resolution w1 w' ids acc1 r).
  { intros acc1 w1 Hv H. apply IH; [|done]. injection Hv as H1 H2 _ _. congruence. }
  destruct (startswith (ul_mime u) "audio/") eqn:Ea.
  { intros H. eapply (resolution_cons w w _ _ u); [done|done|done|..|by apply (Hnext _ w); [done|exact H]];
      unfold is_image, is_file, is_audio, add_audio, add_image, add_file; rewrite ?Ea; simpl; rewrite ?app_nil_r; try done;
      exists []; by rewrite app_nil_r. }
  unfold pbind at 1. destruct (download_to_stream u w) as [[data|e] w1] eqn:Ed; [|done].
  destruct (download_ok _ _ _ _ Ed) as ((o & Ho & <-) & Hv & Hfiles).
  assert (Hk1 : forall i p, file_holds w w i p -> file_holds w w1 i p)
    by (unfold file_holds; by rewrite Hfiles).
  destruct (startswith (ul_mime u) "image/") eqn:Ei.
  - intros H. eapply (resolution_cons w w1 _ _ u); [done|done|done|..|by apply (Hnext _ w1); [done|exact H]];
      unfold is_image, is_file, is_audio, add_audio, add_image, add_file; rewrite ?Ea, ?Ei; simpl; rewrite ?app_nil_r; try done.
    + eexists [_]. split; [done|]. constructor; [|done]. exists u, o, (b64encode (so_body o)).
      split_and!; [done..|]. apply b64_roundtrip.
    + exists []. by rewrite app_nil_r.
  - unfold materialize_for_chat, write_file, pbind, modify, pret.
    fold (workspace_file E chat_id id (ul_filename u)). set (w2 := set_files _ w1). intros H.
    assert (Hv2 : upview w2 = upview w) by done.
    eapply (resolution_cons w w2 _ _ u); [done|done| |..|by apply (Hnext _ w2); [done|exact H]];
      unfold is_image, is_file, is_audio, add_audio, add_image, add_file; rewrite ?Ea, ?Ei; simpl; rewrite ?app_nil_r; try done.
    + intros i p Hh. pose proof (write_keeps w id u o i p Hrow Ho Hh) as Hwk.
      unfold file_holds in *. subst w2. simpl in *. by rewrite Hfiles.
    + exists []. by rewrite app_nil_r.
    + eexists [_]. split; [done|]. constructor; [|done]. exists u, o. split_and!; [done..|].
      subst w2. simpl. apply lookup_insert_eq.
Qed.
End Resolution.

(** When the uploads of a request resolve, every identifier names a row of the caller (so
    somebody else's upload refuses the whole request); the identifiers come back partitioned
    by kind in the order of the request; each image is a [data:] URL that decodes to the
    stored object, and each other file is in the workspace, under the path handed to Codex,
    with the bytes of its object. Rows and objects are untouched. *)
Theorem resolve_uploads_sound E ids user_id chat_id w r w' :
  resolve_uploads E ids user_id chat_id w = (Ok r, w') ->
  Forall (fun id => exists u, row_for user_id w id = Some u /\ ul_id u = id /\ ul_user_id u = user_id) ids /\
  up_audio_ids r = of_kind user_id is_audio w ids /\
  up_image_ids r = of_kind user_id is_image w ids /\
  up_file_ids r = of_kind user_id is_file w ids /\
  Forall2 (url_shows user_id w) (up_image_ids r) (up_image_urls r) /\
  Forall2 (file_holds E user_id chat_id w w') (up_file_ids r) (up_file_paths r) /\
  db_uploads (w_db w') = db_uploads (w_db w) /\ w_objects w' = w_objects w.
Proof.
  unfold resolve_uploads. destruct ids as [|i ids]; [intros [= <- <-]; split_and!; repeat constructor|].
  unfold with_session. set (w0 := set_hooks [] (set_tx (w_db w) w)).
  destruct (resolve_each E (i :: ids) user_id chat_id no_resolved w0) as [[r1|e] w1] eqn:Er; [|done].
  apply resolve_each_spec in Er; [|done]. intros [= <- <-].
  destruct Er as [R1 R2 R3 R4 (us & R5 & R5') (ps & R6 & R6') _ R8]. injection R8 as H1 _ H3 _.
  split_and!; [|exact R2|exact R3|exact R4| | |done|done].
  - eapply Forall_impl; [exact R1|]. intros id [u Hu]. exists u.
    split; [done|]. by apply (row_for_id user_id w0).
  - by rewrite R3, R5.
  - by rewrite R4, R6.
Qed.

(* ------------------------------------------------------------------ *)
(** * What the clients of the uploads assume

    The turn pipelines and RunTurn are proved for any implementation of these operations
    that keeps to the following relations; the services above do. *)

(** Within a session: only rows are added, in the working copy. *)
Definition adds_uploads (w w' : world) : Prop :=
  w_db w' = w_db w /\ w_tx w' = set_uploads (db_uploads (w_tx w')) (w_tx w) /\ w_seq w <= w_seq w' /\
  redisview w' = redisview w.

#[export] Instance adds_uploads_preorder : PreOrder adds_uploads.
Proof.
  split; [intros w; split_and!; [done|by destruct (w_tx w)|lia|done]|].
  intros a b c (H1 & H2 & H3 & H4) (H5 & H6 & H7 & H8). split_and!; [congruence| |lia|congruence].
  rewrite H6, H2. by destruct (w_tx a).
Qed.

Lemma same_adds w w' :
  (w_db w', w_tx w', w_seq w', redisview w') = (w_db w, w_tx w, w_seq w, redisview w) -> adds_uploads w w'.
Proof.
  intros H. pose proof (f_equal snd H) as Hr. pose proof (f_equal (fun x => x.1.2) H) as Hs.
  pose proof (f_equal (fun x => x.1.1.2) H) as Ht. pose proof (f_equal (fun x => x.1.1.1) H) as Hd. simpl in *.
  split_and!; [done| |lia|done]. rewrite Ht. by destruct (w_tx w).
Qed.

Section Clients.
Context (E : upload_env).

Lemma persist_local_file_adds chat_id user_id source filename mime :
  respects adds_uploads (persist_local_file E chat_id user_id source filename mime).
Proof.
  intros w. pose proof (persist_local_file_spec E chat_id user_id source filename mime w) as H. cbv zeta in H.
  destruct (persist_local_file _ _ _ _ _ _ w) as [[u|e] w'].
  - destruct H as (body & fs & _ & _ & _ & ->). split_and!; [done|done|simpl; lia|done].
  - destruct H as (_ & (fs & objs & seq & -> & _ & Hs & _) & _).
    split_and!; [done|simpl; by destruct (w_tx w)|simpl; lia|done].
Qed.

Lemma persist_attachments_adds chat_id user_id atts :
  respects adds_uploads (persist_attachments E chat_id user_id atts).
Proof.
  apply respects_bind; [typeclasses eauto| |].
  - intros w. apply same_adds. by rewrite unique_paths_same.
  - intros paths. induction paths as [|p paths IH]; [apply respects_ret; typeclasses eauto|]. simpl.
    apply respects_bind; [typeclasses eauto| |intros []; solve_frame].
    intros w. unfold attempt. pose proof (persist_local_file_adds (Some chat_id) user_id p None None w).
    by destruct (persist_local_file _ _ _ _ _ _ w) as [[u|e] w'].
Qed.

(** The assumption of the web pipeline ([WebStream]). *)
Lemma persist_attachments_uploads_only : uploads_only (persist_attachments E).
Proof. intros c u l w. destruct (persist_attachments_adds c u l w) as (? & ? & ? & _). done. Qed.

(** The assumption of the Telegram pipeline about quotas ([TgOutcome]). *)
Lemma persist_attachments_spares k chat_id user_id atts :
  respects (spares k) (persist_attachments E chat_id user_id atts).
Proof.
  intros w. destruct (persist_attachments_adds chat_id user_id atts w) as (_ & _ & _ & H).
  apply quotaview_spares. unfold quotaview. injection H as -> _ -> -> _ _. done.
Qed.

(** ... and about answers without attachments ([TgAnswer]). *)
Lemma persist_attachments_nil chat_id user_id w : persist_attachments E chat_id user_id [] w = (Ok [], w).
Proof. done. Qed.

(** The assumption of RunTurn about quotas ([ChatRpc]). *)
Lemma resolve_uploads_spares k ids user_id chat_id : respects (spares k) (resolve_uploads E ids user_id chat_id).
Proof.
  assert (Hf : forall A (m : prog world exn A), respects (same redisview) m -> respects (spares k) m).
  { intros A m H w. specialize (H w). unfold same in H. apply quotaview_spares. unfold quotaview.
    injection H as -> _ -> -> _ _. done. }
  apply Hf. destruct ids as [|i ids]; [by intros w|]. unfold resolve_uploads.
  assert (He : forall l acc, respects (same redisview) (resolve_each E l user_id chat_id acc)).
  { induction l as [|id l IH]; intros acc; [by intros w|]. cbn [resolve_each].
    apply respects_bind; [typeclasses eauto|by intros w|]. intros [u|]; [|by intros w].
    destruct (startswith _ _); [apply IH|]. apply respects_bind; [typeclasses eauto| |].
    - intros w. unfold download_to_stream, download_bytes, s3_op. destruct (key_from_s3_path _) as [key|]; [|done].
      destruct (w_s3_faults w) as [|[] fs]; simpl; by destruct (w_objects w !! key).
    - intros data. destruct (startswith _ _); [apply IH|].
      apply respects_bind; [typeclasses eauto|by intros w|]. intros path. apply IH. }
  intros w. unfold with_session. specialize (He (i :: ids) no_resolved (set_hooks [] (set_tx (w_db w) w))).
  by destruct (resolve_each _ _ _ _ _ _) as [r w'].
Qed.
End Clients.

(* ------------------------------------------------------------------ *)
(** * Witnesses *)

Definition demo_env : upload_env := {|
  ue_bucket := "codex"; ue_endpoint := "http://minio:9000"; ue_public_endpoint := "https://files.example";
  ue_presign := fun bucket key ttl => "http://minio:9000/" ++ bucket ++ "/" ++ key;
  ue_guess_type := fun name => if endswith name ".png" then Some "image/png" else None;
  ue_workspace_root := "/workspace"; ue_trusted_roots := ["/workspace"; "/home/codex/.codex/generated_images"];
  ue_bracketed_ok := fun _ => true; ue_expanduser := fun p => Ok p; ue_resolve := fun p _ => Ok p;
  ue_presigned_ttl := 3600; ue_presigned_max_ttl := 86400 |}.

Definition demo_user : user := mk_user 5 None (Some "a@b.c") None None None Role_USER.
Definition other_user : user := mk_user 6 None (Some "d@e.f") None None None Role_USER.

Lemma demo_bucket : free_of "/" (ue_bucket demo_env).
Proof. reflexivity. Defined.

Lemma empty_wf : world_wf empty_world.
Proof. split; (split; [by intros key [o Ho]|constructor..]). Defined.

(** A file of the workspace, and one outside of it. *)
Definition file_world : world :=
  set_files (<["/workspace/out.png" := "PNG"]> (<["/etc/passwd" := "root"]> ∅)) empty_world.

Definition demo_atts : list Attachment :=
  [mk_attachment IMAGE "/workspace/out.png" ""; mk_attachment IMAGE "/etc/passwd" "";
   mk_attachment IMAGE "https://x/y.png" ""; mk_attachment IMAGE "out.png" ""].

Definition demo_upload (w : world) : world :=
  (upload_once demo_env demo_user "../a b.txt" "text/plain" "hello" (Some 3) w).2.
Definition demo_row : upload := row_of demo_env (Some 3) 5 "../a b.txt" "text/plain" "hello"
  (set_seq 2 empty_world).


Lemma upload_roundtrip_witness :
  let w1 := demo_upload empty_world in
  let w2 := (upload_once demo_env other_user "x.png" "image/png" "PNG" None w1).2 in
  let w3 := (delete_upload other_user 6 w2).2 in
  map ul_id (db_uploads (w_db w3)) = [3] /\ (download_to_stream demo_row w3).1 = Ok "hello".
Proof.
  cbv zeta. split; [vm_compute; reflexivity|].
  apply (upload_roundtrip demo_env demo_bucket demo_user "../a b.txt" "text/plain" "hello" (Some 3) empty_world
    demo_row "https://files.example/codex/chats/3/uploads/2.txt" 3600 (demo_upload empty_world)).
  - exact empty_wf.
  - vm_compute. reflexivity.
  - eapply rtc_l; [apply (StepUpload demo_env other_user "x.png" "image/png" "PNG" None)|].
    eapply rtc_l; [apply (StepDelete demo_env other_user 6); vm_compute; discriminate|]. apply rtc_refl.
  - vm_compute. apply list_elem_of_singleton. reflexivity.
  - vm_compute. reflexivity.
Defined.

Lemma attachments_trusted_witness :
  let w' := (persist_attachments demo_env 3 5 demo_atts file_world).2 in
  exists path row, trusted_source demo_env demo_atts file_world path /\
    db_uploads (w_tx w') = [row] /\ row_from 3 5 file_world w' path row.
Proof.
  pose proof (attachments_trusted demo_env demo_bucket 3 5 demo_atts file_world empty_wf) as H.
  assert (Hr : (persist_attachments demo_env 3 5 demo_atts file_world).1 = Ok [2]) by (vm_compute; reflexivity).
  destruct (persist_attachments demo_env 3 5 demo_atts file_world) as [r w']. simpl in Hr. subst r.
  destruct H as (trusted & kept & rows & _ & Htr & Hk & Hrows & Hids & _ & Htx & Hall).
  destruct rows as [|row [|]]; [discriminate Hids| |discriminate Hids].
  apply Forall2_cons_inv_r in Hrows as (path & rest & Hrow & Hrest & Hkept).
  exists path, row. simpl. split; [|split; [by rewrite Htx|exact Hrow]].
  apply (proj1 (Forall_forall _ _) Htr). rewrite <- (Hall eq_refl), Hkept. left.
Defined.

Lemma answer_uploads_committed_witness :
  let '(r, w') := finalize_turn_persist (persist_attachments demo_env) 3 5 "Done." [] demo_atts None None [] file_world in
  exists m row, r = Ok m /\ m_meta m = Some [("upload_ids", JArr [JNum 2])] /\
    row ∈ db_uploads (w_db w') /\ ul_id row = 2 /\ stored (w_objects w') row.
Proof.
  pose proof (answer_uploads_committed demo_env demo_bucket 3 5 "Done." [] demo_atts None None [] file_world empty_wf) as H.
  assert (Hr : exists m, (finalize_turn_persist (persist_attachments demo_env) 3 5 "Done." [] demo_atts None None [] file_world).1
    = Ok m /\ m_meta m = Some [("upload_ids", JArr [JNum 2])]) by (eexists; vm_compute; split; reflexivity).
  destruct (finalize_turn_persist _ _ _ _ _ _ _ _ _ file_world) as [r w']. destruct Hr as (m & Hm & Hmeta).
  simpl in Hm. subst r. destruct H as (ids & (calls & client & Hc & Hn1 & Hn2) & Hids).
  assert (ids = [2]) as ->.
  { rewrite Hc in Hmeta. unfold nonempty_meta in Hmeta.
    destruct ids as [|i [|j ids]]; simpl in Hmeta.
    - exfalso. destruct (calls ++ client)%list as [|kv l] eqn:E; [discriminate|]. injection Hmeta as -> ->.
      assert (Hin : ("upload_ids", JArr [JNum 2]) ∈ (calls ++ client)%list) by (rewrite E; left).
      apply elem_of_app in Hin as [Hin|Hin]; [apply (proj1 (Forall_forall _ _) Hn1) in Hin|apply (proj1 (Forall_forall _ _) Hn2) in Hin];
        by apply Hin.
    - destruct calls as [|c cs]; simpl in Hmeta; [by injection Hmeta as -> _|].
      exfalso. injection Hmeta as _ H. by destruct cs.
    - destruct calls as [|c cs]; simpl in Hmeta; [discriminate|]. exfalso. injection Hmeta as _ H. by destruct cs. }
  apply Forall_cons in Hids as [(row & H1 & H2 & _ & _ & H3) _].
  exists m, row. split; [reflexivity|]. split; [exact Hmeta|]. split; [exact H1|]. split; [exact H2|exact H3].
Defined.

Lemma resolve_uploads_sound_witness :
  let w := (upload_once demo_env demo_user "x.png" "image/png" "PNG" None (demo_upload empty_world)).2 in
  let '(r, w') := resolve_uploads demo_env [6; 3] 5 3 w in
  r = Ok (mk_uploads ["data:image/png;base64,UE5H"] [6] [] ["uploads/chat-3/3-a_b.txt"] [3]) /\
  w_files w' !! "/workspace/uploads/chat-3/3-a_b.txt" = Some "hello" /\
  Forall2 (url_shows 5 w) [6] ["data:image/png;base64,UE5H"].
Proof.
  cbv zeta. set (w := (upload_once _ _ _ _ _ _ _).2).
  pose proof (resolve_uploads_sound demo_env [6; 3] 5 3 w) as H.
  assert (Hr : (resolve_uploads demo_env [6; 3] 5 3 w).1 =
    Ok (mk_uploads ["data:image/png;base64,UE5H"] [6] [] ["uploads/chat-3/3-a_b.txt"] [3])) by (vm_compute; reflexivity).
  assert (Hf : w_files (resolve_uploads demo_env [6; 3] 5 3 w).2 !! "/workspace/uploads/chat-3/3-a_b.txt" = Some "hello")
    by (vm_compute; reflexivity).
  destruct (resolve_uploads demo_env [6; 3] 5 3 w) as [r w']. simpl in Hr, Hf. subst r.
  destruct (H _ _ eq_refl) as (_ & _ & _ & _ & Hu & _).
  split; [reflexivity|]. split; [exact Hf|exact Hu].
Defined.

(** A lost reply to the deletion leaves a row without an object. *)
Example dangling_row :
  let w := set_s3_faults [LostReply] (demo_upload empty_world) in
  let '(r, w') := delete_upload demo_user 3 w in
  raised "StorageError" <$> match r with Raise e => Some e | Ok _ => None end = Some (Some
    "S3 delete failed for chats/3/uploads/2.txt: s3 request failed") /\
  map ul_id (db_uploads (w_db w')) = [3] /\ (download_to_stream demo_row w').1 = Raise no_such_key.
Proof. vm_compute. repeat split. Qed.

(** Nobody checks that the chat an upload is filed under is the caller's. *)
Example foreign_chat_accepted :
  let w := set_db (set_chats [mk_chat 3 5 WEB None None None None 0] empty_db) empty_world in
  map (fun u => (ul_user_id u, ul_chat_id u))
    (db_uploads (w_db (upload_once demo_env other_user "x" "text/plain" "y" (Some 3) w).2)) = [(6, Some 3)].
Proof. vm_compute. reflexivity. Qed.

(** A source that is no URL and no path ends the storing of all attachments. *)
Example malformed_source :
  (persist_attachments demo_env 3 5 (mk_attachment IMAGE "https://[x" "" :: demo_atts) file_world).1 =
  Raise (ValueError "Invalid IPv6 URL").
Proof. vm_compute. reflexivity. Qed.
