(* ===== verification/TgMedia.v ===== *)
(** The media of a Telegram message ([tg/media.py]): what is refused before it is
    downloaded, what is stored, and the turn that is made of a message and the message it
    replies to. *)
From S2P Require Import Prelude PyStr PyLib Json Models Events World TurnStore Services WebStream ChatRpc Uploads TgTurn.

Open Scope Z_scope.
Open Scope string_scope.

(* ------------------------------------------------------------------ *)
(** * Messages, as aiogram gives them *)

Record tg_media := mk_media {
  md_file_id : string;
  md_file_size : option Z;
  md_mime_type : option string;
  md_file_name : option string
}.

(** The fields of a [Message] the preparation reads; [tm_bot] and [tm_chat] say whether
    [message.bot] and [message.chat] are set. *)
Record tg_message := mk_tg_message {
  tm_message_id : Z;
  tm_chat : bool;
  tm_bot : bool;
  tm_caption : option string;
  tm_text : option string;
  tm_photo : list tg_media;
  tm_document : option tg_media;
  tm_voice : option tg_media;
  tm_video_note : option tg_media;
  tm_audio : option tg_media
}.

(** [reply.as_(message.bot)]. *)
Definition as_bot (bot : bool) (m : tg_message) : tg_message :=
  mk_tg_message (tm_message_id m) (tm_chat m) bot (tm_caption m) (tm_text m) (tm_photo m)
    (tm_document m) (tm_voice m) (tm_video_note m) (tm_audio m).

(** Code outside the module: the download of a file by the bot, the speech recogniser
    [STTBackend] and [mimetypes.guess_extension]. *)
Record media_env := {
  me_uploads : upload_env;
  me_download : tg_media -> prog world exn string;
  me_transcribe : string -> string -> prog world exn string;
  me_guess_extension : string -> option string
}.

(** [message.photo[-1] if message.photo else None]. *)
Definition last_photo (m : tg_message) : option tg_media := last (tm_photo m).

(** The attachments of a message whose size is looked at. *)
Definition media_items (m : tg_message) : list tg_media :=
  omap id [last_photo m; tm_document m; tm_voice m; tm_video_note m; tm_audio m].

Fixpoint ensure_items (items : list tg_media) (limit : Z) : prog world exn unit :=
  match items with
  | [] => pret tt
  | media :: rest =>
      match md_file_size media with
      | Some size => if (limit <? size)%Z then praise (UploadTooLarge size limit) else ensure_items rest limit
      | None => ensure_items rest limit
      end
  end.

(** [_ensure_size]. *)
Definition ensure_size (m : tg_message) (limit : option Z) : prog world exn unit :=
  match limit with
  | None => pret tt
  | Some limit => ensure_items (media_items m) limit
  end.

(** [_merge_text]. *)
Definition merge_text (existing incoming : string) (label : option string) : string :=
  let incoming := strip incoming in
  if negb (nonempty incoming) then existing
  else
    let incoming := match label with
                    | Some l => if nonempty l then l ++ ":" ++ newline ++ incoming else incoming
                    | None => incoming
                    end in
    if nonempty existing then existing ++ newline ++ newline ++ incoming else incoming.

(** What has been collected of a message so far. *)
Record draft := mk_draft {
  dr_text : string;
  dr_attachments : list string;
  dr_upload_ids : list Z;
  dr_file_paths : list string
}.

Definition opt_list {A} (o : option A) : list A := match o with Some a => [a] | None => [] end.

Section Media.
Context (M : media_env).

(** [mimetypes.guess_type(name)[0]] of a document is of a kind. *)
Definition is_kind_document (kind : string) (mime_type file_name : option string) : bool :=
  if match mime_type with Some m => nonempty m && startswith m kind | None => false end then true
  else match file_name with
       | Some name => if nonempty name
                      then match ue_guess_type (me_uploads M) name with
                           | Some guessed => nonempty guessed && startswith guessed kind
                           | None => false
                           end
                      else false
       | None => false
       end.

Definition is_image_document := is_kind_document "image/".
Definition is_audio_document := is_kind_document "audio/".

(** [mime_type or (mimetypes.guess_type(file_name or '')[0] or default)]. *)
Definition document_mime (mime_type file_name : option string) (d : string) : string :=
  or_else mime_type (or_else (ue_guess_type (me_uploads M) (or_else file_name "")) d).

(** [_guess_ext]. *)
Definition guess_ext (mime_type file_name : option string) (d : string) : string :=
  let of_mime := match mime_type with
                 | Some m => if nonempty m then or_else (me_guess_extension M m) d else d
                 | None => d
                 end in
  match file_name with
  | Some name => if nonempty name && nonempty (path_suffix name) then path_suffix name else of_mime
  | None => of_mime
  end.

(** [_default_filename]. *)
Definition default_filename (mime : string) : string :=
  "tg_media" ++ or_else (me_guess_extension M mime) ".bin".

(** [_download_to_buf]. *)
Definition download_to_buf (m : tg_message) (media : tg_media) : prog world exn string :=
  if tm_bot m then me_download M media
  else praise (RuntimeError "aiogram Message without bot context").

(** [_persist_buf]. *)
Definition persist_buf (data filename mime : string) (user_id chat_id : Z) : prog world exn Z :=
  with_session (
    let! u := persist_chunks (me_uploads M) user_id (Some chat_id) filename mime [data] in
    commit ;;
    pret (ul_id u)).

(** [_save_image]. *)
Definition save_image (m : tg_message) (media : tg_media) (mime : string) (user_id chat_id : Z) :
    prog world exn (string * Z) :=
  let! buf := download_to_buf m media in
  let! upload_id := persist_buf buf (default_filename mime) mime user_id chat_id in
  pret (data_url mime buf, upload_id).

(** [_transcribe_and_persist]: a failure to store is passed over. *)
Definition transcribe_and_persist (m : tg_message) (media : tg_media) (mime filename : string)
    (user_id chat_id : Z) : prog world exn (string * option Z) :=
  let! buf := download_to_buf m media in
  let! upload_id := except (fun e => if persist_failure e then pret None else praise e)
                      (let! id := persist_buf buf filename mime user_id chat_id in pret (Some id)) in
  let! transcript := me_transcribe M buf filename in
  pret (transcript, upload_id).

(** [_prepare_document]. *)
Definition prepare_document (m : tg_message) (document : tg_media) (user_id chat_id : Z) :
    prog world exn (string * option string * option Z * option string) :=
  let mime_type := md_mime_type document in
  let file_name := md_file_name document in
  if is_image_document mime_type file_name then
    let! saved := save_image m document (document_mime mime_type file_name "image/jpeg") user_id chat_id in
    pret ("", Some saved.1, Some saved.2, None)
  else if is_audio_document mime_type file_name then
    let mime := document_mime mime_type file_name "audio/mpeg" in
    let! heard := transcribe_and_persist m document mime
                    (or_else file_name ("document" ++ guess_ext (Some mime) None ".mp3")) user_id chat_id in
    pret (heard.1, None, heard.2, None)
  else
    let mime := document_mime mime_type file_name "application/octet-stream" in
    let filename := or_else file_name ("document" ++ guess_ext (Some mime) None ".bin") in
    let! buf := download_to_buf m document in
    let! upload_id := persist_buf buf filename mime user_id chat_id in
    let! workspace_path := materialize_for_chat (me_uploads M) buf chat_id upload_id filename in
    pret ("", None, Some upload_id, Some workspace_path).

(** The part of [_prepare_message] for an optional attachment. *)
Definition with_media (media : option tg_media) (d : draft)
    (step : tg_media -> prog world exn draft) : prog world exn draft :=
  match media with Some x => step x | None => pret d end.

Definition add_photo (m : tg_message) (user_id chat_id : Z) (d : draft) (photo : tg_media) : prog world exn draft :=
  let! saved := save_image m photo "image/jpeg" user_id chat_id in
  pret (mk_draft (dr_text d) (dr_attachments d ++ [saved.1]) (dr_upload_ids d ++ [saved.2]) (dr_file_paths d))%list.

Definition add_document (m : tg_message) (user_id chat_id : Z) (d : draft) (document : tg_media) :
    prog world exn draft :=
  let! doc := prepare_document m document user_id chat_id in
  let '(text, attachment, upload_id, file_path) := doc in
  pret (mk_draft (merge_text (dr_text d) text None) (dr_attachments d ++ opt_list attachment)
          (dr_upload_ids d ++ opt_list upload_id) (dr_file_paths d ++ opt_list file_path))%list.

Definition add_speech (m : tg_message) (user_id chat_id : Z) (mime filename label : string) (d : draft)
    (media : tg_media) : prog world exn draft :=
  let! heard := transcribe_and_persist m media mime filename user_id chat_id in
  pret (mk_draft (merge_text (dr_text d) heard.1 (Some label)) (dr_attachments d)
          (dr_upload_ids d ++ opt_list heard.2) (dr_file_paths d))%list.

Definition add_audio_file (m : tg_message) (user_id chat_id : Z) (d : draft) (audio : tg_media) :
    prog world exn draft :=
  let mime := or_else (md_mime_type audio) "audio/mpeg" in
  add_speech m user_id chat_id mime ("audio" ++ guess_ext (Some mime) (md_file_name audio) ".mp3")
    "Audio transcript" d audio.

Definition OPEN_FILES : string := "Open the attached files and answer based on them.".

(** The text Codex is sent, with the mentions of the files. *)
Definition final_text (d : draft) : string :=
  let text := if (some (dr_attachments d) || some (dr_file_paths d)) && negb (nonempty (dr_text d))
              then OPEN_FILES else dr_text d in
  let mentions := format_mentions (dr_file_paths d) in
  if nonempty mentions
  then (if nonempty text then text ++ newline ++ newline ++ mentions else mentions) else text.

Definition caption_or_text (m : tg_message) : string :=
  strip (or_else (tm_caption m) (or_else (tm_text m) "")).

Definition had_voice (m : tg_message) : bool :=
  bool_decide (is_Some (tm_voice m)) || bool_decide (is_Some (tm_video_note m)).

(** [_prepare_message]. *)
Definition prepare_message (m : tg_message) (user_id chat_id : Z) (limit : option Z) :
    prog world exn PreparedTurn :=
  if negb (tm_chat m) then pret (mk_prepared_turn "" [] [] false None None)
  else
    ensure_size m limit ;;
    let d := mk_draft (caption_or_text m) [] [] [] in
    let! d := with_media (last_photo m) d (add_photo m user_id chat_id d) in
    let! d := with_media (tm_document m) d (add_document m user_id chat_id d) in
    let! d := with_media (tm_voice m) d
                (add_speech m user_id chat_id "audio/ogg" "voice.ogg" "Voice transcript" d) in
    let! d := with_media (tm_video_note m) d
                (add_speech m user_id chat_id "video/mp4" "video_note.mp4" "Voice transcript" d) in
    let! d := with_media (tm_audio m) d (add_audio_file m user_id chat_id d) in
    pret (mk_prepared_turn (final_text d) (dr_attachments d) (dr_upload_ids d) (had_voice m) None None).

(** [prepare_turn]; [reply] is [message.reply_to_message]. *)
Definition prepare_turn (m : tg_message) (reply : option tg_message) (user_id chat_id : Z)
    (limit : option Z) : prog world exn PreparedTurn :=
  ensure_size m limit ;;
  match reply with Some r => ensure_size r limit | None => pret tt end ;;
  let! current := prepare_message m user_id chat_id limit in
  match reply with
  | None => pret current
  | Some r =>
      let! quoted := prepare_message (as_bot (tm_bot m) r) user_id chat_id limit in
      pret (mk_prepared_turn (pt_text current)
              (pt_attachments quoted ++ pt_attachments current)
              (pt_upload_ids quoted ++ pt_upload_ids current)
              (pt_had_voice_input current) (Some (tm_message_id r)) (Some (pt_text quoted)))%list
  end.

(** What the runner makes of it: [except UploadTooLarge]. *)
Definition try_prepare (m : tg_message) (reply : option tg_message) (user_id chat_id : Z)
    (limit : option Z) : prog world exn (Z + PreparedTurn) :=
  except (fun e => match e with UploadTooLarge _ l => pret (inl l) | _ => praise e end)
    (let! p := prepare_turn m reply user_id chat_id limit in pret (inr p)).
End Media.

(* ------------------------------------------------------------------ *)
(** * What a preparation adds to the uploads *)

Section Growth.
Context (M : media_env).
Context (user_id chat_id : Z).
(** The name of an S3 bucket holds no slash. *)
Context (Hbucket : free_of "/" (ue_bucket (me_uploads M))).

(** What the download of a file and its transcription leave alone. *)
Definition mediaview (w : world) := (w_db w, w_tx w, w_objects w, w_seq w).
Context (Hdownload : forall media, respects (same mediaview) (me_download M media)).
Context (Htranscribe : forall data name, respects (same mediaview) (me_transcribe M data name)).

Definition owned (u : upload) : Prop := ul_user_id u = user_id /\ ul_chat_id u = Some chat_id.

(** An attachment shows the object of one of the rows. *)
Definition shows (w : world) (rows : list upload) (a : string) : Prop :=
  exists u o, u ∈ rows /\ object_of w u = Some o /\ a = data_url (so_content_type o) (so_body o).

(** Rows of the user and the chat were committed, nothing else of the database changed, and
    the attachments show their objects. *)
Definition grew (ids : list Z) (atts : list string) (w w' : world) : Prop :=
  safe_step w w' /\ exists rows,
    w_db w' = set_uploads (db_uploads (w_db w) ++ rows)%list (w_db w) /\
    map ul_id rows = ids /\ Forall owned rows /\ Forall (shows w' rows) atts.

Lemma grew_same w w' : mediaview w' = mediaview w -> grew [] [] w w'.
Proof.
  unfold mediaview. intros [= H1 H2 H3 H4]. split; [apply same_safe; unfold upview; congruence|].
  exists []. split_and!; [|done|by constructor..]. rewrite H1, app_nil_r. by destruct (w_db w).
Qed.

Lemma grew_drop ids atts w w' : grew ids atts w w' -> grew ids [] w w'.
Proof. intros [H (rows & H1 & H2 & H3 & _)]. split; [done|]. exists rows. auto. Qed.

Lemma db_grown rows u (d : database) : u ∈ rows -> u ∈ db_uploads (set_uploads (db_uploads d ++ rows)%list d).
Proof. intros. simpl. apply elem_of_app. by right. Qed.

Lemma grew_trans ids ids' atts atts' w w1 w2 :
  world_wf w -> grew ids atts w w1 -> grew ids' atts' w1 w2 -> grew (ids ++ ids')%list (atts ++ atts')%list w w2.
Proof.
  intros Hw [Hs1 (r1 & H1 & <- & H2 & H3)] [Hs2 (r2 & H4 & <- & H5 & H6)].
  destruct (Hs1 Hw) as (Hw1 & _). destruct (Hs2 Hw1) as (_ & _ & Hkeep).
  split; [by etransitivity|]. exists (r1 ++ r2)%list. split_and!.
  - rewrite H4, H1. simpl. by rewrite app_assoc.
  - by rewrite List.map_app.
  - by apply Forall_app.
  - apply Forall_app. split; (eapply Forall_impl; [eassumption|]); intros a (u & o & Hu & Ho & ->);
      exists u, o; (split_and!; [|..|done]); try (apply elem_of_app; auto; fail); [|done].
    pose proof (db_grown _ _ (w_db w) Hu) as Hin. rewrite <- H1 in Hin.
    destruct (Hkeep u) as [[_ E]|Hlt].
    + unfold rows_of. rewrite H4. apply elem_of_app. left. simpl. apply elem_of_app. by left.
    + by rewrite E.
    + destruct Hw1 as [Hwf _]. pose proof (proj1 (Forall_forall _ _) (wf_fresh _ _ _ Hwf) u Hin). simpl in *. lia.
Qed.

(** A program from well-formed uploads: its answer with what it added. *)
Definition yields {A} (m : prog world exn A) (P : A -> list Z -> list string -> Prop) : Prop :=
  forall w, world_wf w ->
    match m w with
    | (Ok a, w') => exists ids atts, P a ids atts /\ grew ids atts w w'
    | (Raise _, w') => exists ids, grew ids [] w w'
    end.

Lemma yields_wf {A} (m : prog world exn A) P w : yields m P -> world_wf w -> world_wf (m w).2.
Proof.
  intros Hm Hw. specialize (Hm w Hw). destruct (m w) as [[a|e] w'].
  - destruct Hm as (? & ? & _ & Hs & _). by apply Hs.
  - destruct Hm as (? & Hs & _). by apply Hs.
Qed.

Lemma yields_ret {A} (a : A) (P : A -> list Z -> list string -> Prop) : P a [] [] -> yields (pret a) P.
Proof. intros H w _. exists [], []. split; [done|]. by apply grew_same. Qed.

Lemma yields_raise {A} e (P : A -> list Z -> list string -> Prop) : yields (praise e) P.
Proof. intros w _. exists []. by apply grew_same. Qed.

Lemma yields_bind {A B} (m : prog world exn A) (k : A -> prog world exn B) P Q :
  yields m P ->
  (forall a ids atts, P a ids atts -> yields (k a) (fun b ids' atts' => Q b (ids ++ ids') (atts ++ atts'))%list) ->
  yields (pbind m k) Q.
Proof.
  intros Hm Hk w Hw. pose proof (yields_wf m P w Hm Hw) as Hw1. specialize (Hm w Hw). unfold pbind.
  destruct (m w) as [[a|e] w1]; [|done]. destruct Hm as (ids & atts & HP & Hg).
  specialize (Hk a ids atts HP w1 Hw1). destruct (k a w1) as [[b|e] w2].
  - destruct Hk as (ids' & atts' & HQ & Hg'). exists (ids ++ ids')%list, (atts ++ atts')%list.
    split; [done|]. by eapply grew_trans.
  - destruct Hk as (ids' & Hg'). exists (ids ++ ids')%list. eapply (grew_drop _ (atts ++ [])%list).
    by eapply grew_trans.
Qed.

Lemma yields_mono {A} (m : prog world exn A) (P Q : A -> list Z -> list string -> Prop) :
  yields m P -> (forall a ids atts, P a ids atts -> Q a ids atts) -> yields m Q.
Proof.
  intros Hm HPQ w Hw. specialize (Hm w Hw). destruct (m w) as [[a|e] w']; [|done].
  destruct Hm as (ids & atts & HP & Hg). exists ids, atts. auto.
Qed.

Lemma yields_same {A} (m : prog world exn A) :
  respects (same mediaview) m -> yields m (fun _ ids atts => ids = [] /\ atts = []).
Proof.
  intros H w _. specialize (H w). destruct (m w) as [[a|e] w']; [exists [], []; split; [done|]|exists []];
    by apply grew_same.
Qed.

Lemma yields_drop {A} (m : prog world exn A) P :
  yields m P -> yields m (fun a ids atts => atts = [] /\ exists atts', P a ids atts').
Proof.
  intros Hm w Hw. specialize (Hm w Hw). destruct (m w) as [[a|e] w']; [|done].
  destruct Hm as (ids & atts & HP & Hg). exists ids, []. split; [by eauto|]. by eapply grew_drop.
Qed.

(** ** The operations *)

Lemma persist_buf_safe data filename mime :
  respects safe_step (persist_buf M data filename mime user_id chat_id).
Proof.
  apply with_session_safe, respects_bind; [typeclasses eauto|by apply persist_chunks_safe|solve_frame].
Qed.

Lemma persist_buf_spec data filename mime w :
  nonempty mime = true -> world_wf w ->
  match persist_buf M data filename mime user_id chat_id w with
  | (Ok id, w') => grew [id] [data_url mime data] w w'
  | (Raise _, w') => grew [] [] w w'
  end.
Proof.
  intros Hm Hw. pose proof (persist_buf_safe data filename mime w) as Hsafe.
  destruct (persist_buf _ _ _ _ _ _ w) as [r w'] eqn:E. simpl in Hsafe. revert E.
  unfold persist_buf, with_session, pbind at 1. set (w0 := set_hooks _ _).
  pose proof (persist_chunks_spec (me_uploads M) user_id (Some chat_id) filename mime [data] w0) as H. cbv zeta in H.
  destruct (persist_chunks _ _ _ _ _ _ w0) as [[u|e] w2].
  - destruct H as (fs & _ & Hu & ->). set (w3 := set_files _ _). unfold pbind.
    pose proof (commit_ok w3) as Hc. pose proof (commit_effect w3) as (H1 & _ & _ & H4).
    destruct (commit w3) as [[[]|e] w4]; simpl in Hc; [|done]. cbn [pret fst snd] in *. intros [= <- <-].
    split; [done|]. exists [u].
    cbn [w_db set_tx set_hooks]. rewrite H1. split_and!.
    + done.
    + done.
    + constructor; [|done]. by rewrite Hu.
    + constructor; [|done]. exists u, (mk_object data mime). split_and!; [by apply list_elem_of_singleton| |done].
      unfold object_of. rewrite Hu, row_key by done. cbn [w_objects set_tx set_hooks]. rewrite H4.
      unfold w3, persisted, file_mime, or_else at 2. rewrite Hm. cbn. apply lookup_insert_eq.
  - destruct H as (_ & w3 & (fs & objs & seq & -> & _) & ->). simpl. intros [= <- <-].
    split; [done|]. exists []. split_and!; [|done|by constructor..]. simpl. rewrite app_nil_r. by destruct (w_db w).
Qed.

Lemma persist_buf_yields data filename mime :
  nonempty mime = true ->
  yields (persist_buf M data filename mime user_id chat_id)
    (fun id ids atts => ids = [id] /\ atts = [data_url mime data]).
Proof.
  intros Hm w Hw. pose proof (persist_buf_spec data filename mime w Hm Hw) as H.
  destruct (persist_buf _ _ _ _ _ _ w) as [[id|e] w']; [by exists [id], [data_url mime data]|by exists []].
Qed.

Lemma ensure_same m limit : respects (same mediaview) (ensure_size m limit).
Proof.
  unfold ensure_size. destruct limit as [limit|]; [|by intros w].
  induction (media_items m) as [|x l IH]; [by intros w|]. simpl.
  destruct (md_file_size x); [|done]. by destruct (limit <? _)%Z; [intros w|].
Qed.

Lemma download_yields m media : yields (download_to_buf M m media) (fun _ ids atts => ids = [] /\ atts = []).
Proof. apply yields_same. unfold download_to_buf. by destruct (tm_bot m); [|intros w]. Qed.

(** A step that adds nothing, then the rest. *)
Lemma yields_seq {A B} (m : prog world exn A) (k : A -> prog world exn B) Q :
  yields m (fun _ ids atts => ids = [] /\ atts = []) -> (forall a, yields (k a) Q) -> yields (pbind m k) Q.
Proof. intros Hm Hk. eapply yields_bind; [exact Hm|]. simpl. intros a ids atts [-> ->]. apply Hk. Qed.

Lemma save_image_yields m media mime :
  nonempty mime = true ->
  yields (save_image M m media mime user_id chat_id) (fun r ids atts => ids = [r.2] /\ atts = [r.1]).
Proof.
  intros Hm. apply yields_seq; [apply download_yields|]. intros buf.
  eapply yields_bind; [by apply persist_buf_yields|]. intros id ids atts [-> ->]. by apply yields_ret.
Qed.

Lemma transcribe_yields m media mime filename :
  nonempty mime = true ->
  yields (transcribe_and_persist M m media mime filename user_id chat_id)
    (fun r ids atts => ids = opt_list r.2 /\ atts = []).
Proof.
  intros Hm. apply yields_seq; [apply download_yields|]. intros buf.
  apply yields_bind with (P := fun o ids atts => ids = opt_list o /\ atts = []).
  - intros w Hw. pose proof (persist_buf_spec buf filename mime w Hm Hw) as H. unfold except, pbind.
    destruct (persist_buf _ _ _ _ _ _ w) as [[id|e] w'].
    + exists [id], []. split; [done|]. by eapply grew_drop.
    + destruct (persist_failure e); [exists [], []; by split|by exists []].
  - intros o ids atts [-> ->]. simpl. eapply yields_bind; [by apply yields_same|].
    intros t ids' atts' [-> ->]. apply yields_ret. by rewrite !app_nil_r.
Qed.

Lemma or_else_ne o d : nonempty d = true -> nonempty (or_else o d) = true.
Proof. unfold or_else. destruct o as [s|]; [|done]. by destruct (nonempty s) eqn:E. Qed.

Lemma document_mime_ne mt fn d : nonempty d = true -> nonempty (document_mime M mt fn d) = true.
Proof. intros. by apply or_else_ne, or_else_ne. Qed.

Lemma document_yields m doc :
  yields (prepare_document M m doc user_id chat_id)
    (fun r ids atts => ids = opt_list r.1.2 /\ atts = opt_list r.1.1.2).
Proof.
  unfold prepare_document. destruct (is_image_document _ _ _).
  { eapply yields_bind; [by apply save_image_yields, document_mime_ne|]. intros r ids atts [-> ->]. by apply yields_ret. }
  destruct (is_audio_document _ _ _).
  { eapply yields_bind; [by apply transcribe_yields, document_mime_ne|]. intros r ids atts [-> ->].
    apply yields_ret. simpl. by rewrite app_nil_r. }
  apply yields_seq; [apply download_yields|]. intros buf.
  eapply yields_bind; [by apply yields_drop, persist_buf_yields, document_mime_ne|].
  intros id ids atts (-> & _ & -> & _). eapply yields_bind; [by apply yields_same; intros w|].
  intros p ids' atts' [-> ->]. by apply yields_ret.
Qed.

Definition extends (d0 d : draft) (ids : list Z) (atts : list string) : Prop :=
  dr_upload_ids d = (dr_upload_ids d0 ++ ids)%list /\ dr_attachments d = (dr_attachments d0 ++ atts)%list.

Lemma photo_yields m d photo : yields (add_photo M m user_id chat_id d photo) (extends d).
Proof.
  eapply yields_bind; [by apply save_image_yields|]. intros r ids atts [-> ->]. by apply yields_ret.
Qed.

Lemma add_document_yields m d doc : yields (add_document M m user_id chat_id d doc) (extends d).
Proof.
  eapply yields_bind; [apply document_yields|]. intros [[[t a] i] f] ids atts [-> ->].
  apply yields_ret. unfold extends. simpl. by rewrite !app_nil_r.
Qed.

Lemma speech_yields m mime filename label d media :
  nonempty mime = true -> yields (add_speech M m user_id chat_id mime filename label d media) (extends d).
Proof.
  intros Hm. eapply yields_bind; [by apply transcribe_yields|]. intros r ids atts [-> ->].
  apply yields_ret. unfold extends. simpl. by rewrite !app_nil_r.
Qed.

Lemma media_yields media d step :
  (forall x, yields (step x) (extends d)) -> yields (with_media media d step) (extends d).
Proof.
  intros H. destruct media as [x|]; [apply H|]. apply yields_ret. unfold extends. by rewrite !app_nil_r.
Qed.

Lemma message_yields m limit :
  yields (prepare_message M m user_id chat_id limit)
    (fun p ids atts => pt_upload_ids p = ids /\ pt_attachments p = atts).
Proof.
  unfold prepare_message. destruct (tm_chat m); [|by apply yields_ret].
  apply yields_seq; [apply yields_same, ensure_same|]. intros _. cbv zeta.
  eapply yields_bind; [apply media_yields; intros; apply photo_yields|]. intros d1 i1 a1 [H1 G1].
  eapply yields_bind; [apply media_yields; intros; apply add_document_yields|]. intros d2 i2 a2 [H2 G2].
  eapply yields_bind; [apply media_yields; intros; by apply speech_yields|]. intros d3 i3 a3 [H3 G3].
  eapply yields_bind; [apply media_yields; intros; by apply speech_yields|]. intros d4 i4 a4 [H4 G4].
  eapply yields_bind; [apply media_yields; intros; by apply speech_yields, or_else_ne|]. intros d5 i5 a5 [H5 G5].
  apply yields_ret. cbn [pt_upload_ids pt_attachments].
  rewrite H5, H4, H3, H2, H1, G5, G4, G3, G2, G1, !app_nil_r, <- !app_assoc. done.
Qed.

Lemma turn_yields m reply limit :
  yields (prepare_turn M m reply user_id chat_id limit)
    (fun p ids atts => Permutation ids (pt_upload_ids p) /\ Permutation atts (pt_attachments p)).
Proof.
  apply yields_seq; [apply yields_same, ensure_same|]. intros _.
  apply yields_seq; [apply yields_same; destruct reply; [apply ensure_same|by intros w]|]. intros _.
  eapply yields_bind; [apply message_yields|]. intros p ids atts [<- <-].
  destruct reply as [r|]; [|apply yields_ret; by rewrite !app_nil_r].
  eapply yields_bind; [apply message_yields|]. intros q ids atts [<- <-].
  apply yields_ret. cbn [pt_upload_ids pt_attachments]. rewrite !app_nil_r.
  split; apply Permutation_app_comm.
Qed.
End Growth.

(* ------------------------------------------------------------------ *)
(** * Properties *)

(** C17: What a prepared Telegram turn refers to is stored: the rows of the uploads table its
    identifiers name are exactly those the preparation committed, all of the sender and the
    chat, each with its object in the bucket; every picture Codex is shown, of the message or
    of the one it replies to, is byte for byte such an object under its media type; nothing
    else of the database has changed. A preparation that fails leaves such rows at most. *)
Theorem prepared_turn_stored M user_id chat_id m reply limit w :
  free_of "/" (ue_bucket (me_uploads M)) ->
  (forall media, respects (same mediaview) (me_download M media)) ->
  (forall data name, respects (same mediaview) (me_transcribe M data name)) ->
  world_wf w ->
  let '(r, w') := prepare_turn M m reply user_id chat_id limit w in
  exists rows, w_db w' = set_uploads (db_uploads (w_db w) ++ rows)%list (w_db w) /\
    Forall (owned user_id chat_id) rows /\ Forall (stored (w_objects w')) rows /\
    match r with
    | Ok p => Permutation (map ul_id rows) (pt_upload_ids p) /\ NoDup (pt_upload_ids p) /\
              Forall (shows w' rows) (pt_attachments p)
    | Raise _ => True
    end.
Proof.
  intros Hb Hd Ht Hw. pose proof (turn_yields M user_id chat_id Hb Hd Ht m reply limit) as Hy.
  pose proof (yields_wf _ _ _ _ w Hy Hw) as [Hwf _]. specialize (Hy w Hw).
  destruct (prepare_turn _ _ _ _ _ _ w) as [[p|e] w']; simpl in Hwf.
  - destruct Hy as (ids & atts & [Hi Ha] & _ & rows & E & <- & Ho & Hs). exists rows.
    destruct Hwf as [_ Hst _ Hid _]. rewrite E in Hst, Hid. simpl in Hst, Hid.
    apply Forall_app in Hst as [_ Hst]. rewrite List.map_app in Hid. apply NoDup_app in Hid as (_ & _ & Hid).
    split_and!; [done..| |].
    + by rewrite <- Hi.
    + by rewrite <- Ha.
  - destruct Hy as (ids & _ & rows & E & _ & Ho & _). exists rows.
    destruct Hwf as [_ Hst _ _ _]. rewrite E in Hst. by apply Forall_app in Hst as [_ Hst].
Qed.

(** ** Sizes *)

Definition oversize (limit : option Z) (media : tg_media) : Prop :=
  exists l size, limit = Some l /\ md_file_size media = Some size /\ l < size.

Lemma ensure_items_spec items limit w :
  ensure_items items limit w = (Ok tt, w) /\ Forall (fun x => ~ oversize (Some limit) x) items \/
  exists x size, x ∈ items /\ md_file_size x = Some size /\ limit < size /\
    ensure_items items limit w = (Raise (UploadTooLarge size limit), w).
Proof.
  induction items as [|x items IH]; [by left; split|]. simpl.
  assert (Hgo : ~ oversize (Some limit) x ->
    ensure_items items limit w = (Ok tt, w) /\ Forall (fun x => ~ oversize (Some limit) x) (x :: items) \/
    exists y size, y ∈ x :: items /\ md_file_size y = Some size /\ limit < size /\
      ensure_items items limit w = (Raise (UploadTooLarge size limit), w)).
  { intros Hx. destruct IH as [[E H]|(y & size & Hy & H)]; [left; split; [done|by constructor]|].
    right. exists y, size. split; [by right|done]. }
  destruct (md_file_size x) as [size|] eqn:Es; [|apply Hgo; intros (? & ? & _ & ? & _); congruence].
  destruct (limit <? size)%Z eqn:El; [|apply Hgo; intros (? & s & [= <-] & Hs & ?); assert (s = size) as -> by congruence; apply Z.ltb_ge in El; lia].
  right. exists x, size. apply Z.ltb_lt in El. split_and!; [by left|done..].
Qed.

Lemma ensure_size_spec m limit w :
  ensure_size m limit w = (Ok tt, w) /\ Forall (fun x => ~ oversize limit x) (media_items m) \/
  exists x size l, x ∈ media_items m /\ limit = Some l /\ md_file_size x = Some size /\ l < size /\
    ensure_size m limit w = (Raise (UploadTooLarge size l), w).
Proof.
  destruct limit as [l|]; simpl.
  - destruct (ensure_items_spec (media_items m) l w) as [H|(x & size & H & H1 & H2 & H3)]; [by left|].
    right. exists x, size, l. done.
  - left. split; [done|]. apply Forall_forall. intros x _ (? & ? & ? & _). done.
Qed.

(** Every attachment of the message and of the one it replies to. *)
Definition all_media (m : tg_message) (reply : option tg_message) : list tg_media :=
  (media_items m ++ match reply with Some r => media_items r | None => [] end)%list.

Definition not_too_large (e : exn) : Prop := match e with UploadTooLarge _ _ => False | _ => True end.

Section Sizes.
Context (M : media_env).
Context (Hdownload : forall media, raises not_too_large (me_download M media)).
Context (Htranscribe : forall data name, raises not_too_large (me_transcribe M data name)).

Lemma download_raises m media : raises not_too_large (download_to_buf M m media).
Proof. unfold download_to_buf. destruct (tm_bot m); [apply Hdownload|by apply raises_raise]. Qed.

Lemma persist_buf_raises data filename mime user_id chat_id :
  raises not_too_large (persist_buf M data filename mime user_id chat_id).
Proof.
  intros w. unfold persist_buf, with_session, pbind at 1. set (w0 := set_hooks _ _).
  pose proof (persist_chunks_spec (me_uploads M) user_id (Some chat_id) filename mime [data] w0) as H. cbv zeta in H.
  destruct (persist_chunks _ _ _ _ _ _ w0) as [[u|e] w2].
  - unfold pbind. pose proof (commit_ok w2) as Hc. destruct (commit w2) as [[[]|e] w4]; [done|]. done.
  - destruct H as [H _]. simpl. by destruct e.
Qed.
Hint Resolve download_raises persist_buf_raises : exns.

Lemma save_image_raises m media mime user_id chat_id :
  raises not_too_large (save_image M m media mime user_id chat_id).
Proof. unfold save_image. solve_raises. Qed.

Lemma transcribe_raises m media mime filename user_id chat_id :
  raises not_too_large (transcribe_and_persist M m media mime filename user_id chat_id).
Proof.
  unfold transcribe_and_persist. apply raises_bind; [auto with exns|]. intros buf.
  apply raises_bind; [|intros; apply raises_bind; [apply Htranscribe|solve_raises]].
  apply raises_except_body; [solve_raises|]. intros e He. case_goal; [apply raises_ret|by apply raises_raise].
Qed.
Hint Resolve save_image_raises transcribe_raises : exns.

Lemma document_raises m doc user_id chat_id : raises not_too_large (prepare_document M m doc user_id chat_id).
Proof.
  unfold prepare_document. destruct (is_image_document _ _ _); [solve_raises|].
  destruct (is_audio_document _ _ _); [solve_raises|].
  unfold materialize_for_chat, write_file. solve_raises.
Qed.

Lemma media_raises media d step :
  (forall x, raises not_too_large (step x)) -> raises not_too_large (with_media media d step).
Proof. intros H. by destruct media; [apply H|apply raises_ret]. Qed.

Lemma message_raises m user_id chat_id limit :
  Forall (fun x => ~ oversize limit x) (media_items m) ->
  raises not_too_large (prepare_message M m user_id chat_id limit).
Proof.
  intros Hfit. unfold prepare_message. destruct (tm_chat m); [|apply raises_ret]. apply raises_bind.
  { intros w. destruct (ensure_size_spec m limit w) as [[-> _]|(x & size & l & Hx & -> & Hs & Hl & _)]; [done|].
    exfalso. apply (proj1 (Forall_forall _ _) Hfit x Hx). by exists l, size. }
  intros _. cbv zeta.
  repeat (apply raises_bind; [apply media_raises; intros; unfold add_photo, add_document, add_audio_file, add_speech;
    apply raises_bind; [by auto using document_raises with exns|by intros []; repeat case_goal; apply raises_ret]|intros]).
  apply raises_ret.
Qed.

(** The size gate of a Telegram turn. Either some attachment of the message or of the one
    it replies to is stated to exceed the limit, and then the turn is refused with that size
    and limit before anything is downloaded, stored or changed; or every stated size is
    within the limit and the turn is not refused for its size. *)
Theorem media_size_gate m reply user_id chat_id limit w :
  (exists x size l, x ∈ all_media m reply /\ limit = Some l /\ md_file_size x = Some size /\ l < size /\
     prepare_turn M m reply user_id chat_id limit w = (Raise (UploadTooLarge size l), w)) \/
  Forall (fun x => ~ oversize limit x) (all_media m reply) /\
    forall size l, (prepare_turn M m reply user_id chat_id limit w).1 <> Raise (UploadTooLarge size l).
Proof.
  unfold prepare_turn, all_media.
  destruct (ensure_size_spec m limit w) as [[E Hm]|(x & size & l & Hx & Hl & Hs & Hlt & E)].
  2: { left. exists x, size, l. split; [apply elem_of_app; by left|]. split_and!; [done..|]. unfold pbind at 1. by rewrite E. }
  assert (Hr : (match reply with Some r => ensure_size r limit | None => pret tt end) w = (Ok tt, w) /\
      Forall (fun x => ~ oversize limit x) (match reply with Some r => media_items r | None => [] end) \/
    exists r x size l, reply = Some r /\ x ∈ media_items r /\ limit = Some l /\ md_file_size x = Some size /\ l < size /\
      ensure_size r limit w = (Raise (UploadTooLarge size l), w)).
  { destruct reply as [r|]; [|by left]. destruct (ensure_size_spec r limit w) as [H|(x & size & l & H)]; [by left|].
    right. by exists r, x, size, l. }
  destruct Hr as [[Er Hfit]|(r & x & size & l & -> & Hx & Hl & Hs & Hlt & Er)].
  - right. split; [by apply Forall_app|]. intros size l. erewrite pbind_ok by exact E. erewrite pbind_ok by exact Er.
    intros H.
    assert (Hraise : raises not_too_large (let! current := prepare_message M m user_id chat_id limit in
      match reply with None => pret current
      | Some r => let! quoted := prepare_message M (as_bot (tm_bot m) r) user_id chat_id limit in
          pret (mk_prepared_turn (pt_text current) (pt_attachments quoted ++ pt_attachments current)
            (pt_upload_ids quoted ++ pt_upload_ids current) (pt_had_voice_input current)
            (Some (tm_message_id r)) (Some (pt_text quoted))) end)).
    { apply raises_bind; [by apply message_raises|]. intros p. destruct reply as [r|]; [|apply raises_ret].
      apply raises_bind; [by apply message_raises|]. intros. apply raises_ret. }
    specialize (Hraise w). by rewrite H in Hraise.
  - left. exists x, size, l. split; [apply elem_of_app; by right|]. split_and!; [done..|].
    erewrite pbind_ok by exact E. unfold pbind at 1. by rewrite Er.
Qed.
End Sizes.

(* ------------------------------------------------------------------ *)
(** * Witnesses *)

Definition demo_media_env : media_env := {|
  me_uploads := demo_env;
  me_download := fun media => pret ("bytes of " ++ md_file_id media);
  me_transcribe := fun _ _ => pret " hello ";
  me_guess_extension := fun mime => if String.eqb mime "image/jpeg" then Some ".jpg" else None |}.

Definition demo_photo : tg_media := mk_media "p1" (Some 10) None None.
Definition demo_voice : tg_media := mk_media "v1" (Some 900) None None.
Definition demo_doc : tg_media := mk_media "d1" (Some 20) (Some "application/pdf") (Some "../a b.pdf").

(** A picture in reply to a document, and a voice message. *)
Definition demo_message : tg_message :=
  mk_tg_message 8 true true (Some "what is this?") None [demo_photo] None None None None.
Definition demo_reply : tg_message :=
  mk_tg_message 7 true false None None [] (Some demo_doc) None None None.
Definition demo_voice_message : tg_message :=
  mk_tg_message 9 true true None None [] None (Some demo_voice) None None.

Definition demo_prepared : PreparedTurn :=
  mk_prepared_turn "what is this?" ["data:image/jpeg;base64,Ynl0ZXMgb2YgcDE="] [6; 3] false (Some 7)
    (Some (OPEN_FILES ++ newline ++ newline ++ format_mentions ["uploads/chat-3/6-a_b.pdf"])).

Lemma demo_keeps media : respects (same mediaview) (me_download demo_media_env media).
Proof. by intros w. Defined.

Lemma prepared_turn_stored_witness :
  let '(r, w') := prepare_turn demo_media_env demo_message (Some demo_reply) 5 3 (Some 100) empty_world in
  r = Ok demo_prepared /\
  exists rows, db_uploads (w_db w') = rows /\ Permutation (map ul_id rows) [6; 3] /\
    Forall (shows w' rows) (pt_attachments demo_prepared).
Proof.
  pose proof (prepared_turn_stored demo_media_env 5 3 demo_message (Some demo_reply) (Some 100) empty_world
    demo_bucket demo_keeps ltac:(intros data name w; reflexivity) empty_wf) as H.
  assert (Hr : (prepare_turn demo_media_env demo_message (Some demo_reply) 5 3 (Some 100) empty_world).1 =
    Ok demo_prepared) by (vm_compute; reflexivity).
  destruct (prepare_turn _ _ _ _ _ _ _) as [r w']. simpl in Hr. subst r.
  destruct H as (rows & E & _ & _ & Hi & _ & Ha).
  split; [reflexivity|]. exists rows. split; [by rewrite E|]. split; [exact Hi|exact Ha].
Defined.

Lemma media_size_gate_witness :
  (prepare_turn demo_media_env demo_message (Some demo_reply) 5 3 (Some 15) empty_world) =
    (Raise (UploadTooLarge 20 15), empty_world) /\
  (forall size l, (prepare_turn demo_media_env demo_voice_message None 5 3 (Some 1000) empty_world).1 <>
    Raise (UploadTooLarge size l)).
Proof.
  split; [vm_compute; reflexivity|].
  destruct (media_size_gate demo_media_env ltac:(intros media w; exact I) ltac:(intros data name w; exact I)
    demo_voice_message None 5 3 (Some 1000) empty_world) as [H|[_ H]]; [|exact H].
  exfalso. destruct H as (x & size & l & Hx & [= <-] & Hs & Hl & _).
  apply list_elem_of_singleton in Hx as ->. injection Hs as <-. lia.
Defined.
