(* ===== verification/Vault.v ===== *)
(** The vault of the agent's git and SSH secrets ([services/ssh_vault]): the checks of names,
    hosts and users ([_common.py]), the SSH keys with the configuration generated for them
    ([service.py]) and the git tokens with their credentials file ([tokens.py]).

    A file is its bytes, one [ascii] each. The advisory lock of the directory makes the body
    of an operation one step. *)
From S2P Require Import Prelude PyStr PyLib Json Models World ChatRpc Uploads.

Open Scope Z_scope.
Open Scope string_scope.

(* ------------------------------------------------------------------ *)
(** * Checks *)

(** [SshVaultError] is a [ValueError]. *)
Definition SshVaultError (msg : string) : exn := ValueError msg.

Definition is_lower_digit (c : ascii) : bool := between 97 122 (code c) || is_digit c.
Definition name_char (c : ascii) : bool := is_lower_digit c || char_in c "-_".
Definition host_char (c : ascii) : bool := is_ascii_alnum c || char_in c ".-_".

Definition len_within (n : nat) (s : string) : bool :=
  ((1 <=? String.length s) && (String.length s <=? n))%nat.

Definition valid_name (name : string) : bool :=
  len_within 31 name && match name with String c _ => is_lower_digit c | EmptyString => false end
  && all_chars name_char name.
Definition valid_host (host : string) : bool := len_within 253 host && all_chars host_char host.
Definition valid_user (user : string) : bool := len_within 64 user && all_chars host_char user.

Definition validate_name (name : string) : prog world exn string :=
  if valid_name name then pret name
  else praise (SshVaultError "name must be lowercase letters/digits/-/_ (max 31 chars)").

Definition validate_host (host : string) : prog world exn string :=
  if valid_host host then pret host
  else praise (SshVaultError "host must be a hostname or IP (letters, digits, . - _)").

Definition resolve_user (user default : string) : prog world exn string :=
  let user := or_else (Some user) default in
  if valid_user user then pret user
  else praise (SshVaultError "user must be letters, digits, . - _ (max 64 chars)").

(* ------------------------------------------------------------------ *)
(** * Files *)

Definition file_in (dir name : string) : string := dir ++ "/" ++ name.

(** [os.replace(tmp, path)]. *)
Definition replace_file (tmp path : string) : prog world exn unit :=
  fun w => match w_files w !! tmp with
           | Some body => (Ok tt, set_files (<[path := body]> (delete tmp (w_files w))) w)
           | None => (Raise file_not_found, w)
           end.

(** [data] is [body.encode()]. *)
Definition write_secret (dir name data : string) : prog world exn unit :=
  let tmp := file_in dir ("." ++ name ++ ".tmp") in
  write_file tmp data ;;
  replace_file tmp (file_in dir name).

(** [os.open(..., O_WRONLY | O_CREAT)]. *)
Definition touch (path : string) : prog world exn unit :=
  modify (fun w => match w_files w !! path with
                   | Some _ => w
                   | None => set_files (<[path := ""]> (w_files w)) w
                   end).

Definition vault_lock {A} (dir : string) (body : prog world exn A) : prog world exn A :=
  touch (file_in dir ".lock") ;; body.

(* ------------------------------------------------------------------ *)
(** * SSH keys *)

Record ssh_key := mk_ssh_key {
  sk_name : string;
  sk_host : string;
  sk_user : string;
  sk_created_at : Z
}.

Definition KEY_PREFIX : string := "id_".
Definition KEYS_INDEX : string := "vault.json".
Definition CONFIG_FILE : string := "config".

(** In UTF-8. *)
Definition CONFIG_HEADER : string := "# generated by codex-server — do not edit by hand" ++ newline.

(** [_HOST_BLOCK.format(...)]. *)
Definition host_block (m : ssh_key) : string :=
  newline ++ "Host " ++ sk_name m ++ " " ++ sk_host m ++ newline ++
  "    HostName " ++ sk_host m ++ newline ++
  "    User " ++ sk_user m ++ newline ++
  "    IdentityFile ~/.ssh/" ++ KEY_PREFIX ++ sk_name m ++ newline ++
  "    IdentitiesOnly yes" ++ newline ++
  "    StrictHostKeyChecking accept-new" ++ newline.

Definition concat_strings (l : list string) : string := String.concat "" l.

Definition config_body (index : list (string * ssh_key)) : string :=
  CONFIG_HEADER ++ encode (concat_strings (map host_block (sort_on sk_name (map snd index)))).

(** The reading and writing of an index by [orjson] and pydantic: a dictionary to its bytes,
    and back ([None] when they are no index). *)
Class IndexCodec (A : Type) := {
  dump_index : list (string * A) -> string;
  load_index : string -> option (list (string * A))
}.

(** What is read back is what was written. *)
Class IndexLaws (A : Type) (C : IndexCodec A) : Prop :=
  load_dump : forall index, load_index (dump_index index) = Some index.

Section Index.
Context {A : Type} `{IndexCodec A}.

(** [_read_index], [_read]. *)
Definition read_index (dir file : string) : prog world exn (list (string * A)) :=
  fun w => match w_files w !! file_in dir file with
           | None => (Ok [], w)
           | Some data => match load_index data with
                          | Some index => (Ok index, w)
                          | None => (Raise (ValueError "unreadable index"), w)
                          end
           end.

Definition write_index (dir file : string) (index : list (string * A)) : prog world exn unit :=
  write_secret dir file (dump_index index).
End Index.

Section Keys.
Context `{IndexCodec ssh_key}.
Context (dir : string).

Definition key_file (name : string) : string := KEY_PREFIX ++ name.

Definition write_config (index : list (string * ssh_key)) : prog world exn unit :=
  write_secret dir CONFIG_FILE (config_body index).

(** [SshVaultService.add]. *)
Definition key_add (name host user private_key : string) : prog world exn ssh_key :=
  let! name := validate_name (strip name) in
  let! host := validate_host (strip host) in
  let! user := resolve_user (strip user) "git" in
  let key := strip private_key in
  if negb (str_contains "PRIVATE KEY" key)
  then praise (SshVaultError "private_key is not an OpenSSH/PEM private key")
  else vault_lock dir (
    let! index := read_index dir KEYS_INDEX in
    let! t := now in
    let meta := mk_ssh_key name host user t in
    let index := assoc_set name meta index in
    write_secret dir (key_file name) (encode (key ++ newline)) ;;
    write_index dir KEYS_INDEX index ;;
    write_config index ;;
    pret meta).

(** [SshVaultService.list]. *)
Definition key_list : prog world exn (list ssh_key) :=
  let! index := read_index dir KEYS_INDEX in
  pret (sort_on sk_name (map snd index)).

(** [SshVaultService.delete]. *)
Definition key_delete (name : string) : prog world exn unit :=
  vault_lock dir (
    let! index := read_index dir KEYS_INDEX in
    if bool_decide (assoc name index = None) then praise (SshVaultError ("unknown key: " ++ name))
    else
      let index := assoc_del name index in
      unlink (file_in dir (key_file name)) ;;
      write_index dir KEYS_INDEX index ;;
      write_config index).
End Keys.

(* ------------------------------------------------------------------ *)
(** * Git tokens *)

Record git_token := mk_git_token {
  gt_name : string;
  gt_host : string;
  gt_user : string;
  gt_created_at : Z;
  gt_token : string
}.

Definition TOKENS_INDEX : string := "tokens.json".
Definition CREDENTIALS_FILE : string := "git-credentials".

(** A line of the credentials file. *)
Definition credential_line (user secret host : string) : string :=
  "https://" ++ quote user ++ ":" ++ quote secret ++ "@" ++ host.

Definition token_line (r : git_token) : string := credential_line (gt_user r) (gt_token r) (gt_host r).

Definition credentials_body (lines : list string) : string :=
  match lines with [] => "" | _ => join newline lines ++ newline end.

Record token_meta := mk_token_meta {
  tm_name : string;
  tm_host : string;
  tm_user : string;
  tm_created_at : Z
}.

(** [_public]. *)
Definition public (r : git_token) : token_meta :=
  mk_token_meta (gt_name r) (gt_host r) (gt_user r) (gt_created_at r).

Section Tokens.
Context `{IndexCodec git_token}.
Context (dir : string).

Definition write_credentials (records : list (string * git_token)) : prog world exn unit :=
  write_secret dir CREDENTIALS_FILE
    (encode (credentials_body (map token_line (sort_on gt_name (map snd records))))).

(** [GitTokenService.add]. *)
Definition token_add (name host user token : string) : prog world exn token_meta :=
  let! name := validate_name (strip name) in
  let! host := validate_host (strip host) in
  let! user := resolve_user (strip user) "x-access-token" in
  let token := strip token in
  if negb (nonempty token) then praise (SshVaultError "token is required")
  else
    let! rec := vault_lock dir (
      let! records := read_index dir TOKENS_INDEX in
      let! t := now in
      let rec := mk_git_token name host user t token in
      let records := assoc_set name rec records in
      write_index dir TOKENS_INDEX records ;;
      write_credentials records ;;
      pret rec) in
    pret (public rec).

(** [GitTokenService.list]. *)
Definition token_list : prog world exn (list token_meta) :=
  let! records := read_index dir TOKENS_INDEX in
  pret (sort_on tm_name (map public (map snd records))).

(** [GitTokenService.delete]. *)
Definition token_delete (name : string) : prog world exn unit :=
  vault_lock dir (
    let! records := read_index dir TOKENS_INDEX in
    if bool_decide (assoc name records = None) then praise (SshVaultError ("unknown token: " ++ name))
    else
      let records := assoc_del name records in
      write_index dir TOKENS_INDEX records ;;
      write_credentials records).
End Tokens.

(* ------------------------------------------------------------------ *)
(** * The readers: git's credential store and OpenSSH *)

Definition newline_char : ascii := Ascii.ascii_of_nat 10.

Definition nonempty_lines (data : string) : list string :=
  List.filter nonempty (split_char newline_char data).

(** A line of the credential store as git reads it: the user up to the first [:], the
    password up to the first [@], both unescaped, and the host. *)
Definition parse_credential (line : string) : option (string * string * string) :=
  if negb (startswith line "https://") then None
  else match partition_char "@" (str_drop 8 line) with
       | (login, true, host) =>
           match partition_char ":" login with
           | (user, true, secret) => Some (unquote user, unquote secret, host)
           | _ => None
           end
       | _ => None
       end.

Definition read_credentials (data : string) : list (option (string * string * string)) :=
  map parse_credential (nonempty_lines data).

(** The words of the lines that are not comments. *)
Definition ssh_directives (data : string) : list (list string) :=
  map (fun line => List.filter nonempty (split_char " " line))
    (List.filter (fun line => negb (startswith line "#")) (nonempty_lines data)).

(** What OpenSSH should find for a host. *)
Definition host_directives (alias : list string) (host user identity : string) : list (list string) :=
  ["Host" :: alias; ["HostName"; host]; ["User"; user]; ["IdentityFile"; "~/.ssh/" ++ identity];
   ["IdentitiesOnly"; "yes"]; ["StrictHostKeyChecking"; "accept-new"]].

(** ** Characters *)

(** Characters that mean something to neither reader, nor to UTF-8. *)
Definition plain_char (c : ascii) : bool :=
  (code c <? 128)%nat && negb (Ascii.eqb c newline_char) && negb (Ascii.eqb c " ") &&
  negb (Ascii.eqb c "@") && negb (Ascii.eqb c ":") && negb (Ascii.eqb c "#").

(** A non-empty word of such characters. *)
Definition word (s : string) : Prop := all_chars plain_char s = true /\ nonempty s = true.

Lemma sweep (p q : ascii -> bool) :
  forallb (fun n => implb (p (ascii_of_nat n)) (q (ascii_of_nat n))) (seq 0 256) = true ->
  forall c, p c = true -> q c = true.
Proof.
  intros H c Hp. rewrite forallb_forall in H. specialize (H (code c)).
  rewrite ascii_code, Hp in H. apply H, in_seq. pose proof (code_bound c). lia.
Qed.

Lemma host_char_plain c : host_char c = true -> plain_char c = true.
Proof. apply sweep. by vm_compute. Qed.

Lemma name_char_plain c : name_char c = true -> plain_char c = true.
Proof. apply sweep. by vm_compute. Qed.

Lemma quoted_plain c : quoted_char c = true -> plain_char c = true.
Proof. apply sweep. by vm_compute. Qed.

Lemma plain_free (c : ascii) s : plain_char c = false -> all_chars plain_char s = true -> free_of c s.
Proof.
  intros Hc. apply all_chars_impl. intros d Hd. apply negb_true_iff, Ascii.eqb_neq. intros ->; congruence.
Qed.

Lemma len_within_ne n s : len_within n s = true -> nonempty s = true.
Proof. by destruct s. Qed.

Lemma valid_host_word h : valid_host h = true -> word h.
Proof.
  intros [Hl Hc]%andb_true_iff. split; [|by eapply len_within_ne].
  by eapply all_chars_impl; [intros; apply host_char_plain|].
Qed.

Lemma valid_user_word u : valid_user u = true -> word u.
Proof.
  intros [Hl Hc]%andb_true_iff. split; [|by eapply len_within_ne].
  by eapply all_chars_impl; [intros; apply host_char_plain|].
Qed.

Lemma valid_name_word n : valid_name n = true -> word n.
Proof.
  intros [[Hl _]%andb_true_iff Hc]%andb_true_iff. split; [|by eapply len_within_ne].
  by eapply all_chars_impl; [intros; apply name_char_plain|].
Qed.

Lemma quote_plain s : all_chars plain_char (quote s) = true.
Proof. eapply all_chars_impl; [intros; by apply quoted_plain|apply quote_quoted]. Qed.

Definition ascii_only (s : string) : Prop := all_chars (fun c => code c <? 128)%nat s = true.

Lemma encode_ascii s : ascii_only s -> encode s = s.
Proof.
  unfold ascii_only. induction s as [|c s IH]; [done|]. cbn [all_chars encode].
  intros [-> H]%andb_true_iff. simpl. by rewrite IH.
Qed.

Lemma ascii_app a b : ascii_only a -> ascii_only b -> ascii_only (a ++ b).
Proof. unfold ascii_only. rewrite all_chars_app. by intros -> ->. Qed.

Lemma plain_ascii s : all_chars plain_char s = true -> ascii_only s.
Proof. apply all_chars_impl. apply sweep. by vm_compute. Qed.

(** ** Lines *)

Lemma nonempty_lines_app a b :
  nonempty_lines (a ++ newline ++ b) = (nonempty_lines a ++ nonempty_lines b)%list.
Proof.
  unfold nonempty_lines. change (newline ++ b) with (String newline_char b).
  by rewrite split_char_join, List.filter_app.
Qed.

Lemma nonempty_line l : free_of newline_char l -> nonempty l = true -> nonempty_lines l = [l].
Proof. intros Hl Hn. unfold nonempty_lines. rewrite split_char_single by done. simpl. by rewrite Hn. Qed.

(** A line of its own, without a newline. *)
Definition line_text (l : string) : Prop := free_of newline_char l /\ nonempty l = true.

Lemma nonempty_lines_join ls : Forall line_text ls -> nonempty_lines (join newline ls) = ls.
Proof.
  induction ls as [|l ls IH]; [done|]. intros [[Hl Hn] Hls]%Forall_cons_1. destruct ls as [|l' ls].
  - by apply nonempty_line.
  - change (join newline (l :: l' :: ls)) with (l ++ newline ++ join newline (l' :: ls)).
    by rewrite nonempty_lines_app, nonempty_line, IH.
Qed.

Lemma nonempty_lines_end a : nonempty_lines (a ++ newline) = nonempty_lines a.
Proof. rewrite <- (append_nil_r newline), nonempty_lines_app. apply app_nil_r. Qed.

Lemma nonempty_lines_start b : nonempty_lines (newline ++ b) = nonempty_lines b.
Proof. apply (nonempty_lines_app ""). Qed.

(** ** Round trips *)

Lemma credential_roundtrip user secret host :
  valid_host host = true ->
  parse_credential (credential_line user secret host) = Some (encode user, encode secret, host).
Proof.
  intros Hh. unfold parse_credential, credential_line. rewrite startswith_app. cbn [negb].
  rewrite (str_drop_app "https://"). change ("@" ++ host) with (String "@" host).
  change (":" ++ ?x) with (String ":" x).
  replace (quote user ++ String ":" (quote secret ++ String "@" host))
    with ((quote user ++ String ":" (quote secret)) ++ String "@" host)
    by (rewrite <- append_assoc; done).
  rewrite partition_char_app, partition_char_app, !unquote_quote; [done|..].
  - apply plain_free; [done|apply quote_plain].
  - apply free_of_app. split; [apply plain_free; [done|apply quote_plain]|].
    change (String ":" (quote secret)) with (":" ++ quote secret). apply free_of_app. split; [done|].
    apply plain_free; [done|apply quote_plain].
Qed.

(** The lines of a block of the configuration. *)
Definition block_lines (alias host user identity : string) : list string :=
  ["Host " ++ alias; "    HostName " ++ host; "    User " ++ user; "    IdentityFile ~/.ssh/" ++ identity;
   "    IdentitiesOnly yes"; "    StrictHostKeyChecking accept-new"].

Lemma host_block_lines m :
  host_block m = newline ++ join newline (block_lines (sk_name m ++ " " ++ sk_host m) (sk_host m) (sk_user m)
                                            (KEY_PREFIX ++ sk_name m)) ++ newline.
Proof. unfold host_block. cbn [block_lines join]. by rewrite <- !append_assoc. Qed.

Lemma line_text_app a b : line_text a -> free_of newline_char b -> line_text (a ++ b).
Proof. intros [H1 H2] Hb. split; [by apply free_of_app|by destruct a]. Qed.

Lemma word_free s : word s -> free_of newline_char s /\ free_of " " s.
Proof. intros [H _]. by split; apply plain_free. Qed.

(** Alias texts are words separated by a blank. *)
Definition alias_text (alias : list string) : string := join " " alias.

Lemma alias_free alias : Forall word alias -> free_of newline_char (alias_text alias).
Proof.
  induction alias as [|a l IH]; [done|]. intros [Ha Hl]%Forall_cons_1. destruct l as [|b l]; [by apply word_free|].
  change (alias_text (a :: b :: l)) with (a ++ " " ++ alias_text (b :: l)).
  apply free_of_app. split; [by apply word_free|]. apply free_of_app. split; [done|by apply IH].
Qed.

Lemma block_line_texts alias host user identity :
  Forall word alias -> word host -> word user -> word identity ->
  Forall line_text (block_lines (alias_text alias) host user identity).
Proof.
  intros Ha Hh Hu Hi. repeat apply Forall_cons_2; try apply Forall_nil_2; try done;
    apply line_text_app; try done; first [by apply alias_free|by apply word_free].
Qed.

Definition words (line : string) : list string := List.filter nonempty (split_char " " line).

Lemma words_alias alias : Forall word alias -> words (alias_text alias) = alias.
Proof.
  unfold words. induction alias as [|a l IH]; [done|]. intros [[Hp Hn] Hl]%Forall_cons_1.
  assert (Hf : free_of " " a) by by apply plain_free.
  destruct l as [|b l].
  - unfold alias_text. simpl join. rewrite split_char_single by done. simpl. by rewrite Hn.
  - change (alias_text (a :: b :: l)) with (a ++ String " " (alias_text (b :: l))).
    rewrite split_char_app by done. cbn [List.filter]. by rewrite Hn, IH.
Qed.

(** A keyword, blanks in front of it, and what follows the blank after it. *)
Lemma words_keyword k rest :
  words (k ++ " " ++ rest) = (words k ++ words rest)%list.
Proof. unfold words. change (" " ++ rest) with (String " " rest). by rewrite split_char_join, List.filter_app. Qed.

Lemma words_one s : word s -> words s = [s].
Proof. intros H. by apply (words_alias [s]), Forall_singleton. Qed.

Lemma block_words alias host user identity :
  Forall word alias -> word host -> word user -> word identity ->
  map words (block_lines (alias_text alias) host user identity) = host_directives alias host user identity.
Proof.
  intros Ha Hh Hu [Hi Hn]. unfold host_directives. cbn [block_lines map].
  change ("Host " ++ alias_text alias) with ("Host" ++ " " ++ alias_text alias).
  change ("    HostName " ++ host) with ("    HostName" ++ " " ++ host).
  change ("    User " ++ user) with ("    User" ++ " " ++ user).
  change ("    IdentityFile ~/.ssh/" ++ identity) with ("    IdentityFile" ++ " " ++ ("~/.ssh/" ++ identity)).
  rewrite !words_keyword, words_alias, (words_one host), (words_one user), (words_one ("~/.ssh/" ++ identity)) by done.
  done.
Qed.

Lemma concat_strings_cons x l : concat_strings (x :: l) = x ++ concat_strings l.
Proof. unfold concat_strings. destruct l; simpl; [by rewrite append_nil_r|done]. Qed.

Definition valid_key (k : string) (m : ssh_key) : Prop :=
  sk_name m = k /\ valid_name k = true /\ valid_host (sk_host m) = true /\ valid_user (sk_user m) = true.

Definition key_lines (m : ssh_key) : list string :=
  block_lines (alias_text [sk_name m; sk_host m]) (sk_host m) (sk_user m) (KEY_PREFIX ++ sk_name m).

Definition key_directives (m : ssh_key) : list (list string) :=
  host_directives [sk_name m; sk_host m] (sk_host m) (sk_user m) (KEY_PREFIX ++ sk_name m).

Lemma prefixed_word p n : all_chars plain_char p = true -> word n -> word (p ++ n).
Proof. intros Hp [Hn Hne]. split; [by rewrite all_chars_app, Hp|by destruct p]. Qed.

Lemma valid_key_words k m : valid_key k m -> word (sk_name m) /\ word (sk_host m) /\ word (sk_user m).
Proof.
  intros (<- & Hn & Hh & Hu).
  split_and!; [by apply valid_name_word|by apply valid_host_word|by apply valid_user_word].
Qed.

Lemma key_line_texts k m : valid_key k m -> Forall line_text (key_lines m).
Proof.
  intros (Hn & Hh & Hu)%valid_key_words. apply block_line_texts; [by repeat apply Forall_cons_2; try apply Forall_nil_2|done|done|].
  by apply prefixed_word.
Qed.

Lemma key_words k m : valid_key k m -> map words (key_lines m) = key_directives m.
Proof.
  intros (Hn & Hh & Hu)%valid_key_words. apply block_words; [by repeat apply Forall_cons_2; try apply Forall_nil_2|done|done|].
  by apply prefixed_word.
Qed.

Lemma blocks_lines ms :
  Forall (fun m => valid_key (sk_name m) m) ms ->
  nonempty_lines (concat_strings (map host_block ms)) = List.concat (map key_lines ms).
Proof.
  induction ms as [|m ms IH]; [done|]. intros [Hm Hms]%Forall_cons_1. cbn [map List.concat].
  rewrite concat_strings_cons, host_block_lines, <- !append_assoc.
  rewrite nonempty_lines_start, nonempty_lines_app, nonempty_lines_join, IH; [done|done|].
  by apply (key_line_texts _ _ Hm).
Qed.

Lemma config_directives ms :
  Forall (fun m => valid_key (sk_name m) m) ms ->
  map words (List.filter (fun line => negb (startswith line "#")) (List.concat (map key_lines ms))) =
  List.concat (map key_directives ms).
Proof.
  induction ms as [|m ms IH]; [done|]. intros [Hm Hms]%Forall_cons_1. cbn [map List.concat].
  rewrite List.filter_app, List.map_app, IH by done. f_equal. by apply (key_words _ _ Hm).
Qed.

(* ------------------------------------------------------------------ *)
(** * The files of the directory *)

Section Directory.
Context (dir : string).

(** Names that start with a dot are temporary files and the lock. *)
Definition hidden (f : string) : bool := startswith f ".".
Definition fget (w : world) (f : string) : option string := w_files w !! file_in dir f.

(** The visible files become [g]. *)
Definition files_are (g : string -> option string) (w : world) : Prop :=
  forall f, hidden f = false -> fget w f = g f.

Definition fput (name : string) (data : option string) (g : string -> option string) : string -> option string :=
  fun f => if String.eqb f name then data else g f.

Lemma file_in_inj f g : file_in dir f = file_in dir g -> f = g.
Proof. unfold file_in. intros H. apply append_inj_l in H. by injection H. Qed.

Lemma file_in_ne f g : f <> g -> file_in dir f <> file_in dir g.
Proof. intros H E. by apply H, file_in_inj. Qed.

Lemma files_are_self w : files_are (fget w) w.
Proof. done. Qed.

Lemma write_secret_run g name data w :
  files_are g w -> hidden name = false ->
  exists w', write_secret dir name data w = (Ok tt, w') /\ w_now w' = w_now w /\ files_are (fput name (Some data) g) w'.
Proof.
  intros Hg Hn. unfold write_secret, pbind, write_file, modify, replace_file. cbn [w_files set_files].
  rewrite lookup_insert_eq. eexists. split; [done|]. split; [done|].
  intros f Hf. unfold fget, fput. cbn [w_files set_files]. destruct (String.eqb_spec f name) as [->|Hne].
  - apply lookup_insert_eq.
  - assert (f <> "." ++ name ++ ".tmp") by (by intros ->; unfold hidden in Hf; rewrite startswith_app in Hf).
    rewrite lookup_insert_ne by (apply file_in_ne; congruence).
    rewrite lookup_delete_ne, lookup_insert_ne by (apply file_in_ne; congruence). by apply Hg.
Qed.

Lemma unlink_run g name w :
  files_are g w ->
  exists w', unlink (file_in dir name) w = (Ok tt, w') /\ w_now w' = w_now w /\ files_are (fput name None g) w'.
Proof.
  intros Hg. eexists. split; [done|]. split; [done|]. intros f Hf. unfold fget, fput. cbn [w_files set_files].
  destruct (String.eqb_spec f name) as [->|Hne]; [apply lookup_delete_eq|].
  rewrite lookup_delete_ne by (apply file_in_ne; congruence). by apply Hg.
Qed.

Lemma touch_run g name w :
  files_are g w -> hidden name = true ->
  exists w', touch (file_in dir name) w = (Ok tt, w') /\ w_now w' = w_now w /\ files_are g w'.
Proof.
  intros Hg Hn. unfold touch, modify. destruct (w_files w !! file_in dir name) eqn:E.
  - by exists w.
  - eexists. split; [done|]. split; [done|]. intros f Hf. unfold fget. cbn [w_files set_files].
    rewrite lookup_insert_ne; [by apply Hg|]. apply file_in_ne. intros ->. congruence.
Qed.

Lemma lock_run {A} g (body : prog world exn A) w :
  files_are g w -> exists w', vault_lock dir body w = body w' /\ w_now w' = w_now w /\ files_are g w'.
Proof.
  intros Hg. destruct (touch_run g ".lock" w Hg eq_refl) as (w' & E & Hnow & Hg'). exists w'.
  split; [|done]. unfold vault_lock. by erewrite pbind_ok by exact E.
Qed.
End Directory.

(* ------------------------------------------------------------------ *)
(** * The invariant *)

Section Invariant.
Context (KC : IndexCodec ssh_key) (TC : IndexCodec git_token).
Context (KL : IndexLaws ssh_key KC) (TL : IndexLaws git_token TC).
Context (dir : string).

(** A file of the directory generated from an index: both are written or neither. *)
Definition generated {A} `{IndexCodec A} (index_file body_file : string) (body : list (string * A) -> string)
    (index : list (string * A)) (w : world) : Prop :=
  fget dir w index_file = None /\ fget dir w body_file = None /\ index = [] \/
  fget dir w index_file = Some (dump_index index) /\ fget dir w body_file = Some (body index).

Definition creds_body (records : list (string * git_token)) : string :=
  encode (credentials_body (map token_line (sort_on gt_name (map snd records)))).

Definition valid_token (k : string) (r : git_token) : Prop :=
  gt_name r = k /\ valid_host (gt_host r) = true.

Definition entry_of {A} (P : string -> A -> Prop) (kv : string * A) : Prop := P kv.1 kv.2.

Record vault_wf (keys : list (string * ssh_key)) (tokens : list (string * git_token)) (w : world) : Prop := {
  vw_keys : generated KEYS_INDEX CONFIG_FILE config_body keys w;
  vw_tokens : generated TOKENS_INDEX CREDENTIALS_FILE creds_body tokens w;
  vw_key_names : NoDup (map fst keys);
  vw_token_names : NoDup (map fst tokens);
  vw_valid_keys : Forall (entry_of valid_key) keys;
  vw_valid_tokens : Forall (entry_of valid_token) tokens;
  vw_key_files : forall name, is_Some (fget dir w (key_file name)) <-> name ∈ map fst keys
}.

Lemma read_generated {A} (C : IndexCodec A) `{!IndexLaws A C} index_file body_file body index w :
  generated index_file body_file body index w ->
  read_index (A := A) dir index_file w = (Ok index, w).
Proof.
  unfold generated, fget, read_index. intros [(-> & _ & ->)|[-> _]]; [done|]. by rewrite load_dump.
Qed.

Lemma vault_wf_files keys tokens w w' :
  files_are dir (fget dir w) w' -> vault_wf keys tokens w -> vault_wf keys tokens w'.
Proof.
  intros Hf [H1 H2 H3 H4 H5 H6 H7]. unfold generated in *.
  split; [..|intros name]; unfold generated; try done; rewrite !Hf by done; done.
Qed.

Lemma assoc_set_entries {A} (P : string -> A -> Prop) k v l :
  P k v -> Forall (entry_of P) l -> Forall (entry_of P) (assoc_set k v l).
Proof.
  intros Hv. induction l as [|[k' v'] l IH]; intros Hl; simpl; [by constructor|].
  apply Forall_cons_1 in Hl as [H1 H2]. destruct (String.eqb_spec k k') as [->|]; constructor; auto.
Qed.

Lemma assoc_del_entries {A} (P : string -> A -> Prop) k (l : list (string * A)) :
  Forall (entry_of P) l -> Forall (entry_of P) (assoc_del k l).
Proof.
  induction l as [|[k' v'] l IH]; intros Hl; simpl; [done|]. apply Forall_cons_1 in Hl as [H1 H2].
  destruct (String.eqb k k'); [done|]. constructor; auto.
Qed.

Lemma assoc_set_elem {A} k (v : A) l k' : k' ∈ map fst (assoc_set k v l) <-> k' = k \/ k' ∈ map fst l.
Proof.
  induction l as [|[j u] l IH]; simpl.
  - rewrite list_elem_of_singleton, elem_of_nil. tauto.
  - destruct (String.eqb_spec k j) as [->|]; simpl; rewrite !elem_of_cons; [tauto|]. rewrite IH. tauto.
Qed.

Lemma assoc_del_elem {A} k (l : list (string * A)) k' :
  NoDup (map fst l) -> k' ∈ map fst (assoc_del k l) <-> k' <> k /\ k' ∈ map fst l.
Proof.
  induction l as [|[j u] l IH]; simpl; intros Hnd; [rewrite elem_of_nil; tauto|].
  apply NoDup_cons in Hnd as [Hni Hnd]. destruct (String.eqb_spec k j) as [->|]; simpl; rewrite ?elem_of_cons.
  - split; [intros H; split; [by intros ->|by right]|]. intros [? [?|?]]; [done|done].
  - rewrite IH by done. split; [intros [->|[? ?]]; [split; [congruence|by left]|tauto]|]. tauto.
Qed.

(** ** The operations on every branch *)

Definition refused (w w' : world) : Prop := files_are dir (fget dir w) w'.

(** Look a file up after some writes. *)
Ltac look_up G :=
  rewrite !G by done; unfold fput;
  repeat match goal with |- context [String.eqb ?a ?b] =>
    first [change (String.eqb a b) with true | change (String.eqb a b) with false] end;
  rewrite ?String.eqb_refl; cbv iota.

(** Take the lock: the visible files stay. *)
Ltac enter_lock :=
  match goal with |- context [vault_lock dir ?body ?w] =>
    destruct (lock_run dir (fget dir w) body w (files_are_self dir w)) as (w0 & -> & _ & Hg)
  end.

Lemma key_add_spec name host user key keys tokens w :
  vault_wf keys tokens w ->
  match key_add dir name host user key w with
  | (Ok m, w') => valid_key (strip name) m /\ sk_host m = strip host /\
      vault_wf (assoc_set (strip name) m keys) tokens w' /\
      fget dir w' (key_file (strip name)) = Some (encode (strip key ++ newline))
  | (Raise _, w') => refused w w'
  end.
Proof.
  intros Hw. unfold key_add, validate_name, validate_host, resolve_user.
  destruct (valid_name (strip name)) eqn:Hn; [|done]. unfold pbind at 1. cbn [pret].
  destruct (valid_host (strip host)) eqn:Hh; [|done]. unfold pbind at 1. cbn [pret].
  set (u := or_else _ _). destruct (valid_user u) eqn:Hu; [|done]. unfold pbind at 1. cbn [pret].
  destruct (str_contains _ _); [|done]. cbn [negb].
  enter_lock.
  pose proof (vault_wf_files _ _ _ _ Hg Hw) as [H1 H2 H3 H4 H5 H6 H7].
  erewrite pbind_ok by (eapply read_generated; [typeclasses eauto|exact H1]). unfold pbind at 1, now, gets.
  set (meta := mk_ssh_key _ _ _ _). set (index := assoc_set _ _ _).
  destruct (write_secret_run dir _ (key_file (strip name)) (encode (strip key ++ newline)) w0 Hg eq_refl)
    as (w1 & E1 & _ & G1). erewrite pbind_ok by exact E1.
  destruct (write_secret_run dir _ KEYS_INDEX (dump_index index) w1 G1 eq_refl) as (w2 & E2 & _ & G2).
  erewrite pbind_ok by exact E2.
  destruct (write_secret_run dir _ CONFIG_FILE (config_body index) w2 G2 eq_refl) as (w3 & E3 & _ & G3).
  erewrite pbind_ok by exact E3. unfold pret. split; [done|]. split; [done|].
  split; [|by look_up G3].
  split.
  - right. by split; look_up G3.
  - unfold generated in *. look_up G3. rewrite <- !Hg by done. exact H2.
  - by apply assoc_set_keys.
  - done.
  - by apply assoc_set_entries.
  - done.
  - intros k. look_up G3. unfold index. rewrite assoc_set_elem, <- H7, Hg by done.
    destruct (String.eqb_spec (key_file k) (key_file (strip name))) as [E|Hne].
    + apply append_inj_l in E. split; [by left|done].
    + split; [by right|]. intros [->|?]; [done|done].
Qed.

Lemma key_delete_spec name keys tokens w :
  vault_wf keys tokens w ->
  match key_delete dir name w with
  | (Ok _, w') => name ∈ map fst keys /\ vault_wf (assoc_del name keys) tokens w'
  | (Raise _, w') => name ∉ map fst keys /\ refused w w'
  end.
Proof.
  intros Hw. unfold key_delete. enter_lock.
  pose proof (vault_wf_files _ _ _ _ Hg Hw) as [H1 H2 H3 H4 H5 H6 H7].
  erewrite pbind_ok by (eapply read_generated; [typeclasses eauto|exact H1]).
  case_bool_decide as Hname.
  { split; [|done]. rewrite list_elem_of_In. by apply assoc_none. }
  assert (Hin : name ∈ map fst keys).
  { apply list_elem_of_In. destruct (assoc name keys) eqn:E; [|done]. apply in_map_iff. exists (name, s).
    split; [done|by apply assoc_in]. }
  cbv zeta. set (index := assoc_del _ _).
  destruct (unlink_run dir _ (key_file name) w0 Hg) as (w1 & E1 & _ & G1). erewrite pbind_ok by exact E1.
  destruct (write_secret_run dir _ KEYS_INDEX (dump_index index) w1 G1 eq_refl) as (w2 & E2 & _ & G2).
  erewrite pbind_ok by exact E2.
  destruct (write_secret_run dir _ CONFIG_FILE (config_body index) w2 G2 eq_refl) as (w3 & E3 & _ & G3).
  unfold write_config. rewrite E3. split; [done|]. split.
  - right. by split; look_up G3.
  - unfold generated in *. look_up G3. rewrite <- !Hg by done. exact H2.
  - by apply assoc_del_keys.
  - done.
  - by apply assoc_del_entries.
  - done.
  - intros k. look_up G3. unfold index. rewrite assoc_del_elem, <- H7, Hg by done.
    destruct (String.eqb_spec (key_file k) (key_file name)) as [E|Hne].
    + apply append_inj_l in E. split; [by intros []|by intros []].
    + split; [|by intros []]. intros ?. split; [by intros ->|done].
Qed.

(** The tokens' files leave the keys alone. *)
Lemma tokens_written keys tokens records w w0 w3 :
  files_are dir (fget dir w) w0 -> vault_wf keys tokens w0 ->
  files_are dir (fput CREDENTIALS_FILE (Some (creds_body records))
    (fput TOKENS_INDEX (Some (dump_index records)) (fget dir w))) w3 ->
  NoDup (map fst records) -> Forall (entry_of valid_token) records ->
  vault_wf keys records w3.
Proof.
  intros Hg [H1 H2 H3 H4 H5 H6 H7] G3 Hnd Hv. split; [..|done|done|done|done|].
  - unfold generated in *. look_up G3. rewrite <- !Hg by done. exact H1.
  - right. by split; look_up G3.
  - intros k. look_up G3. by rewrite <- H7, Hg.
Qed.

Lemma token_add_spec name host user token keys tokens w :
  vault_wf keys tokens w ->
  match token_add dir name host user token w with
  | (Ok m, w') => exists r, m = public r /\ valid_token (strip name) r /\ gt_token r = strip token /\
      vault_wf keys (assoc_set (strip name) r tokens) w'
  | (Raise _, w') => refused w w'
  end.
Proof.
  intros Hw. unfold token_add, validate_name, validate_host, resolve_user.
  destruct (valid_name (strip name)) eqn:Hn; [|done]. unfold pbind at 1. cbn [pret].
  destruct (valid_host (strip host)) eqn:Hh; [|done]. unfold pbind at 1. cbn [pret].
  set (u := or_else _ _). destruct (valid_user u) eqn:Hu; [|done]. unfold pbind at 1. cbn [pret].
  destruct (nonempty (strip token)) eqn:Ht; [|done]. cbn [negb].
  unfold pbind at 1. enter_lock. pose proof (vault_wf_files _ _ _ _ Hg Hw) as Hw0. destruct Hw0 as [H1 H2 H3 H4 H5 H6 H7] eqn:E0.
  clear E0. erewrite pbind_ok by (eapply read_generated; [typeclasses eauto|exact H2]). unfold pbind at 1, now, gets.
  set (r := mk_git_token _ _ _ _ _). set (records := assoc_set _ _ _).
  destruct (write_secret_run dir _ TOKENS_INDEX (dump_index records) w0 Hg eq_refl) as (w1 & E1 & _ & G1).
  erewrite pbind_ok by exact E1.
  destruct (write_secret_run dir _ CREDENTIALS_FILE (creds_body records) w1 G1 eq_refl) as (w2 & E2 & _ & G2).
  erewrite pbind_ok by exact E2. cbn [pret]. exists r. split; [done|]. split; [done|]. split; [done|].
  eapply tokens_written; [exact Hg|exact Hw0|exact G2|by apply assoc_set_keys|by apply assoc_set_entries].
Qed.

Lemma token_delete_spec name keys tokens w :
  vault_wf keys tokens w ->
  match token_delete dir name w with
  | (Ok _, w') => name ∈ map fst tokens /\ vault_wf keys (assoc_del name tokens) w'
  | (Raise _, w') => name ∉ map fst tokens /\ refused w w'
  end.
Proof.
  intros Hw. unfold token_delete. enter_lock.
  pose proof (vault_wf_files _ _ _ _ Hg Hw) as Hw0.
  erewrite pbind_ok by (eapply read_generated; [typeclasses eauto|exact (vw_tokens _ _ _ Hw0)]).
  case_bool_decide as Hname.
  { split; [|done]. rewrite list_elem_of_In. by apply assoc_none. }
  assert (Hin : name ∈ map fst tokens).
  { apply list_elem_of_In. destruct (assoc name tokens) eqn:E; [|done]. apply in_map_iff. exists (name, g).
    split; [done|by apply assoc_in]. }
  cbv zeta. set (records := assoc_del _ _).
  destruct (write_secret_run dir _ TOKENS_INDEX (dump_index records) w0 Hg eq_refl) as (w1 & E1 & _ & G1).
  erewrite pbind_ok by exact E1.
  destruct (write_secret_run dir _ CREDENTIALS_FILE (creds_body records) w1 G1 eq_refl) as (w2 & E2 & _ & G2).
  unfold write_credentials. change (encode (credentials_body _)) with (creds_body records). rewrite E2.
  split; [done|].
  eapply tokens_written; [exact Hg|exact Hw0|exact G2|by apply assoc_del_keys, Hw0|by apply assoc_del_entries, Hw0].
Qed.

(** What may happen to the directory: the operations of both services, and anything that
    leaves its visible files alone. *)
Inductive vault_step : world -> world -> Prop :=
| StepKeyAdd name host user key w : vault_step w (key_add dir name host user key w).2
| StepKeyDelete name w : vault_step w (key_delete dir name w).2
| StepTokenAdd name host user token w : vault_step w (token_add dir name host user token w).2
| StepTokenDelete name w : vault_step w (token_delete dir name w).2
| StepElsewhere w w' : refused w w' -> vault_step w w'.

Lemma vault_step_wf w w' keys tokens :
  vault_step w w' -> vault_wf keys tokens w -> exists keys' tokens', vault_wf keys' tokens' w'.
Proof.
  intros Hs Hw. destruct Hs as [name host user key w|name w|name host user token w|name w|w w' Hr].
  - pose proof (key_add_spec name host user key _ _ _ Hw) as H. destruct (key_add _ _ _ _ _ _) as [[m|e] w'].
    + destruct H as (_ & _ & H & _). eauto.
    + eauto using vault_wf_files.
  - pose proof (key_delete_spec name _ _ _ Hw) as H. destruct (key_delete _ _ _) as [[m|e] w'];
      destruct H as [_ H]; eauto using vault_wf_files.
  - pose proof (token_add_spec name host user token _ _ _ Hw) as H. destruct (token_add _ _ _ _ _ _) as [[m|e] w'].
    + destruct H as (r & _ & _ & _ & H). eauto.
    + eauto using vault_wf_files.
  - pose proof (token_delete_spec name _ _ _ Hw) as H. destruct (token_delete _ _ _) as [[m|e] w'];
      destruct H as [_ H]; eauto using vault_wf_files.
  - eauto using vault_wf_files.
Qed.

Lemma vault_run_wf w w' keys tokens :
  rtc vault_step w w' -> vault_wf keys tokens w -> exists keys' tokens', vault_wf keys' tokens' w'.
Proof.
  intros H. revert keys tokens. induction H as [|a b c Hs _ IH]; intros keys tokens Hw; [eauto|].
  destruct (vault_step_wf _ _ _ _ Hs Hw) as (? & ? & ?). by eapply IH.
Qed.

Definition git_sees (w : world) : list (option (string * string * string)) :=
  match fget dir w CREDENTIALS_FILE with Some data => read_credentials data | None => [] end.
Definition ssh_sees (w : world) : list (list string) :=
  match fget dir w CONFIG_FILE with Some data => ssh_directives data | None => [] end.

Lemma credential_line_text user secret host :
  valid_host host = true ->
  line_text (credential_line user secret host) /\ ascii_only (credential_line user secret host).
Proof.
  intros [Hh _]%valid_host_word. unfold credential_line.
  assert (Hq : forall x, free_of newline_char (quote x)) by (intros; apply plain_free; [done|apply quote_plain]).
  assert (Ha : forall x, ascii_only (quote x)) by (intros; apply plain_ascii, quote_plain).
  split; [split; [|done]|].
  - repeat (apply free_of_app; split); auto; try done. by apply plain_free.
  - repeat apply ascii_app; auto; try done. by apply plain_ascii.
Qed.

Lemma join_ascii sep ls : ascii_only sep -> Forall ascii_only ls -> ascii_only (join sep ls).
Proof.
  intros Hs. induction ls as [|l ls IH]; [done|]. intros [Hl Hls]%Forall_cons_1. destruct ls as [|l' ls]; [done|].
  change (join sep (l :: l' :: ls)) with (l ++ sep ++ join sep (l' :: ls)). auto using ascii_app.
Qed.

(** Lines of credentials are read back, whatever the users and the secrets are. *)
Lemma read_credentials_body (lines : list (string * string * string)) :
  Forall (fun l => valid_host l.2 = true) lines ->
  let text := map (fun l => credential_line l.1.1 l.1.2 l.2) lines in
  nonempty_lines (encode (credentials_body text)) = text /\
  nonempty_lines (encode (join newline text ++ newline)) = text /\
  map parse_credential text = map (fun l => Some (encode l.1.1, encode l.1.2, l.2)) lines.
Proof.
  intros Hv. cbv zeta. set (text := map _ lines).
  assert (Ht : Forall line_text text /\ Forall ascii_only text).
  { unfold text. split; apply Forall_map; (eapply Forall_impl; [exact Hv|]); intros l Hl; by apply credential_line_text. }
  destruct Ht as [Ht Ha].
  assert (Hj : nonempty_lines (encode (join newline text ++ newline)) = text).
  { rewrite encode_ascii, nonempty_lines_end, nonempty_lines_join; [done..|].
    apply ascii_app; [by apply join_ascii|done]. }
  split; [|split; [done|]].
  - unfold credentials_body. destruct text; done.
  - unfold text. rewrite map_map. apply map_ext_in. intros l Hl. apply credential_roundtrip.
    rewrite List.Forall_forall in Hv. by apply Hv.
Qed.

Lemma sort_on_map {A B} (f : A -> B) (ka : A -> string) (kb : B -> string) l :
  (forall x, kb (f x) = ka x) -> sort_on kb (map f l) = map f (sort_on ka l).
Proof.
  intros H. unfold sort_on, sort_by.
  assert (Hi : forall x l, insert_by (fun x y => String.leb (kb x) (kb y)) (f x) (map f l) =
    map f (insert_by (fun x y => String.leb (ka x) (ka y)) x l)).
  { intros x m. induction m as [|y m IH]; [done|]. simpl. rewrite !H. destruct (String.leb _ _); [done|].
    simpl. by rewrite IH. }
  induction l as [|x l IH]; [done|]. simpl. by rewrite IH, Hi.
Qed.

Lemma sorted_entries {A} (P : string -> A -> Prop) key (l : list (string * A)) :
  (forall k x, P k x -> key x = k) -> Forall (entry_of P) l ->
  Forall (fun x => P (key x) x) (sort_on key (map snd l)).
Proof.
  intros Hk H. unfold sort_on. rewrite sort_by_Permutation. apply Forall_map.
  eapply Forall_impl; [exact H|]. intros [k x] Hx. simpl in *. unfold entry_of in Hx. simpl in Hx.
  by rewrite (Hk _ _ Hx).
Qed.

Lemma host_block_ascii m : valid_key (sk_name m) m -> ascii_only (host_block m).
Proof.
  intros (Hn & Hh & Hu)%valid_key_words. unfold host_block.
  assert (Ha : forall s, word s -> ascii_only s) by (intros s [H _]; by apply plain_ascii).
  repeat apply ascii_app; auto; done.
Qed.

Lemma config_seen ms :
  Forall (fun m => valid_key (sk_name m) m) ms ->
  ssh_directives (CONFIG_HEADER ++ encode (concat_strings (map host_block ms))) = List.concat (map key_directives ms).
Proof.
  intros Hv. assert (Ha : ascii_only (concat_strings (map host_block ms))).
  { induction Hv as [|m ms Hm _ IH]; [done|]. cbn [map]. rewrite concat_strings_cons.
    apply ascii_app; [by apply host_block_ascii|done]. }
  rewrite encode_ascii by done. unfold CONFIG_HEADER. rewrite <- append_assoc.
  unfold ssh_directives. rewrite nonempty_lines_app, List.filter_app, List.map_app, blocks_lines by done.
  rewrite nonempty_line by done. fold words. by apply config_directives.
Qed.

End Invariant.

(* ------------------------------------------------------------------ *)
(** * Witness *)

Fixpoint bits_of (p : positive) : string :=
  match p with xH => "" | xO p => String "0" (bits_of p) | xI p => String "1" (bits_of p) end.
Fixpoint of_bits (s : string) : positive :=
  match s with
  | EmptyString => xH
  | String c s => if Ascii.eqb c "0" then xO (of_bits s) else xI (of_bits s)
  end.

Lemma of_bits_of p : of_bits (bits_of p) = p.
Proof. induction p as [p IH|p IH|]; simpl; by rewrite ?IH. Qed.

(** A codec for the witness. *)
Definition countable_codec (A : Type) `{Countable A} : IndexCodec A := {|
  dump_index := fun index => bits_of (countable.encode index);
  load_index := fun data => decode (of_bits data) |}.

Lemma countable_laws A `{Countable A} : IndexLaws A (countable_codec A).
Proof. intros index. simpl. by rewrite of_bits_of, decode_encode. Qed.

#[local] Instance ssh_key_eq_dec : EqDecision ssh_key.
Proof. solve_decision. Defined.
#[local] Instance git_token_eq_dec : EqDecision git_token.
Proof. solve_decision. Defined.
#[local] Instance ssh_key_countable : Countable ssh_key.
Proof.
  apply (inj_countable' (fun m => (sk_name m, sk_host m, sk_user m, sk_created_at m))
    (fun x => mk_ssh_key x.1.1.1 x.1.1.2 x.1.2 x.2)). by intros [].
Defined.
#[local] Instance git_token_countable : Countable git_token.
Proof.
  apply (inj_countable' (fun r => (gt_name r, gt_host r, gt_user r, gt_created_at r, gt_token r))
    (fun x => mk_git_token x.1.1.1.1 x.1.1.1.2 x.1.1.2 x.1.2 x.2)). by intros [].
Defined.

Definition demo_kc : IndexCodec ssh_key := countable_codec ssh_key.
Definition demo_tc : IndexCodec git_token := countable_codec git_token.

Definition demo_vault : world :=
  (token_add (H := demo_tc) "/vault" "hub" "github.com" "" ("t@k:n" ++ newline ++ "x")
    (key_add (H := demo_kc) "/vault" "work" "git.example.com" "" "PRIVATE KEY" empty_world).2).2.

