(* ===== verification/Integrations.v ===== *)
(** Integrations: the cipher of their secrets ([services/integrations/crypto.py]), their table
    ([service.py]), the files made of it for the agent ([runtime.py]) and the settings API
    ([api/settings/router.py]). *)
From S2P Require Import Prelude PyStr PyLib Json Models World TurnStore Services ChatRpc Auth Uploads Vault.

Open Scope Z_scope.
Open Scope string_scope.

(** [services/integrations/schemas.py]. *)
Record TelegramOptions := mk_tg_options { to_admin_ids : list Z; to_webhook_url : string }.

Record IntegrationInput := mk_input {
  ii_name : string;
  ii_kind : IntegrationKind;
  ii_host : string;
  ii_username : string;
  ii_secret : option string;
  ii_enabled : bool;
  ii_telegram : TelegramOptions
}.

Record IntegrationView := mk_view {
  iv_id : Z;
  iv_name : string;
  iv_kind : IntegrationKind;
  iv_host : string;
  iv_username : string;
  iv_enabled : bool;
  iv_has_secret : bool;
  iv_created_at : Z;
  iv_updated_at : Z;
  iv_telegram : TelegramOptions;
  iv_fingerprint : json;
  iv_bot_username : json
}.

(** Code of other packages: Fernet, the key loaders of [cryptography], the Telegram bot, HTTP,
    pydantic, the collation of the database. Encryption takes its randomness from a fresh
    number. *)
Record integ_env := {
  ie_key_path : string;
  ie_fernet_ok : string -> bool;
  ie_generate_key : Z -> string;
  ie_encrypt : string -> Z -> string -> string;
  ie_decrypt : string -> string -> option string;
  ie_token_urlsafe : Z -> string;
  ie_load_key : string -> bool;
  ie_fingerprint : string -> result exn string;
  ie_get_me : string -> prog world exn (option string);
  ie_provider_get : string -> string * string -> prog world exn unit;
  ie_parse_telegram : json -> result exn TelegramOptions;
  ie_bracketed_ok : string -> bool;
  ie_collate : string -> string -> bool;
  ie_dump_tokens : list (string * string * string) -> string
}.

Section Integrations.
Context (E : integ_env).

(* ------------------------------------------------------------------ *)
(** * The cipher *)

(** [bytes.strip()]. *)
Definition strip_bytes (s : string) : string :=
  strip_chars (fun c => existsb (Nat.eqb (code c)) [9; 10; 11; 12; 13; 32]%nat) s.

Definition KEY_UNAVAILABLE : exn :=
  ValueError "Integration master key is unavailable; run settings preparation".
Definition CANNOT_DECRYPT : exn := ValueError "Cannot decrypt integration with the configured master key".

(** [SecretCipher.ensure_key]. *)
Definition ensure_key : prog world exn bool :=
  fun w => match w_files w !! ie_key_path E with
           | Some data =>
               if ie_fernet_ok E (strip_bytes data) then (Ok false, w)
               else (Raise (ValueError "Fernet key must be 32 url-safe base64-encoded bytes."), w)
           | None =>
               (let! n := nextval in
                write_file (ie_key_path E) (ie_generate_key E n) ;;
                pret true) w
           end.

(** [SecretCipher._cipher]: the key. *)
Definition cipher : prog world exn string :=
  fun w => match w_files w !! ie_key_path E with
           | Some data => if ie_fernet_ok E (strip_bytes data) then (Ok (strip_bytes data), w)
                          else (Raise KEY_UNAVAILABLE, w)
           | None => (Raise KEY_UNAVAILABLE, w)
           end.

Definition seal (value : string) : prog world exn string :=
  let! key := cipher in
  let! n := nextval in
  pret (ie_encrypt E key n value).

Definition unseal (value : string) : prog world exn string :=
  let! key := cipher in
  match ie_decrypt E key value with
  | Some plain => pret plain
  | None => praise CANNOT_DECRYPT
  end.

(* ------------------------------------------------------------------ *)
(** * The service *)

(** [IntegrationService.list]. *)
Definition integ_list : prog world exn (list integration) :=
  sql (fun d => sort_by (fun x y => ie_collate E (in_name x) (in_name y)) (db_integrations d)).

(** [db.get(Integration, entry_id)]. *)
Definition integ_get (entry_id : Z) : prog world exn (option integration) :=
  sql (fun d => List.find (fun row => Z.eqb (in_id row) entry_id) (db_integrations d)).

(** [IntegrationService.view]. *)
Definition view (row : integration) : result exn IntegrationView :=
  match ie_parse_telegram E (match assoc "telegram" (in_options row) with Some t => t | None => JObj [] end) with
  | Raise e => Raise e
  | Ok telegram =>
      Ok (mk_view (in_id row) (in_name row) (in_kind row) (in_host row) (in_username row) (in_enabled row)
            (nonempty (in_secret row)) (in_created_at row) (in_updated_at row) telegram
            (get_or_null "fingerprint" (in_options row)) (get_or_null "bot_username" (in_options row)))
  end.

Definition telegram_error (e : exn) : bool := bool_decide (is_Some (raised "TelegramAPIError" e)).

(** [IntegrationService.validate_secret]. *)
Definition validate_secret (kind : IntegrationKind) (value : string) : prog world exn (option string) :=
  match kind with
  | IK_SSH => if ie_load_key E value then pret None
              else praise (ValueError "An unencrypted valid SSH private key is required")
  | IK_TELEGRAM =>
      except (fun e => if telegram_error e then praise (ValueError "Telegram could not verify this token")
                       else praise e) (ie_get_me E value)
  | _ => pret None
  end.

Definition options_json (t : TelegramOptions) : json :=
  JObj [("admin_ids", JArr (map JNum (to_admin_ids t))); ("webhook_url", JStr (to_webhook_url t))].

Definition is_other (entry_id : option Z) (item : integration) : bool :=
  negb (bool_decide (Some (in_id item) = entry_id)).

(** [existing] without the row being saved. *)
Definition check_unique (data : IntegrationInput) (entry_id : option Z) (name : string)
    (row : option integration) (existing : list integration) : prog world exn unit :=
  if existsb (fun i => is_other entry_id i && String.eqb (in_name i) name) existing
  then praise (ValueError "This name is already in use")
  else if match row with Some r => negb (bool_decide (in_kind r = ii_kind data)) | None => false end
  then praise (ValueError "Integration type cannot be changed")
  else if bool_decide (ii_kind data = IK_TELEGRAM) &&
          existsb (fun i => bool_decide (in_kind i = ii_kind data) && is_other entry_id i) existing
  then praise (ValueError "Only one Telegram bot is supported")
  else pret tt.

Definition is_git (k : IntegrationKind) : bool := match k with IK_GITHUB | IK_GITLAB => true | _ => false end.

(** The host and the user name, checked. *)
Definition check_host (data : IntegrationInput) (entry_id : option Z) (name : string)
    (existing : list integration) : prog world exn (string * string) :=
  let! host := match ii_kind data with
               | IK_TELEGRAM => pret ""
               | _ => validate_host (strip (ii_host data))
               end in
  let username := strip (ii_username data) in
  let! username := match ii_kind data with
                   | IK_SSH => validate_name name ;; resolve_user username "git"
                   | _ => pret username
                   end in
  if is_git (ii_kind data) &&
     existsb (fun i => is_other entry_id i && bool_decide (in_kind i = ii_kind data) && String.eqb (in_host i) host)
       existing
  then praise (ValueError "A connection for this provider and host already exists")
  else pret (host, username).

Definition check_webhook (url : string) : prog world exn unit :=
  if negb (nonempty url) then pret tt
  else match url_scheme (ie_bracketed_ok E) url with
       | None => praise (ValueError "Invalid IPv6 URL")
       | Some scheme =>
           if negb (String.eqb scheme "https") || negb (url_has_host url)
           then praise (ValueError "Webhook URL must use HTTPS") else pret tt
       end.

Definition set_when {A} (b : bool) (k : string) (v : A) (o : list (string * A)) : list (string * A) :=
  if b then assoc_set k v o else o.

Definition json_opt (o : option string) : json := match o with Some s => JStr s | None => JNull end.

(** The options of the row. *)
Definition save_options (data : IntegrationInput) (row : option integration) (value verified : option string) :
    prog world exn (list (string * json)) :=
  let options := match row with Some r => in_options r | None => [] end in
  match ii_kind data with
  | IK_SSH =>
      match value with
      | Some v => let! f := lift_result (ie_fingerprint E v) in pret (assoc_set "fingerprint" (JStr f) options)
      | None => pret options
      end
  | IK_TELEGRAM =>
      let options := set_when (bool_decide (is_Some value)) "bot_username" (json_opt verified) options in
      check_webhook (to_webhook_url (ii_telegram data)) ;;
      let options := assoc_set "telegram" (options_json (ii_telegram data)) options in
      match assoc "webhook_secret" options with
      | Some _ => pret options
      | None =>
          let! n := nextval in
          let! sealed := seal (ie_token_urlsafe E n) in
          pret (assoc_set "webhook_secret" (JStr sealed) options)
      end
  | _ => pret options
  end.

Definition value_required (row : option integration) (value : option string) : bool :=
  match value with Some v => negb (nonempty v) | None => bool_decide (row = None) end.

(** [db.flush]: a new row, or an UPDATE when a column has changed. *)
Definition write_row (row : option integration) (f : integration -> integration) (kind : IntegrationKind) :
    prog world exn integration :=
  let! t := now in
  match row with
  | None =>
      let! id := nextval in
      let r := f (mk_integration id "" kind "" "" "" true [] t t) in
      sql_write (fun d => set_integrations (db_integrations d ++ [r])%list d) ;;
      pret r
  | Some old =>
      let r := f old in
      let r := if bool_decide ((in_name r, in_host r, in_username r, in_secret r, in_enabled r) =
                               (in_name old, in_host old, in_username old, in_secret old, in_enabled old))
                  && json_eqb (JObj (in_options r)) (JObj (in_options old))
               then r
               else mk_integration (in_id r) (in_name r) (in_kind r) (in_host r) (in_username r) (in_secret r)
                      (in_enabled r) (in_options r) (in_created_at r) t in
      sql_write (fun d => set_integrations
        (update_where (fun i => Z.eqb (in_id i) (in_id old)) (fun _ => r) (db_integrations d)) d) ;;
      pret r
  end.

(** [IntegrationService.save]; the advisory lock makes it one transaction at a time. *)
Definition integ_save (data : IntegrationInput) (entry_id : option Z) : prog world exn integration :=
  let! row := match entry_id with Some id => integ_get id | None => pret None end in
  if bool_decide (is_Some entry_id) && bool_decide (row = None)
  then praise (ValueError "Integration not found")
  else
    let name := strip (ii_name data) in
    if negb (nonempty name) then praise (ValueError "Name is required")
    else
      let! existing := integ_list in
      check_unique data entry_id name row existing ;;
      let! names := check_host data entry_id name existing in
      let value := strip <$> ii_secret data in
      if value_required row value then praise (ValueError "Secret is required")
      else
        let! verified := match value with Some v => validate_secret (ii_kind data) v | None => pret None end in
        let! options := save_options data row value verified in
        let! sealed := match value with Some v => let! s := seal v in pret (Some s) | None => pret None end in
        write_row row (fun r =>
          mk_integration (in_id r) name (in_kind r) names.1 names.2
            (match sealed with Some s => s | None => in_secret r end)
            (ii_enabled data) options (in_created_at r) (in_updated_at r)) (ii_kind data).

(** [IntegrationService.check]. *)
Definition integ_check (row : integration) : prog world exn string :=
  let! value := unseal (in_secret row) in
  match in_kind row with
  | IK_SSH => validate_secret IK_SSH value ;; pret "Key format verified; server access not tested"
  | IK_TELEGRAM => validate_secret IK_TELEGRAM value ;; pret "Telegram token verified"
  | kind =>
      let github := String.eqb (in_host row) "github.com" in
      let host := if github then "api.github.com" else in_host row in
      let path := if bool_decide (kind = IK_GITLAB) then "/api/v4/user"
                  else if github then "/user" else "/api/v3/user" in
      let header := if bool_decide (kind = IK_GITLAB) then ("PRIVATE-TOKEN", value)
                    else ("Authorization", "Bearer " ++ value) in
      except (fun e => match raised "HTTPError" e with
                       | Some _ => praise (ValueError "Provider connection failed; check host, token and permissions")
                       | None => praise e
                       end) (ie_provider_get E ("https://" ++ host ++ path) header) ;;
      pret "Provider connection verified"
  end.

(* ------------------------------------------------------------------ *)
(** * The files of the agent *)

Definition CLI_TOKENS : string := "cli-tokens.json".
Definition MANAGED : string := "managed_".
Definition managed (id : Z) : string := MANAGED ++ str_of_Z id.

(** [root.glob("managed_*")]: names of the directory. *)
Definition name_in (dir path : string) : option string :=
  if startswith path (dir ++ "/")
  then let name := str_drop (String.length dir + 1) path in
       if all_chars (fun c => negb (Ascii.eqb c "/")) name && startswith name MANAGED then Some name else None
  else None.
Definition glob_managed (dir : string) (w : world) : list string :=
  omap (name_in dir) (map fst (map_to_list (w_files w))).

Definition is_active (row : integration) : bool := in_enabled row && negb (bool_decide (in_kind row = IK_TELEGRAM)).

Fixpoint decode_rows (rows : list integration) : prog world exn (list (integration * string)) :=
  match rows with
  | [] => pret []
  | row :: rest =>
      let! secret := unseal (in_secret row) in
      let! decoded := decode_rows rest in
      pret ((row, secret) :: decoded)
  end.

Definition ssh_block (row : integration) : string :=
  "Host " ++ in_name row ++ newline ++ "    HostName " ++ in_host row ++ newline ++
  "    User " ++ in_username row ++ newline ++
  "    IdentityFile ~/.ssh/" ++ managed (in_id row) ++ newline ++
  "    IdentitiesOnly yes" ++ newline ++
  "    StrictHostKeyChecking accept-new" ++ newline.

Definition git_user (row : integration) : string :=
  or_else (Some (in_username row)) (if bool_decide (in_kind row = IK_GITLAB) then "oauth2" else "x-access-token").

Definition kind_value (k : IntegrationKind) : string :=
  match k with IK_GITHUB => "github" | IK_GITLAB => "gitlab" | IK_SSH => "ssh" | IK_TELEGRAM => "telegram" end.

(** What the loop collects. *)
Record collected := mk_collected {
  co_config : list string;
  co_credentials : list string;
  co_tokens : list (string * string * string);
  co_keep : list string
}.

Fixpoint write_rows (dir : string) (decoded : list (integration * string)) (acc : collected) : prog world exn collected :=
  match decoded with
  | [] => pret acc
  | (row, secret) :: rest =>
      if bool_decide (in_kind row = IK_SSH) then
        let filename := managed (in_id row) in
        write_secret dir filename (encode (secret ++ newline)) ;;
        write_rows dir rest (mk_collected (co_config acc ++ [ssh_block row]) (co_credentials acc)
                               (co_tokens acc) (co_keep acc ++ [filename]))
      else
        write_rows dir rest (mk_collected (co_config acc)
          (co_credentials acc ++ [credential_line (git_user row) secret (in_host row)])
          (co_tokens acc ++ [(kind_value (in_kind row), in_host row, secret)]) (co_keep acc))
  end%list.

Definition unlink_all (dir : string) (keep : string -> bool) : prog world exn unit :=
  fun w => for_each (List.filter (fun n => negb (keep n)) (glob_managed dir w))
             (fun n => unlink (file_in dir n)) w.

(** [materialize]. *)
Definition materialize (rows : list integration) (dir : string) : prog world exn unit :=
  vault_lock dir (
    let! decoded := except (fun e => match e with
        | ValueError _ =>
            write_secret dir CONFIG_FILE "" ;;
            write_secret dir CREDENTIALS_FILE "" ;;
            write_secret dir CLI_TOKENS "[]" ;;
            unlink_all dir (fun _ => false) ;;
            praise e
        | _ => praise e
        end) (decode_rows (List.filter is_active rows)) in
    let! acc := write_rows dir decoded (mk_collected [] [] [] []) in
    write_secret dir CONFIG_FILE (encode (join newline (co_config acc))) ;;
    write_secret dir CREDENTIALS_FILE (encode (join newline (co_credentials acc) ++ newline)) ;;
    write_secret dir CLI_TOKENS (ie_dump_tokens E (co_tokens acc)) ;;
    unlink_all dir (fun n => existsb (String.eqb n) (co_keep acc))).

(* ------------------------------------------------------------------ *)
(** * The settings API *)

Definition HTTPException (status : Z) (detail : string) : exn :=
  OtherException "HTTPException" (str_of_Z status ++ " " ++ detail).

Definition bad_request {A} (m : prog world exn A) : prog world exn A :=
  except (fun e => match e with ValueError s => praise (HTTPException 400 s) | _ => praise e end) m.

Fixpoint views (rows : list integration) : prog world exn (list IntegrationView) :=
  match rows with
  | [] => pret []
  | row :: rest => let! v := lift_result (view row) in let! vs := views rest in pret (v :: vs)
  end.

Definition list_integrations : prog world exn (list IntegrationView) :=
  with_session (let! rows := integ_list in views rows).

(** [save], behind the two routes. *)
Definition save_integration (data : IntegrationInput) (entry_id : option Z) : prog world exn IntegrationView :=
  bad_request (with_session (
    let! row := integ_save data entry_id in
    commit ;;
    lift_result (view row))).
Definition create_integration (data : IntegrationInput) := save_integration data None.
Definition update_integration (entry_id : Z) (data : IntegrationInput) := save_integration data (Some entry_id).

Definition delete_integration (entry_id : Z) : prog world exn unit :=
  with_session (
    let! row := integ_get entry_id in
    match row with
    | None => praise (HTTPException 404 "Integration not found")
    | Some row =>
        sql_write (fun d => set_integrations
          (List.filter (fun i => negb (Z.eqb (in_id i) (in_id row))) (db_integrations d)) d) ;;
        commit
    end).

Definition check_integration (entry_id : Z) : prog world exn string :=
  with_session (
    let! row := integ_get entry_id in
    match row with
    | None => praise (HTTPException 404 "Integration not found")
    | Some row => bad_request (integ_check row)
    end).
End Integrations.

(* ------------------------------------------------------------------ *)
(** * The table *)

(** Two rows that may stand side by side. *)
Definition compatible (i j : integration) : Prop :=
  in_name i <> in_name j /\ ~ (in_kind i = IK_TELEGRAM /\ in_kind j = IK_TELEGRAM) /\
  ~ (is_git (in_kind i) = true /\ in_kind i = in_kind j /\ in_host i = in_host j).

Definition row_ok (i : integration) : Prop :=
  (in_kind i <> IK_TELEGRAM -> valid_host (in_host i) = true) /\
  (in_kind i = IK_SSH -> valid_name (in_name i) = true /\ valid_user (in_username i) = true).

Record table_wf (rows : list integration) (seq : Z) : Prop := {
  tw_ids : NoDup (map in_id rows);
  tw_fresh : Forall (fun i => in_id i < seq) rows;
  tw_rows : Forall row_ok rows;
  tw_pairs : forall i j, i ∈ rows -> j ∈ rows -> in_id i <> in_id j -> compatible i j
}.

Lemma compatible_sym i j : compatible i j -> compatible j i.
Proof. unfold compatible. intros (H1 & H2 & H3). split_and!; [congruence|tauto|]. intros (? & ? & ?). apply H3. split_and!; congruence. Qed.

Lemma table_wf_mono rows seq seq' : seq <= seq' -> table_wf rows seq -> table_wf rows seq'.
Proof. intros Hle [H1 H2 H3 H4]. split; [done| |done|done]. eapply Forall_impl; [exact H2|]. simpl. lia. Qed.

Lemma table_wf_sub rows rows' seq : rows' `sublist_of` rows -> table_wf rows seq -> table_wf rows' seq.
Proof.
  intros Hs [H1 H2 H3 H4].
  assert (Hin : forall i, i ∈ rows' -> i ∈ rows) by (intros; by eapply elem_of_sublist).
  split.
  - by eapply sublist_NoDup; [exact H1|apply fmap_sublist].
  - apply Forall_forall. intros i Hi. apply (proj1 (Forall_forall _ _) H2), Hin, Hi.
  - apply Forall_forall. intros i Hi. apply (proj1 (Forall_forall _ _) H3), Hin, Hi.
  - auto.
Qed.

Lemma table_wf_add rows seq r :
  table_wf rows seq -> seq <= in_id r -> row_ok r -> (forall i, i ∈ rows -> compatible i r) ->
  table_wf (rows ++ [r])%list (in_id r + 1).
Proof.
  intros [H1 H2 H3 H4] Hid Hr Hc. pose proof (proj1 (Forall_forall _ _) H2) as Hlt. split.
  - rewrite List.map_app. apply NoDup_app. split_and!; [done| |apply NoDup_singleton].
    intros k (i & Hk & Hi)%list_elem_of_fmap Hs%list_elem_of_singleton. specialize (Hlt i Hi). simpl in Hlt. lia.
  - apply Forall_app. split; [|by constructor; [lia|]]. eapply Forall_impl; [exact H2|]. simpl. lia.
  - apply Forall_app. by split; [|constructor].
  - intros i j [Hi|Hi%list_elem_of_singleton]%elem_of_app [Hj|Hj%list_elem_of_singleton]%elem_of_app Hne; subst; auto.
    + by apply compatible_sym, Hc.
    + done.
Qed.

Lemma table_wf_update rows seq old r :
  table_wf rows seq -> old ∈ rows -> in_id r = in_id old -> row_ok r ->
  (forall i, i ∈ rows -> in_id i <> in_id r -> compatible i r) ->
  table_wf (update_where (fun i => Z.eqb (in_id i) (in_id old)) (fun _ => r) rows) seq.
Proof.
  intros [H1 H2 H3 H4] Ho Hid Hr Hc.
  assert (Hin : forall i, i ∈ update_where (fun i => Z.eqb (in_id i) (in_id old)) (fun _ => r) rows ->
    i = r \/ i ∈ rows /\ in_id i <> in_id r).
  { intros i (k & Hk & ->)%list_elem_of_In%in_update_where. apply list_elem_of_In in Hk.
    destruct (Z.eqb_spec (in_id k) (in_id old)); [by left|right; split; [done|congruence]]. }
  pose proof (proj1 (Forall_forall _ _) H2) as Hlt. pose proof (proj1 (Forall_forall _ _) H3) as Hok.
  split.
  - replace (map in_id (update_where _ _ rows)) with (map in_id rows); [done|].
    unfold update_where. rewrite map_map. apply map_ext. intros i. destruct (Z.eqb_spec (in_id i) (in_id old)); congruence.
  - apply Forall_forall. intros i [->|[Hi _]]%Hin; [rewrite Hid; by apply Hlt|by apply Hlt].
  - apply Forall_forall. intros i [->|[Hi _]]%Hin; [done|by apply Hok].
  - intros i j [->|[Hi Hni]]%Hin [->|[Hj Hnj]]%Hin Hne; [done|by apply compatible_sym, Hc|by apply Hc|by apply H4].
Qed.

(** What the steps before the row is written leave alone. *)
Definition quiet (w w' : world) : Prop :=
  (w_db w', w_tx w', w_files w') = (w_db w, w_tx w, w_files w) /\ w_seq w <= w_seq w'.

#[export] Instance quiet_preorder : PreOrder quiet.
Proof. split; [done|]. intros a b c [H1 H2] [H3 H4]. split; [congruence|lia]. Qed.

Lemma nextval_quiet : respects quiet nextval.
Proof. intros w. split; simpl; [done|lia]. Qed.
#[export] Hint Resolve nextval_quiet : frame.

Section Table.
Context (E : integ_env).
(** Telegram and the providers leave the database alone. *)
Context (Hme : forall token, respects quiet (ie_get_me E token)).
Context (Hget : forall url header, respects quiet (ie_provider_get E url header)).

Lemma cipher_same w : (cipher E w).2 = w.
Proof. unfold cipher. destruct (w_files w !! ie_key_path E); [|done]. by destruct (ie_fernet_ok _ _). Qed.

Lemma cipher_quiet : respects quiet (cipher E).
Proof. intros w. by rewrite cipher_same. Qed.
#[local] Hint Resolve cipher_quiet Hme Hget : frame.

Lemma seal_quiet v : respects quiet (seal E v).
Proof. unfold seal. solve_frame. Qed.

Lemma unseal_quiet v : respects quiet (unseal E v).
Proof. unfold unseal. solve_frame. Qed.

Lemma validate_secret_quiet k v : respects quiet (validate_secret E k v).
Proof. unfold validate_secret. solve_frame. Qed.
#[local] Hint Resolve seal_quiet unseal_quiet validate_secret_quiet : frame.

Lemma save_options_quiet data row value verified : respects quiet (save_options E data row value verified).
Proof. unfold save_options, check_webhook. solve_frame. Qed.

Lemma check_unique_same data entry_id name row existing w a w' :
  check_unique data entry_id name row existing w = (Ok a, w') ->
  w' = w /\ (forall r, row = Some r -> in_kind r = ii_kind data) /\
  forall i, i ∈ existing -> is_other entry_id i = true ->
    in_name i <> name /\ ~ (in_kind i = IK_TELEGRAM /\ ii_kind data = IK_TELEGRAM).
Proof.
  unfold check_unique. destruct (existsb _ existing) eqn:E1; [done|].
  destruct (match row with Some r => _ | None => _ end) eqn:E2; [done|].
  destruct (_ && _) eqn:E3; [done|]. intros [= _ <-]. split; [done|]. split.
  - intros r ->. by apply negb_false_iff, bool_decide_eq_true in E2.
  - intros i Hi Ho. apply list_elem_of_In in Hi. split.
    + intros Hn. rewrite <- not_true_iff_false in E1. apply E1, existsb_exists. exists i. split; [done|].
      by rewrite Ho, Hn, String.eqb_refl.
    + intros [Hk Hd]. rewrite (bool_decide_eq_true_2 _ Hd) in E3. simpl in E3.
      rewrite <- not_true_iff_false in E3. apply E3, existsb_exists. exists i. split; [done|].
      rewrite Ho, bool_decide_eq_true_2; [done|congruence].
Qed.

Lemma check_host_same data entry_id name existing w host username w' :
  check_host data entry_id name existing w = (Ok (host, username), w') ->
  w' = w /\ (ii_kind data <> IK_TELEGRAM -> valid_host host = true) /\
  (ii_kind data = IK_SSH -> valid_name name = true /\ valid_user username = true) /\
  forall i, i ∈ existing -> is_other entry_id i = true ->
    ~ (is_git (ii_kind data) = true /\ in_kind i = ii_kind data /\ in_host i = host).
Proof.
  unfold check_host. intros (h & w1 & E1 & E2)%pbind_inv.
  assert (H1 : w1 = w /\ (ii_kind data <> IK_TELEGRAM -> valid_host h = true)).
  { revert E1. unfold validate_host. destruct (ii_kind data); try (intros [= _ <-]; by split);
      (destruct (valid_host _) eqn:Hh; [|done]; intros [= <- <-]; by split). }
  destruct H1 as [-> Hh]. apply pbind_inv in E2 as (u & w2 & E2 & E3).
  assert (H2 : w2 = w /\ (ii_kind data = IK_SSH -> valid_name name = true /\ valid_user u = true)).
  { revert E2. destruct (ii_kind data); try (intros [= _ <-]; by split).
    unfold validate_name, resolve_user, pbind. destruct (valid_name name) eqn:Hn; [|done]. cbn [pret].
    destruct (valid_user _) eqn:Hu; [|done]. intros [= <- <-]. by split. }
  destruct H2 as [-> Hu]. destruct (_ && _) eqn:E4; [done|]. injection E3 as <- <- <-.
  split; [done|]. split; [done|]. split; [done|]. intros i Hi Ho (Hg & Hk & Hhost).
  rewrite Hg in E4. simpl in E4. rewrite <- not_true_iff_false in E4. apply E4, existsb_exists.
  exists i. split; [by apply list_elem_of_In|]. rewrite Ho, Hhost, String.eqb_refl, bool_decide_eq_true_2; done.
Qed.

(** What a row that is written satisfies. *)
Definition saved (data : IntegrationInput) (r : integration) : Prop :=
  in_name r = strip (ii_name data) /\ in_kind r = ii_kind data /\ in_enabled r = ii_enabled data.

Lemma write_row_cases row f kind w r w' :
  write_row row f kind w = (Ok r, w') ->
  match row with
  | None => r = f (mk_integration (w_seq w) "" kind "" "" "" true [] (w_now w) (w_now w)) /\
      w' = set_tx (set_integrations (db_integrations (w_tx w) ++ [r])%list (w_tx w)) (set_seq (w_seq w + 1) w)
  | Some old => exists t, r = mk_integration (in_id (f old)) (in_name (f old)) (in_kind (f old)) (in_host (f old))
        (in_username (f old)) (in_secret (f old)) (in_enabled (f old)) (in_options (f old)) (in_created_at (f old)) t /\
      w' = set_tx (set_integrations
        (update_where (fun i => Z.eqb (in_id i) (in_id old)) (fun _ => r) (db_integrations (w_tx w))) (w_tx w)) w
  end.
Proof.
  unfold write_row, pbind, now, gets, nextval, sql_write, modify. destruct row as [old|].
  - destruct (_ && _); intros [= <- <-]; [|by eexists].
    exists (in_updated_at (f old)). split; [by destruct (f old)|done].
  - by intros [= <- <-].
Qed.

(** Nothing before the commit is seen, whatever happens. *)
Definition in_session (w w' : world) : Prop := w_db w' = w_db w /\ w_seq w <= w_seq w'.

#[export] Instance in_session_preorder : PreOrder in_session.
Proof. split; [done|]. intros a b c (H1 & H3) (H4 & H6). split; [congruence|lia]. Qed.

Lemma quiet_in_session {A} (m : prog world exn A) : respects quiet m -> respects in_session m.
Proof. intros H w. by destruct (H w) as [[= ? _ _] ?]. Qed.

Lemma integ_list_same w : integ_list E w = (Ok (sort_by (fun x y => ie_collate E (in_name x) (in_name y))
  (db_integrations (w_tx w))), w).
Proof. done. Qed.

Lemma integ_get_same entry_id w : (integ_get entry_id w).2 = w.
Proof. done. Qed.

Lemma check_unique_quiet data entry_id name row existing : respects quiet (check_unique data entry_id name row existing).
Proof. unfold check_unique. solve_frame. Qed.

Lemma check_host_quiet data entry_id name existing : respects quiet (check_host data entry_id name existing).
Proof. unfold check_host, validate_host, validate_name, resolve_user. solve_frame. Qed.
#[local] Hint Resolve save_options_quiet check_unique_quiet check_host_quiet : frame.

Lemma write_row_in_session row f kind : respects in_session (write_row row f kind).
Proof.
  unfold write_row, now. assert (respects in_session nextval) by apply quiet_in_session, nextval_quiet.
  assert (forall g, respects in_session (sql_write g)) by (intros g w; split; simpl; [done|lia]).
  solve_frame.
Qed.

Lemma integ_save_in_session data entry_id : respects in_session (integ_save E data entry_id).
Proof.
  assert (Hq : forall A (m : prog world exn A), respects quiet m -> respects in_session m) by (intros; by apply quiet_in_session).
  unfold integ_save.
  apply respects_bind; [typeclasses eauto|destruct entry_id; by intros w|]. intros row.
  destruct (_ && _); [by intros w|]. destruct (negb _); [by intros w|].
  apply respects_bind; [typeclasses eauto|by intros w|]. intros existing.
  apply respects_bind; [typeclasses eauto|apply Hq, check_unique_quiet|]. intros _.
  apply respects_bind; [typeclasses eauto|apply Hq, check_host_quiet|]. intros names.
  cbv zeta. destruct (value_required _ _); [by intros w|].
  apply respects_bind; [typeclasses eauto|apply Hq; solve_frame|]. intros verified.
  apply respects_bind; [typeclasses eauto|apply Hq, save_options_quiet|]. intros options.
  apply respects_bind; [typeclasses eauto|apply Hq; solve_frame|]. intros sealed. apply write_row_in_session.
Qed.

Lemma quiet_ok {A} (m : prog world exn A) w a w' : respects quiet m -> m w = (Ok a, w') -> quiet w w'.
Proof. intros H E0. specialize (H w). by rewrite E0 in H. Qed.

Lemma cipher_files w w' : w_files w' = w_files w -> (cipher E w').1 = (cipher E w).1.
Proof. unfold cipher. intros ->. destruct (w_files w !! _); [|done]. by destruct (ie_fernet_ok _ _). Qed.

Lemma seal_ok s w w5 v w7 :
  seal E s w5 = (Ok v, w7) -> w_files w5 = w_files w ->
  exists key n, (cipher E w).1 = Ok key /\ Some v = Some (ie_encrypt E key n s).
Proof.
  unfold seal. intros (key & w6 & Ec & E2)%pbind_inv Hf. rewrite <- (cipher_files _ _ Hf), Ec.
  injection E2 as <- _. by exists key, (w_seq w6).
Qed.

(** A successful save, step by step: the checks held, and the row was written. *)
Lemma integ_save_ok data entry_id w r w' :
  integ_save E data entry_id w = (Ok r, w') ->
  exists row host username options sealed w1,
    match entry_id with
    | Some id => exists old, row = Some old /\ List.find (fun i => Z.eqb (in_id i) id) (db_integrations (w_tx w)) = Some old
    | None => row = None
    end /\
    (forall o, row = Some o -> in_kind o = ii_kind data) /\
    (forall i, i ∈ db_integrations (w_tx w) -> is_other entry_id i = true ->
      in_name i <> strip (ii_name data) /\ ~ (in_kind i = IK_TELEGRAM /\ ii_kind data = IK_TELEGRAM) /\
      ~ (is_git (ii_kind data) = true /\ in_kind i = ii_kind data /\ in_host i = host)) /\
    (ii_kind data <> IK_TELEGRAM -> valid_host host = true) /\
    (ii_kind data = IK_SSH -> valid_name (strip (ii_name data)) = true /\ valid_user username = true) /\
    match ii_secret data with
    | Some s => exists key n, (cipher E w).1 = Ok key /\ sealed = Some (ie_encrypt E key n (strip s))
    | None => sealed = None /\ row <> None
    end /\
    quiet w w1 /\
    write_row row (fun r =>
      mk_integration (in_id r) (strip (ii_name data)) (in_kind r) host username
        (match sealed with Some s => s | None => in_secret r end)
        (ii_enabled data) options (in_created_at r) (in_updated_at r)) (ii_kind data) w1 = (Ok r, w').
Proof.
  unfold integ_save. intros (row & w1 & E1 & E2)%pbind_inv.
  assert (Hrow : w1 = w /\ row = match entry_id with Some id =>
    List.find (fun i => Z.eqb (in_id i) id) (db_integrations (w_tx w)) | None => None end)
    by (revert E1; destruct entry_id; by intros [= <- <-]).
  destruct Hrow as [-> Hrow]. destruct (_ && _) eqn:E3; [done|]. destruct (nonempty _); [|done]. cbn [negb] in E2.
  rewrite (pbind_ok _ _ _ _ _ (integ_list_same w)) in E2. set (existing := sort_by _ _) in E2.
  assert (Hex : forall i, i ∈ db_integrations (w_tx w) -> i ∈ existing)
    by (intros i Hi; unfold existing; by rewrite sort_by_Permutation).
  apply pbind_inv in E2 as ([] & w2 & E4 & E2). apply check_unique_same in E4 as (-> & Hkind & Huniq).
  apply pbind_inv in E2 as ([host username] & w3 & E5 & E2). apply check_host_same in E5 as (-> & Hh & Hu & Hgit).
  cbv zeta in E2. destruct (value_required _ _) eqn:Ev; [done|].
  apply pbind_inv in E2 as (verified & w4 & E6 & E2). apply quiet_ok in E6; [|solve_frame].
  apply pbind_inv in E2 as (options & w5 & E7 & E2). apply quiet_ok in E7; [|apply save_options_quiet].
  apply pbind_inv in E2 as (sealed & w6 & E8 & E2).
  assert (Hseal : match ii_secret data with
      | Some s => exists key n, (cipher E w).1 = Ok key /\ sealed = Some (ie_encrypt E key n (strip s))
      | None => sealed = None /\ row <> None end).
  { assert (Hf : w_files w5 = w_files w)
      by (destruct E6 as [[= _ _ H6] _], E7 as [[= _ _ H7] _]; congruence).
    revert E8. destruct (ii_secret data) as [s|]; simpl.
    2: { intros [= <- _]. split; [done|]. simpl in Ev. by apply bool_decide_eq_false in Ev. }
    intros (v & w7 & Es & [= <- _])%pbind_inv. by eapply seal_ok. }
  apply quiet_ok in E8; [|solve_frame].
  exists row, host, username, options, sealed, w6. split.
  { destruct entry_id as [id|]; [|done]. destruct row as [old|]; [by exists old|done]. }
  split; [done|]. split; [|split; [done|split; [done|split; [|split; [|exact E2]]]]].
  - intros i Hi Ho. destruct (Huniq i (Hex i Hi) Ho). split_and!; [done|done|by apply Hgit; [apply Hex|]].
  - exact Hseal.
  - by etransitivity; [|exact E8]; etransitivity.
Qed.

Definition tx_rows (w : world) : list integration := db_integrations (w_tx w).
Definition db_rows (w : world) : list integration := db_integrations (w_db w).

Lemma find_id id rows old :
  List.find (fun i => Z.eqb (in_id i) id) rows = Some old -> old ∈ rows /\ in_id old = id.
Proof. intros [H1 H2]%find_some. split; [by apply list_elem_of_In|by apply Z.eqb_eq]. Qed.

Lemma integ_save_table data entry_id w r w' :
  table_wf (tx_rows w) (w_seq w) -> integ_save E data entry_id w = (Ok r, w') ->
  table_wf (tx_rows w') (w_seq w') /\ r ∈ tx_rows w' /\ saved data r /\
  forall i, in_id i <> in_id r -> i ∈ tx_rows w' <-> i ∈ tx_rows w.
Proof.
  intros Hw (row & host & username & options & sealed & w1 & Hrow & Hkind & Hfree & Hh & Hu & _ & [[= _ Htx _] Hseq] & Hwr)
    %integ_save_ok.
  apply write_row_cases in Hwr. unfold tx_rows in *. destruct entry_id as [id|].
  - destruct Hrow as (old & -> & [Ho <-]%find_id). destruct Hwr as (t & Hr & ->). subst r. cbn [w_tx set_tx db_integrations set_integrations w_seq].
    rewrite Htx. cbn [in_id in_name in_kind in_host in_username in_enabled]. set (new := mk_integration _ _ _ _ _ _ _ _ _ _).
    specialize (Hkind _ eq_refl). split_and!.
    + eapply table_wf_mono; [exact Hseq|]. apply table_wf_update; [done..| |].
      * split; simpl; rewrite Hkind; [done|done].
      * intros i Hi Hne. destruct (Hfree i Hi) as (H1 & H2 & H3).
        { unfold is_other. rewrite bool_decide_eq_false_2; [done|]. by intros [= ?]. }
        unfold compatible. simpl. rewrite Hkind. split_and!; [done|tauto|]. intros (Hg & Hk & Hhost). apply H3.
        split_and!; congruence.
    + apply list_elem_of_In, in_update_where. exists old. rewrite Z.eqb_refl. split; [by apply list_elem_of_In|done].
    + by split_and!.
    + intros i Hne. rewrite list_elem_of_In, in_update_where. simpl in Hne. split.
      * intros (x & Hx & ->). destruct (Z.eqb_spec (in_id x) (in_id old)); [done|by apply list_elem_of_In].
      * intros Hi. exists i. split; [by apply list_elem_of_In|]. destruct (Z.eqb_spec (in_id i) (in_id old)); done.
  - rewrite Hrow in Hwr. destruct Hwr as (Hr & ->). cbn [w_tx set_tx set_seq db_integrations set_integrations w_seq]. rewrite Htx.
    assert (Hid : in_id r = w_seq w1) by (by rewrite Hr). split_and!.
    + rewrite <- Hid. apply table_wf_add with (seq := w_seq w); [done|lia| |].
      * rewrite Hr. split; simpl; done.
      * intros i Hi. destruct (Hfree i Hi eq_refl) as (H1 & H2 & H3). rewrite Hr. unfold compatible. simpl.
        split_and!; [done|tauto|]. intros (Hg & Hk & Hhost). apply H3. split_and!; congruence.
    + apply elem_of_app. right. by apply list_elem_of_singleton.
    + rewrite Hr. by split_and!.
    + intros i Hne. rewrite elem_of_app, list_elem_of_singleton. split; [intros [? | ->]; done|by left].
Qed.

Lemma integ_save_secret data entry_id w r w' :
  integ_save E data entry_id w = (Ok r, w') ->
  w_files w' = w_files w /\ (forall id, entry_id = Some id -> in_id r = id) /\
  match ii_secret data with
  | Some s => exists key n, (cipher E w).1 = Ok key /\ in_secret r = ie_encrypt E key n (strip s)
  | None => exists old, old ∈ tx_rows w /\ in_id old = in_id r /\ in_secret r = in_secret old
  end.
Proof.
  intros (row & host & username & options & sealed & w1 & Hrow & _ & _ & _ & _ & Hsec & [[= _ _ Hf] _] & Hwr)%integ_save_ok.
  apply write_row_cases in Hwr. destruct entry_id as [id|].
  - destruct Hrow as (old & -> & [Ho Hid]%find_id). destruct Hwr as (t & -> & ->). simpl.
    split; [done|]. split; [by intros ? [= <-]|]. destruct (ii_secret data) as [s|].
    + destruct Hsec as (key & n & Hk & ->). by exists key, n.
    + destruct Hsec as [-> _]. by exists old.
  - rewrite Hrow in Hwr. destruct Hwr as (-> & ->). simpl. split; [done|]. split; [done|].
    destruct (ii_secret data) as [s|].
    + destruct Hsec as (key & n & Hk & ->). by exists key, n.
    + by destruct Hsec.
Qed.

Lemma bad_request_world {A} (m : prog world exn A) w : (bad_request m w).2 = (m w).2.
Proof. unfold bad_request, except. destruct (m w) as [[a|[]] w']; done. Qed.

Lemma bad_request_ok {A} (m : prog world exn A) w a w' : bad_request m w = (Ok a, w') <-> m w = (Ok a, w').
Proof. unfold bad_request, except. destruct (m w) as [[b|[]] w1]; done. Qed.

(** A save commits the row it has written, or leaves the table as it was. *)
Lemma save_integration_cases data entry_id w :
  match save_integration E data entry_id w with
  | (Ok _, w') => exists r w1, integ_save E data entry_id (set_hooks [] (set_tx (w_db w) w)) = (Ok r, w1) /\
      db_rows w' = tx_rows w1 /\ w_seq w' = w_seq w1
  | (Raise _, w') => w_seq w <= w_seq w' /\
      (db_rows w' = db_rows w \/ exists r w1,
        integ_save E data entry_id (set_hooks [] (set_tx (w_db w) w)) = (Ok r, w1) /\
        db_rows w' = tx_rows w1 /\ w_seq w' = w_seq w1)
  end.
Proof.
  assert (Hin : let '(res, w') := with_session (let! row := integ_save E data entry_id in
      commit ;; lift_result (view E row)) w in
    match res with
    | Ok _ => exists r w1, integ_save E data entry_id (set_hooks [] (set_tx (w_db w) w)) = (Ok r, w1) /\
        db_rows w' = tx_rows w1 /\ w_seq w' = w_seq w1
    | Raise _ => w_seq w <= w_seq w' /\
        (db_rows w' = db_rows w \/ exists r w1,
          integ_save E data entry_id (set_hooks [] (set_tx (w_db w) w)) = (Ok r, w1) /\
          db_rows w' = tx_rows w1 /\ w_seq w' = w_seq w1)
    end).
  { unfold with_session, pbind at 1. set (w0 := set_hooks _ _).
    pose proof (integ_save_in_session data entry_id w0) as [Hdb Hseq].
    destruct (integ_save E data entry_id w0) as [[r|e] w1] eqn:E1; cbn [snd] in Hdb, Hseq.
    - unfold pbind. pose proof (commit_ok w1) as Hc. pose proof (commit_sqlview w1) as Hv.
      destruct (commit w1) as [[[]|e] w2]; simpl in Hc, Hv; [|done]. unfold sqlview in Hv. injection Hv as H1 H2 H3 H4 H5.
      assert (Hr : db_rows (set_hooks [] (set_tx (w_db w2) w2)) = tx_rows w1 /\ w_seq w2 = w_seq w1)
        by (unfold db_rows, tx_rows; simpl; by rewrite H1).
      unfold lift_result. destruct (view E r); [by exists r, w1|]. split; [simpl in *; lia|]. right. by exists r, w1.
    - simpl. split; [done|]. left. unfold db_rows. simpl. by rewrite Hdb. }
  unfold save_integration, bad_request, except. destruct (with_session _ w) as [[v|[]] w']; exact Hin.
Qed.

(** What may happen to the table: the routes of the settings API, and anything that leaves it
    alone. *)
Inductive integ_step : world -> world -> Prop :=
| StepSave data entry_id w : integ_step w (save_integration E data entry_id w).2
| StepDelete entry_id w : integ_step w (delete_integration entry_id w).2
| StepCheck entry_id w : integ_step w (check_integration E entry_id w).2
| StepOther w w' : db_rows w' = db_rows w -> w_seq w <= w_seq w' -> integ_step w w'.

Lemma save_table data entry_id w r w1 :
  table_wf (db_rows w) (w_seq w) ->
  integ_save E data entry_id (set_hooks [] (set_tx (w_db w) w)) = (Ok r, w1) ->
  table_wf (tx_rows w1) (w_seq w1).
Proof. intros Hw H. by apply integ_save_table in H as (? & _). Qed.

Lemma delete_integration_rows entry_id w :
  let w' := (delete_integration entry_id w).2 in
  w_seq w' = w_seq w /\ (db_rows w' = db_rows w \/
    db_rows w' = List.filter (fun i => negb (Z.eqb (in_id i) entry_id)) (db_rows w)).
Proof.
  destruct (delete_integration entry_id w) as [res w'] eqn:E0. simpl. revert E0.
  unfold delete_integration, with_session, pbind at 1, integ_get, sql, gets. set (w0 := set_hooks _ _).
  destruct (List.find _ _) as [row|] eqn:Ef; [|by simpl; intros [= <- <-]; split; [|left]].
  apply find_id in Ef as [_ <-]. unfold sql_write, modify, pbind at 1. set (w1 := set_tx _ w0).
  pose proof (commit_effect w1) as (H1 & _ & H4 & _). destruct (commit w1) as [x w2].
  simpl. intros [= <- <-]. simpl in *. split; [done|]. right. unfold db_rows. simpl. by rewrite H1.
Qed.

Lemma integ_step_table w w' :
  integ_step w w' -> table_wf (db_rows w) (w_seq w) -> table_wf (db_rows w') (w_seq w').
Proof.
  intros Hs Hw. destruct Hs as [data entry_id w|entry_id w|entry_id w|w w' Hr Hq].
  - pose proof (save_integration_cases data entry_id w) as H.
    destruct (save_integration E data entry_id w) as [[v|e] w']; simpl.
    + destruct H as (r & w1 & H & -> & ->). by eapply save_table.
    + destruct H as (Hseq & [->|(r & w1 & H & -> & ->)]); [by eapply table_wf_mono|by eapply save_table].
  - destruct (delete_integration_rows entry_id w) as (-> & [->| ->]); [done|].
    eapply table_wf_sub; [|exact Hw]. clear Hw. induction (db_rows w) as [|i l IH]; [done|]. simpl.
    destruct (negb _); by constructor.
  - assert (Hc : forall row, respects quiet (integ_check E row)).
    { intros row. unfold integ_check. destruct (in_kind row); solve_frame. }
    assert (Hs : respects in_session (check_integration E entry_id)).
    { intros w0. unfold check_integration, with_session, pbind, integ_get, sql, gets. set (w1 := set_hooks _ _).
      destruct (List.find _ _) as [row|]; [|by split]. specialize (Hc row w1).
      pose proof (bad_request_world (integ_check E row) w1) as Hb. rewrite <- Hb in Hc.
      destruct (bad_request _ w1) as [x w2]. destruct Hc as [H1 H3]. apply (f_equal (fun x => x.1.1)) in H1. by split. }
    destruct (Hs w) as (H1 & H3). unfold db_rows in *. rewrite H1. by eapply table_wf_mono.
  - rewrite Hr. by eapply table_wf_mono.
Qed.

Lemma integ_run_table w w' :
  rtc integ_step w w' -> table_wf (db_rows w) (w_seq w) -> table_wf (db_rows w') (w_seq w').
Proof. induction 1 as [|a b c Hs _ IH]; [done|]. intros H. by apply IH, integ_step_table with a. Qed.
End Table.

(* ------------------------------------------------------------------ *)
(** * The files *)

Definition is_ssh (row : integration) : bool := bool_decide (in_kind row = IK_SSH).
Definition ssh_rows (decoded : list (integration * string)) := List.filter (fun rs => is_ssh rs.1) decoded.
Definition git_rows (decoded : list (integration * string)) := List.filter (fun rs => negb (is_ssh rs.1)) decoded.

(** The shape of a key file's name. *)
Definition managed_name (f : string) : bool :=
  all_chars (fun c => negb (Ascii.eqb c "/")) f && startswith f MANAGED.

Lemma managed_shape id : managed_name (managed id) = true.
Proof.
  unfold managed_name, managed. rewrite startswith_app, andb_true_r.
  apply (free_of_app "/"). split; [done|]. by apply free_of_num.
Qed.

Lemma managed_inj id id' : managed id = managed id' -> id = id'.
Proof. unfold managed. intros H%append_inj_l. by apply str_of_Z_inj. Qed.

Lemma managed_visible f : managed_name f = true -> hidden f = false.
Proof.
  intros [_ H]%andb_true_iff. apply startswith_iff in H as [r ->]. done.
Qed.

Section Files.
Context (dir : string).

Lemma glob_spec w n : n ∈ glob_managed dir w <-> managed_name n = true /\ is_Some (fget dir w n).
Proof.
  unfold glob_managed, fget. rewrite list_elem_of_omap. split.
  - intros (path & Hp & Hn). unfold name_in in Hn. destruct (startswith path (dir ++ "/")) eqn:Es; [|done].
    apply startswith_iff in Es as [r ->].
    replace (String.length dir + 1)%nat with (String.length (dir ++ "/")) in Hn by (rewrite length_append; simpl; lia).
    rewrite str_drop_app in Hn. destruct (_ && _) eqn:Em; [|done]. injection Hn as <-.
    split; [exact Em|]. apply list_elem_of_fmap in Hp as ([p data] & Hpath & Hin). simpl in Hpath.
    apply elem_of_map_to_list in Hin. unfold file_in. rewrite append_assoc, Hpath, Hin. by eexists.
  - intros [Hm [data Hd]]. exists (file_in dir n). split.
    + apply list_elem_of_fmap. exists (file_in dir n, data). split; [done|by apply elem_of_map_to_list].
    + unfold name_in, file_in. rewrite append_assoc, startswith_app.
      replace (String.length dir + 1)%nat with (String.length (dir ++ "/")) by (rewrite length_append; simpl; lia).
      rewrite str_drop_app. unfold managed_name in Hm. by rewrite Hm.
Qed.

Lemma unlink_list_run g names w :
  files_are dir g w ->
  exists w', for_each names (fun n => unlink (file_in dir n)) w = (Ok tt, w') /\
    files_are dir (fun f => if existsb (String.eqb f) names then None else g f) w'.
Proof.
  revert g w. induction names as [|n names IH]; intros g w Hg; [by exists w|].
  destruct (unlink_run dir g n w Hg) as (w1 & E1 & _ & G1). destruct (IH _ _ G1) as (w2 & E2 & G2).
  exists w2. split; [simpl; by rewrite (pbind_ok _ _ _ _ _ E1)|]. intros f Hf. rewrite G2 by done.
  unfold fput. simpl. destruct (String.eqb f n), (existsb _ names); done.
Qed.

Lemma unlink_all_run g keep w :
  files_are dir g w ->
  exists w', unlink_all dir keep w = (Ok tt, w') /\
    files_are dir (fun f => if managed_name f && negb (keep f) then None else g f) w'.
Proof.
  intros Hg. unfold unlink_all. set (names := List.filter _ _).
  destruct (unlink_list_run g names w Hg) as (w' & E1 & G1). exists w'. split; [done|].
  intros f Hf. rewrite G1 by done. destruct (existsb _ names) eqn:Ex.
  - apply existsb_exists in Ex as (n & Hn & ->%String.eqb_eq). unfold names in Hn. apply filter_In in Hn as [Hn Hk].
    apply list_elem_of_In, glob_spec in Hn as [-> _]. by rewrite Hk.
  - destruct (managed_name f && negb (keep f)) eqn:Em; [|done]. apply andb_true_iff in Em as [Hm Hk].
    rewrite <- Hg by done. destruct (fget dir w f) eqn:Eg; [|done]. exfalso.
    rewrite <- not_true_iff_false in Ex. apply Ex, existsb_exists. exists f. split; [|apply String.eqb_refl].
    apply filter_In. split; [|done]. apply list_elem_of_In, glob_spec. split; [done|]. by eexists.
Qed.

(** The key files of the rows over [g]. *)
Definition key_files (decoded : list (integration * string)) (g : string -> option string) : string -> option string :=
  foldl (fun g rs => if is_ssh rs.1 then fput (managed (in_id rs.1)) (Some (encode (rs.2 ++ newline))) g else g) g decoded.

Definition collect (acc : collected) (decoded : list (integration * string)) : collected :=
  mk_collected
    (co_config acc ++ map (fun rs => ssh_block rs.1) (ssh_rows decoded))
    (co_credentials acc ++ map (fun rs => credential_line (git_user rs.1) rs.2 (in_host rs.1)) (git_rows decoded))
    (co_tokens acc ++ map (fun rs => (kind_value (in_kind rs.1), in_host rs.1, rs.2)) (git_rows decoded))
    (co_keep acc ++ map (fun rs => managed (in_id rs.1)) (ssh_rows decoded))%list.

Lemma write_rows_run decoded g acc w :
  files_are dir g w ->
  exists w', write_rows dir decoded acc w = (Ok (collect acc decoded), w') /\ files_are dir (key_files decoded g) w'.
Proof.
  revert g acc w. induction decoded as [|[row secret] decoded IH]; intros g acc w Hg.
  { exists w. split; [|done]. unfold collect. simpl. rewrite !app_nil_r. by destruct acc. }
  cbn [write_rows key_files foldl fst snd]. unfold collect, ssh_rows, git_rows, is_ssh in *. cbn [List.filter fst snd].
  destruct (bool_decide (in_kind row = IK_SSH)) eqn:Ek; cbn [negb map].
  - destruct (write_secret_run dir g (managed (in_id row)) (encode (secret ++ newline)) w Hg
      (managed_visible _ (managed_shape _))) as (w1 & E1 & _ & G1).
    cbv zeta. rewrite (pbind_ok _ _ _ _ _ E1). destruct (IH _ (mk_collected (co_config acc ++ [ssh_block row]) (co_credentials acc)
      (co_tokens acc) (co_keep acc ++ [managed (in_id row)]))%list _ G1) as (w2 & -> & G2).
    exists w2. split; [|exact G2]. cbn [co_config co_credentials co_tokens co_keep fst]. by rewrite <- !app_assoc.
  - destruct (IH _ (mk_collected (co_config acc) (co_credentials acc ++ [credential_line (git_user row) secret (in_host row)])
      (co_tokens acc ++ [(kind_value (in_kind row), in_host row, secret)]) (co_keep acc))%list _ Hg) as (w2 & -> & G2).
    exists w2. split; [|exact G2]. cbn [co_config co_credentials co_tokens co_keep fst snd]. by rewrite <- !app_assoc.
Qed.

(** The last writer of a key file is its only one. *)
Lemma key_files_lookup decoded g f :
  NoDup (map (fun rs => in_id rs.1) decoded) ->
  (forall row secret, (row, secret) ∈ ssh_rows decoded -> f = managed (in_id row) ->
     key_files decoded g f = Some (encode (secret ++ newline))) /\
  (f ∉ map (fun rs => managed (in_id rs.1)) (ssh_rows decoded) -> key_files decoded g f = g f).
Proof.
  revert g. induction decoded as [|[row secret] decoded IH]; intros g Hnd; [split; [by intros ? ? ?%elem_of_nil|done]|].
  cbn [map fst] in Hnd. apply NoDup_cons in Hnd as [Hni Hnd]. cbn [key_files foldl fst snd].
  destruct (IH (if is_ssh row then fput (managed (in_id row)) (Some (encode (secret ++ newline))) g else g) Hnd) as [IH1 IH2].
  assert (Hother : forall id, id ∉ map (fun rs => in_id rs.1) decoded ->
    managed id ∉ map (fun rs => managed (in_id rs.1)) (ssh_rows decoded)).
  { intros id Hid ([r s] & Hr & Hin)%list_elem_of_fmap. apply Hid, list_elem_of_fmap. exists (r, s).
    split; [by apply managed_inj|]. apply list_elem_of_In. apply list_elem_of_In, filter_In in Hin. apply Hin. }
  unfold ssh_rows in *. cbn [List.filter fst]. destruct (is_ssh row) eqn:Ek.
  - split.
    + intros r s [[= -> ->]|Hin]%elem_of_cons ->; [|by eapply IH1].
      unfold key_files in IH2. rewrite IH2 by (by apply Hother). unfold fput. by rewrite String.eqb_refl.
    + cbn [map fst]. intros [Hne Hf]%not_elem_of_cons. unfold key_files in IH2. rewrite IH2 by done. unfold fput.
      destruct (String.eqb_spec f (managed (in_id row))); [done|done].
  - split; [done|]. intros Hf. by apply IH2.
Qed.
End Files.

(** ** What the readers find *)

Definition row_lines (row : integration) : list string :=
  block_lines (alias_text [in_name row]) (in_host row) (in_username row) (managed (in_id row)).
Definition row_directives (row : integration) : list (list string) :=
  host_directives [in_name row] (in_host row) (in_username row) (managed (in_id row)).

Lemma all_chars_free p s : (forall c, p c = false -> free_of c s) -> all_chars p s = true.
Proof.
  induction s as [|c s IH]; intros H; [done|]. cbn [all_chars]. apply andb_true_iff. split.
  - destruct (p c) eqn:Ep; [done|]. specialize (H c Ep). unfold free_of in H. cbn [all_chars] in H.
    by rewrite Ascii.eqb_refl in H.
  - apply IH. intros d Hd. specialize (H d Hd). unfold free_of in *. cbn [all_chars] in H. by apply andb_true_iff in H as [_ H].
Qed.

Lemma managed_word id : word (managed id).
Proof.
  split; [|done]. unfold managed. rewrite all_chars_app. apply andb_true_iff. split; [done|].
  apply all_chars_free. intros c Hc. apply free_of_num.
  - apply not_true_iff_false. intros Hd. assert (Hp : plain_char c = true); [|congruence].
    apply (sweep is_digit); [by vm_compute|done].
  - apply Ascii.eqb_neq. by intros ->.
Qed.

Definition block_ok (row : integration) : Prop := word (in_name row) /\ word (in_host row) /\ word (in_username row).

Lemma ssh_block_text row :
  ssh_block row = join newline (row_lines row) ++ newline.
Proof. unfold ssh_block. cbn [row_lines block_lines join]. by rewrite <- !append_assoc. Qed.

Lemma ssh_block_lines row : block_ok row -> nonempty_lines (ssh_block row) = row_lines row.
Proof.
  intros (Hn & Hh & Hu). rewrite ssh_block_text, nonempty_lines_end. apply nonempty_lines_join, block_line_texts;
    [by repeat apply Forall_cons_2; try apply Forall_nil_2|done|done|apply managed_word].
Qed.

Lemma row_words row : block_ok row -> map words (row_lines row) = row_directives row.
Proof.
  intros (Hn & Hh & Hu). apply block_words;
    [by repeat apply Forall_cons_2; try apply Forall_nil_2|done|done|apply managed_word].
Qed.

Lemma nonempty_lines_concat ls : nonempty_lines (join newline ls) = List.concat (map nonempty_lines ls).
Proof.
  induction ls as [|l ls IH]; [done|]. destruct ls as [|l' ls]; [simpl; by rewrite app_nil_r|].
  change (join newline (l :: l' :: ls)) with (l ++ newline ++ join newline (l' :: ls)).
  by rewrite nonempty_lines_app, IH.
Qed.

Lemma blocks_seen rows :
  Forall block_ok rows ->
  ssh_directives (encode (join newline (map ssh_block rows))) = List.concat (map row_directives rows).
Proof.
  intros Hok. rewrite encode_ascii.
  - unfold ssh_directives. rewrite nonempty_lines_concat, map_map.
    induction Hok as [|row rows Hrow _ IH]; [done|]. cbn [map List.concat].
    rewrite List.filter_app, List.map_app, IH, ssh_block_lines by done. f_equal. exact (row_words _ Hrow).
  - apply join_ascii; [done|]. apply Forall_map. eapply Forall_impl; [exact Hok|].
    intros row (Hn & Hh & Hu). simpl. unfold ssh_block.
    assert (Ha : forall s, word s -> ascii_only s) by (intros s [H _]; by apply plain_ascii).
    generalize (managed_word (in_id row)). generalize (managed (in_id row)). intros key Hk.
    repeat apply ascii_app; auto; done.
Qed.

Section Materialize.
Context (E : integ_env).
Context (dir : string).

(** The secret of a row under the master key. *)
Definition plain (w : world) (row : integration) : option string :=
  match cipher E w with
  | (Ok key, _) => ie_decrypt E key (in_secret row)
  | (Raise _, _) => None
  end.

Lemma unseal_cases row w :
  (exists s, plain w row = Some s /\ unseal E (in_secret row) w = (Ok s, w)) \/
  (plain w row = None /\ exists m, unseal E (in_secret row) w = (Raise (ValueError m), w)).
Proof.
  unfold unseal, plain, pbind, cipher. destruct (w_files w !! ie_key_path E) as [data|]; [|right; split; [done|by eexists]].
  destruct (ie_fernet_ok _ _); [|right; split; [done|by eexists]].
  destruct (ie_decrypt _ _ _) as [s|]; [left; by exists s|right; split; [done|by eexists]].
Qed.

Lemma decode_rows_spec rows w :
  (exists secrets, map (plain w) rows = map Some secrets /\ decode_rows E rows w = (Ok (zip rows secrets), w)) \/
  (exists row m, row ∈ rows /\ plain w row = None /\ decode_rows E rows w = (Raise (ValueError m), w)).
Proof.
  induction rows as [|row rows IH]; [left; by exists []|]. cbn [decode_rows].
  destruct (unseal_cases row w) as [(s & Hp & Hs)|(Hp & m & Hs)].
  - rewrite (pbind_ok _ _ _ _ _ Hs). destruct IH as [(secrets & H1 & H2)|(r & m & Hr & Hn & H2)]; unfold pbind; rewrite H2.
    + left. exists (s :: secrets). simpl. by rewrite Hp, H1.
    + right. exists r, m. split; [by right|done].
  - right. exists row, m. split; [by left|]. unfold pbind. by rewrite Hs.
Qed.

(** The lock file is not the key. *)
Context (Hlock : ie_key_path E <> file_in dir ".lock").

Lemma plain_locked row w w0 : touch (file_in dir ".lock") w = (Ok tt, w0) -> plain w0 row = plain w row.
Proof.
  unfold touch, modify. intros [= <-]. unfold plain, cipher.
  destruct (w_files w !! file_in dir ".lock"); [done|]. cbn [w_files set_files].
  rewrite lookup_insert_ne by congruence. destruct (w_files w !! ie_key_path E); [|done]. by destruct (ie_fernet_ok _ _).
Qed.

Lemma lock_touch {A} (body : prog world exn A) w :
  exists w0, touch (file_in dir ".lock") w = (Ok tt, w0) /\ vault_lock dir body w = body w0 /\
    files_are dir (fget dir w) w0.
Proof.
  destruct (touch_run dir (fget dir w) ".lock" w (files_are_self dir w) eq_refl) as (w0 & E0 & _ & G).
  exists w0. split; [done|]. split; [|done]. unfold vault_lock. by rewrite (pbind_ok _ _ _ _ _ E0).
Qed.

(** The three generated files. *)
Lemma write_three g a b c w :
  files_are dir g w ->
  exists w', (write_secret dir CONFIG_FILE a ;; write_secret dir CREDENTIALS_FILE b ;; write_secret dir CLI_TOKENS c) w
      = (Ok tt, w') /\
    files_are dir (fput CLI_TOKENS (Some c) (fput CREDENTIALS_FILE (Some b) (fput CONFIG_FILE (Some a) g))) w'.
Proof.
  intros Hg. destruct (write_secret_run dir g CONFIG_FILE a w Hg eq_refl) as (w1 & E1 & _ & G1).
  destruct (write_secret_run dir _ CREDENTIALS_FILE b w1 G1 eq_refl) as (w2 & E2 & _ & G2).
  destruct (write_secret_run dir _ CLI_TOKENS c w2 G2 eq_refl) as (w3 & E3 & _ & G3).
  exists w3. by rewrite (pbind_ok _ _ _ _ _ E1), (pbind_ok _ _ _ _ _ E2).
Qed.

Lemma materialize_failed rows w row :
  row ∈ List.filter is_active rows -> plain w row = None ->
  exists m w', materialize E rows dir w = (Raise (ValueError m), w') /\
    files_are dir (fun f => if managed_name f then None
      else fput CLI_TOKENS (Some "[]") (fput CREDENTIALS_FILE (Some "") (fput CONFIG_FILE (Some "") (fget dir w))) f) w'.
Proof.
  intros Hrow Hp. unfold materialize.
  match goal with |- context [vault_lock dir ?b w] => destruct (lock_touch b w) as (w0 & Et & -> & Hg) end.
  destruct (decode_rows_spec (List.filter is_active rows) w0) as [(s & Hs & _)|(r & m & _ & _ & Hd)].
  { exfalso. apply list_elem_of_In in Hrow. apply (in_map (plain w0)) in Hrow.
    rewrite Hs, (plain_locked _ _ _ Et), Hp in Hrow. by apply in_map_iff in Hrow as (? & ? & _). }
  unfold pbind at 1. unfold except. rewrite Hd.
  destruct (write_three (fget dir w) "" "" "[]" w0 Hg) as (w1 & E1 & G1).
  destruct (unlink_all_run dir _ (fun _ => false) w1 G1) as (w2 & E2 & G2). exists m, w2. split.
  - revert E1. unfold pbind. destruct (write_secret dir CONFIG_FILE "" w0) as [[u|e] x]; [|done].
    destruct (write_secret dir CREDENTIALS_FILE "" x) as [[u'|e] y]; [|done]. intros ->. by rewrite E2.
  - intros f Hf. rewrite G2 by done. by rewrite andb_true_r.
Qed.

Definition decoded_ok (decoded : list (integration * string)) : Prop :=
  NoDup (map (fun rs => in_id rs.1) decoded) /\ Forall (fun rs => row_ok rs.1 /\ in_kind rs.1 <> IK_TELEGRAM) decoded.

Definition final_files (decoded : list (integration * string)) (g : string -> option string) : string -> option string :=
  let c := collect (mk_collected [] [] [] []) decoded in
  fun f => if managed_name f && negb (existsb (String.eqb f) (co_keep c)) then None
    else fput CLI_TOKENS (Some (ie_dump_tokens E (co_tokens c)))
      (fput CREDENTIALS_FILE (Some (encode (join newline (co_credentials c) ++ newline)))
        (fput CONFIG_FILE (Some (encode (join newline (co_config c)))) (key_files decoded g))) f.

Lemma materialize_done rows w decoded :
  (forall w0, (forall row, plain w0 row = plain w row) ->
     decode_rows E (List.filter is_active rows) w0 = (Ok decoded, w0)) ->
  exists w', materialize E rows dir w = (Ok tt, w') /\ files_are dir (final_files decoded (fget dir w)) w'.
Proof.
  intros Hd. unfold materialize.
  match goal with |- context [vault_lock dir ?b w] => destruct (lock_touch b w) as (w0 & Et & -> & Hg) end.
  unfold pbind at 1. unfold except. rewrite Hd by (intros; by apply plain_locked).
  destruct (write_rows_run dir decoded (fget dir w) (mk_collected [] [] [] []) w0 Hg) as (w1 & E1 & G1).
  rewrite (pbind_ok _ _ _ _ _ E1). set (c := collect _ decoded) in *.
  destruct (write_three _ (encode (join newline (co_config c)))
    (encode (join newline (co_credentials c) ++ newline)) (ie_dump_tokens E (co_tokens c)) w1 G1) as (w2 & E2 & G2).
  destruct (unlink_all_run dir _ (fun n => existsb (String.eqb n) (co_keep c)) w2 G2) as (w3 & E3 & G3).
  exists w3. split; [|exact G3].
  revert E2. unfold pbind. destruct (write_secret dir CONFIG_FILE _ w1) as [[u|e] x]; [|done].
  destruct (write_secret dir CREDENTIALS_FILE _ x) as [[u'|e] y]; [|done]. intros ->. done.
Qed.


Lemma final_keys decoded g row secret :
  NoDup (map (fun rs => in_id rs.1) decoded) -> (row, secret) ∈ ssh_rows decoded ->
  final_files decoded g (managed (in_id row)) = Some (encode (secret ++ newline)).
Proof.
  intros Hnd Hin. unfold final_files, collect. cbn [co_keep app].
  assert (Hx : existsb (String.eqb (managed (in_id row))) (map (fun rs => managed (in_id rs.1)) (ssh_rows decoded)) = true).
  { apply existsb_exists. exists (managed (in_id row)). split; [|apply String.eqb_refl].
    apply in_map_iff. exists (row, secret). split; [done|by apply list_elem_of_In]. }
  rewrite Hx, andb_false_r. unfold fput.
  repeat match goal with |- context [String.eqb ?a ?b] => change (String.eqb a b) with false end. cbv iota.
  by eapply key_files_lookup.
Qed.

Lemma final_no_others decoded g f :
  managed_name f = true -> is_Some (final_files decoded g f) ->
  exists row secret, (row, secret) ∈ ssh_rows decoded /\ f = managed (in_id row).
Proof.
  intros Hm. unfold final_files, collect. rewrite Hm. cbn [co_keep app andb].
  destruct (existsb _ _) eqn:Ex; [|by intros []]. intros _.
  apply existsb_exists in Ex as (n & Hn & ->%String.eqb_eq). apply in_map_iff in Hn as ([row secret] & <- & Hn).
  exists row, secret. split; [by apply list_elem_of_In|done].
Qed.

Lemma final_seen decoded g w' :
  decoded_ok decoded -> files_are dir (final_files decoded g) w' ->
  ssh_sees dir w' = List.concat (map (fun rs => row_directives rs.1) (ssh_rows decoded)) /\
  git_sees dir w' = map (fun rs => Some (encode (git_user rs.1), encode rs.2, in_host rs.1)) (git_rows decoded) /\
  fget dir w' CLI_TOKENS =
    Some (ie_dump_tokens E (map (fun rs => (kind_value (in_kind rs.1), in_host rs.1, rs.2)) (git_rows decoded))).
Proof.
  intros [_ Hok] Hf. unfold ssh_sees, git_sees. rewrite !Hf by done.
  unfold final_files, fput, collect.
  repeat match goal with |- context [managed_name ?a] => change (managed_name a) with false end.
  repeat match goal with |- context [String.eqb ?a ?b] =>
    first [change (String.eqb a b) with true | change (String.eqb a b) with false] end.
  cbn [andb co_config co_credentials co_tokens app]. cbv iota. split_and!; [| |done].
  - rewrite <- (map_map fst ssh_block). rewrite blocks_seen; [by rewrite map_map|]. apply Forall_map.
    apply Forall_forall. intros [row s] Hin. apply list_elem_of_In, filter_In in Hin as [Hin Hs].
    rewrite List.Forall_forall in Hok. destruct (Hok _ Hin) as [[Hh Hn] Hk]. simpl in *.
    apply bool_decide_eq_true in Hs. destruct (Hn Hs) as [Hn1 Hn2]. split_and!;
      [by apply valid_name_word|by apply valid_host_word, Hh|by apply valid_user_word].
  - unfold read_credentials.
    pose proof (read_credentials_body (map (fun rs => (git_user rs.1, rs.2, in_host rs.1)) (git_rows decoded))) as Hr.
    cbv zeta in Hr. rewrite !map_map in Hr. cbn [fst snd] in Hr. destruct Hr as (_ & E1 & E2).
    + apply Forall_map, Forall_forall. intros [row s] Hin. apply list_elem_of_In, filter_In in Hin as [Hin _].
      rewrite List.Forall_forall in Hok. destruct (Hok _ Hin) as [[Hh _] Hk]. simpl in *. by apply Hh.
    + rewrite E1, map_map. exact E2.
Qed.
End Materialize.

(** ** The property *)

Lemma zip_map_fst {A B} (l : list A) (k : list B) : List.length l = List.length k -> map fst (zip l k) = l.
Proof. revert k. induction l as [|x l IH]; intros [|y k] H; simpl in *; try lia; [done|]. f_equal. apply IH. lia. Qed.

Lemma active_ok rows seq secrets :
  table_wf rows seq -> List.length (List.filter is_active rows) = List.length secrets ->
  decoded_ok (zip (List.filter is_active rows) secrets).
Proof.
  intros [H1 _ H3 _] Hl. split.
  - rewrite <- (map_map fst in_id), zip_map_fst by done.
    eapply sublist_NoDup; [exact H1|]. apply fmap_sublist. clear. induction rows as [|i l IH]; [done|]. simpl.
    destruct (is_active i); by constructor.
  - apply Forall_forall. intros [row s] Hin.
    assert (Hr : row ∈ List.filter is_active rows).
    { rewrite <- (zip_map_fst _ secrets) by done. apply list_elem_of_fmap. by exists (row, s). }
    apply list_elem_of_In, filter_In in Hr as [Hr Ha]. rewrite List.Forall_forall in H3. split; [by apply H3|].
    simpl. unfold is_active in Ha. apply andb_true_iff in Ha as [_ Ha]. by apply negb_true_iff, bool_decide_eq_false in Ha.
Qed.

(** C20: What the settings API has accepted reaches the agent exactly. Whatever requests the
    table has seen, integrations have identifiers and names of their own, there is one
    Telegram bot at most and one connection per git provider and host; and materialising the
    table either leaves files in which OpenSSH reads one block per enabled SSH key, git one
    login per enabled connection with its secret byte for byte, and the directory one key file
    per enabled SSH key and no other; or, when some enabled secret cannot be decrypted, raises
    an error and leaves no secret in any of these files. *)
Theorem agent_files_exact E dir w w1 rows w2 :
  (forall token, respects quiet (ie_get_me E token)) ->
  (forall url header, respects quiet (ie_provider_get E url header)) ->
  ie_key_path E <> file_in dir ".lock" ->
  table_wf (db_rows w) (w_seq w) -> rtc (integ_step E) w w1 -> Permutation rows (db_rows w1) ->
  table_wf (db_rows w1) (w_seq w1) /\
  let '(r, w') := materialize E rows dir w2 in
  let active := List.filter is_active rows in
  match r with
  | Ok _ =>
      exists secrets, map (plain E w2) active = map Some secrets /\
      let keys := ssh_rows (zip active secrets) in
      let logins := git_rows (zip active secrets) in
      ssh_sees dir w' = List.concat (map (fun rs => row_directives rs.1) keys) /\
      git_sees dir w' = map (fun rs => Some (encode (git_user rs.1), encode rs.2, in_host rs.1)) logins /\
      fget dir w' CLI_TOKENS =
        Some (ie_dump_tokens E (map (fun rs => (kind_value (in_kind rs.1), in_host rs.1, rs.2)) logins)) /\
      (forall row secret, (row, secret) ∈ keys ->
         fget dir w' (managed (in_id row)) = Some (encode (secret ++ newline))) /\
      (forall f, managed_name f = true -> is_Some (fget dir w' f) ->
         exists row secret, (row, secret) ∈ keys /\ f = managed (in_id row))
  | Raise _ =>
      (exists row, row ∈ active /\ plain E w2 row = None) /\
      ssh_sees dir w' = [] /\ git_sees dir w' = [] /\ fget dir w' CLI_TOKENS = Some "[]" /\
      forall f, managed_name f = true -> fget dir w' f = None
  end.
Proof.
  intros Hme Hget Hlock Hw Hrun Hperm. pose proof (integ_run_table E Hme Hget _ _ Hrun Hw) as Ht.
  split; [done|]. assert (Hrows : table_wf rows (w_seq w1)).
  { destruct Ht as [H1 H2 H3 H4]. split; [by rewrite Hperm..|]. intros i j Hi Hj. rewrite Hperm in Hi, Hj. by apply H4. }
  cbv zeta. set (active := List.filter is_active rows).
  destruct (decode_rows_spec E active w2) as [(secrets & Hs & Hd)|(row & m & Hr & Hp & Hd)].
  - assert (Hl : List.length active = List.length secrets).
    { apply (f_equal List.length) in Hs. by rewrite !length_map in Hs. }
    destruct (materialize_done E dir Hlock rows w2 (zip active secrets)) as (w' & -> & Hf).
    { intros w0 H0. destruct (decode_rows_spec E active w0) as [(s' & Hs' & Hd')|(r & m & Hr & Hp & _)].
      - assert (s' = secrets) as ->; [|exact Hd'].
        rewrite (map_ext _ _ H0), Hs in Hs'. clear -Hs'. revert s' Hs'.
        induction secrets as [|s l IH]; intros [|s' l']; simpl; try done. intros [= -> H]. f_equal. by apply IH.
      - exfalso. rewrite H0 in Hp. apply list_elem_of_In in Hr. apply (in_map (plain E w2)) in Hr.
        rewrite Hs, Hp in Hr. by apply in_map_iff in Hr as (? & ? & _). }
    pose proof (active_ok _ _ _ Hrows Hl) as Hok.
    destruct (final_seen E dir _ _ w' Hok Hf) as (H1 & H2 & H3).
    exists secrets. split; [done|]. split_and!; [done..| |].
    + intros r s Hin. rewrite Hf by apply managed_visible, managed_shape. apply final_keys; [apply Hok|done].
    + intros f Hm. rewrite Hf by by apply managed_visible. by apply final_no_others.
  - destruct (materialize_failed E dir Hlock rows w2 row Hr Hp) as (m' & w' & -> & Hf).
    split; [by exists row|]. unfold ssh_sees, git_sees. rewrite !Hf by done. split_and!; [done..|].
    intros f Hm. rewrite Hf by by apply managed_visible. by rewrite Hm.
Qed.

Lemma plain_cipher E w i :
  plain E w i = match (cipher E w).1 with Ok key => ie_decrypt E key (in_secret i) | Raise _ => None end.
Proof. unfold plain. by destruct (cipher E w) as [[]]. Qed.

Lemma commit_files w : w_files (commit w).2 = w_files w.
Proof.
  unfold commit, pbind, gets, modify.
  assert (H : forall hooks w, w_files (for_each hooks fire w).2 = w_files w); [|by rewrite H].
  intros hooks w0. apply (respects_for_each (same w_files)). intros h. unfold fire, publish_activity. apply respects_except; [typeclasses eauto|by apply respects_redis_op|].
  intros []; auto with frame typeclass_instances.
Qed.

(** A save the settings API has answered is in the table: the row with the answered
    identifier has the name, kind and switch of the request and decrypts to the secret of the
    request, or to what it decrypted to before when the request has none; every other row is
    what it was. *)
Theorem integration_saved E data entry_id w v w' :
  (forall token, respects quiet (ie_get_me E token)) ->
  (forall key n s, ie_decrypt E key (ie_encrypt E key n s) = Some s) ->
  table_wf (db_rows w) (w_seq w) ->
  save_integration E data entry_id w = (Ok v, w') ->
  exists r, r ∈ db_rows w' /\ in_id r = iv_id v /\ (forall id, entry_id = Some id -> in_id r = id) /\
    saved data r /\
    match ii_secret data with
    | Some s => plain E w' r = Some (strip s)
    | None => exists old, old ∈ db_rows w /\ in_id old = in_id r /\ plain E w' r = plain E w old
    end /\
    forall i, in_id i <> in_id r -> i ∈ db_rows w' <-> i ∈ db_rows w.
Proof.
  intros Hme Hlaw Hw Hsave. apply (proj1 (bad_request_ok _ _ _ _)) in Hsave. revert Hsave.
  unfold with_session. set (w0 := set_hooks [] (set_tx (w_db w) w)).
  destruct ((let! row := integ_save E data entry_id in commit ;; lift_result (view E row)) w0) as [res w2] eqn:E0.
  intros [= -> <-]. apply pbind_inv in E0 as (r & w1 & E1 & E2).
  apply pbind_inv in E2 as ([] & w3 & Ec & E2). unfold lift_result in E2. injection E2 as Ev <-.
  pose proof (commit_effect w1) as (H1 & _). pose proof (commit_files w1) as H2. rewrite Ec in H1, H2. simpl in H1, H2.
  destruct (integ_save_table E Hme data entry_id w0 r w1 Hw E1) as (_ & Hin & Hsaved & Hother).
  destruct (integ_save_secret E Hme data entry_id w0 r w1 E1) as (Hfiles & Hid & Hsec).
  assert (Hdb : db_rows (set_hooks [] (set_tx (w_db w3) w3)) = tx_rows w1) by (unfold db_rows; simpl; by rewrite H1).
  assert (Hplain : forall i, plain E (set_hooks [] (set_tx (w_db w3) w3)) i = plain E w0 i).
  { intros i. rewrite !plain_cipher. by rewrite (cipher_files E w0 (set_hooks [] (set_tx (w_db w3) w3)))
      by (change (w_files w3 = w_files w0); by rewrite H2). }
  rewrite Hdb. exists r. split; [done|]. split; [|split; [done|split; [done|split; [|exact Hother]]]].
  - unfold view in Ev. destruct (ie_parse_telegram _ _); [|done]. by injection Ev as <-.
  - destruct (ii_secret data) as [s|].
    + destruct Hsec as (key & n & Hk & Hs). by rewrite Hplain, plain_cipher, Hk, Hs, Hlaw.
    + destruct Hsec as (old & Hold & Hoid & Hs). exists old. split; [done|]. split; [done|].
      by rewrite Hplain, !plain_cipher, Hs, (cipher_files E w w0 eq_refl).
Qed.

(* ------------------------------------------------------------------ *)
(** * Witnesses *)

Definition demo_integ : integ_env := {|
  ie_key_path := "/secrets/key"; ie_fernet_ok := nonempty; ie_generate_key := str_of_Z;
  ie_encrypt := fun key n v => key ++ ":" ++ v;
  ie_decrypt := fun key c => if startswith c (key ++ ":") then Some (str_drop (String.length (key ++ ":")) c) else None;
  ie_token_urlsafe := str_of_Z; ie_load_key := fun v => str_contains "PRIVATE KEY" v;
  ie_fingerprint := fun _ => Ok "SHA256:x"; ie_get_me := fun _ => pret (Some "bot");
  ie_provider_get := fun _ _ => pret tt; ie_parse_telegram := fun _ => Ok (mk_tg_options [] "");
  ie_bracketed_ok := fun _ => true; ie_collate := String.leb; ie_dump_tokens := fun _ => "[...]" |}.

Lemma demo_decrypts key n s : ie_decrypt demo_integ key (ie_encrypt demo_integ key n s) = Some s.
Proof. cbn [ie_decrypt ie_encrypt demo_integ]. rewrite append_assoc, startswith_app. by rewrite str_drop_app. Defined.

Definition demo_key_world : world := set_files {[ "/secrets/key" := "k1" ]} empty_world.
Definition ssh_input : IntegrationInput :=
  mk_input " work " IK_SSH "git.example.com" "" (Some "PRIVATE KEY") true (mk_tg_options [] "").
Definition hub_input : IntegrationInput :=
  mk_input "hub" IK_GITHUB "github.com" "" (Some ("t@k:n" ++ newline ++ "x")) true (mk_tg_options [] "").
Definition demo_saves : world :=
  (save_integration demo_integ hub_input None (save_integration demo_integ ssh_input None demo_key_world).2).2.
Definition demo_rows : list integration := db_rows demo_saves.

Lemma demo_me token : respects quiet (ie_get_me demo_integ token).
Proof. by intros w. Defined.
Lemma demo_get url header : respects quiet (ie_provider_get demo_integ url header).
Proof. by intros w. Defined.
Lemma demo_table : table_wf (db_rows demo_key_world) (w_seq demo_key_world).
Proof. split; [constructor..|]. intros i j Hi. by apply elem_of_nil in Hi. Defined.

(** With the key the files hold both connections; with another key nothing is left. *)
Lemma agent_files_exact_witness :
  let w' := (materialize demo_integ demo_rows "/vault" demo_saves).2 in
  ssh_sees "/vault" w' = host_directives ["work"] "git.example.com" "git" "managed_2" /\
  git_sees "/vault" w' = [Some ("x-access-token", "t@k:n" ++ newline ++ "x", "github.com")] /\
  fget "/vault" w' "managed_2" = Some ("PRIVATE KEY" ++ newline) /\
  let lost := (materialize demo_integ demo_rows "/vault" (set_files (<["/secrets/key" := "k2"]> (w_files w')) w')).2 in
  git_sees "/vault" lost = [] /\ fget "/vault" lost "managed_2" = None.
Proof.
  assert (Hrun : rtc (integ_step demo_integ) demo_key_world demo_saves).
  { eapply rtc_l; [apply StepSave|]. eapply rtc_l; [apply StepSave|]. apply rtc_refl. }
  cbv zeta. set (w' := (materialize demo_integ demo_rows "/vault" demo_saves).2).
  set (w2 := set_files (<["/secrets/key" := "k2"]> (w_files w')) w').
  pose proof (agent_files_exact demo_integ "/vault" demo_key_world demo_saves demo_rows w2 demo_me demo_get
    ltac:(discriminate) demo_table Hrun (Permutation_refl _)) as [_ H].
  assert (Hr : (materialize demo_integ demo_rows "/vault" w2).1 = Raise CANNOT_DECRYPT) by (vm_compute; reflexivity).
  destruct (materialize demo_integ demo_rows "/vault" w2) as [r w3]. simpl in Hr. subst r.
  destruct H as (_ & _ & Hg & _ & Hf).
  split; [vm_compute; reflexivity|]. split; [vm_compute; reflexivity|]. split; [vm_compute; reflexivity|].
  split; [exact Hg|apply Hf; reflexivity].
Defined.

Lemma integration_saved_witness :
  exists r, r ∈ db_rows demo_saves /\ in_name r = "hub" /\ plain demo_integ demo_saves r = Some ("t@k:n" ++ newline ++ "x").
Proof.
  set (w1 := (save_integration demo_integ ssh_input None demo_key_world).2).
  assert (Hw : table_wf (db_rows w1) (w_seq w1)).
  { apply (integ_run_table demo_integ demo_me demo_get demo_key_world); [|exact demo_table].
    eapply rtc_l; [apply StepSave|]. apply rtc_refl. }
  assert (Hs : exists v, (save_integration demo_integ hub_input None w1).1 = Ok v) by (eexists; vm_compute; reflexivity).
  destruct Hs as [v Hs]. unfold demo_saves. fold w1.
  destruct (save_integration demo_integ hub_input None w1) as [res w2] eqn:E0. simpl in Hs. subst res.
  destruct (integration_saved demo_integ hub_input None w1 v w2 demo_me demo_decrypts Hw E0)
    as (r & Hin & _ & _ & (Hname & _) & Hsec & _).
  exists r. split; [exact Hin|]. split; [exact Hname|exact Hsec].
Defined.
