(* ===== verification/PyTime.v ===== *)
(** The parts of Python's [datetime] that the program prints with: the civil date of a time,
    [isoformat] and [strftime]. Times are milliseconds since 1970-01-01 UTC. *)
From S2P Require Import Prelude PyStr.

Open Scope Z_scope.
Open Scope string_scope.

(** Year, month and day of a day counted from 1970-01-01 (proleptic Gregorian). *)
Definition civil (days : Z) : Z * Z * Z :=
  let z := days + 719468 in
  let era := z / 146097 in
  let doe := z mod 146097 in
  let yoe := (doe - doe / 1460 + doe / 36524 - doe / 146096) / 365 in
  let doy := doe - (365 * yoe + yoe / 4 - yoe / 100) in
  let mp := (5 * doy + 2) / 153 in
  let d := doy - (153 * mp + 2) / 5 + 1 in
  let m := if Z.ltb mp 10 then mp + 3 else mp - 9 in
  (yoe + era * 400 + (if Z.leb m 2 then 1 else 0), m, d).

(** A number in at least [n] digits. *)
Fixpoint zeros (n : nat) : string := match n with O => "" | S n' => "0" ++ zeros n' end.
Definition padded (n : nat) (z : Z) : string :=
  let s := str_of_Z z in zeros (n - String.length s) ++ s.

Record datetime := mk_datetime {
  dt_year : Z; dt_month : Z; dt_day : Z; dt_hour : Z; dt_minute : Z; dt_second : Z; dt_ms : Z
}.

(** [datetime.fromtimestamp(t, UTC)]. *)
Definition utc (t : Z) : datetime :=
  let s := t / 1000 in
  let '(y, m, d) := civil (s / 86400) in
  let r := s mod 86400 in
  mk_datetime y m d (r / 3600) (r mod 3600 / 60) (r mod 60) (t mod 1000).

Definition date_text (d : datetime) : string :=
  padded 4 (dt_year d) ++ "-" ++ padded 2 (dt_month d) ++ "-" ++ padded 2 (dt_day d).

(** [dt.isoformat()] of a time in UTC; the microseconds are left out when they are zero. *)
Definition isoformat (t : Z) : string :=
  let d := utc t in
  date_text d ++ "T" ++ padded 2 (dt_hour d) ++ ":" ++ padded 2 (dt_minute d) ++ ":" ++ padded 2 (dt_second d)
  ++ (if Z.eqb (dt_ms d) 0 then "" else "." ++ padded 6 (dt_ms d * 1000)) ++ "+00:00".

(** [dt.strftime("%Y-%m-%d %H:%M UTC")]. *)
Definition minute_text (t : Z) : string :=
  let d := utc t in
  date_text d ++ " " ++ padded 2 (dt_hour d) ++ ":" ++ padded 2 (dt_minute d) ++ " UTC".

Example epoch : isoformat 0 = "1970-01-01T00:00:00+00:00" /\
  isoformat 951782399123 = "2000-02-28T23:59:59.123000+00:00" /\
  isoformat 951868800000 = "2000-03-01T00:00:00+00:00" /\
  minute_text 1767225599000 = "2025-12-31 23:59 UTC" /\ minute_text (-1) = "1969-12-31 23:59 UTC".
Proof. vm_compute. done. Qed.
