(* ===== verification/Notes.v ===== *)
(** Notes: the service over the default notebook of a user ([services/notes/service.py]), the
    RPC ([rpc/notes.py]) and the tools of the agent ([mcp/tools/notes.py]).

    Postgres' full-text match and rank are a parameter, as the session tokens and the
    validation of their claims. *)
From S2P Require Import Prelude PyStr PyLib PyTime Json Models Events World Translate Services McpAuthz Auth.

Open Scope Z_scope.
Open Scope string_scope.

Definition DEFAULT_NOTEBOOK_TITLE : string := "Personal notes".

Definition LookupError (msg : string) : exn := OtherException "LookupError" msg.
Definition DataError : exn := OtherException "DataError" "".
Definition ValidationError : exn := OtherException "ValidationError" "".

(** [scalar_one_or_none] and [scalar_one]. *)
Definition scalar_one_or_none {A} (rows : list A) : prog world exn (option A) :=
  match rows with
  | [] => pret None
  | [x] => pret (Some x)
  | _ => praise (OtherException "MultipleResultsFound" "")
  end.
Definition scalar_one {A} (rows : list A) : prog world exn A :=
  match rows with
  | [] => praise (OtherException "NoResultFound" "")
  | [x] => pret x
  | _ => praise (OtherException "MultipleResultsFound" "")
  end.

(** A [String(n)] column takes at most [n] characters. *)
Definition varchar (n : nat) (s : string) : prog world exn unit :=
  if (String.length s <=? n)%nat then pret tt else praise DataError.

(* ------------------------------------------------------------------ *)
(** * [services/notes/service.py] *)

Definition personal_of (user_id : Z) (nb : notebook) : bool :=
  Z.eqb (nb_user_id nb) user_id && bool_decide (nb_kind nb = PERSONAL).

(** INSERT under the constraint uq_notebooks_user_kind, [ON CONFLICT DO NOTHING]. *)
Definition insert_notebook (nb : notebook) (d : database) : database :=
  if existsb (fun x => Z.eqb (nb_user_id x) (nb_user_id nb) && bool_decide (nb_kind x = nb_kind nb)) (db_notebooks d)
  then d else set_notebooks (db_notebooks d ++ [nb])%list d.

Definition default_notebook (user_id : Z) : prog world exn notebook :=
  let! rows := sql (fun d => List.filter (personal_of user_id) (db_notebooks d)) in
  let! found := scalar_one_or_none rows in
  match found with
  | Some nb => pret nb
  | None =>
      let! id := nextval in
      sql_write (insert_notebook (mk_notebook id user_id DEFAULT_NOTEBOOK_TITLE PERSONAL)) ;;
      let! rows := sql (fun d => List.filter (personal_of user_id) (db_notebooks d)) in
      scalar_one rows
  end.

(** [Note.user_id == user_id, Note.notebook_id == notebook.id]. *)
Definition owned_note (user_id notebook_id : Z) (n : note) : bool :=
  Z.eqb (n_user_id n) user_id && Z.eqb (n_notebook_id n) notebook_id.

Definition note_get (note_id user_id : Z) : prog world exn (option note) :=
  let! nb := default_notebook user_id in
  let! rows := sql (fun d =>
    List.filter (fun n => Z.eqb (n_id n) note_id && owned_note user_id (nb_id nb) n) (db_notes d)) in
  scalar_one_or_none rows.

(** The flushed assignments: no UPDATE when nothing has changed. *)
Definition update_note (n : note) (title body : string) (tags : list string) : prog world exn note :=
  if bool_decide ((n_title n, n_body n, n_tags n) = (title, body, tags)) then pret n
  else
    varchar 255 title ;;
    let! t := now in
    let n' := mk_note (n_id n) (n_user_id n) (n_notebook_id n) title body tags (n_created_at n) t in
    sql_write (fun d => set_notes (update_where (fun x => Z.eqb (n_id x) (n_id n)) (fun _ => n') (db_notes d)) d) ;;
    pret n'.

Definition upsert (note_id : option Z) (user_id : Z) (title body : string) (tags : list string) :
    prog world exn note :=
  let! nb := default_notebook user_id in
  match note_id with
  | None =>
      varchar 255 title ;;
      let! id := nextval in
      let! t := now in
      let n := mk_note id user_id (nb_id nb) title body tags t t in
      sql_write (fun d => set_notes (db_notes d ++ [n])%list d) ;;
      pret n
  | Some id =>
      let! found := note_get id user_id in
      match found with
      | None => praise (LookupError ("note " ++ str_of_Z id ++ " not found"))
      | Some n => update_note n title body tags
      end
  end.

(** [Note.tags.contains(tags)], when tags were given. *)
Definition has_tags (tags : option (list string)) (n : note) : bool :=
  match tags with
  | Some ts => forallb (fun t => existsb (String.eqb t) (n_tags n)) ts
  | None => true
  end.

(** [LIMIT limit OFFSET offset]. *)
Definition page {A} (limit offset : Z) (rows : list A) : list A :=
  firstn (Z.to_nat limit) (skipn (Z.to_nat offset) rows).

Definition note_list_rows (user_id : Z) (tags : option (list string)) (limit offset : Z) :
    prog world exn (list note) :=
  let! nb := default_notebook user_id in
  sql (fun d => page limit offset (order_by (fun n => - n_updated_at n)
    (List.filter (fun n => owned_note user_id (nb_id nb) n && has_tags tags n) (db_notes d)))).

Definition note_delete (note_id user_id : Z) : prog world exn bool :=
  let! found := note_get note_id user_id in
  match found with
  | None => pret false
  | Some n =>
      sql_write (fun d => set_notes (List.filter (fun x => negb (Z.eqb (n_id x) (n_id n))) (db_notes d)) d) ;;
      pret true
  end.

Section Notes.
(** [ts_rank(search_vector, websearch_to_tsquery(query))] of a note that matches, and the
    order of ranks. *)
Context {Rank : Type} (rank_ge : Rank -> Rank -> bool) (ts_rank : string -> note -> option Rank).

Definition ranked (query : string) (n : note) : option (note * Rank) :=
  match ts_rank query n with Some r => Some (n, r) | None => None end.

Definition note_search_rows (user_id : Z) (query : string) (tags : option (list string)) (limit offset : Z) :
    prog world exn (list (note * Rank)) :=
  let! nb := default_notebook user_id in
  sql (fun d => page limit offset (sort_by (fun x y => rank_ge x.2 y.2)
    (omap (ranked query)
      (List.filter (fun n => owned_note user_id (nb_id nb) n && has_tags tags n) (db_notes d))))).

(* ------------------------------------------------------------------ *)
(** * [rpc/notes.py] *)

Definition DEFAULT_LIMIT : Z := 50.
Definition MAX_LIMIT : Z := 200.

Definition resolve_page (limit offset : Z) : Z * Z :=
  (Z.min (if Z.ltb 0 limit then limit else DEFAULT_LIMIT) MAX_LIMIT, Z.max offset 0).

(** The message [notes_pb2.Note]. *)
Record NotePb := mk_note_pb {
  np_id : Z; np_title : string; np_body : string; np_tags : list string;
  np_created_at : Z; np_updated_at : Z
}.

Definition note_to_pb (n : note) : NotePb :=
  mk_note_pb (n_id n) (n_title n) (n_body n) (n_tags n) (n_created_at n) (n_updated_at n).

(** [list(request.tags) or None]. *)
Definition tags_or_none (tags : list string) : option (list string) :=
  match tags with [] => None | _ => Some tags end.

(** [db.refresh(note)]. *)
Definition refresh_note (n : note) : prog world exn note :=
  let! found := sql (fun d => List.find (fun x => Z.eqb (n_id x) (n_id n)) (db_notes d)) in
  match found with Some n' => pret n' | None => praise (OtherException "InvalidRequestError" "") end.

Definition not_found (note_id : Z) : exn := ConnectError "not_found" ("note " ++ str_of_Z note_id ++ " not found").

(** [except LookupError as exc: raise ...]. *)
Definition on_lookup_error {A} (f : string -> exn) (m : prog world exn A) : prog world exn A :=
  except (fun e => match raised "LookupError" e with Some msg => praise (f msg) | None => praise e end) m.

(** The transaction of a save, shared by the RPC and the tool. *)
Definition save_session (f : string -> exn) (note_id : option Z) (user_id : Z) (title body : string)
    (tags : list string) : prog world exn note :=
  with_session (
    let! n := on_lookup_error f (upsert note_id user_id title body tags) in
    commit ;;
    refresh_note n).

Section Handlers.
(** The user of a session cookie and the identity of a tool call's headers: [require_user]
    and [require_identity] with their settings. *)
Context (require_user : option string -> prog world exn user).
Context (require_identity : list (string * string) -> prog world exn McpIdentity).

Definition save_note (token : option string) (note_id : option Z) (title body : string) (tags : list string) :
    prog world exn NotePb :=
  let! u := require_user token in
  let! n := save_session (ConnectError "not_found") note_id (u_id u) title body tags in
  pret (note_to_pb n).

Definition get_note (token : option string) (note_id : Z) : prog world exn NotePb :=
  let! u := require_user token in
  let! found := with_session (note_get note_id (u_id u)) in
  match found with
  | None => praise (not_found note_id)
  | Some n => pret (note_to_pb n)
  end.

Definition search_notes (token : option string) (query : string) (tags : list string) (limit offset : Z) :
    prog world exn (list (NotePb * Rank)) :=
  let! u := require_user token in
  let '(limit, offset) := resolve_page limit offset in
  let! results := with_session (note_search_rows (u_id u) query (tags_or_none tags) limit offset) in
  pret (map (fun nr => (note_to_pb nr.1, nr.2)) results).

Definition list_notes (token : option string) (tags : list string) (limit offset : Z) :
    prog world exn (list NotePb) :=
  let! u := require_user token in
  let '(limit, offset) := resolve_page limit offset in
  let! rows := with_session (note_list_rows (u_id u) (tags_or_none tags) limit offset) in
  pret (map note_to_pb rows).

Definition delete_note (token : option string) (note_id : Z) : prog world exn unit :=
  let! u := require_user token in
  with_session (
    let! removed := note_delete note_id (u_id u) in
    if negb removed then praise (not_found note_id) else commit) ;;
  pret tt.

(* ------------------------------------------------------------------ *)
(** * [mcp/tools/notes.py] *)

Definition CODEX_TAG : string := "codex:auto".

Record NoteRef := mk_note_ref { nr_id : Z; nr_title : string; nr_tags : list string; nr_updated_at : string }.
Record NoteHit := mk_note_hit {
  nh_id : Z; nh_title : string; nh_body : string; nh_tags : list string; nh_updated_at : string;
  nh_rank : option Rank
}.

(** The constraints of the arguments, checked before the tool runs. *)
Definition valid_args (ok : bool) : prog world exn unit := if ok then pret tt else praise ValidationError.

Definition between_z (a b z : Z) : bool := Z.leb a z && Z.leb z b.

(** [sorted({*(tags or []), _CODEX_TAG})]. *)
Definition final_tags (tags : option (list string)) : list string :=
  sort_on (fun t => t) (remove_dups (default [] tags ++ [CODEX_TAG])%list).

Definition note_save (headers : list (string * string)) (title body : string) (tags : option (list string))
    (note_id : option Z) : prog world exn NoteRef :=
  valid_args (nonempty title && (String.length title <=? 255)%nat && nonempty body) ;;
  let! claims := require_identity headers in
  let! n := save_session ToolError note_id (mi_user_id claims) title body (final_tags tags) in
  pret (mk_note_ref (n_id n) (n_title n) (n_tags n) (isoformat (n_updated_at n))).

(** [if tags:] of the service. *)
Definition given_tags (tags : option (list string)) : option (list string) :=
  match tags with Some ts => tags_or_none ts | None => None end.

Definition note_hit (rank : option Rank) (n : note) : NoteHit :=
  mk_note_hit (n_id n) (n_title n) (n_body n) (n_tags n) (isoformat (n_updated_at n)) rank.

Definition note_search (headers : list (string * string)) (query : string) (tags : option (list string)) (limit : Z) :
    prog world exn (list NoteHit) :=
  valid_args (nonempty query && between_z 1 50 limit) ;;
  let! claims := require_identity headers in
  let! results := with_session (note_search_rows (mi_user_id claims) query (given_tags tags) limit 0) in
  pret (map (fun nr => note_hit (Some nr.2) nr.1) results).

Definition note_list (headers : list (string * string)) (tags : option (list string)) (limit : Z) :
    prog world exn (list NoteHit) :=
  valid_args (between_z 1 200 limit) ;;
  let! claims := require_identity headers in
  let! rows := with_session (note_list_rows (mi_user_id claims) (given_tags tags) limit 0) in
  pret (map (note_hit None) rows).
End Handlers.
End Notes.

(* ------------------------------------------------------------------ *)
(** * Lemmas *)

(** Identifiers are unique and below the sequence; a user has one notebook of a kind. *)
Record notes_wf (d : database) (seq : Z) : Prop := {
  nw_ids : NoDup (map n_id (db_notes d));
  nw_fresh : Forall (fun n => n_id n < seq) (db_notes d);
  nw_books : NoDup (map (fun nb => (nb_user_id nb, nb_kind nb)) (db_notebooks d))
}.

(** Everything but the notes and notebooks of a user. *)
Definition others (u : Z) (d : database) :=
  (set_notes [] (set_notebooks [] d),
   List.filter (fun n => negb (Z.eqb (n_user_id n) u)) (db_notes d),
   List.filter (fun nb => negb (Z.eqb (nb_user_id nb) u)) (db_notebooks d)).

(** A statement of user [u] inside a session. *)
Record own_step (u : Z) (w w' : world) : Prop := {
  os_db : w_db w' = w_db w;
  os_seq : w_seq w <= w_seq w';
  os_wf : notes_wf (w_tx w) (w_seq w) -> notes_wf (w_tx w') (w_seq w');
  os_others : others u (w_tx w') = others u (w_tx w)
}.

#[export] Instance own_step_preorder u : PreOrder (own_step u).
Proof.
  split; [by split|]. intros a b c [H1 H2 H3 H4] [K1 K2 K3 K4]. split; [congruence|lia|auto|congruence].
Qed.

Lemma own_tx u w w' : w_db w' = w_db w -> w_seq w' = w_seq w -> w_tx w' = w_tx w -> own_step u w w'.
Proof. intros H1 H2 H3. split; [done|lia|by rewrite H2, H3|by rewrite H3]. Qed.

Lemma notes_wf_later d s s' : s <= s' -> notes_wf d s -> notes_wf d s'.
Proof.
  intros Hs [H1 H2 H3]. split; [done| |done]. eapply Forall_impl; [exact H2|]. simpl. lia.
Qed.

Lemma personal_single u l :
  NoDup (map (fun nb => (nb_user_id nb, nb_kind nb)) l) ->
  List.filter (personal_of u) l = [] \/ exists nb, List.filter (personal_of u) l = [nb] /\ personal_of u nb = true.
Proof.
  induction l as [|nb l IH]; simpl; [by left|]. intros [Hni Hnd]%NoDup_cons.
  destruct (IH Hnd) as [H|(x & H & Hx)]; destruct (personal_of u nb) eqn:E; [..|by right; exists x].
  - right. exists nb. by rewrite H.
  - by left.
  - exfalso. apply Hni. assert (Hin : x ∈ l).
    { apply list_elem_of_In. assert (In x (List.filter (personal_of u) l)) as [? _]%filter_In by (rewrite H; by left). done. }
    replace (nb_user_id nb, nb_kind nb) with (nb_user_id x, nb_kind x).
    + apply list_elem_of_fmap. by exists x.
    + unfold personal_of in *. to_prop. destruct (nb_kind x), (nb_kind nb). congruence.
Qed.

(** The database and the sequence, and nothing pending. *)
Lemma default_notebook_spec u w :
  notes_wf (w_tx w) (w_seq w) ->
  exists nb, let '(r, w') := default_notebook u w in
    r = Ok nb /\ own_step u w w' /\ w_hooks w' = w_hooks w /\ w_now w' = w_now w /\
    db_notes (w_tx w') = db_notes (w_tx w) /\ List.filter (personal_of u) (db_notebooks (w_tx w')) = [nb].
Proof.
  intros [W1 W2 W3]. unfold default_notebook, pbind, sql, gets. cbn [fst snd].
  destruct (personal_single u _ W3) as [E|(nb & E & _)]; rewrite E.
  2: { exists nb. cbn. by split_and!. }
  cbn [scalar_one_or_none pret nextval fst snd sql_write modify w_tx set_tx set_seq].
  assert (Ef : existsb (fun x => Z.eqb (nb_user_id x) u && bool_decide (nb_kind x = PERSONAL))
    (db_notebooks (w_tx w)) = false).
  { apply not_true_iff_false. intros (x & Hx & Hp)%existsb_exists.
    assert (In x (List.filter (personal_of u) (db_notebooks (w_tx w)))) as Hi by (by apply filter_In). by rewrite E in Hi. }
  unfold insert_notebook. cbn [nb_user_id nb_kind]. rewrite Ef. cbn [db_notebooks set_notebooks db_notes].
  exists (mk_notebook (w_seq w) u DEFAULT_NOTEBOOK_TITLE PERSONAL).
  assert (Ep : personal_of u (mk_notebook (w_seq w) u DEFAULT_NOTEBOOK_TITLE PERSONAL) = true)
    by (unfold personal_of; by rewrite Z.eqb_refl).
  rewrite List.filter_app, E. cbn [List.filter app]. rewrite Ep. cbn [scalar_one pret].
  split_and!; try done.
  2: { cbn [w_tx set_tx db_notebooks set_notebooks]. rewrite List.filter_app, E. cbn [List.filter app]. by rewrite Ep. }
  split; cbn; [done|lia| |].
  - intros _. split; [done|eapply Forall_impl; [exact W2|simpl; lia]|].
    cbn [db_notebooks set_notebooks]. rewrite List.map_app. apply NoDup_app.
    split_and!; [done| |apply NoDup_singleton]. intros k (x & -> & Hx)%list_elem_of_fmap Hk%list_elem_of_singleton.
    assert (H1 : nb_user_id x = u) by (simpl in Hk; congruence).
    apply not_true_iff_false in Ef. apply Ef, existsb_exists. exists x. split; [by apply list_elem_of_In|].
    rewrite H1, Z.eqb_refl. by destruct (nb_kind x).
  - unfold others. cbn [db_notebooks set_notebooks db_notes]. rewrite List.filter_app. cbn. by rewrite Z.eqb_refl, app_nil_r.
Qed.

(** The rows of an identifier. *)
Lemma filter_id_single (p : note -> bool) i l :
  NoDup (map n_id l) ->
  List.filter (fun n => Z.eqb (n_id n) i && p n) l = [] \/
  exists n, List.filter (fun n => Z.eqb (n_id n) i && p n) l = [n] /\ In n l /\ n_id n = i /\ p n = true.
Proof.
  induction l as [|n l IH]; simpl; [by left|]. intros [Hni Hnd]%NoDup_cons.
  destruct (Z.eqb_spec (n_id n) i) as [Hi|Hi]; simpl.
  - assert (E : List.filter (fun n => Z.eqb (n_id n) i && p n) l = []).
    { destruct (IH Hnd) as [H|(x & _ & Hx & Hxi & _)]; [done|]. exfalso. apply Hni, list_elem_of_fmap.
      exists x. split; [congruence|by apply list_elem_of_In]. }
    rewrite E. destruct (p n) eqn:Ep; [right|by left]. exists n. auto.
  - destruct (IH Hnd) as [H|(x & H & Hx & Hxi & Hp)]; [by left|right]. exists x. auto.
Qed.

Lemma filter_id_found (p : note -> bool) n l :
  NoDup (map n_id l) -> In n l -> p n = true ->
  List.filter (fun x => Z.eqb (n_id x) (n_id n) && p x) l = [n].
Proof.
  intros Hnd Hin Hp. assert (Hf : In n (List.filter (fun x => Z.eqb (n_id x) (n_id n) && p x) l))
    by (apply filter_In; by rewrite Z.eqb_refl).
  destruct (filter_id_single p (n_id n) l Hnd) as [E|(x & E & _)]; rewrite E in *; [done|].
  by destruct Hf as [->|[]].
Qed.

Lemma find_id_found n l :
  NoDup (map n_id l) -> In n l -> List.find (fun x => Z.eqb (n_id x) (n_id n)) l = Some n.
Proof.
  induction l as [|x l IH]; [done|]. simpl. intros [Hni Hnd]%NoDup_cons [->|Hin]; [by rewrite Z.eqb_refl|].
  destruct (Z.eqb_spec (n_id x) (n_id n)) as [E|]; [|auto]. exfalso. apply Hni, list_elem_of_fmap.
  exists n. split; [done|by apply list_elem_of_In].
Qed.

(** [NoteService.get]: the user's note with this identifier in the default notebook. *)
Lemma note_get_spec i u w :
  notes_wf (w_tx w) (w_seq w) ->
  exists nb found, let '(r, w') := note_get i u w in
    r = Ok found /\ own_step u w w' /\ w_hooks w' = w_hooks w /\ w_now w' = w_now w /\
    db_notes (w_tx w') = db_notes (w_tx w) /\ List.filter (personal_of u) (db_notebooks (w_tx w')) = [nb] /\
    match found with
    | Some n => In n (db_notes (w_tx w)) /\ n_id n = i /\ owned_note u (nb_id nb) n = true
    | None => forall n, In n (db_notes (w_tx w)) -> n_id n = i -> owned_note u (nb_id nb) n = false
    end.
Proof.
  intros Hw. destruct (default_notebook_spec u w Hw) as (nb & H). exists nb. unfold note_get, pbind.
  destruct (default_notebook u w) as [r w1]. destruct H as (-> & H1 & Hh & Hn & H2 & H3).
  unfold sql, gets. cbn [fst snd]. rewrite H2.
  destruct (filter_id_single (owned_note u (nb_id nb)) i _ (nw_ids _ _ Hw)) as [E|(n & E & En)]; rewrite E.
  - exists None. cbn. split_and!; try done. intros n Hin Hi. apply not_true_iff_false. intros Ho.
    assert (In n (List.filter (fun n => Z.eqb (n_id n) i && owned_note u (nb_id nb) n) (db_notes (w_tx w)))) as Hf
      by (apply filter_In; by rewrite (proj2 (Z.eqb_eq _ _) Hi)). by rewrite E in Hf.
  - destruct En as (E1 & E2 & E3). exists (Some n). cbn. by split_and!.
Qed.

(** What a write to the notes of [u] keeps. *)
Lemma own_write u w w' rows :
  w_db w' = w_db w -> w_tx w' = set_notes rows (w_tx w) -> w_seq w <= w_seq w' ->
  NoDup (map n_id rows) -> Forall (fun n => n_id n < w_seq w') rows ->
  List.filter (fun n => negb (Z.eqb (n_user_id n) u)) rows =
    List.filter (fun n => negb (Z.eqb (n_user_id n) u)) (db_notes (w_tx w)) ->
  own_step u w w'.
Proof.
  intros Hd Ht Hs Hn Hf Ho. split; [done|done|rewrite Ht..].
  - intros [_ _ H3]. split; cbn; done.
  - unfold others. cbn. by rewrite Ho.
Qed.

Lemma filter_update_own (p q : note -> bool) f rows :
  (forall n, In n rows -> q n = true -> p n = false /\ p (f n) = false) ->
  List.filter p (update_where q f rows) = List.filter p rows.
Proof.
  induction rows as [|n rows IH]; [done|]. simpl. intros H. destruct (q n) eqn:E; rewrite IH by auto; [|done].
  destruct (H n) as [-> ->]; auto.
Qed.

Lemma map_id_update n rows f :
  (forall x, n_id (f x) = n_id n) ->
  map n_id (update_where (fun x => Z.eqb (n_id x) (n_id n)) f rows) = map n_id rows.
Proof.
  intros Hf. unfold update_where. rewrite map_map. apply map_ext. intros x.
  destruct (Z.eqb_spec (n_id x) (n_id n)); [|done]. by rewrite Hf.
Qed.

Definition holds_note (u : Z) (nb : notebook) (n : note) (d : database) : Prop :=
  List.filter (personal_of u) (db_notebooks d) = [nb] /\ In n (db_notes d) /\ owned_note u (nb_id nb) n = true.

(** Rows other than [n] stay. *)
Definition others_stay (n : note) (d d' : database) : Prop :=
  forall m, n_id m <> n_id n -> In m (db_notes d') <-> In m (db_notes d).

Lemma update_note_spec u nb n title body tags w :
  notes_wf (w_tx w) (w_seq w) -> holds_note u nb n (w_tx w) ->
  match update_note n title body tags w with
  | (Raise _, w') => w' = w
  | (Ok n', w') => own_step u w w' /\ w_hooks w' = w_hooks w /\ holds_note u nb n' (w_tx w') /\
      n_id n' = n_id n /\ (n_title n', n_body n', n_tags n') = (title, body, tags) /\
      others_stay n' (w_tx w) (w_tx w')
  end.
Proof.
  intros Hw (Hnb & Hin & Hown). pose proof Hw as [W1 W2 W3]. unfold update_note.
  destruct (bool_decide_reflect ((n_title n, n_body n, n_tags n) = (title, body, tags))) as [E|_].
  { cbn. by split_and!. }
  unfold varchar, pbind. destruct (_ <=? 255)%nat; [|done]. cbn.
  set (n' := mk_note _ _ _ _ _ _ _ _). set (rows := update_where _ _ _).
  assert (Hu : n_user_id n = u) by (unfold owned_note in Hown; to_prop; done).
  assert (Hn' : In n' rows).
  { apply in_update_where. exists n. by rewrite Z.eqb_refl. }
  split_and!; try done.
  - apply (own_write _ _ _ rows); [done|done|done|..].
    + unfold rows. by rewrite map_id_update.
    + apply Forall_forall. intros x (y & Hy & ->)%list_elem_of_In%in_update_where.
      rewrite Forall_forall in W2. apply list_elem_of_In in Hy.
      destruct (Z.eqb (n_id y) (n_id n)); [apply (W2 n); by apply list_elem_of_In|by apply (W2 y)].
    + apply filter_update_own. intros x Hx Hxi. apply Z.eqb_eq in Hxi.
      rewrite (unique_key n_id n x _ W1 Hin Hx Hxi). cbn. by rewrite Hu, Z.eqb_refl.
  - intros m Hm. cbn [db_notes set_notes w_tx set_tx] in *. unfold rows. rewrite in_update_where. split.
    + intros (y & Hy & ->). by destruct (Z.eqb (n_id y) (n_id n)).
    + intros Hi. exists m. split; [done|]. simpl in Hm. apply Z.eqb_neq in Hm. by rewrite Hm.
Qed.

(** A save that ends well, and one that does not. *)
Lemma upsert_spec note_id u title body tags w :
  notes_wf (w_tx w) (w_seq w) ->
  match upsert note_id u title body tags w with
  | (Raise _, w') => own_step u w w'
  | (Ok n, w') => own_step u w w' /\ w_hooks w' = w_hooks w /\
      (exists nb, holds_note u nb n (w_tx w')) /\
      match note_id with
      | Some i => n_id n = i
      | None => forall m, In m (db_notes (w_tx w)) -> n_id m <> n_id n
      end /\
      (n_title n, n_body n, n_tags n) = (title, body, tags) /\ others_stay n (w_tx w) (w_tx w')
  end.
Proof.
  intros Hw. unfold upsert, pbind at 1. destruct (default_notebook_spec u w Hw) as (nb & H).
  destruct (default_notebook u w) as [r w1]. destruct H as (-> & H1 & Hh & Hn & H2 & H3).
  pose proof (os_wf _ _ _ H1 Hw) as Hw1. destruct note_id as [i|].
  - destruct (note_get_spec i u w1 Hw1) as (nb' & found & H). unfold pbind.
    destruct (note_get i u w1) as [r w2]. destruct H as (-> & G1 & Gh & Gn & G2 & G3 & G4).
    destruct found as [n|]; [|exact (transitivity H1 G1)]. destruct G4 as (G4 & G5 & G6).
    pose proof (update_note_spec u nb' n title body tags w2 (os_wf _ _ _ G1 Hw1)) as H.
    rewrite <- G2 in G4. specialize (H (conj G3 (conj G4 G6))).
    destruct (update_note n title body tags w2) as [[n'|e] w3]; [|rewrite H; exact (transitivity H1 G1)].
    destruct H as (K1 & K2 & K3 & K4 & K5 & K6). split_and!; [|congruence|by exists nb'|congruence|done|].
    + exact (transitivity H1 (transitivity G1 K1)).
    + intros m Hm. specialize (K6 m Hm). by rewrite G2, H2 in K6.
  - unfold varchar, pbind. destruct (_ <=? 255)%nat; [|done]. cbn. set (n := mk_note _ _ _ _ _ _ _ _).
    pose proof Hw1 as [W1 W2 W3].
    assert (Hnew : own_step u w1 (set_tx (set_notes (db_notes (w_tx w1) ++ [n])%list (w_tx w1)) (set_seq (w_seq w1 + 1) w1))).
    { apply (own_write _ _ _ (db_notes (w_tx w1) ++ [n])%list); [done|done|simpl; lia|..].
      - rewrite List.map_app. apply NoDup_app. split_and!; [done| |apply NoDup_singleton].
        intros k (x & -> & Hx)%list_elem_of_fmap Hk%list_elem_of_singleton. simpl in Hk.
        rewrite Forall_forall in W2. specialize (W2 x Hx). simpl in W2. lia.
      - apply Forall_app. split; [|by repeat constructor; simpl; lia]. eapply Forall_impl; [exact W2|]. simpl. lia.
      - rewrite List.filter_app. cbn. by rewrite Z.eqb_refl, app_nil_r. }
    assert (Hlt : forall m, In m (db_notes (w_tx w)) -> n_id m < w_seq w1).
    { intros m Hm. rewrite <- H2 in Hm. rewrite Forall_forall in W2. by apply W2, list_elem_of_In. }
    split_and!; [exact (transitivity H1 Hnew)|done| | |done|].
    + exists nb. split_and!; [done|cbn; apply in_or_app; right; by left|]. unfold owned_note. cbn. by rewrite !Z.eqb_refl.
    + intros m Hm%Hlt. simpl. lia.
    + intros m Hm. cbn [db_notes set_notes w_tx set_tx]. rewrite in_app_iff, H2. simpl. split; [|tauto].
      intros [?|[<-|[]]]; done.
Qed.

Lemma commit_run w : exists w', commit w = (Ok tt, w') /\ w_db w' = w_tx w /\ w_tx w' = w_tx w /\ w_seq w' = w_seq w.
Proof.
  pose proof (commit_ok w) as H1. pose proof (commit_sqlview w) as H2. destruct (commit w) as [r w']. simpl in *.
  exists w'. unfold sqlview in H2. subst r. by split_and!; congruence.
Qed.

(** Opening a session. *)
Definition opened (w : world) : world := set_hooks [] (set_tx (w_db w) w).

(** The transaction of a save. *)
Lemma save_session_spec f note_id u title body tags w :
  notes_wf (w_db w) (w_seq w) ->
  match save_session f note_id u title body tags w with
  | (Raise _, w') => w_db w' = w_db w /\ w_seq w <= w_seq w'
  | (Ok n, w') => others u (w_db w') = others u (w_db w) /\ notes_wf (w_db w') (w_seq w') /\
      (exists nb, holds_note u nb n (w_db w')) /\
      match note_id with
      | Some i => n_id n = i
      | None => forall m, In m (db_notes (w_db w)) -> n_id m <> n_id n
      end /\
      (n_title n, n_body n, n_tags n) = (title, body, tags) /\ others_stay n (w_db w) (w_db w')
  end.
Proof.
  intros Hw. unfold save_session, with_session. fold (opened w).
  pose proof (upsert_spec note_id u title body tags (opened w) Hw) as H.
  unfold pbind, on_lookup_error, except. destruct (upsert _ _ _ _ _ (opened w)) as [[n|e] w1].
  - destruct H as (H1 & Hh & (nb & Hn) & Hi & Hf & Hs).
    pose proof (os_wf _ _ _ H1 Hw) as Hw1. destruct (commit_run w1) as (w2 & -> & C1 & C2 & C3).
    unfold refresh_note, pbind, sql, gets. cbn [fst snd]. rewrite C2.
    rewrite find_id_found by (apply Hw1 || apply Hn). cbn. rewrite C1, C3.
    split_and!; [apply H1|done|by exists nb|done|done|done].
  - destruct H as [H1 H2 _ _]. destruct (raised "LookupError" e); cbn; done.
Qed.

(** What a note shows in any of the answers. *)
Definition shown (n : note) : Z * string * list string := (n_id n, n_title n, n_tags n).

Definition notes_ok (w : world) : Prop := notes_wf (w_db w) (w_seq w).

(** A session of user [u] whose answer shows [show a]. *)
Definition own_session {A} (u : Z) (show : A -> list note) (m : prog world exn A) : Prop :=
  forall w, notes_ok w ->
    let '(r, w') := m w in
    notes_ok w' /\
    match r with
    | Raise _ => w_db w' = w_db w
    | Ok a => others u (w_db w') = others u (w_db w) /\
        forall n, In n (show a) -> In n (db_notes (w_db w')) /\ n_user_id n = u
    end.

(** A session that only reads. *)
Lemma read_session {A} u (show : A -> list note) (m : prog world exn A) :
  (forall w, notes_wf (w_tx w) (w_seq w) ->
    let '(r, w') := m w in own_step u w w' /\
      match r with Ok a => forall n, In n (show a) -> In n (db_notes (w_tx w)) /\ n_user_id n = u | _ => True end) ->
  own_session u show (with_session m).
Proof.
  intros H w Hw. unfold with_session. specialize (H (opened w) Hw). fold (opened w).
  destruct (m (opened w)) as [r w']. destruct H as [[H1 H2 _ _] H3]. unfold notes_ok. cbn in *. rewrite H1.
  split; [by eapply notes_wf_later|]. by destruct r.
Qed.

Lemma own_note_user u nb n : owned_note u nb n = true -> n_user_id n = u.
Proof. unfold owned_note. intros ?. by to_prop. Qed.

Lemma save_own f note_id u title body tags :
  own_session u (fun n => [n]) (save_session f note_id u title body tags).
Proof.
  intros w Hw. pose proof (save_session_spec f note_id u title body tags w Hw) as H.
  destruct (save_session _ _ _ _ _ _ w) as [[n|e] w'].
  - destruct H as (H1 & H2 & (nb & _ & Hn & Ho) & _). split; [done|]. split; [done|].
    intros m [<-|[]]. split; [done|by eapply own_note_user].
  - destruct H as [H1 H2]. unfold notes_ok. rewrite H1. split; [by eapply notes_wf_later|done].
Qed.

Lemma get_own i u : own_session u (fun found => match found with Some n => [n] | None => [] end) (with_session (note_get i u)).
Proof.
  apply read_session. intros w Hw. destruct (note_get_spec i u w Hw) as (nb & found & H).
  destruct (note_get i u w) as [r w']. destruct H as (-> & H1 & _ & _ & _ & _ & H2). split; [done|].
  destruct found as [n|]; [|done]. intros m [<-|[]]. destruct H2 as (? & _ & ?). split; [done|by eapply own_note_user].
Qed.

Lemma get_same_db i u w : notes_ok w -> w_db (with_session (note_get i u) w).2 = w_db w.
Proof.
  intros Hw. unfold with_session. fold (opened w). destruct (note_get_spec i u (opened w) Hw) as (nb & found & H).
  destruct (note_get i u (opened w)) as [r w']. destruct H as (-> & H1 & _). apply (os_db _ _ _ H1).
Qed.

Lemma in_page {A} (x : A) limit offset l : In x (page limit offset l) -> In x l.
Proof.
  unfold page. intros H. rewrite <- (firstn_skipn (Z.to_nat offset) l). apply in_or_app. right.
  rewrite <- (firstn_skipn (Z.to_nat limit) (skipn _ l)). apply in_or_app. by left.
Qed.

Lemma list_own u tags limit offset : own_session u (fun l => l) (with_session (note_list_rows u tags limit offset)).
Proof.
  apply read_session. intros w Hw. unfold note_list_rows, pbind. destruct (default_notebook_spec u w Hw) as (nb & H).
  destruct (default_notebook u w) as [r w']. destruct H as (-> & H1 & _ & _ & H2 & _). cbn. split; [done|].
  rewrite H2. intros n Hn%in_page%in_order_by%filter_In. destruct Hn as [Hn Ho]. to_prop.
  split; [done|by eapply own_note_user].
Qed.

Lemma search_own {Rank} rank_ge (ts_rank : string -> note -> option Rank) u query tags limit offset :
  own_session u (map fst) (with_session (note_search_rows rank_ge ts_rank u query tags limit offset)).
Proof.
  apply read_session. intros w Hw. unfold note_search_rows, pbind. destruct (default_notebook_spec u w Hw) as (nb & H).
  destruct (default_notebook u w) as [r w']. destruct H as (-> & H1 & _ & _ & H2 & _). cbn. split; [done|].
  rewrite H2. intros n ([m k] & <- & Hn%in_page)%in_map_iff. apply list_elem_of_In in Hn.
  rewrite sort_by_Permutation in Hn. apply list_elem_of_omap in Hn as (n' & Hn & Hr).
  unfold ranked in Hr. destruct (ts_rank query n'); [|done]. injection Hr as -> ->.
  apply list_elem_of_In, filter_In in Hn as [Hn Ho]. to_prop. split; [done|by eapply own_note_user].
Qed.

Lemma filter_filter_skip (p q : note -> bool) rows :
  (forall n, In n rows -> negb (q n) = true -> p n = false) ->
  List.filter p (List.filter q rows) = List.filter p rows.
Proof.
  induction rows as [|n rows IH]; [done|]. simpl. intros H. destruct (q n) eqn:E; simpl; rewrite IH by auto; [done|].
  rewrite (H n); [done|by left|by rewrite E].
Qed.

Lemma delete_own i u :
  own_session u (fun _ => []) (with_session (
    let! removed := note_delete i u in if negb removed then praise (not_found i) else commit)).
Proof.
  intros w Hw. unfold with_session. fold (opened w). unfold note_delete, pbind.
  destruct (note_get_spec i u (opened w) Hw) as (nb & found & H). destruct (note_get i u (opened w)) as [r w1].
  destruct H as (-> & H1 & Hh & Hn & H2 & H3 & H4). pose proof (os_wf _ _ _ H1 Hw) as Hw1.
  destruct found as [n|]; cbn -[commit].
  2: { destruct H1 as [D1 D2 _ _]. unfold notes_ok. cbn in *. rewrite D1. split; [by eapply notes_wf_later|done]. }
  destruct H4 as (H4 & H5 & H6). set (w2 := set_tx _ w1).
  assert (Hs : own_step u w1 w2).
  { apply (own_write _ _ _ (List.filter (fun x => negb (Z.eqb (n_id x) (n_id n))) (db_notes (w_tx w1)))); [done|done|done|..].
    - eapply sublist_NoDup; [apply Hw1|]. apply fmap_sublist, filter_sublist.
    - apply Forall_forall. intros x [Hx _]%list_elem_of_In%filter_In. pose proof (nw_fresh _ _ Hw1) as Hf.
      rewrite Forall_forall in Hf. by apply Hf, list_elem_of_In.
    - apply filter_filter_skip. intros x Hx Hp. to_prop. rewrite <- H2 in H4.
      rewrite (unique_key n_id n x _ (nw_ids _ _ Hw1) H4 Hx Hp). rewrite (own_note_user _ _ _ H6). by rewrite Z.eqb_refl. }
  destruct (commit_run w2) as (w3 & -> & C1 & C2 & C3). cbn. unfold notes_ok. cbn. rewrite C1, C3.
  pose proof (transitivity H1 Hs) as [K1 K2 K3 K4]. split; [by apply K3|]. split; [exact K4|done].
Qed.

(* ------------------------------------------------------------------ *)
(** * Properties *)

Section Properties.
Context {Rank : Type} (rank_ge : Rank -> Rank -> bool) (ts_rank : string -> note -> option Rank).
Context (session_decode : string -> string -> Z -> result string dict) (JWT_SECRET : string).
Context (authz_decode : string -> string -> string -> Z -> option dict) (pyd_int : json -> option Z).
Context (MCP_AUTHZ_SECRET : string).

Notation require_user := (Auth.require_user session_decode JWT_SECRET).
Notation require_identity := (McpAuthz.require_identity authz_decode pyd_int MCP_AUTHZ_SECRET).

(** A call of the RPC with a session cookie, or of a tool with the headers of a thread. *)
Inductive note_call :=
| SaveNote (token : option string) (note_id : option Z) (title body : string) (tags : list string)
| GetNote (token : option string) (note_id : Z)
| SearchNotes (token : option string) (query : string) (tags : list string) (limit offset : Z)
| ListNotes (token : option string) (tags : list string) (limit offset : Z)
| DeleteNote (token : option string) (note_id : Z)
| NoteSave (headers : list (string * string)) (title body : string) (tags : option (list string)) (note_id : option Z)
| NoteSearch (headers : list (string * string)) (query : string) (tags : option (list string)) (limit : Z)
| NoteList (headers : list (string * string)) (tags : option (list string)) (limit : Z).

Definition shown_pb (p : NotePb) := (np_id p, np_title p, np_tags p).
Definition shown_hit (h : NoteHit (Rank := Rank)) := (nh_id h, nh_title h, nh_tags h).

(** The call, with the notes its answer shows. *)
Definition run_call (c : note_call) : prog world exn (list (Z * string * list string)) :=
  match c with
  | SaveNote token note_id title body tags =>
      let! p := save_note require_user token note_id title body tags in pret [shown_pb p]
  | GetNote token note_id => let! p := get_note require_user token note_id in pret [shown_pb p]
  | SearchNotes token query tags limit offset =>
      let! l := search_notes rank_ge ts_rank require_user token query tags limit offset in
      pret (map (fun pr => shown_pb pr.1) l)
  | ListNotes token tags limit offset =>
      let! l := list_notes require_user token tags limit offset in pret (map shown_pb l)
  | DeleteNote token note_id => delete_note require_user token note_id ;; pret []
  | NoteSave headers title body tags note_id =>
      let! r := note_save require_identity headers title body tags note_id in
      pret [(nr_id r, nr_title r, nr_tags r)]
  | NoteSearch headers query tags limit =>
      let! l := note_search rank_ge ts_rank require_identity headers query tags limit in pret (map shown_hit l)
  | NoteList headers tags limit =>
      let! l := note_list require_identity headers tags limit in pret (map shown_hit l)
  end.

Definition ok_value {A} (r : result exn A) : option A := match r with Ok a => Some a | Raise _ => None end.

(** Whom the call acts for. *)
Definition call_actor (c : note_call) (w : world) : option Z :=
  match c with
  | SaveNote token _ _ _ _ | GetNote token _ | SearchNotes token _ _ _ _ | ListNotes token _ _ _
  | DeleteNote token _ => u_id <$> ok_value (require_user token w).1
  | NoteSave headers _ _ _ _ | NoteSearch headers _ _ _ | NoteList headers _ _ =>
      mi_user_id <$> ok_value (require_identity headers w).1
  end.

Definition same_rows (w w' : world) : Prop := w_db w' = w_db w /\ w_seq w' = w_seq w.

Lemma require_user_same token w : same_rows w (require_user token w).2.
Proof.
  unfold Auth.require_user, pbind at 1. destruct (jwt_subject session_decode JWT_SECRET token w) as [r w1] eqn:E.
  assert (w1 = w) as ->.
  { revert E. unfold jwt_subject, validate_token, except, pbind, gets. destruct token as [t|]; [|by intros [= _ <-]].
    cbn. destruct (session_decode _ _ _) as [p|m]; [|by intros [= _ <-]].
    destruct (get_or_null "sub" p); try (by intros [= _ <-]). destruct (nonempty _); by intros [= _ <-]. }
  destruct r as [email|e]; [|done]. unfold with_session, pbind, get_by_email, sql, gets. cbn.
  by destruct (List.find _ _).
Qed.

Lemma require_identity_same headers w : same_rows w (require_identity headers w).2.
Proof.
  unfold McpAuthz.require_identity, pbind at 1. destruct (require_claims _ _ _ headers w) as [r w1] eqn:E.
  assert (w1 = w) as ->.
  { revert E. unfold require_claims, as_tool_error, except, verify, pbind, gets.
    destruct (authz_header headers) as [t|]; [|by intros [= _ <-]]. destruct (nonempty t); [|by intros [= _ <-]].
    cbn. destruct (authz_decode _ _ _ _) as [p|]; [|by intros [= _ <-]].
    destruct (claims_validate _ _); by intros [= _ <-]. }
  destruct r as [c|e]; [|done]. unfold as_tool_error, except, with_session, resolve, pbind, user_get, sql, gets.
  cbn. by destruct (List.find _ _).
Qed.

(** The outcome of a call for [actor]. *)
Definition call_done (actor : option Z) (w : world) (res : result exn (list (Z * string * list string)) * world) : Prop :=
  notes_ok res.2 /\
  match res.1 with
  | Raise _ => w_db res.2 = w_db w
  | Ok l => exists u, actor = Some u /\ others u (w_db res.2) = others u (w_db w) /\
      forall x, In x l -> exists n, In n (db_notes (w_db res.2)) /\ n_user_id n = u /\ shown n = x
  end.

Lemma own_call {B A C} (who : prog world exn B) (uid : B -> Z) (show : A -> list note) (f : A -> C)
    (view : C -> list (Z * string * list string)) (body : B -> prog world exn A) w :
  notes_ok w -> same_rows w (who w).2 -> (forall b, own_session (uid b) show (body b)) ->
  (forall a x, In x (view (f a)) -> In x (map shown (show a))) ->
  call_done (uid <$> ok_value (who w).1) w
    ((let! c := (let! b := who in let! a := body b in pret (f a)) in pret (view c)) w).
Proof.
  intros Hw Hwho Hbody Hview. unfold pbind, call_done, notes_ok in *. destruct (who w) as [[b|e] w1]; simpl in *;
    destruct Hwho as [H1 H2]; [|split; simpl; [congruence|done]].
  assert (Hw1 : notes_ok w1) by (unfold notes_ok; congruence). specialize (Hbody b w1 Hw1).
  destruct (body b w1) as [[a|e] w2]; destruct Hbody as [H3 H4]; (split; [exact H3|]); cbn in *; [|congruence].
  destruct H4 as [H4 H5]. exists (uid b). split; [done|]. split; [congruence|].
  intros x (n & <- & Hn)%Hview%in_map_iff. destruct (H5 n Hn). by exists n.
Qed.

Lemma refused_args {C} actor (ok : bool) e (m : prog world exn C) (view : C -> list (Z * string * list string)) w :
  notes_ok w -> e = ValidationError ->
  call_done actor w ((let! c := m in pret (view c)) w) ->
  call_done actor w ((let! c := (if ok then pret tt else praise e) ;; m in pret (view c)) w).
Proof. intros Hw -> H. by destruct ok. Qed.

Lemma get_note_done token note_id w :
  notes_ok w ->
  call_done (call_actor (GetNote token note_id) w) w (run_call (GetNote token note_id) w).
Proof.
  intros Hw. cbn [run_call call_actor].
  pose proof (require_user_same token w) as Hs. unfold get_note, pbind, call_done, notes_ok in *.
  destruct (require_user token w) as [[u|e] w1]; cbn in *; destruct Hs as [H1 H2]; [|split; [congruence|done]].
  assert (Hw1 : notes_ok w1) by (unfold notes_ok; congruence). pose proof (get_own note_id (u_id u) w1 Hw1) as H.
  pose proof (get_same_db note_id (u_id u) w1 Hw1) as Hg.
  destruct (with_session _ w1) as [[found|e] w2]; destruct H as [H3 H4]; [|split; [exact H3|cbn in *; congruence]].
  destruct H4 as [H4 H5]. destruct found as [n|]; (split; [exact H3|]); cbn.
  - exists (u_id u). split; [done|]. split; [congruence|]. intros x [<-|[]]. destruct (H5 n); [by left|]. by exists n.
  - cbn in Hg. congruence.
Qed.

(** C27: notes are private. Whatever is called over the RPC or by a tool, with whatever
    arguments: a call that fails leaves the database as it was; a call that succeeds was
    made for a user, changes only that user's notes and default notebook, and shows only
    notes of that user that are in the database now. Identifiers stay unique and a user
    keeps one notebook of a kind, so no query finds two rows where it takes one. *)
Theorem notes_private c w (Hw : notes_ok w) : call_done (call_actor c w) w (run_call c w).
Proof.
  destruct c; cbn [run_call call_actor].
  - apply (own_call (require_user token) u_id (fun n => [n]) note_to_pb (fun p => [shown_pb p])
      (fun u => save_session (ConnectError "not_found") note_id (u_id u) title body tags));
      [done|apply require_user_same|intros; apply save_own|by intros a x].
  - by apply get_note_done.
  - apply (own_call (require_user token) u_id (map fst) (map (fun nr => (note_to_pb nr.1, nr.2)))
      (fun l => map (fun pr => shown_pb pr.1) l)
      (fun u => with_session (note_search_rows rank_ge ts_rank (u_id u) query (tags_or_none tags)
         (resolve_page limit offset).1 (resolve_page limit offset).2)));
      [done|apply require_user_same|intros; apply search_own|].
    intros l x. by rewrite !map_map.
  - apply (own_call (require_user token) u_id (fun l => l) (map note_to_pb) (map shown_pb)
      (fun u => with_session (note_list_rows (u_id u) (tags_or_none tags)
         (resolve_page limit offset).1 (resolve_page limit offset).2)));
      [done|apply require_user_same|intros; apply list_own|].
    intros l x. by rewrite !map_map.
  - apply (own_call (require_user token) u_id (fun _ => []) (fun _ : unit => tt) (fun _ => [])
      (fun u => with_session (
         let! removed := note_delete note_id (u_id u) in if negb removed then praise (not_found note_id) else commit)));
      [done|apply require_user_same|intros; apply delete_own|done].
  - apply refused_args; [done|done|].
    apply (own_call (require_identity headers) mi_user_id (fun n => [n])
      (fun n => mk_note_ref (n_id n) (n_title n) (n_tags n) (isoformat (n_updated_at n)))
      (fun r => [(nr_id r, nr_title r, nr_tags r)])
      (fun claims => save_session ToolError note_id (mi_user_id claims) title body (final_tags tags)));
      [done|apply require_identity_same|intros; apply save_own|by intros a x].
  - apply refused_args; [done|done|].
    apply (own_call (require_identity headers) mi_user_id (map fst) (map (fun nr => note_hit (Some nr.2) nr.1))
      (map shown_hit)
      (fun claims => with_session (note_search_rows rank_ge ts_rank (mi_user_id claims) query (given_tags tags) limit 0)));
      [done|apply require_identity_same|intros; apply search_own|].
    intros l x. by rewrite !map_map.
  - apply refused_args; [done|done|].
    apply (own_call (require_identity headers) mi_user_id (fun l => l) (map (note_hit None)) (map shown_hit)
      (fun claims => with_session (note_list_rows (mi_user_id claims) (given_tags tags) limit 0)));
      [done|apply require_identity_same|intros; apply list_own|].
    intros l x. by rewrite !map_map.
Qed.

(** A note the tables hold is what its owner reads. *)
Lemma get_held u nb n w :
  notes_ok w -> holds_note u nb n (w_db w) -> (with_session (note_get (n_id n) u) w).1 = Ok (Some n).
Proof.
  intros Hw (Hb & Hn & Ho). unfold with_session. fold (opened w). unfold note_get, default_notebook, pbind, sql, gets.
  cbn [fst snd opened w_tx set_tx set_hooks]. rewrite Hb. cbn.
  rewrite filter_id_found; [done|apply Hw|done|done].
Qed.

(** a save that is answered is stored: as long as the notes stay as they are, the user
    reads the note back exactly as the answer showed it, with the title, the body and the
    tags of the request, under the identifier of the request or a new one; every other note
    is as it was. *)
Theorem note_saved token note_id title body tags w p w' u token2 u2 w2
    (Hw : notes_ok w) (H : save_note require_user token note_id title body tags w = (Ok p, w'))
    (Hu : (require_user token w).1 = Ok u)
    (Hu2 : (require_user token2 w2).1 = Ok u2) (Hsame : u_id u2 = u_id u)
    (Hnotes : db_notes (w_db w2) = db_notes (w_db w')) (Hbooks : db_notebooks (w_db w2) = db_notebooks (w_db w'))
    (Hseq : w_seq w' <= w_seq w2) :
  (get_note require_user token2 (np_id p) w2).1 = Ok p /\
  (np_title p, np_body p, np_tags p) = (title, body, tags) /\
  match note_id with
  | Some i => np_id p = i
  | None => forall m, In m (db_notes (w_db w)) -> n_id m <> np_id p
  end /\
  forall m, n_id m <> np_id p -> In m (db_notes (w_db w')) <-> In m (db_notes (w_db w)).
Proof.
  unfold save_note, pbind at 1 in H. pose proof (require_user_same token w) as [S1 S2].
  destruct (require_user token w) as [r w1]. cbn in Hu, S1, S2. subst r. unfold pbind in H.
  assert (Hw1 : notes_wf (w_db w1) (w_seq w1)) by (unfold notes_ok in Hw; congruence).
  pose proof (save_session_spec (ConnectError "not_found") note_id (u_id u) title body tags w1 Hw1) as Hs.
  destruct (save_session _ _ _ _ _ _ w1) as [[n|e] w3]; [|done]. injection H as <- <-.
  destruct Hs as (H1 & H2 & (nb & H3) & H4 & H5 & H6). rewrite S1 in *. cbn [np_id np_title np_body np_tags note_to_pb].
  split_and!; [|done|done|exact H6].
  unfold get_note, pbind at 1. pose proof (require_user_same token2 w2) as [T1 T2].
  destruct (require_user token2 w2) as [r w4]. cbn in Hu2, T1, T2. subst r.
  assert (Hw4 : notes_ok w4).
  { unfold notes_ok. rewrite T1, T2. apply (notes_wf_later _ _ _ Hseq). destruct H2 as [K1 K2 K3].
    split; [by rewrite Hnotes|by rewrite Hnotes|by rewrite Hbooks]. }
  assert (Hh : holds_note (u_id u2) nb n (w_db w4)).
  { unfold holds_note. rewrite T1, Hnotes, Hbooks, Hsame. exact H3. }
  unfold pbind. pose proof (get_held _ _ _ _ Hw4 Hh) as Hg.
  destruct (with_session _ w4) as [r w5]. cbn in Hg. by subst r.
Qed.
End Properties.

(* ------------------------------------------------------------------ *)
(** * Witnesses *)

Definition demo_owner : user := mk_user 4 None (Some "a@b") None None None Role_USER.
Definition demo_note : note := mk_note 7 9 3 "theirs" "secret" [] 0 0.
Definition demo_notes_world : world :=
  set_seq 20 (set_db (set_users [demo_owner] (set_notes [demo_note]
    (set_notebooks [mk_notebook 3 9 DEFAULT_NOTEBOOK_TITLE PERSONAL] empty_db))) empty_world).
Definition demo_rank (query : string) (n : note) : option nat :=
  if str_contains query (n_body n) then Some 1%nat else None.
Definition demo_cookie (raw _ : string) (_ : Z) : result string dict := Ok [("sub", JStr raw)].

Lemma demo_notes_ok : notes_ok demo_notes_world.
Proof. split; [apply NoDup_singleton|by repeat constructor|apply NoDup_singleton]. Qed.

Lemma notes_private_witness :
  call_done (Some 4) demo_notes_world
    (run_call Nat.leb demo_rank demo_cookie "k" demo_jwt_decode demo_int "k" (GetNote (Some "a@b") 7) demo_notes_world).
Proof.
  exact (notes_private Nat.leb demo_rank demo_cookie "k" demo_jwt_decode demo_int "k" (GetNote (Some "a@b") 7)
    demo_notes_world demo_notes_ok).
Defined.

Lemma note_saved_witness :
  exists p w', save_note (require_user demo_cookie "k") (Some "a@b") None "t" "b" ["x"] demo_notes_world = (Ok p, w') /\
    (get_note (require_user demo_cookie "k") (Some "a@b") (np_id p) w').1 = Ok p.
Proof.
  destruct (save_note (require_user demo_cookie "k") (Some "a@b") None "t" "b" ["x"] demo_notes_world) as [[p|e] w'] eqn:E;
    [|vm_compute in E; discriminate].
  exists p, w'. split; [reflexivity|].
  assert (Hu2 : (require_user demo_cookie "k" (Some "a@b") w').1 = Ok demo_owner)
    by (change w' with (Ok (E := exn) p, w').2; rewrite <- E; vm_compute; reflexivity).
  exact (proj1 (note_saved demo_cookie "k" (Some "a@b") None "t" "b" ["x"] demo_notes_world p w' demo_owner
    (Some "a@b") demo_owner w' demo_notes_ok E eq_refl Hu2 eq_refl eq_refl eq_refl (Z.le_refl _))).
Defined.

(** A title beyond the column's width leaves the RPC as a database error. *)
Example long_title_unhandled :
  (save_note (require_user demo_cookie "k") (Some "a@b") None (zeros 256) "b" [] demo_notes_world).1 = Raise DataError.
Proof. vm_compute. reflexivity. Qed.
