(* ===== verification/Usage.v ===== *)
(** The usage of a Codex plan ([services/codex_usage]): the rate limits a sidecar reports,
    kept and published in Redis, and the streams that push them and the chat activity to the
    clients ([rpc/chat/service.py], [rpc/chat/mappers.py], [services/chat_activity],
    [services/bus/bus.py]).

    pydantic's coercions and its text of a date are parameters. Dates are microseconds. *)
From S2P Require Import Prelude PyStr PyTime Json Models Events World Translate CodexRemote Services WebStream.
From S2P Require Import Session CodexClient CodexPrefs ChatRpc.

Open Scope Z_scope.
Open Scope string_scope.

(** A decimal [m * 10^e]. *)
Definition dec : Type := Z * Z.

(** [round(a / b)]: half to even. *)
Definition round_div (a b : Z) : Z :=
  let q := a / b in
  let r := 2 * (a mod b) in
  if Z.ltb r b then q else if Z.ltb b r then q + 1 else if Z.even q then q else q + 1.

(** The integer nearest to [d * 10^k]. *)
Definition dec_round (k : Z) (d : dec) : Z :=
  if Z.leb 0 (d.2 + k) then d.1 * 10 ^ (d.2 + k) else round_div d.1 (10 ^ (- (d.2 + k))).

(* ------------------------------------------------------------------ *)
(** * [services/codex_usage/service.py] *)

Record UsageWindow := mk_window {
  uw_used_percent : dec;
  uw_window_minutes : Z;
  uw_resets_at : option Z
}.

Record CodexUsage := mk_usage {
  cu_updated_at : option Z;
  cu_plan_type : option string;
  cu_primary : option UsageWindow;
  cu_secondary : option UsageWindow
}.

Record RateLimitWindowIn := mk_window_in {
  wi_used_percent : option dec;
  wi_window_duration_mins : option Z;
  wi_resets_at : option dec
}.

Record RateLimitSnapshot := mk_snapshot {
  sn_plan_type : option string;
  sn_primary : option RateLimitWindowIn;
  sn_secondary : option RateLimitWindowIn
}.

Definition ValidationError : exn := OtherException "ValidationError" "".

(** A field [T | None = None]: [None] when its value is invalid. *)
Definition opt_field {A} (k : string) (parse : json -> option A) (d : dict) : option (option A) :=
  match assoc k d with
  | None | Some JNull => Some None
  | Some v => Some <$> parse v
  end.

Section Usage.
Context (pyd_float : json -> option dec) (pyd_int : json -> option Z).
(** The JSON text of a date and its validation. *)
Context (date_dump : Z -> string) (date_validate : json -> option Z).

Definition window_in_validate (j : json) : option RateLimitWindowIn :=
  d ← as_obj j;
  used ← opt_field "usedPercent" pyd_float d;
  mins ← opt_field "windowDurationMins" pyd_int d;
  resets ← opt_field "resetsAt" pyd_float d;
  Some (mk_window_in used mins resets).

Definition snapshot_validate (d : dict) : option RateLimitSnapshot :=
  plan ← opt_field "planType" as_str d;
  primary ← opt_field "primary" window_in_validate d;
  secondary ← opt_field "secondary" window_in_validate d;
  Some (mk_snapshot plan primary secondary).

(** [datetime.fromtimestamp(t, UTC)]: years 1 to 9999. *)
Definition from_timestamp (t : dec) : result string Z :=
  let us := dec_round 6 t in
  if Z.leb (-62135596800 * 1000000) us && Z.ltb us (253402300800 * 1000000) then Ok us
  else Raise "year is out of range".

Definition to_window (window : option RateLimitWindowIn) : result string (option UsageWindow) :=
  match window with
  | None => Ok None
  | Some w =>
      match wi_used_percent w with
      | None => Ok None
      | Some used =>
          let minutes := default 0 (wi_window_duration_mins w) in
          match wi_resets_at w with
          | None => Ok (Some (mk_window used minutes None))
          | Some t => match from_timestamp t with
                      | Ok us => Ok (Some (mk_window used minutes (Some us)))
                      | Raise e => Raise e
                      end
          end
      end
  end.

(** [now] in milliseconds. *)
Definition parse_usage (now : Z) (snapshot : RateLimitSnapshot) : result string CodexUsage :=
  match to_window (sn_primary snapshot), to_window (sn_secondary snapshot) with
  | Ok p, Ok s => Ok (mk_usage (Some (now * 1000)) (sn_plan_type snapshot) p s)
  | Raise e, _ | _, Raise e => Raise e
  end.

Definition from_rate_limits (snapshot : dict) : prog world exn CodexUsage :=
  let! t := now in
  match snapshot_validate snapshot with
  | None => praise ValidationError
  | Some s => match parse_usage t s with Ok u => pret u | Raise msg => praise (ValueError msg) end
  end.

Definition latest : cprog (option CodexUsage) :=
  let! snapshot := read_rate_limits in
  match snapshot with
  | None => pret None
  | Some d => let! u := Session.on_server (from_rate_limits d) in pret (Some u)
  end.

(* ------------------------------------------------------------------ *)
(** * [services/codex_usage/poller.py] *)

Definition opt_json {A} (f : A -> json) (o : option A) : json := match o with Some a => f a | None => JNull end.

Definition window_dump (w : UsageWindow) : json :=
  JObj [("used_percent", JFloat (uw_used_percent w).1 (uw_used_percent w).2);
        ("window_minutes", JNum (uw_window_minutes w));
        ("resets_at", opt_json (fun t => JStr (date_dump t)) (uw_resets_at w))].

(** [usage.model_dump(mode="json")], the text of which [serialize] gives. *)
Definition serialize (u : CodexUsage) : dict :=
  [("updated_at", opt_json (fun t => JStr (date_dump t)) (cu_updated_at u));
   ("plan_type", opt_json JStr (cu_plan_type u));
   ("primary", opt_json window_dump (cu_primary u));
   ("secondary", opt_json window_dump (cu_secondary u))].

Definition window_validate (j : json) : option UsageWindow :=
  d ← as_obj j;
  if only_keys ["used_percent"; "window_minutes"; "resets_at"] d then
    used ← assoc "used_percent" d ≫= pyd_float;
    minutes ← assoc "window_minutes" d ≫= pyd_int;
    resets ← opt_field "resets_at" date_validate d;
    Some (mk_window used minutes resets)
  else None.

(** [CodexUsage.model_validate]. *)
Definition usage_validate (j : json) : option CodexUsage :=
  d ← as_obj j;
  if only_keys ["updated_at"; "plan_type"; "primary"; "secondary"] d then
    updated ← opt_field "updated_at" date_validate d;
    plan ← opt_field "plan_type" as_str d;
    primary ← opt_field "primary" window_validate d;
    secondary ← opt_field "secondary" window_validate d;
    Some (mk_usage updated plan primary secondary)
  else None.

(** [deserialize] of a value of Redis; only [serialize] writes it. *)
Definition deserialize (raw : redis_value) : option CodexUsage :=
  match raw with RJson j => usage_validate j | _ => None end.

Definition fetch_error (e : exn) : bool :=
  match e with AppServerError _ _ | OSError _ | TimeoutError => true | _ => false end.

Definition fetch_once (sidecar : SidecarName) : prog world exn (option CodexUsage) :=
  except (fun e => if fetch_error e then pret None else praise e) (with_client sidecar None latest).

(** [_publish]. *)
Definition publish_codex_usage (sidecar : SidecarName) (u : CodexUsage) : prog world exn unit :=
  publish_usage sidecar (serialize u).

(** What [publish_rate_limits] of [WebStream] makes of a snapshot. *)
Definition usage_payload (t : Z) (snapshot : dict) : usage_parse :=
  match snapshot_validate snapshot with
  | None => UsageInvalid
  | Some s => match parse_usage t s with Ok u => UsageOf (serialize u) | Raise msg => UsageFails msg end
  end.

Definition publish_for (sidecar : SidecarName) : prog world exn unit :=
  let! usage := fetch_once sidecar in
  match usage with
  | None => pret tt
  | Some u =>
      let! t := now in
      publish_codex_usage sidecar (mk_usage (Some (t * 1000)) (cu_plan_type u) (cu_primary u) (cu_secondary u))
  end.

Definition bootstrap_once : prog world exn unit := for_each [ADMIN; GUEST] publish_for.

(* ------------------------------------------------------------------ *)
(** * The messages of the clients ([rpc/chat/mappers.py]) *)

Record UsageWindowPb := mk_window_pb { up_used_percent : dec; up_window_minutes : Z; up_resets_at : option Z }.
(** Unset fields are [None]; [CodexUsage()] has none. *)
Record CodexUsagePb := mk_usage_pb {
  up_plan_type : option string;
  up_primary : option UsageWindowPb;
  up_secondary : option UsageWindowPb
}.
Definition empty_usage_pb : CodexUsagePb := mk_usage_pb None None None.

Definition usage_window_to_pb (w : UsageWindow) : UsageWindowPb :=
  mk_window_pb (uw_used_percent w) (uw_window_minutes w) (uw_resets_at w).

Definition codex_usage_to_pb (u : CodexUsage) : CodexUsagePb :=
  mk_usage_pb (if truthy_opt (cu_plan_type u) then cu_plan_type u else None)
    (usage_window_to_pb <$> cu_primary u) (usage_window_to_pb <$> cu_secondary u).

(* ------------------------------------------------------------------ *)
(** * Subscriptions *)

Definition activity_value (k : activity_kind) : string := match k with Started => "started" | Ended => "ended" end.

(** [orjson.loads] of a published text. *)
Definition payload_of (m : pubmsg) : json :=
  match m with
  | PubActivity chat_id turn_id kind =>
      JObj [("chat_id", JNum chat_id); ("turn_id", JNum turn_id); ("kind", JStr (activity_value kind))]
  | PubChatEvent ev => JObj (event_to_frame ev)
  | PubUsage usage => JObj usage
  | PubData data => data
  end.

(** The messages of a channel. *)
Definition on_channel (channel : string) (l : list (string * pubmsg)) : list pubmsg :=
  map snd (List.filter (fun cm => String.eqb cm.1 channel) l).

(** [pubsub.subscribe]: the position in the sequence of publications. *)
Definition subscribe : prog world exn nat := redis_op (fun w => (List.length (w_pub w), w)).

(** What happens while the stream waits for a message: others act, or the connection is
    lost. *)
Inductive listen_round := Wait (f : world -> world) | Lost (f : world -> world).

(** [async for message in pubsub.listen()] with what is yielded of each; the loop ends with
    the client. *)
Fixpoint listen {A} (show : json -> option A) (channel : string) (pos : nat) (env : list listen_round) (w : world) :
    list A * result exn unit * world :=
  match env with
  | [] => ([], Ok tt, w)
  | Wait f :: env' =>
      let w1 := f w in
      let out := omap show (map payload_of (on_channel channel (drop pos (w_pub w1)))) in
      let '(rest, r, w2) := listen show channel (List.length (w_pub w1)) env' w1 in ((out ++ rest)%list, r, w2)
  | Lost f :: _ => ([], Raise RedisError, f w)
  end.

Section Streams.
(** [require_user] with its settings. *)
Context (require_user : option string -> prog world exn user).

Definition usage_sidecar (u : user) : SidecarName := if bool_decide (u_role u = Role_ADMIN) then ADMIN else GUEST.

(** The stored snapshot as a frame. *)
Definition stored_usage (sidecar : SidecarName) : prog world exn CodexUsagePb :=
  let! raw := redis_op (redis_get (usage_key sidecar)) in
  pret (match raw with
        | Some v => match deserialize v with Some u => codex_usage_to_pb u | None => empty_usage_pb end
        | None => empty_usage_pb
        end).

Definition stream_codex_usage (token : option string) (env : list listen_round) (w : world) :
    list CodexUsagePb * result exn unit * world :=
  match (let! u := require_user token in
         let! pos := subscribe in
         let! first := stored_usage (usage_sidecar u) in
         pret (u, pos, first)) w with
  | (Raise e, w1) => ([], Raise e, w1)
  | (Ok (u, pos, first), w1) =>
      let '(rest, r, w2) := listen (fun j => codex_usage_to_pb <$> usage_validate j)
                              (usage_channel (usage_sidecar u)) pos env w1 in
      (first :: rest, r, w2)
  end.

Definition refresh_codex_usage (token : option string) : prog world exn CodexUsagePb :=
  let! u := require_user token in
  publish_for (usage_sidecar u) ;;
  stored_usage (usage_sidecar u).

(** [chat_activity.deserialize] and the mapping to the client's message. *)
Definition activity_frame (j : json) : option (Z * Z * activity_kind) := as_obj j ≫= chat_activity_to_pb.

Definition stream_chat_activity (token : option string) (env : list listen_round) (w : world) :
    list (Z * Z * activity_kind) * result exn unit * world :=
  match (let! u := require_user token in let! pos := subscribe in pret (u, pos)) w with
  | (Raise e, w1) => ([], Raise e, w1)
  | (Ok (u, pos), w1) => listen activity_frame (channel_for_user (u_id u)) pos env w1
  end.
End Streams.

(** [EventBus.subscribe] and [_iter]: undecodable messages are skipped. *)
Definition bus_event (j : json) : option chat_event :=
  match j with
  | JObj frame => match frame_to_event frame with Ok ev => Some ev | Raise _ => None end
  | _ => None
  end.

Definition bus_subscribe (chat_id : Z) (env : list listen_round) (w : world) :
    list chat_event * result exn unit * world :=
  match subscribe w with
  | (Raise e, w1) => ([], Raise e, w1)
  | (Ok pos, w1) => listen bus_event (bus_channel chat_id) pos env w1
  end.
End Usage.

Example halves : map (fun a => round_div a 2) [1; 3; 5; -1; -3; 4] = [0; 2; 2; 0; -2; 2] /\
  dec_round 0 (445, -1) = 44 /\ dec_round 6 (17, 0) = 17000000.
Proof. vm_compute. done. Qed.

(* ------------------------------------------------------------------ *)
(** * Properties *)

(** The others only add publications. *)
Definition appends (f : world -> world) : Prop := forall w, exists l, w_pub (f w) = (w_pub w ++ l)%list.

Lemma on_channel_app channel a b : on_channel channel (a ++ b) = (on_channel channel a ++ on_channel channel b)%list.
Proof. unfold on_channel. by rewrite List.filter_app, List.map_app. Qed.

(** What a subscriber is shown is what was published on the channel since. *)
Lemma listen_shows {A} (show : json -> option A) channel env w :
  Forall appends env ->
  exists l w', listen show channel (List.length (w_pub w)) (map Wait env) w =
    (omap show (map payload_of (on_channel channel l)), Ok tt, w') /\ w_pub w' = (w_pub w ++ l)%list.
Proof.
  revert w. induction env as [|f env IH]; intros w Henv.
  - exists [], w. by rewrite app_nil_r.
  - apply Forall_cons in Henv as [Hf Henv]. destruct (Hf w) as [l Hl]. cbn [map listen].
    destruct (IH (f w) Henv) as (l' & w' & -> & Hl'). exists (l ++ l')%list, w'.
    rewrite Hl', Hl, <- app_assoc, drop_app_length. split; [|done]. do 2 f_equal.
    by rewrite on_channel_app, List.map_app, omap_app.
Qed.

Section Laws.
Context (pyd_float : json -> option dec) (pyd_int : json -> option Z).
Context (date_dump : Z -> string) (date_validate : json -> option Z).
(** Numbers and dates are read back as they were written. *)
Context (Hfloat : forall m e, pyd_float (JFloat m e) = Some (m, e)).
Context (Hint : forall z, pyd_int (JNum z) = Some z).
Context (Hdate : forall t, date_validate (JStr (date_dump t)) = Some t).

Notation serialize := (serialize date_dump).
Notation usage_validate := (usage_validate pyd_float pyd_int date_validate).

Lemma opt_field_dump {A} k (f : A -> json) (parse : json -> option A) (o : option A) d :
  assoc k d = Some (opt_json f o) -> (forall a, f a <> JNull) -> (forall a, parse (f a) = Some a) ->
  opt_field k parse d = Some o.
Proof.
  intros Hk Hn Hp. unfold opt_field. rewrite Hk. destruct o as [a|]; [|done]. simpl.
  specialize (Hn a). specialize (Hp a). destruct (f a); try (by rewrite Hp). done.
Qed.

Lemma window_dumped w : window_validate pyd_float pyd_int date_validate (window_dump date_dump w) = Some w.
Proof.
  unfold window_validate, window_dump. cbn [as_obj mbind option_bind].
  change (only_keys _ _) with true. cbn [assoc String.eqb Ascii.eqb Bool.eqb mbind option_bind].
  rewrite Hfloat. cbn [mbind option_bind]. rewrite Hint. cbn [mbind option_bind].
  rewrite (opt_field_dump "resets_at" (fun t => JStr (date_dump t)) date_validate (uw_resets_at w)) by done.
  cbn. by destruct w as [[m e] mins r].
Qed.

Lemma usage_dumped u : usage_validate (JObj (serialize u)) = Some u.
Proof.
  unfold Usage.usage_validate. cbn [as_obj mbind option_bind]. unfold Usage.serialize.
  change (only_keys _ _) with true. cbv iota.
  rewrite (opt_field_dump "updated_at" (fun t => JStr (date_dump t)) date_validate (cu_updated_at u)) by done.
  cbn [mbind option_bind].
  rewrite (opt_field_dump "plan_type" JStr as_str (cu_plan_type u)) by done. cbn [mbind option_bind].
  rewrite (opt_field_dump "primary" (window_dump date_dump) (window_validate pyd_float pyd_int date_validate)
    (cu_primary u)) by (done || apply window_dumped). cbn [mbind option_bind].
  rewrite (opt_field_dump "secondary" (window_dump date_dump) (window_validate pyd_float pyd_int date_validate)
    (cu_secondary u)) by (done || apply window_dumped).
  by destruct u.
Qed.
(** What a publication of a sidecar's snapshot leaves: the usage in Redis, and one message. *)
Lemma published sidecar snapshot s v w :
  w_faults w = [] -> snapshot_validate pyd_float pyd_int snapshot = Some s -> parse_usage (w_now w) s = Ok v ->
  let '(r, w') := publish_rate_limits (usage_payload pyd_float pyd_int date_dump) sidecar snapshot w in
  r = Ok tt /\ live w' (usage_key sidecar) = Some (RJson (JObj (serialize v))) /\
  w_pub w' = (w_pub w ++ [(usage_channel sidecar, PubUsage (serialize v))])%list.
Proof.
  intros Hf Hs Hv. unfold publish_rate_limits, pbind at 1, now, gets. cbn [fst snd]. unfold usage_payload. rewrite Hs, Hv.
  unfold publish_usage, redis_quiet, redis_default, except, pbind, redis_op. rewrite Hf.
  cbn -[usage_key usage_channel seconds live]. rewrite Hf. cbn -[usage_key usage_channel seconds live].
  split; [done|]. split; [|done].
  transitivity (live (set_json_ex (usage_key sidecar) (JObj (serialize v)) SNAPSHOT_TTL_S w).2 (usage_key sidecar)); [done|].
  unfold set_json_ex. cbn [snd]. rewrite live_put, (proj2 (Z.leb_le _ _)); [done|].
  unfold seconds, SNAPSHOT_TTL_S. lia.
Qed.

Context (require_user : option string -> prog world exn user).

Lemma activity_shown c t k : activity_frame (payload_of (PubActivity c t k)) = Some (c, t, k).
Proof. by destruct k. Qed.

Lemma omap_shown {A B} (show : json -> option B) (msg : A -> pubmsg) (view : A -> B) l :
  (forall a, show (payload_of (msg a)) = Some (view a)) ->
  omap show (map payload_of (map msg l)) = map view l.
Proof. intros H. induction l as [|a l IH]; [done|]. cbn [map omap list_omap]. by rewrite H, IH. Qed.

Lemma subscribe_run w : w_faults w = [] -> subscribe w = (Ok (List.length (w_pub w)), w).
Proof. intros H. unfold subscribe, redis_op. by rewrite H. Qed.

(** C28: subscribers miss nothing. After the subscription has been made, whatever the other
    processes do and for as long as the stream lasts: the stream of the plan's usage shows
    the snapshot that is stored (or an empty one), and then, in their order, exactly the
    usages published on the channel of the user's sidecar; the activity stream shows exactly
    the activities published for the user; a subscriber of the bus exactly the events
    published for the chat. What is shown is what the publisher had. *)
Theorem streams_deliver token u w w0 env
    (Hu : require_user token w = (Ok u, w0)) (Hf : w_faults w0 = []) (Henv : Forall appends env) :
  (let '(frames, r, w') :=
       stream_codex_usage pyd_float pyd_int date_validate require_user token (map Wait env) w in
   r = Ok tt /\ exists l, w_pub w' = (w_pub w0 ++ l)%list /\
   forall stored us,
     live w0 (usage_key (usage_sidecar u)) = (fun v => RJson (JObj (serialize v))) <$> stored ->
     on_channel (usage_channel (usage_sidecar u)) l = map (fun v => PubUsage (serialize v)) us ->
     frames = match stored with Some v => codex_usage_to_pb v | None => empty_usage_pb end ::
              map codex_usage_to_pb us) /\
  (let '(frames, r, w') := stream_chat_activity require_user token (map Wait env) w in
   r = Ok tt /\ exists l, w_pub w' = (w_pub w0 ++ l)%list /\
   forall acts, on_channel (channel_for_user (u_id u)) l = map (fun a => PubActivity a.1.1 a.1.2 a.2) acts ->
     frames = acts) /\
  (forall chat_id,
   let '(shown, r, w') := bus_subscribe chat_id (map Wait env) w0 in
   r = Ok tt /\ exists l, w_pub w' = (w_pub w0 ++ l)%list /\
   forall evs, on_channel (bus_channel chat_id) l = map PubChatEvent evs -> shown = evs).
Proof.
  split; [|split].
  - destruct (listen_shows (fun j => codex_usage_to_pb <$> usage_validate j)
      (usage_channel (usage_sidecar u)) env w0 Henv) as (l & w' & E & Hp).
    unfold stream_codex_usage, pbind.
    rewrite Hu, subscribe_run by done. unfold stored_usage, pbind, redis_op. rewrite Hf. cbn [fst snd redis_get pret].
    rewrite E. split; [done|]. exists l. split; [done|]. intros stored us Hs Hl. rewrite Hl.
    rewrite (omap_shown _ _ codex_usage_to_pb) by (intros v; cbn [payload_of]; by rewrite usage_dumped).
    rewrite Hs. destruct stored as [v|]; [|done]. cbn [fmap option_fmap option_map deserialize]. by rewrite usage_dumped.
  - destruct (listen_shows activity_frame (channel_for_user (u_id u)) env w0 Henv) as (l & w' & E & Hp).
    unfold stream_chat_activity, pbind. rewrite Hu, subscribe_run by done. cbn [pret]. rewrite E.
    split; [done|]. exists l. split; [done|]. intros acts ->.
    rewrite (omap_shown _ _ (fun a => a)) by (intros [[c t] k]; apply activity_shown). by rewrite map_id.
  - intros chat_id. destruct (listen_shows bus_event (bus_channel chat_id) env w0 Henv) as (l & w' & E & Hp).
    unfold bus_subscribe. rewrite subscribe_run by done. rewrite E. split; [done|]. exists l. split; [done|].
    intros evs ->. rewrite (omap_shown _ _ (fun a => a)); [by rewrite map_id|].
    intros ev. cbn [payload_of bus_event]. by rewrite frame_roundtrip.
Qed.
End Laws.

(* ------------------------------------------------------------------ *)
(** * Witness *)

Definition demo_float (j : json) : option dec := as_number j.
Definition demo_whole (j : json) : option Z := match j with JNum z => Some z | _ => None end.
Definition demo_date (t : Z) : string := str_of_Z t.
Definition demo_date_validate (j : json) : option Z := match j with JStr s => py_int s | _ => None end.
Definition demo_usage : CodexUsage := mk_usage (Some 5) (Some "pro") (Some (mk_window (125, -1) 300 None)) None.
Definition demo_require (token : option string) : prog world exn user :=
  pret (mk_user 4 None (Some "a@b") None None None Role_USER).
Definition demo_publishes (w : world) : world :=
  (publish (usage_channel GUEST) (PubUsage (serialize demo_date demo_usage)) w).2.

Lemma streams_deliver_witness :
  (stream_codex_usage demo_float demo_whole demo_date_validate demo_require None [Wait demo_publishes] empty_world).1.1 =
    [empty_usage_pb; codex_usage_to_pb demo_usage].
Proof.
  assert (Ha : Forall appends [demo_publishes]) by (constructor; [intros w; by eexists|constructor]).
  destruct (streams_deliver demo_float demo_whole demo_date demo_date_validate (fun m e => eq_refl) (fun z => eq_refl)
    py_int_str_of_Z demo_require None (mk_user 4 None (Some "a@b") None None None Role_USER) empty_world empty_world
    [demo_publishes] eq_refl eq_refl Ha) as [H _]. revert H.
  change (map Wait [demo_publishes]) with [Wait demo_publishes].
  destruct (stream_codex_usage _ _ _ _ _ [Wait demo_publishes] empty_world) as [[frames r] w'] eqn:E.
  intros [_ (l & Hl & H)].
  assert (Hp : w_pub w' = w_pub (demo_publishes empty_world)).
  { change w' with (frames, r, w').2. rewrite <- E. vm_compute. reflexivity. }
  simpl in Hl. rewrite Hp in Hl. apply (H None [demo_usage]); [reflexivity|].
  rewrite <- Hl. vm_compute. reflexivity.
Defined.

(** A reset time in milliseconds leaves the callback as a [ValueError], which nobody catches
    on the way out of the turn's loop. *)
Example bad_reset_escapes :
  (publish_rate_limits (usage_payload demo_float demo_whole demo_date) GUEST
     [("primary", JObj [("usedPercent", JNum 1); ("resetsAt", JNum 1767225600000)])] empty_world).1 =
  Raise (ValueError "year is out of range").
Proof. vm_compute. reflexivity. Qed.
