(* ===== verification/TgHandlers.v ===== *)
(** The bot's updates: the registry of chats in front of every handler ([tg/registry.py]),
    the handlers of the commands and of the Stop button ([tg/handlers.py]), the sessions of
    the process as they use them ([services/sessions/store.py], [tg/sessions.py]) and the
    dispatcher ([tg/service.py]).

    A turn's task is kept as what it still does when it is cancelled; aiogram's filters and
    the parameters of [TgTurn], [OpenTurn] and [Usage] are parameters here too. *)
From S2P Require Import Prelude PyStr Text PyTime Json Models Events World WebStream Markdown Services TurnStore Translate.
From S2P Require Import Session OpenTurn TgProgress TgTurn Integrations Usage.

Open Scope Z_scope.
Open Scope string_scope.

(* ------------------------------------------------------------------ *)
(** * State *)

(** The turn tasks of the sessions, with what a cancelled task still does. *)
Definition tasks : Type := list (session_key * prog tworld exn unit).
Definition hworld : Type := tworld * tasks.

Definition on_bot {A} (m : prog tworld exn A) : prog hworld exn A :=
  fun h => let '(r, tw) := m h.1 in (r, (tw, h.2)).
Definition on_srv {A} (m : prog world exn A) : prog hworld exn A := on_bot (srv m).

Definition is_task (key : session_key) (t : session_key * prog tworld exn unit) : bool := bool_decide (t.1 = key).

(** [cancel_session_turn] of [services/sessions/store.py]: [task.cancel()] and [await task],
    whatever it raises. *)
Definition cancel_task (key : session_key) : prog hworld exn bool :=
  fun h => match List.find (is_task key) h.2 with
           | None => (Ok false, h)
           | Some (_, unwind) =>
               let '(_, tw) := unwind h.1 in (Ok true, (tw, List.filter (fun t => negb (is_task key t)) h.2))
           end.

(** [ChatSessionStore.get]. *)
Definition session_get (key : session_key) : prog hworld exn (option chat_session) :=
  on_bot (tg_get (fun st => find_session key (ts_sessions st))).

Definition clear_persisted_thread (db_chat_id : Z) : prog world exn unit :=
  with_session (set_codex_thread_id db_chat_id None ;; commit).

(** [ChatSessionStore.reset]: the session goes; a turn of it runs on, but no session leads
    to its task any more. *)
Definition session_reset (key : session_key) : prog hworld exn bool :=
  let! known := session_get key in
  match known with
  | None => pret false
  | Some s =>
      on_bot (tg_mod (fun st => set_sessions (List.filter (fun e => negb (bool_decide (e.1 = key))) (ts_sessions st)) st)) ;;
      modify (fun h => (h.1, List.filter (fun t => negb (is_task key t)) h.2)) ;;
      on_srv (clear_persisted_thread (cs_db_chat_id s)) ;;
      pret true
  end.

(** [_on_turn_interrupted] of [tg/sessions.py]. *)
Definition on_turn_interrupted (s : chat_session) : prog world exn unit :=
  with_session (
    emit_event TURN_INTERRUPTED (Some (cs_db_chat_id s)) (Some (cs_db_user_id s)) None ;;
    commit).

(** The method [cancel_session_turn] of the store. *)
Definition cancel_session_turn (key : session_key) (s : chat_session) : prog hworld exn bool :=
  let! cancelled := cancel_task key in
  if negb cancelled then pret false else on_srv (on_turn_interrupted s) ;; pret true.

Fixpoint interrupt_each (l : list (session_key * chat_session)) (cancelled : Z) : prog hworld exn Z :=
  match l with
  | [] => pret cancelled
  | (key, s) :: rest =>
      let! done := cancel_session_turn key s in
      interrupt_each rest (if done : bool then cancelled + 1 else cancelled)
  end.

(** [interrupt_all_turns]; the newest session is the first of the list. *)
Definition interrupt_all_turns : prog hworld exn Z :=
  let! sessions := on_bot (tg_get ts_sessions) in
  interrupt_each (rev sessions) 0.

(* ------------------------------------------------------------------ *)
(** * Updates *)

Record tg_sender := mk_sender { sn_id : Z; sn_username : option string; sn_full_name : string }.
Record tg_chat_info := mk_chat_info { ci_id : Z; ci_title : option string; ci_full_name : string; ci_type : string }.

(** A message: its command, if it is one, whether it holds text or media, and what the
    runner makes of it. *)
Record tg_message := mk_tg_message {
  tm_chat : tg_chat_info;
  tm_from : option tg_sender;
  tm_thread_id : option Z;
  tm_is_topic : bool;
  tm_command : option string;
  tm_content : bool;
  tm_incoming : option incoming
}.

(** [ChatMemberUpdated] of the bot itself, with its new status. *)
Record tg_member := mk_tg_member { mb_chat : tg_chat_info; mb_from : tg_sender; mb_status : string }.

(** A callback query: [None] for a message that is no longer accessible. *)
Record tg_callback := mk_callback { cb_message : option tg_message; cb_data : option string }.

Inductive tg_update := UpMessage (m : tg_message) | UpMember (m : tg_member) | UpCallback (q : tg_callback).

Definition topic_key (m : tg_message) : session_key :=
  (ci_id (tm_chat m), if tm_is_topic m then tm_thread_id m else None).

(* ------------------------------------------------------------------ *)
(** * The registry ([tg/registry.py]) *)

Definition is_tg_chat (bot_id chat_id : Z) (r : tg_chat) : bool :=
  Z.eqb (tgc_bot_id r) bot_id && Z.eqb (tgc_chat_id r) chat_id.

(** [chat.title or chat.full_name]. *)
Definition chat_title (c : tg_chat_info) : string :=
  match ci_title c with Some t => if nonempty t then t else ci_full_name c | None => ci_full_name c end.

(** INSERT ... ON CONFLICT ON CONSTRAINT uq_telegram_bot_chat DO UPDATE. *)
Definition upsert_tg_chat (id bot_id : Z) (c : tg_chat_info) (membership : option string) (t : Z) (rows : list tg_chat) :
    list tg_chat :=
  if existsb (is_tg_chat bot_id (ci_id c)) rows then
    update_where (is_tg_chat bot_id (ci_id c)) (fun r =>
      mk_tg_chat (tgc_id r) (tgc_bot_id r) (tgc_chat_id r) (chat_title c) (ci_type c)
        (default (tgc_membership r) membership) (tgc_replies_enabled r) (tgc_created_at r) t) rows
  else (rows ++ [mk_tg_chat id bot_id (ci_id c) (chat_title c) (ci_type c) (default "unknown" membership) true t t])%list.

Definition with_names (username : option string) (display_name : option string) (u : user) : user :=
  mk_user (u_id u) (u_tg_user_id u) (u_email u) (u_password_hash u)
    (match display_name with Some n => Some n | None => u_display_name u end) username (u_role u).

Definition update_names (sender : option tg_sender) (f : tg_sender -> user -> user) : prog world exn unit :=
  match sender with
  | Some s => sql_write (fun d => set_users (update_where (is_tg (sn_id s)) (f s) (db_users d)) d)
  | None => pret tt
  end.

(** The transaction before the handler: whether replies are enabled. *)
Definition register_chat (bot_id : Z) (c : tg_chat_info) (membership : option string) (sender : option tg_sender) :
    prog world exn bool :=
  with_session (
    let! id := nextval in
    let! t := now in
    sql_write (fun d => set_tg_chats (upsert_tg_chat id bot_id c membership t (db_tg_chats d)) d) ;;
    update_names sender (fun s => with_names (sn_username s) (Some (sn_full_name s))) ;;
    let! enabled := sql (fun d => match List.find (is_tg_chat bot_id (ci_id c)) (db_tg_chats d) with
                                  | Some r => tgc_replies_enabled r
                                  | None => false
                                  end) in
    commit ;;
    pret enabled).

(** The transaction after it. *)
Definition register_username (sender : option tg_sender) : prog world exn unit :=
  match sender with
  | Some _ => with_session (update_names sender (fun s => with_names (sn_username s) None) ;; commit)
  | None => pret tt
  end.

(** The middleware around a handler. *)
Definition registry (bot_id : Z) (handler : prog hworld exn unit) (ev : tg_update) : prog hworld exn unit :=
  let around c membership sender is_message :=
    let! enabled := on_srv (register_chat bot_id c membership sender) in
    if is_message && negb enabled then pret tt
    else handler ;; on_srv (register_username sender) in
  match ev with
  | UpMessage m => around (tm_chat m) None (tm_from m) true
  | UpMember m => around (mb_chat m) (Some (mb_status m)) (Some (mb_from m)) false
  | UpCallback _ => handler
  end.

(* ------------------------------------------------------------------ *)
(** * Formatting of the usage *)

Definition dec_geb (d : dec) (n : Z) : bool :=
  if Z.leb 0 d.2 then Z.leb n (d.1 * 10 ^ d.2) else Z.leb (n * 10 ^ (- d.2)) d.1.

(** [max(0.0, 100.0 - used)]. *)
Definition left_percent (w : UsageWindow) : dec :=
  let '(m, e) := uw_used_percent w in
  if dec_geb (uw_used_percent w) 100 then (0, 0)
  else if Z.leb 0 e then (100 - m * 10 ^ e, 0) else (100 * 10 ^ (- e) - m, e).

Definition usage_icon (used : dec) : ustr :=
  if dec_geb used 80 then U.utf8 "🔴" else if dec_geb used 50 then U.utf8 "🟡" else U.utf8 "🟢".

Fixpoint times (n : nat) (s : ustr) : ustr := match n with O => [] | S n' => (s ++ times n' s)%list end.

Definition DOTS : Z := 10.

Definition usage_dots (used : dec) : ustr :=
  let filled := Z.max 0 (Z.min DOTS (dec_round (-1) used)) in
  (times (Z.to_nat filled) (usage_icon used) ++ times (Z.to_nat (DOTS - filled)) (U.utf8 "⚪"))%list.

(** Dates of usages are microseconds. *)
Definition format_dt (value : option Z) : string :=
  match value with None => "unknown" | Some us => minute_text (us / 1000) end.

Definition format_window (label : string) (w : UsageWindow) : list ustr :=
  [ (U.lit (label ++ "   ") ++ usage_dots (uw_used_percent w) ++
     U.lit (" " ++ str_of_Z (dec_round 0 (uw_used_percent w)) ++ "% used"))%list;
    U.lit ("left " ++ str_of_Z (dec_round 0 (left_percent w)) ++ "%");
    U.lit ("reset " ++ format_dt (uw_resets_at w)) ].

Fixpoint ujoin (sep : ustr) (l : list ustr) : ustr :=
  match l with [] => [] | [x] => x | x :: l' => (x ++ sep ++ ujoin sep l')%list end.

Definition format_codex_usage (u : CodexUsage) : ustr :=
  let plan := match cu_plan_type u with Some p => if nonempty p then p else "unknown" | None => "unknown" end in
  let section label w := match w with Some w => [format_window label w] | None => [] end in
  let blocks := ([[(U.utf8 "📊 Codex usage · " ++ U.lit plan)%list]] ++
                 section "5h" (cu_primary u) ++ section "week" (cu_secondary u) ++
                 match cu_updated_at u with Some t => [[U.lit ("updated " ++ format_dt (Some t))]] | None => [] end)%list in
  ujoin [10; 10] (map (ujoin [10]) blocks).

Example usage_text :
  format_codex_usage (mk_usage None (Some "pro") (Some (mk_window (455, -1) 300 None)) None) =
  (U.utf8 "📊 Codex usage · pro" ++ [10; 10] ++ U.utf8 "5h   🟢🟢🟢🟢🟢⚪⚪⚪⚪⚪ 46% used" ++ [10] ++
   U.lit "left 54%" ++ [10] ++ U.lit "reset unknown")%list.
Proof. vm_compute. reflexivity. Qed.

(* ------------------------------------------------------------------ *)
(** * The handlers ([tg/handlers.py]) *)

Definition CB_TURN_STOP : string := "turn:stop".
Definition NEW_THREAD_NOTICE : string := "New thread will open with the next message.".

(** A text answer. *)
Definition say (text : string) : prog hworld exn unit := on_bot (notify text).

Definition on_start : prog hworld exn unit :=
  say "Bot is running. Send text, photo, or voice — Codex will reply here.".

Definition on_reset (m : tg_message) : prog hworld exn unit :=
  let! existed := session_reset (topic_key m) in
  say (if existed : bool then "Session reset." else "No active session.").

Definition on_new (m : tg_message) : prog hworld exn unit :=
  let! session := session_get (topic_key m) in
  match session with
  | None => say NEW_THREAD_NOTICE
  | Some s =>
      on_srv (with_session (
        set_codex_thread_id (cs_db_chat_id s) None ;;
        emit_event THREAD_RESET (Some (cs_db_chat_id s)) (Some (cs_db_user_id s)) None ;;
        commit)) ;;
      say NEW_THREAD_NOTICE
  end.

Definition stop_turn (key : session_key) (s : chat_session) : prog hworld exn bool :=
  cancel_turn (@on_srv) (cancel_task key) s.

Definition on_stop (m : tg_message) : prog hworld exn unit :=
  let! session := session_get (topic_key m) in
  match session with
  | None => say "No active turn to stop."
  | Some s =>
      let! cancelled := stop_turn (topic_key m) s in
      say (if cancelled : bool then "Turn interrupted." else "No active turn to stop.")
  end.

(** [query.answer]. *)
Definition answer_callback (text : option string) : prog hworld exn unit :=
  on_bot (tg_call (AnswerCallback (U.utf8 <$> text)) ;; pret tt).

Definition on_callback (q : tg_callback) : prog hworld exn unit :=
  match cb_message q with
  | None => answer_callback None
  | Some m =>
      let! session := session_get (topic_key m) in
      match session with
      | None => answer_callback (Some "No active session")
      | Some s =>
          if bool_decide (cb_data q = Some CB_TURN_STOP) then
            let! cancelled := stop_turn (topic_key m) s in
            answer_callback (Some (if cancelled : bool then "Зупинено" else "Нема активного turn'а"))
          else answer_callback None
      end
  end.

Section Handlers.
Context (E : tg_env).
(** [TurnRunner.handle] of a message, with the parameters of [TgTurn]. *)
Context (handle : incoming -> prog tworld exn unit).
(** [open_codex_turn] around [codex_usage_service.latest], for a chat, a user and a role. *)
Context (read_usage : Z -> Z -> bool -> prog world exn (option CodexUsage)).

Definition on_codex_usage (m : tg_message) : prog hworld exn unit :=
  match tm_from m with
  | None => pret tt
  | Some sender =>
      if negb (existsb (Z.eqb (sn_id sender)) (te_admin_ids E)) then pret tt
      else
        let! s := on_bot (get_or_open E (topic_key m) (sn_id sender) (Some (sn_full_name sender))) in
        let! usage := on_srv (read_usage (cs_db_chat_id s) (cs_db_user_id s) (cs_is_admin s)) in
        match usage with
        | None => say "Sidecar не expose'ить rate-limits RPC."
        | Some u => on_bot (answer (Markdown.escape (format_codex_usage u)))
        end
  end.

Definition on_incoming (m : tg_message) : prog hworld exn unit :=
  match tm_incoming m with
  | Some i => on_bot (handle i)
  | None => pret tt
  end.

(** [membership_changed]. *)
Definition membership_changed : prog hworld exn unit := pret tt.

Definition is_command (name : string) (m : tg_message) : bool := bool_decide (tm_command m = Some name).

(** The handlers of [_build_dispatcher], in the order of their registration. *)
Definition dispatch (ev : tg_update) : prog hworld exn unit :=
  match ev with
  | UpMessage m =>
      if is_command "start" m then on_start
      else if is_command "new" m then on_new m
      else if is_command "reset" m then on_reset m
      else if is_command "stop" m then on_stop m
      else if is_command "codex_usage" m then on_codex_usage m
      else if tm_content m then on_incoming m
      else pret tt
  | UpMember _ => membership_changed
  | UpCallback q => match cb_data q with
                    | Some d => if nonempty d then on_callback q else pret tt
                    | None => pret tt
                    end
  end.

(** An update as the bot [bot_id] gets it. *)
Definition feed (bot_id : Z) (ev : tg_update) : prog hworld exn unit := registry bot_id (dispatch ev) ev.
End Handlers.

(** [read_usage] over the opening of a turn and the usage service. *)
Section ReadUsage.
Context (pyd_bool : json -> option bool) (jwt_encode : dict -> string -> string).
Context (CODEX_REASONING_EFFORT MCP_AUTHZ_SECRET : string) (CODEX_THREAD_REUSE_ENABLED : bool).
Context (cwd approval_policy sandbox : string).
Context (pyd_float : json -> option dec) (pyd_int : json -> option Z).

Definition read_codex_usage (db_chat_id db_user_id : Z) (is_admin : bool) : prog world exn (option CodexUsage) :=
  open_codex_turn pyd_bool jwt_encode CODEX_REASONING_EFFORT MCP_AUTHZ_SECRET CODEX_THREAD_REUSE_ENABLED
    cwd approval_policy sandbox db_chat_id db_user_id is_admin false
    (fun _ _ _ => latest pyd_float pyd_int).
End ReadUsage.

(* ------------------------------------------------------------------ *)
(** * Settings: chats ([api/settings/router.py]) *)

Definition telegram_chats : prog world exn (list tg_chat) :=
  with_session (sql (fun d => order_by (fun r => - tgc_updated_at r) (db_tg_chats d))).

(** [row.replies_enabled = data.replies_enabled]: an UPDATE when it changes. *)
Definition set_replies (enabled : bool) (t : Z) (r : tg_chat) : tg_chat :=
  if Bool.eqb (tgc_replies_enabled r) enabled then r
  else mk_tg_chat (tgc_id r) (tgc_bot_id r) (tgc_chat_id r) (tgc_title r) (tgc_kind r) (tgc_membership r)
         enabled (tgc_created_at r) t.

Definition update_chat (entry_id : Z) (replies_enabled : bool) : prog world exn unit :=
  with_session (
    let! row := sql (fun d => List.find (fun r => Z.eqb (tgc_id r) entry_id) (db_tg_chats d)) in
    match row with
    | None => praise (HTTPException 404 "Chat not found")
    | Some _ =>
        let! t := now in
        sql_write (fun d => set_tg_chats
          (update_where (fun r => Z.eqb (tgc_id r) entry_id) (set_replies replies_enabled t) (db_tg_chats d)) d) ;;
        commit
    end).

(* ------------------------------------------------------------------ *)
(** * Lemmas on the registry *)

(** Whether the bot answers messages of a chat; a chat it has not seen starts enabled. *)
Definition answered (bot_id chat_id : Z) (d : database) : bool :=
  match List.find (is_tg_chat bot_id chat_id) (db_tg_chats d) with Some r => tgc_replies_enabled r | None => true end.

Lemma is_tg_chat_iff bot_id chat_id r :
  is_tg_chat bot_id chat_id r = true <-> tgc_bot_id r = bot_id /\ tgc_chat_id r = chat_id.
Proof. unfold is_tg_chat. rewrite andb_true_iff, !Z.eqb_eq. done. Qed.

(** The row of the event's chat: its title and kind are the event's, the switch is the
    administrator's. *)
Lemma upsert_row id bot_id c membership t d rows :
  rows = db_tg_chats d ->
  exists r, List.find (is_tg_chat bot_id (ci_id c)) (upsert_tg_chat id bot_id c membership t rows) = Some r /\
    tgc_title r = chat_title c /\ tgc_kind r = ci_type c /\ tgc_updated_at r = t /\
    tgc_replies_enabled r = answered bot_id (ci_id c) d.
Proof.
  intros ->. unfold upsert_tg_chat, answered. rewrite existsb_find.
  destruct (List.find (is_tg_chat bot_id (ci_id c)) (db_tg_chats d)) as [r|] eqn:E.
  - rewrite bool_decide_eq_true_2 by done. rewrite find_keyed by done. rewrite E.
    pose proof (proj2 (find_some _ _ E)) as Hr. simpl. rewrite Hr. by eexists.
  - rewrite bool_decide_eq_false_2 by (by intros []). rewrite find_app_new.
    + unfold is_tg_chat. simpl. rewrite !Z.eqb_refl. by eexists.
    + rewrite existsb_find, E. by rewrite bool_decide_eq_false_2 by (by intros []).
Qed.

(** The rows of other chats stay. *)
Lemma upsert_other id bot_id c membership t rows bot' chat' :
  (bot', chat') <> (bot_id, ci_id c) ->
  List.find (is_tg_chat bot' chat') (upsert_tg_chat id bot_id c membership t rows) =
  List.find (is_tg_chat bot' chat') rows.
Proof.
  intros Hne. assert (Hn : forall r, is_tg_chat bot_id (ci_id c) r = true -> is_tg_chat bot' chat' r = false).
  { intros r [H1 H2]%is_tg_chat_iff. apply not_true_iff_false. intros [H3 H4]%is_tg_chat_iff. apply Hne. congruence. }
  unfold upsert_tg_chat. case_goal.
  - apply find_skip. intros r Hr. split; [by apply Hn|]. by apply (Hn r) in Hr.
  - apply find_app_other. apply Hn. unfold is_tg_chat. simpl. by rewrite !Z.eqb_refl.
Qed.

(** What a registration leaves alone. *)
Definition registered_only (w w' : world) : Prop :=
  redisview w' = redisview w /\
  w_db w' = set_tg_chats (db_tg_chats (w_db w')) (set_users (db_users (w_db w')) (w_db w)) /\
  map (fun u => (u_id u, u_tg_user_id u, u_role u)) (db_users (w_db w')) =
  map (fun u => (u_id u, u_tg_user_id u, u_role u)) (db_users (w_db w)).

Lemma register_chat_run bot_id c membership sender w :
  exists w', register_chat bot_id c membership sender w = (Ok (answered bot_id (ci_id c) (w_db w)), w') /\
    registered_only w w' /\
    db_tg_chats (w_db w') = upsert_tg_chat (w_seq w) bot_id c membership (w_now w) (db_tg_chats (w_db w)).
Proof.
  destruct (upsert_row (w_seq w) bot_id c membership (w_now w) (w_db w) _ eq_refl) as (r & Hr & _ & _ & _ & He).
  unfold register_chat, with_session, update_names. destruct sender as [s|]; unfold pbind; cbn; rewrite Hr, He;
    (eexists; split; [reflexivity|]); (split; [|done]); (split; [done|]); (split; [done|]); [|done].
  apply map_update_where. by intros.
Qed.

Lemma update_chat_run entry b w r :
  List.find (fun r => Z.eqb (tgc_id r) entry) (db_tg_chats (w_db w)) = Some r ->
  exists w', update_chat entry b w = (Ok tt, w') /\ redisview w' = redisview w /\ w_seq w' = w_seq w /\
    w_db w' = set_tg_chats (update_where (fun r => Z.eqb (tgc_id r) entry) (set_replies b (w_now w))
                             (db_tg_chats (w_db w))) (w_db w).
Proof.
  intros H. unfold update_chat, with_session, pbind. cbn. rewrite H. cbn. eexists. split; [reflexivity|done].
Qed.

Lemma is_chat_set_replies bot_id chat_id b t r : is_tg_chat bot_id chat_id (set_replies b t r) = is_tg_chat bot_id chat_id r.
Proof. unfold set_replies. by case_goal. Qed.

Lemma answered_set bot_id chat_id entry b t d r :
  List.find (is_tg_chat bot_id chat_id) (db_tg_chats d) = Some r ->
  answered bot_id chat_id (set_tg_chats (update_where (fun r => Z.eqb (tgc_id r) entry) (set_replies b t) (db_tg_chats d)) d)
  = if Z.eqb (tgc_id r) entry then b else answered bot_id chat_id d.
Proof.
  intros H. unfold answered. cbn [db_tg_chats set_tg_chats].
  rewrite find_keyed by (intros; apply is_chat_set_replies). rewrite H. simpl.
  destruct (Z.eqb (tgc_id r) entry); [|done]. unfold set_replies.
  destruct (Bool.eqb (tgc_replies_enabled r) b) eqn:E; [by apply eqb_prop|done].
Qed.

Lemma answered_set_none bot_id chat_id entry b t d :
  List.find (is_tg_chat bot_id chat_id) (db_tg_chats d) = None ->
  answered bot_id chat_id (set_tg_chats (update_where (fun r => Z.eqb (tgc_id r) entry) (set_replies b t) (db_tg_chats d)) d)
  = answered bot_id chat_id d.
Proof.
  intros H. unfold answered. cbn [db_tg_chats set_tg_chats].
  rewrite find_keyed by (intros; apply is_chat_set_replies). by rewrite H.
Qed.

(* ------------------------------------------------------------------ *)
(** * Properties *)

(** The state of a bot whose server is in [w]. *)
Definition at_world (w : world) (h : hworld) : hworld := ((w, h.1.2), h.2).


(** What runs when a bot gets an update of a chat that is not answered. *)
Lemma muted_feed E handle read_usage bot_id m h :
  answered bot_id (ci_id (tm_chat m)) (w_db h.1.1) = false ->
  exists w', feed E handle read_usage bot_id (UpMessage m) h = (Ok tt, at_world w' h) /\ registered_only h.1.1 w' /\
    answered bot_id (ci_id (tm_chat m)) (w_db w') = false.
Proof.
  destruct h as [[w st] ts]. cbn [fst snd]. intros H.
  destruct (register_chat_run bot_id (tm_chat m) None (tm_from m) w) as (w' & E1 & Hreg & Hrows).
  exists w'. split_and!; [|done|].
  - unfold feed. generalize (dispatch E handle read_usage (UpMessage m)). intros handler.
    unfold registry. unfold pbind at 1. unfold on_srv, on_bot, srv. cbn [fst snd].
    by rewrite E1, H.
  - unfold answered at 1. rewrite Hrows. destruct (upsert_row (w_seq w) bot_id (tm_chat m) None (w_now w) (w_db w) _ eq_refl)
      as (r & -> & _ & _ & _ & He). congruence.
Qed.

(** What the turns of the chat resume. *)
Definition stored_thread (chat_id : Z) (d : database) : option string :=
  match List.find (chat_is chat_id) (db_chats d) with Some c => c_codex_thread_id c | None => None end.

Lemma load_stored chat_id w : (load_stored_thread_id chat_id w).1 = Ok (stored_thread chat_id (w_db w)).
Proof. done. Qed.

Lemma stored_cleared chat_id d :
  stored_thread chat_id (set_chats (update_where (chat_is chat_id) (with_thread None) (db_chats d)) d) = None.
Proof.
  unfold stored_thread. cbn [db_chats set_chats]. rewrite find_keyed by done.
  destruct (List.find (chat_is chat_id) (db_chats d)) as [c|] eqn:E; [|done].
  simpl. by rewrite (proj2 (find_some _ _ E)).
Qed.

Lemma stored_other chat_id other t d : other <> chat_id ->
  stored_thread other (set_chats (update_where (chat_is chat_id) (with_thread t) (db_chats d)) d) = stored_thread other d.
Proof.
  intros Hne. unfold stored_thread. cbn [db_chats set_chats]. rewrite find_skip; [done|].
  unfold chat_is. intros c Hc%Z.eqb_eq. cbn. split; apply Z.eqb_neq; congruence.
Qed.

(** A text answer touches the bot alone. *)
Lemma say_frame text h : exists r b, say text h = (r, ((h.1.1, set_bot b h.1.2), h.2)).
Proof.
  destruct h as [[w st] ts]. unfold say, notify, answer, tg_call, tg_try, on_bot, pbind. cbn.
  destruct (hd Delivered (tg_script (ts_bot st))); cbn; eauto.
Qed.

Definition on_new_row (s : chat_session) (w : world) : event_row :=
  mk_event_row (w_seq w) (Some (cs_db_chat_id s)) (Some (cs_db_user_id s)) THREAD_RESET None.

Lemma get_known m h : session_get (topic_key m) h = (Ok (find_session (topic_key m) (ts_sessions h.1.2)), h).
Proof. by destruct h as [[w st] ts]. Qed.

Lemma new_run m w st ts s :
  find_session (topic_key m) (ts_sessions st) = Some s ->
  exists w', on_new m ((w, st), ts) = say NEW_THREAD_NOTICE ((w', st), ts) /\
    w_db w' = set_events (db_events (w_db w) ++ [on_new_row s w])
      (set_chats (update_where (chat_is (cs_db_chat_id s)) (with_thread None) (db_chats (w_db w))) (w_db w)).
Proof.
  intros H. eexists. split.
  - unfold on_new. unfold pbind at 1. rewrite get_known. cbn [fst snd]. rewrite H. reflexivity.
  - reflexivity.
Qed.

Lemma reset_run m w st ts s :
  find_session (topic_key m) (ts_sessions st) = Some s ->
  exists w', on_reset m ((w, st), ts) =
      say "Session reset."
        ((w', set_sessions (List.filter (fun e => negb (bool_decide (e.1 = topic_key m))) (ts_sessions st)) st),
         List.filter (fun t => negb (is_task (topic_key m) t)) ts) /\
    w_db w' = set_chats (update_where (chat_is (cs_db_chat_id s)) (with_thread None) (db_chats (w_db w))) (w_db w).
Proof.
  intros H. eexists. split.
  - unfold on_reset, session_reset. unfold pbind at 1 2. rewrite get_known. cbn [fst snd]. rewrite H. reflexivity.
  - reflexivity.
Qed.

Lemma find_session_filter key l :
  find_session key (List.filter (fun e => negb (bool_decide (e.1 = key))) l) = None.
Proof.
  unfold find_session. induction l as [|[k s] l IH]; [done|]. simpl.
  destruct (bool_decide (k = key)) eqn:E; simpl; [exact IH|]. by rewrite E.
Qed.

Lemma find_session_other key key' l : key' <> key ->
  find_session key' (List.filter (fun e => negb (bool_decide (e.1 = key))) l) = find_session key' l.
Proof.
  intros Hne. unfold find_session. induction l as [|[k s] l IH]; [done|]. simpl.
  destruct (bool_decide (k = key)) eqn:E; simpl.
  - apply bool_decide_eq_true in E as ->. by rewrite bool_decide_eq_false_2 by congruence.
  - by destruct (bool_decide (k = key')).
Qed.

Lemma dispatch_new E handle read_usage m :
  tm_command m = Some "new" -> dispatch E handle read_usage (UpMessage m) = on_new m.
Proof. intros H. unfold dispatch, is_command. rewrite H. reflexivity. Qed.
Lemma dispatch_reset E handle read_usage m :
  tm_command m = Some "reset" -> dispatch E handle read_usage (UpMessage m) = on_reset m.
Proof. intros H. unfold dispatch, is_command. rewrite H. reflexivity. Qed.

(** [/new] and [/reset] end the thread of a chat. Whatever Telegram makes of the answer,
    when either returns the next opening of the chat finds no stored thread to resume, and
    the threads of other chats are as they were. [/new] keeps the session and its running turn
    and journals one [THREAD_RESET]; [/reset] drops the session, and journals nothing. *)
Theorem thread_forgotten E handle read_usage m h s name
    (Hs : find_session (topic_key m) (ts_sessions h.1.2) = Some s)
    (Hname : name = "new" \/ name = "reset") (Hm : tm_command m = Some name) :
  let h' := (dispatch E handle read_usage (UpMessage m) h).2 in
  (load_stored_thread_id (cs_db_chat_id s) h'.1.1).1 = Ok None /\
  (forall other, other <> cs_db_chat_id s -> stored_thread other (w_db h'.1.1) = stored_thread other (w_db h.1.1)) /\
  db_messages (w_db h'.1.1) = db_messages (w_db h.1.1) /\
  if String.eqb name "new" then
    ts_sessions h'.1.2 = ts_sessions h.1.2 /\ h'.2 = h.2 /\
    db_events (w_db h'.1.1) = (db_events (w_db h.1.1) ++ [on_new_row s h.1.1])%list
  else
    find_session (topic_key m) (ts_sessions h'.1.2) = None /\ db_events (w_db h'.1.1) = db_events (w_db h.1.1) /\
    forall key, key <> topic_key m -> find_session key (ts_sessions h'.1.2) = find_session key (ts_sessions h.1.2).
Proof.
  destruct h as [[w st] ts]. cbn [fst snd] in *. rewrite load_stored. destruct Hname as [-> | ->].
  - destruct (new_run m w st ts s Hs) as (w' & Hrun & Hdb). rewrite (dispatch_new _ _ _ _ Hm), Hrun. destruct (say_frame NEW_THREAD_NOTICE ((w', st), ts)) as (r & b & ->). cbn [fst snd set_bot ts_sessions].
    rewrite Hdb. split_and!; [|intros; by apply stored_other|done..]. f_equal. apply (stored_cleared (cs_db_chat_id s)).
  - destruct (reset_run m w st ts s Hs) as (w' & Hrun & Hdb). rewrite (dispatch_reset _ _ _ _ Hm), Hrun. match goal with |- context [say ?t ?x] => destruct (say_frame t x) as (r & b & ->) end.
    cbn [fst snd set_bot set_sessions ts_sessions]. rewrite Hdb.
    change (String.eqb "reset" "new") with false. cbn iota.
    split_and!; [|intros; by apply stored_other|done|apply find_session_filter|done|].
    + f_equal. apply stored_cleared.
    + intros key Hk. by apply find_session_other.
Qed.

(** Without a session in memory [/new] answers the same, and the stored thread stays: the next
    message opens it again. *)
Lemma new_without_session m h :
  find_session (topic_key m) (ts_sessions h.1.2) = None -> on_new m h = say NEW_THREAD_NOTICE h.
Proof. destruct h as [[w st] ts]. intros H. unfold on_new. unfold pbind at 1. rewrite get_known. cbn in *. by rewrite H. Qed.

(** A session that is reset while its turn runs leaves no way to stop the turn. *)
Lemma reset_orphans_turn m h :
  find_session (topic_key m) (ts_sessions h.1.2) = None -> on_stop m h = say "No active turn to stop." h.
Proof. destruct h as [[w st] ts]. intros H. unfold on_stop. unfold pbind at 1. rewrite get_known. cbn in *. by rewrite H. Qed.

(* ------------------------------------------------------------------ *)
(** * Witnesses *)

Definition demo_message : tg_message := {|
  tm_chat := mk_chat_info 42 (Some "Team") "" "group"; tm_from := Some (mk_sender 42 (Some "ann") "Ann");
  tm_thread_id := None; tm_is_topic := false; tm_command := Some "reset"; tm_content := true; tm_incoming := None |}.
Definition demo_row : tg_chat := mk_tg_chat 1 9 42 "Old" "group" "member" true 0 0.
Definition demo_bot : hworld :=
  let d := set_chats [mk_chat 7 1 TELEGRAM (Some 42) None (Some "thread") None 0] (set_tg_chats [demo_row] empty_db) in
  ((set_db d empty_world, set_sessions [((42, None), mk_chat_session 7 1 false)] demo_tg_state), []).


Lemma thread_forgotten_witness :
  stored_thread 7 (w_db demo_bot.1.1) = Some "thread" /\
  (load_stored_thread_id 7 (on_reset demo_message demo_bot).2.1.1).1 = Ok None.
Proof.
  split; [reflexivity|].
  exact (proj1 (thread_forgotten demo_env (fun _ => pret tt) (fun _ _ _ => pret None) demo_message demo_bot
    (mk_chat_session 7 1 false) "reset" eq_refl (or_intror eq_refl) eq_refl)).
Defined.
