(* ===== verification/TgPolling.v ===== *)
(** Telegram's polling mode ([tg/polling.py]): of the workers that share a token at most one
    polls, by a lock in Redis that its owner renews and the others wait for.

    The dispatcher of aiogram polls from [start_polling] to [stop_polling], or until it ends
    by itself; sleeping tasks are steps a schedule takes. *)
From S2P Require Import Prelude PyStr PyLib Json Models World Locks.

Open Scope Z_scope.
Open Scope string_scope.

Definition POLLING_LOCK_KEY : string := "tg:polling:lock".
Definition LOCK_TTL_S : Z := 60.

(** [PollingMode]; the tasks by whether they run. *)
Record poller := mk_poller {
  po_token : option string;
  po_polling : bool;
  po_renewing : bool;
  po_waiting : bool
}.

Definition new_poller : poller := mk_poller None false false false.

Definition is_owner (p : poller) : bool := bool_decide (is_Some (po_token p)).

Section Polling.
(** [uuid4()] of the n-th draw. *)
Context (uuid : Z -> string).
(** [os.getpid()] of a worker; workers in different containers may share it. *)
Context (getpid : Z -> Z).

Definition lock_token (worker n : Z) : string := str_of_Z (getpid worker) ++ ":" ++ uuid n.

(** The commands of the lock, a failing Redis read as a refusal. *)
Definition lock_run (cmd : own_cmd) : prog world exn bool :=
  redis_default false (redis_op
    (match cmd with
     | CAcquire v => set_nx_ex POLLING_LOCK_KEY v LOCK_TTL_S
     | CRefresh v => expire_ifeq POLLING_LOCK_KEY v LOCK_TTL_S
     | CRelease v => delex_ifeq POLLING_LOCK_KEY v
     end)).

Definition acquire_lock (wid : Z) (p : poller) : prog world exn (bool * poller) :=
  let! n := nextval in
  let token := lock_token wid n in
  let! acquired := lock_run (CAcquire token) in
  if negb acquired then pret (false, p)
  else pret (true, mk_poller (Some token) (po_polling p) (po_renewing p) (po_waiting p)).

Definition launch (p : poller) : poller := mk_poller (po_token p) true true (po_waiting p).

Definition start (wid : Z) (p : poller) : prog world exn poller :=
  let! r := acquire_lock wid p in
  let '(acquired, p) := r in
  if acquired : bool then pret (launch p)
  else pret (mk_poller (po_token p) (po_polling p) (po_renewing p) true).

(** A round of [_wait_for_lock] after its sleep. *)
Definition wait_round (wid : Z) (p : poller) : prog world exn poller :=
  let! r := acquire_lock wid p in
  let '(acquired, p) := r in
  if acquired : bool
  then let p := launch p in pret (mk_poller (po_token p) (po_polling p) (po_renewing p) false)
  else pret p.

Definition handle_lock_lost (p : poller) : poller := mk_poller None false false true.

(** A round of [_renew_lock] after its sleep. *)
Definition renew_round (p : poller) : prog world exn poller :=
  match po_token p with
  | None => pret (mk_poller (po_token p) (po_polling p) false (po_waiting p))
  | Some token =>
      let! renewed := lock_run (CRefresh token) in
      if negb renewed then pret (handle_lock_lost p) else pret p
  end.

Definition release_lock (p : poller) : prog world exn poller :=
  let p' := mk_poller None (po_polling p) (po_renewing p) (po_waiting p) in
  match po_token p with
  | None => pret p'
  | Some token =>
      lock_run (CRelease token) ;;
      pret p'
  end.

Definition stop (p : poller) : prog world exn poller :=
  release_lock (mk_poller (po_token p) false false false).

(** [_on_polling_done]: the end of the dispatcher's task is logged. *)
Definition on_polling_done (p : poller) : poller :=
  mk_poller (po_token p) false (po_renewing p) (po_waiting p).

(* ------------------------------------------------------------------ *)
(** * The workers *)

(** Redis, the workers, and until when the holder of each token may count
    on it (its last confirmed command and the TTL). *)
Record system := mk_system {
  sy_world : world;
  sy_workers : gmap Z poller;
  sy_until : gmap string Z
}.

Definition worker (s : system) (wid : Z) : poller := default new_poller (sy_workers s !! wid).

(** What a worker's command tells about its token. *)
Definition renewed_until (w : world) (p p' : poller) (until : gmap string Z) : gmap string Z :=
  match po_token p' with
  | Some v => <[v := w_now w + seconds LOCK_TTL_S]> until
  | None => match po_token p with Some v => delete v until | None => until end
  end.

Definition after (s : system) (wid : Z) (r : result exn poller * world) : system :=
  match r with
  | (Ok p', w') => mk_system w' (<[wid := p']> (sy_workers s))
                     (renewed_until (sy_world s) (worker s wid) p' (sy_until s))
  | (Raise _, w') => mk_system w' (sy_workers s) (sy_until s)
  end.

(** Every owner gets to its next command before the TTL of its last one has passed. *)
Definition timely (s : system) (t : Z) : Prop :=
  forall wid v, po_token (worker s wid) = Some v -> exists u, sy_until s !! v = Some u /\ t <= u.

Inductive sys_step (s : system) : system -> Prop :=
| SStart wid : po_token (worker s wid) = None -> sys_step s (after s wid (start wid (worker s wid) (sy_world s)))
| SWait wid : po_token (worker s wid) = None -> po_waiting (worker s wid) = true ->
    sys_step s (after s wid (wait_round wid (worker s wid) (sy_world s)))
| SRenew wid : po_renewing (worker s wid) = true ->
    sys_step s (after s wid (renew_round (worker s wid) (sy_world s)))
| SStop wid : sys_step s (after s wid (stop (worker s wid) (sy_world s)))
| SDone wid : po_polling (worker s wid) = true ->
    sys_step s (mk_system (sy_world s) (<[wid := on_polling_done (worker s wid)]> (sy_workers s)) (sy_until s))
| SOther w : w_redis w !! POLLING_LOCK_KEY = w_redis (sy_world s) !! POLLING_LOCK_KEY ->
    w_now (sy_world s) <= w_now w -> w_seq (sy_world s) <= w_seq w -> timely s (w_now w) ->
    sys_step s (mk_system w (sy_workers s) (sy_until s)).

(** The states the workers get to from a start without any of them. *)
Definition reachable (s : system) : Prop :=
  exists w, rtc sys_step (mk_system w ∅ ∅) s.

(* ------------------------------------------------------------------ *)
(** * One poller *)

Context (Huuid : forall n n', uuid n = uuid n' -> n = n').

#[export] Instance polling_lock_owned : OwnedKey POLLING_LOCK_KEY LOCK_TTL_S lock_run.
Proof.
  pose proof (own_run_owned POLLING_LOCK_KEY LOCK_TTL_S) as [Ht Hc].
  split; intros cmd w; [specialize (Ht cmd w)|specialize (Hc cmd w)]; by destruct cmd.
Qed.

Notation backed := (backed POLLING_LOCK_KEY LOCK_TTL_S).

(** What holds in every reachable state. *)
Record sys_ok (s : system) : Prop := {
  ok_backed : backed (sy_world s, sy_until s);
  ok_issued : forall i v, po_token (worker s i) = Some v ->
    (exists n, v = lock_token i n /\ n < w_seq (sy_world s)) /\
    exists u, sy_until s !! v = Some u /\ w_now (sy_world s) <= u;
  ok_distinct : forall i j v, po_token (worker s i) = Some v -> po_token (worker s j) = Some v -> i = j;
  ok_polls : forall i, po_polling (worker s i) = true -> is_Some (po_token (worker s i))
}.

Lemma lock_token_inj i j n m : lock_token i n = lock_token j m -> n = m.
Proof.
  unfold lock_token. intros H. apply (f_equal (partition_char ":")) in H. cbn [append] in H.
  rewrite !partition_char_app in H by (by apply free_of_num). by injection H as _ H%Huuid.
Qed.

Lemma lock_run_frame cmd w : w_seq (lock_run cmd w).2 = w_seq w /\ w_now (lock_run cmd w).2 = w_now w.
Proof.
  assert (H : lock_run cmd = own_run POLLING_LOCK_KEY LOCK_TTL_S cmd) by (by destruct cmd). rewrite H.
  pose proof (own_run_sqlview POLLING_LOCK_KEY LOCK_TTL_S cmd w) as Hs. unfold same, sqlview in Hs. by simplify_eq.
Qed.

Lemma lock_run_total cmd w : exists b, lock_run cmd w = (Ok b, (lock_run cmd w).2).
Proof.
  destruct (own_total (OwnedKey := polling_lock_owned) cmd w) as (b & H & _). exists b.
  destruct (lock_run cmd w). simpl in *. by subst.
Qed.

Lemma worker_insert w ws u i p j :
  worker (mk_system w (<[i := p]> ws) u) j = if decide (i = j) then p else default new_poller (ws !! j).
Proof.
  unfold worker. simpl. destruct (decide (i = j)) as [->|]; [by rewrite lookup_insert_eq|by rewrite lookup_insert_ne].
Qed.

Lemma backed_delete w b v : backed (w, b) -> backed (w, delete v b).
Proof. intros H v' t Hv. simpl in Hv. apply lookup_delete_Some in Hv as [_ Hv]. by apply (H v' t). Qed.

(** A command of worker [i] that leaves it as [p']. *)
Lemma sys_ok_cmd s i w' p' :
  sys_ok s -> backed (w', renewed_until (sy_world s) (worker s i) p' (sy_until s)) ->
  w_seq (sy_world s) <= w_seq w' -> w_now w' = w_now (sy_world s) ->
  (forall v, po_token p' = Some v -> exists n, v = lock_token i n /\ n < w_seq w' /\
     forall j, i <> j -> po_token (worker s j) <> Some v) ->
  (po_polling p' = true -> is_Some (po_token p')) ->
  sys_ok (after s i (Ok p', w')).
Proof.
  intros [H1 H2 H3 H4] Hb Hs Hn Ht Hp. unfold after. set (until' := renewed_until _ _ _ _) in *.
  assert (Hu : forall j v, i <> j -> po_token (worker s j) = Some v -> until' !! v = sy_until s !! v).
  { intros j v Hij Hv. unfold until', renewed_until. destruct (po_token p') as [v'|] eqn:E.
    - destruct (Ht v' eq_refl) as (_ & _ & _ & Hf). rewrite lookup_insert_ne; [done|]. intros ->. by apply (Hf j).
    - destruct (po_token (worker s i)) as [v'|] eqn:Ei; [|done]. rewrite lookup_delete_ne; [done|].
      intros ->. by apply Hij, (H3 i j v). }
  assert (Hnew : forall v, po_token p' = Some v -> exists u, until' !! v = Some u /\ w_now w' <= u).
  { intros v E. unfold until', renewed_until. rewrite E, lookup_insert_eq. eexists. split; [done|].
    rewrite Hn. pose proof (seconds_pos LOCK_TTL_S eq_refl). lia. }
  split; cbn [sy_world sy_until]; [done|..].
  - intros j v. rewrite worker_insert. destruct (decide (i = j)) as [<-|Hij].
    + intros E. split; [|by apply Hnew]. destruct (Ht v E) as (n & ? & ? & _). by exists n.
    + intros E. destruct (H2 j v E) as [(n & ? & ?) (u & ? & ?)]. split; [exists n; split; [done|lia]|].
      exists u. rewrite (Hu j v Hij E), Hn. done.
  - intros j k v. rewrite !worker_insert. destruct (decide (i = j)) as [<-|Hij], (decide (i = k)) as [<-|Hik]; [done|..|apply H3].
    + intros E Ek. destruct (Ht v E) as (_ & _ & _ & Hf). by destruct (Hf k Hik).
    + intros Ej E. destruct (Ht v E) as (_ & _ & _ & Hf). by destruct (Hf j Hij).
  - intros j. rewrite worker_insert. destruct (decide (i = j)) as [<-|Hij]; [done|apply H4].
Qed.

(** What [believes] of [Locks] and the table of this file share. *)
Lemma backed_lock_run w b cmd : backed (w, b) -> backed ((lock_run cmd w).2, believes LOCK_TTL_S cmd (lock_run cmd w).1 (w_now w) b).
Proof. intros H. exact (backed_cmd POLLING_LOCK_KEY LOCK_TTL_S lock_run eq_refl cmd w b H). Qed.

Lemma backed_seq w n b : backed (w, b) -> backed (set_seq n w, b).
Proof. done. Qed.

Lemma acquire_ok s i (k : poller -> poller) :
  sys_ok s -> po_token (worker s i) = None ->
  (forall p, po_token (k p) = po_token p) ->
  let r := acquire_lock i (worker s i) (sy_world s) in
  exists ok p1, r = (Ok (ok, p1), r.2) /\
    ((ok = true /\ sys_ok (after s i (Ok (k p1), r.2))) \/
     (ok = false /\ p1 = worker s i /\
      forall p', po_token p' = None -> po_polling p' = po_polling (worker s i) -> sys_ok (after s i (Ok p', r.2)))).
Proof.
  intros Hs Hnone Hk. pose proof Hs as [H1 H2 H3 H4]. unfold acquire_lock, pbind, nextval.
  set (w1 := set_seq _ _). set (v := lock_token i _).
  destruct (lock_run_total (CAcquire v) w1) as [b Hb]. destruct (lock_run_frame (CAcquire v) w1) as [Hseq Hnow].
  pose proof (backed_lock_run w1 (sy_until s) (CAcquire v) (backed_seq _ _ _ H1)) as Hbk.
  rewrite Hb in *. cbn [fst snd] in Hseq, Hnow, Hbk |- *. set (w2 := (lock_run (CAcquire v) w1).2) in *.
  assert (Hfresh : forall j, po_token (worker s j) <> Some v).
  { intros j E. destruct (H2 j v E) as [(n & Hn & Hlt) _]. apply lock_token_inj in Hn. lia. }
  destruct b; cbn [negb pret fst snd believes] in *; eexists _, _; (split; [reflexivity|]).
  - left. split; [done|]. apply sys_ok_cmd; [done| |simpl in *; lia|done| |].
    + unfold renewed_until. rewrite Hk. cbn [po_token]. exact Hbk.
    + intros v'. rewrite Hk. cbn [po_token]. intros [= <-]. exists (w_seq (sy_world s)).
      split; [done|]. split; [simpl in *; lia|]. intros j _. apply Hfresh.
    + rewrite Hk. by eexists.
  - right. split_and!; [done|done|]. intros p' Hp' Hpoll. apply sys_ok_cmd; [done| |simpl in *; lia|done| |].
    + unfold renewed_until. rewrite Hp', Hnone. exact Hbk.
    + intros v'. by rewrite Hp'.
    + rewrite Hpoll. intros Hc. destruct (H4 i Hc) as [x Hx]. congruence.
Qed.

Lemma renew_ok s i : sys_ok s -> sys_ok (after s i (renew_round (worker s i) (sy_world s))).
Proof.
  intros Hs. unfold renew_round. destruct (po_token (worker s i)) as [v|] eqn:Ev.
  - destruct (lock_run_total (CRefresh v) (sy_world s)) as [b Hb].
    destruct (lock_run_frame (CRefresh v) (sy_world s)) as [Hseq Hnow].
    pose proof (backed_lock_run _ (sy_until s) (CRefresh v) (ok_backed _ Hs)) as Hbk.
    destruct (ok_issued _ Hs i v Ev) as [(n & Hn & Hlt) _].
    unfold pbind. rewrite Hb in *. cbn [fst snd] in Hseq, Hnow, Hbk. destruct b; cbn [negb pret].
    + apply sys_ok_cmd; [done| |lia|done| |by rewrite Ev].
      * unfold renewed_until. rewrite Ev. exact Hbk.
      * rewrite Ev. intros ? [= <-]. exists n. split; [done|]. split; [lia|].
        intros j Hij Hj. by apply Hij, (ok_distinct _ Hs i j v).
    + apply sys_ok_cmd; [done| |lia|done|done|done].
      unfold renewed_until. cbn. rewrite Ev. by apply backed_delete.
  - cbn. apply sys_ok_cmd; [done| |lia|done|done|].
    + unfold renewed_until. cbn. rewrite Ev. apply (ok_backed _ Hs).
    + cbn. intros Hc. destruct (ok_polls _ Hs i Hc) as [x Hx]. congruence.
Qed.

Lemma stop_ok s i : sys_ok s -> sys_ok (after s i (stop (worker s i) (sy_world s))).
Proof.
  intros Hs. unfold stop, release_lock. cbn. destruct (po_token (worker s i)) as [v|] eqn:Ev.
  - destruct (lock_run_total (CRelease v) (sy_world s)) as [b Hb].
    destruct (lock_run_frame (CRelease v) (sy_world s)) as [Hseq Hnow].
    pose proof (backed_lock_run _ (sy_until s) (CRelease v) (ok_backed _ Hs)) as Hbk.
    unfold pbind. rewrite Hb in *. cbn [fst snd] in Hseq, Hnow, Hbk.
    apply sys_ok_cmd; [done| |lia|done|done|done]. unfold renewed_until. cbn. by rewrite Ev.
  - apply sys_ok_cmd; [done| |lia|done|done|done]. unfold renewed_until. cbn. rewrite Ev. apply (ok_backed _ Hs).
Qed.

Lemma step_ok s s' : sys_step s s' -> sys_ok s -> sys_ok s'.
Proof.
  intros Hstep Hs. destruct Hstep as [i Hn|i Hn Hw|i Hr|i|i Hp|w Hk Hnow Hseq Ht].
  - destruct (acquire_ok s i launch Hs Hn (fun _ => eq_refl)) as (ok & p1 & E & H). unfold start, pbind. rewrite E.
    destruct H as [[-> H]|(-> & -> & H)]; [exact H|]. by apply H.
  - destruct (acquire_ok s i (fun p => mk_poller (po_token p) true true false) Hs Hn (fun _ => eq_refl))
      as (ok & p1 & E & H). unfold wait_round, pbind. rewrite E.
    destruct H as [[-> H]|(-> & -> & H)]; [exact H|]. by apply H.
  - by apply renew_ok.
  - by apply stop_ok.
  - assert (Htok : po_token (on_polling_done (worker s i)) = po_token (worker s i)) by done.
    destruct Hs as [H1 H2 H3 H4].
    assert (Hw : forall j, po_token (worker (mk_system (sy_world s) (<[i := on_polling_done (worker s i)]> (sy_workers s)) (sy_until s)) j)
      = po_token (worker s j)) by (intros j; rewrite worker_insert; by destruct (decide (i = j)) as [<-|]).
    split; cbn [sy_world sy_until]; [done|..].
    + intros j v. rewrite Hw. apply H2.
    + intros j k v. rewrite !Hw. apply H3.
    + intros j. rewrite worker_insert. destruct (decide (i = j)) as [<-|]; [done|apply H4].
  - destruct Hs as [H1 H2 H3 H4]. split; cbn [sy_world sy_until]; [|intros j v Hv|exact H3|exact H4].
    + exact (backed_step POLLING_LOCK_KEY LOCK_TTL_S lock_run eq_refl _ _
        (OwnOther _ _ _ _ _ (sy_until s) Hk Hnow) H1).
    + destruct (H2 j v Hv) as [(n & Hn & Hlt) _]. split; [exists n; split; [done|lia]|].
      destruct (Ht j v Hv) as (u & Hu & Hle). by exists u.
Qed.

Lemma reachable_ok s : reachable s -> sys_ok s.
Proof.
  intros [w H]. remember (mk_system w ∅ ∅) as s0 eqn:E. assert (H0 : sys_ok s0).
  { subst. split; cbn [sy_world sy_until]; unfold worker; simpl.
    - intros v t Hv. simpl in Hv. by rewrite lookup_empty in Hv.
    - intros i v. by rewrite lookup_empty.
    - intros i j v. by rewrite lookup_empty.
    - intros i. by rewrite lookup_empty. }
  clear E. induction H as [|s1 s2 s3 Hs _ IH]; [done|]. by apply IH, (step_ok s1).
Qed.

(** C24: as long as owners renew in time, two workers never poll at once, whatever requests
    and replies of Redis are lost, whenever workers start, stop and wait, and whatever the
    dispatcher does; and the lock holds the token of the worker that polls. Once the lock is
    free and Redis answers, the next round of any waiting worker makes it the poller. *)
Theorem single_poller s (Hs : reachable s) :
  (forall i j, po_polling (worker s i) = true -> po_polling (worker s j) = true -> i = j) /\
  (forall i, po_polling (worker s i) = true ->
     exists v, po_token (worker s i) = Some v /\ live (sy_world s) POLLING_LOCK_KEY = Some (RStr v)) /\
  (forall i, po_token (worker s i) = None -> live (sy_world s) POLLING_LOCK_KEY = None ->
     w_faults (sy_world s) = [] ->
     po_polling (worker (after s i (wait_round i (worker s i) (sy_world s))) i) = true).
Proof.
  pose proof (reachable_ok s Hs) as Hok.
  assert (Hlive : forall i v, po_token (worker s i) = Some v -> live (sy_world s) POLLING_LOCK_KEY = Some (RStr v)).
  { intros i v Hv. destruct (ok_issued _ Hok i v Hv) as [_ (u & Hu & Hle)].
    exact (backed_live POLLING_LOCK_KEY LOCK_TTL_S _ _ v u (ok_backed _ Hok) Hu Hle). }
  split; [|split].
  - intros i j Hi Hj. destruct (ok_polls _ Hok i Hi) as [v Hv], (ok_polls _ Hok j Hj) as [v' Hv'].
    pose proof (Hlive i v Hv). pose proof (Hlive j v' Hv'). apply (ok_distinct _ Hok i j v); [done|congruence].
  - intros i Hi. destruct (ok_polls _ Hok i Hi) as [v Hv]. exists v. split; [done|by eapply Hlive].
  - intros i _ Hfree Hf. unfold wait_round, acquire_lock, pbind, nextval, lock_run.
    rewrite redis_default_nofault by done. unfold set_nx_ex.
    assert (live (set_seq (w_seq (sy_world s) + 1) (sy_world s)) POLLING_LOCK_KEY = None) as -> by exact Hfree.
    cbn. by rewrite worker_insert, decide_True.
Qed.

(** The lock of a worker whose dispatcher has ended: it is renewed all the same. *)
Lemma dead_poller_keeps_lock s i v w' :
  po_token (worker s i) = Some v ->
  lock_run (CRefresh v) (sy_world s) = (Ok true, w') ->
  renew_round (on_polling_done (worker s i)) (sy_world s) =
    (Ok (mk_poller (Some v) false (po_renewing (worker s i)) (po_waiting (worker s i))), w').
Proof. intros Hv Hr. unfold renew_round, on_polling_done. cbn. rewrite Hv. unfold pbind. by rewrite Hr. Qed.
End Polling.

(* ------------------------------------------------------------------ *)
(** * Witness *)

Definition demo_uuid (n : Z) : string := str_of_Z n.
Definition demo_stopped : system := mk_system empty_world ∅ ∅.
Definition demo_started : system :=
  after demo_stopped 3 (start demo_uuid (fun _ => 1) 3 (worker demo_stopped 3) (sy_world demo_stopped)).

Lemma single_poller_witness :
  po_polling (worker demo_started 3) = true /\
  exists v, po_token (worker demo_started 3) = Some v /\
    live (sy_world demo_started) POLLING_LOCK_KEY = Some (RStr v).
Proof.
  assert (Hp : po_polling (worker demo_started 3) = true) by (vm_compute; reflexivity). split; [exact Hp|].
  assert (Hr : reachable demo_uuid (fun _ => 1) demo_started).
  { exists empty_world. apply rtc_once. apply (SStart demo_uuid (fun _ => 1) demo_stopped 3). reflexivity. }
  exact (proj1 (proj2 (single_poller demo_uuid (fun _ => 1) str_of_Z_inj demo_started Hr)) 3 Hp).
Defined.
