(* ===== verification/TgService.v ===== *)
(** The life of the Telegram bot in a server process: what it takes from the integrations
    table, how it connects, by webhook or by polling ([tg/service.py]), and the endpoint that
    Telegram posts updates to ([api/tg_webhook.py]).

    The Bot API answers through a parameter; every call is logged with the token it is made
    with. The strings of revisions are kept as the values they are made of. *)
From S2P Require Import Prelude PyStr Text PyLib Json Models Events World Translate Services Locks Recovery.
From S2P Require Import TgProgress TgTurn Auth Uploads Vault Integrations TgHandlers TgPolling.

Open Scope Z_scope.
Open Scope string_scope.

(* ------------------------------------------------------------------ *)
(** * State *)

(** The settings of the bot, written by the service. *)
Record tg_settings := mk_tg_settings {
  TG_BOT_TOKEN : string;
  TG_WEBHOOK_SECRET : string;
  TG_WEBHOOK_URL : string;
  TG_ADMIN_USER_IDS : list Z
}.
Definition no_settings : tg_settings := mk_tg_settings "" "" "" [].

(** [aiogram.Bot]: its token; the identifier is the part of it before the colon. *)
Record bot := mk_bot { bt_token : string; bt_id : Z }.

Inductive bot_mode := Off | Webhook | Polling.
#[export] Instance bot_mode_eq : EqDecision bot_mode. Proof. solve_decision. Defined.

(** Calls of the Bot API that configure the bot. *)
Inductive bot_call :=
| GetMe
| SetWebhook (url secret : string)
| DeleteWebhook
| SetMyCommands (admin : option Z) (commands : list string)
| CloseSession.

(** A revision is [(row.id, row.updated_at)]; [None] stands for "off". *)
Definition revision : Type := option (Z * Z).

(** [TGBotService] of a worker, with the settings it writes and the calls it made. *)
Record service := mk_service {
  sv_bot : option bot;
  sv_dispatcher : bool;
  sv_polling : option poller;
  sv_mode : bot_mode;
  sv_revision : option revision;
  sv_runtime_revision : option (list (Z * Z));
  sv_settings : tg_settings;
  sv_calls : list (string * bot_call)
}.

Definition set_sv_bot x s := mk_service x (sv_dispatcher s) (sv_polling s) (sv_mode s) (sv_revision s)
  (sv_runtime_revision s) (sv_settings s) (sv_calls s).
Definition set_sv_dispatcher x s := mk_service (sv_bot s) x (sv_polling s) (sv_mode s) (sv_revision s)
  (sv_runtime_revision s) (sv_settings s) (sv_calls s).
Definition set_sv_polling x s := mk_service (sv_bot s) (sv_dispatcher s) x (sv_mode s) (sv_revision s)
  (sv_runtime_revision s) (sv_settings s) (sv_calls s).
Definition set_sv_mode x s := mk_service (sv_bot s) (sv_dispatcher s) (sv_polling s) x (sv_revision s)
  (sv_runtime_revision s) (sv_settings s) (sv_calls s).
Definition set_sv_revision x s := mk_service (sv_bot s) (sv_dispatcher s) (sv_polling s) (sv_mode s) x
  (sv_runtime_revision s) (sv_settings s) (sv_calls s).
Definition set_sv_runtime x s := mk_service (sv_bot s) (sv_dispatcher s) (sv_polling s) (sv_mode s) (sv_revision s)
  x (sv_settings s) (sv_calls s).
Definition set_sv_settings x s := mk_service (sv_bot s) (sv_dispatcher s) (sv_polling s) (sv_mode s) (sv_revision s)
  (sv_runtime_revision s) x (sv_calls s).
Definition add_call c s := mk_service (sv_bot s) (sv_dispatcher s) (sv_polling s) (sv_mode s) (sv_revision s)
  (sv_runtime_revision s) (sv_settings s) (sv_calls s ++ [c])%list.

Definition new_service : service := mk_service None false None Off None None no_settings [].

Definition sworld : Type := hworld * service.

Definition on_handlers {A} (m : prog hworld exn A) : prog sworld exn A :=
  fun s => let '(r, h) := m s.1 in (r, (h, s.2)).
Definition on_world {A} (m : prog world exn A) : prog sworld exn A := on_handlers (on_srv m).
Definition sv_get {A} (f : service -> A) : prog sworld exn A := gets (fun s => f s.2).
Definition sv_mod (f : service -> service) : prog sworld exn unit := modify (fun s => (s.1, f s.2)).

Section Service.
Context (IE : integ_env) (SSH_VAULT_DIR : string).
(** [uuid4] and [os.getpid] of the polling lock, and this worker. *)
Context (uuid : Z -> string) (getpid : Z -> Z) (wid : Z).
(** The Bot API: the answer to the n-th call. *)
Context (bot_api : Z -> string -> bot_call -> result exn unit).
(** [Bot(token)]: the identifier, or the error of a malformed token. *)
Context (bot_of_token : string -> result exn Z).
(** The environment of the turns, their runner and the usage reader, under the settings. *)
Context (env_of : tg_settings -> tg_env) (handle : tg_settings -> incoming -> prog tworld exn unit).
Context (read_usage : Z -> Z -> bool -> prog world exn (option Usage.CodexUsage)).
(** [Update.model_validate_json]. *)
Context (parse_update : string -> result exn tg_update).

Definition api_call (token : string) (c : bot_call) : prog sworld exn unit :=
  let! n := sv_get (fun s => Z.of_nat (List.length (sv_calls s))) in
  sv_mod (add_call (token, c)) ;;
  lift_result (bot_api n token c).

Definition quietly (m : prog sworld exn unit) : prog sworld exn unit := suppress is_exception m.

(* ------------------------------------------------------------------ *)
(** * [tg/service.py] *)

Definition interrupt_active_turns : prog sworld exn Z := on_handlers interrupt_all_turns.

(** [ChatSessionStore()]. *)
Definition new_sessions : prog sworld exn unit :=
  modify (fun s => ((on_bot (tg_mod (set_sessions [])) s.1).2.1, [], s.2)).

Definition stop_connection : prog sworld exn unit :=
  let! s := sv_get (fun s => s) in
  (match sv_mode s, sv_bot s with
   | Webhook, Some b => quietly (api_call (bt_token b) DeleteWebhook)
   | _, _ => pret tt
   end) ;;
  (match sv_polling s with
   | Some p => on_world (stop p) ;; sv_mod (set_sv_polling None)
   | None => pret tt
   end) ;;
  (match sv_bot s with
   | Some b => quietly (api_call (bt_token b) CloseSession) ;; sv_mod (set_sv_bot None)
   | None => pret tt
   end) ;;
  sv_mod (fun s => set_sv_mode Off (set_sv_dispatcher false s)).

Definition base_commands : list string := ["new"; "stop"; "reset"].

Definition register_bot_commands (b : bot) (admin_ids : list Z) : prog sworld exn unit :=
  quietly (
    api_call (bt_token b) (SetMyCommands None base_commands) ;;
    for_each admin_ids (fun admin_id =>
      api_call (bt_token b) (SetMyCommands (Some admin_id) (base_commands ++ ["codex_usage"])%list))).

Definition is_telegram_error (e : exn) : bool := bool_decide (is_Some (raised "TelegramAPIError" e)).

Definition start_webhook (b : bot) (st : tg_settings) : prog sworld exn unit :=
  let! ok := except (fun e => if is_telegram_error e then pret false else praise e)
               (api_call (bt_token b) (SetWebhook (TG_WEBHOOK_URL st) (TG_WEBHOOK_SECRET st)) ;; pret true) in
  if negb ok then
    quietly (api_call (bt_token b) CloseSession) ;;
    sv_mod (fun s => set_sv_dispatcher false (set_sv_bot None s))
  else sv_mod (set_sv_mode Webhook).

Definition start_polling (b : bot) : prog sworld exn unit :=
  quietly (api_call (bt_token b) DeleteWebhook) ;;
  sv_mod (set_sv_polling (Some new_poller)) ;;
  let! p := on_world (start uuid getpid wid new_poller) in
  sv_mod (fun s => set_sv_mode Polling (set_sv_polling (Some p) s)).

Definition start_configured : prog sworld exn unit :=
  let! st := sv_get sv_settings in
  let token := TG_BOT_TOKEN st in
  if negb (nonempty token) || startswith token "123456:" then pret tt
  else
    let! id := lift_result (bot_of_token token) in
    let b := mk_bot token id in
    let! ok := except (fun e => if is_telegram_error e then pret false else praise e)
                 (api_call token GetMe ;; pret true) in
    if negb ok then api_call token CloseSession
    else
      sv_mod (fun s => set_sv_dispatcher true (set_sv_bot (Some b) s)) ;;
      register_bot_commands b (TG_ADMIN_USER_IDS st) ;;
      if nonempty (TG_WEBHOOK_URL st) && nonempty (TG_WEBHOOK_SECRET st)
      then start_webhook b st else start_polling b.

Definition is_telegram_row (r : integration) : bool := bool_decide (in_kind r = IK_TELEGRAM).

Definition runtime_rows (rows : list integration) : list (Z * Z) :=
  map (fun r => (in_id r, in_updated_at r)) (List.filter (fun r => negb (is_telegram_row r)) rows).

(** The files of the agent, when a connection other than Telegram's has changed. *)
Definition refresh_runtime (rows : list integration) : prog sworld exn unit :=
  let! known := sv_get sv_runtime_revision in
  if bool_decide (known = Some (runtime_rows rows)) then pret tt
  else
    on_world (materialize IE rows SSH_VAULT_DIR) ;;
    sv_mod (set_sv_runtime (Some (runtime_rows rows))).

(** [row.options["webhook_secret"]], as the cipher takes it. *)
Definition sealed_webhook_secret (row : integration) : result exn string :=
  match assoc "webhook_secret" (in_options row) with
  | Some (JStr s) => Ok s
  | Some _ => Raise (OtherException "AttributeError" "encode")
  | None => Raise (OtherException "KeyError" "webhook_secret")
  end.

(** The settings of an enabled row, one assignment after the other. *)
Definition take_settings (row : integration) : prog sworld exn tg_settings :=
  let! options := lift_result (ie_parse_telegram IE (default (JObj []) (assoc "telegram" (in_options row)))) in
  let! token := on_world (unseal IE (in_secret row)) in
  sv_mod (set_sv_settings (mk_tg_settings token "" "" [])) ;;
  let! sealed := lift_result (sealed_webhook_secret row) in
  let! secret := on_world (unseal IE sealed) in
  let st := mk_tg_settings token secret (to_webhook_url options) (remove_dups (to_admin_ids options)) in
  sv_mod (set_sv_settings st) ;;
  pret st.

Definition refresh_settings : prog sworld exn unit :=
  let! rows := on_world (with_session (integ_list IE)) in
  refresh_runtime rows ;;
  let row := List.find is_telegram_row rows in
  let revision := (fun r => (in_id r, in_updated_at r)) <$> row in
  let! known := sv_get sv_revision in
  if bool_decide (known = Some revision) then pret tt
  else
    interrupt_active_turns ;;
    stop_connection ;;
    new_sessions ;;
    sv_mod (set_sv_settings no_settings) ;;
    match row with
    | Some r =>
        if in_enabled r then
          let! st := take_settings r in
          on_world (with_session (sync_admin_roles (TG_ADMIN_USER_IDS st) ;; commit)) ;;
          start_configured ;;
          let! b := sv_get sv_bot in
          match b with
          | None => pret tt
          | Some _ => sv_mod (set_sv_revision (Some revision))
          end
        else sv_mod (set_sv_revision (Some revision))
    | None => sv_mod (set_sv_revision (Some revision))
    end.

(** The errors a round of [_watch_settings] survives; [SQLAlchemyError] is raised by no
    operation here. *)
Definition refresh_error (e : exn) : bool :=
  match e with ValueError _ | OSError _ => true | _ => is_telegram_error e end.

Definition watch_round : prog sworld exn unit := suppress refresh_error refresh_settings.

Definition feed_update (ev : tg_update) : prog sworld exn unit :=
  let! s := sv_get (fun s => s) in
  match sv_mode s, sv_bot s, sv_dispatcher s with
  | Webhook, Some b, true =>
      on_handlers (feed (env_of (sv_settings s)) (handle (sv_settings s)) read_usage (bt_id b) ev)
  | _, _, _ => pret tt
  end.

(** [stop], the watching task being gone. *)
Definition stop_service : prog sworld exn unit := stop_connection.

(* ------------------------------------------------------------------ *)
(** * [api/tg_webhook.py] and the status route *)

Definition is_ascii (s : string) : bool := all_chars (fun c => (code c <? 128)%nat) s.

(** [secrets.compare_digest] of two strings. *)
Definition compare_digest (a b : string) : result exn bool :=
  if is_ascii a && is_ascii b then Ok (String.eqb a b)
  else Raise (OtherException "TypeError" "comparing strings with non-ASCII characters is not supported").

Definition telegram_webhook (secret_header : option string) (body : string) : prog sworld exn unit :=
  let! expected := sv_get (fun s => TG_WEBHOOK_SECRET (sv_settings s)) in
  if negb (nonempty expected) then praise (HTTPException 503 "webhook not configured")
  else
    let! same := lift_result (compare_digest (default "" secret_header) expected) in
    if negb same then praise (HTTPException 403 "invalid secret token")
    else
      let! update := lift_result (parse_update body) in
      feed_update update.

(** [telegram_status] of the settings API. *)
Definition telegram_status : prog sworld exn (bot_mode * option string) :=
  sv_get (fun s => (sv_mode s, (fun b => str_of_Z (bt_id b)) <$> sv_bot s)).

(* ------------------------------------------------------------------ *)
(** * Lemmas *)

(** What the Bot API calls leave alone: all but the log of calls. *)
Definition sview (s : sworld) :=
  (s.1, (sv_bot s.2, sv_dispatcher s.2, sv_polling s.2, sv_mode s.2, sv_revision s.2, sv_runtime_revision s.2,
         sv_settings s.2)).

Lemma api_call_frame token c : respects (same sview) (api_call token c).
Proof. intros [h s]. reflexivity. Qed.
#[local] Hint Resolve api_call_frame : frame.

Lemma quietly_frame m : respects (same sview) m -> respects (same sview) (quietly m).
Proof. intros H. unfold quietly, suppress. solve_frame. Qed.
#[local] Hint Resolve quietly_frame : frame.

Lemma register_frame b ids : respects (same sview) (register_bot_commands b ids).
Proof. apply quietly_frame. solve_frame. Qed.

(** The connection: which modes go with which objects. *)
Record service_ok (s : service) : Prop := {
  ok_polling : sv_polling s = None \/ sv_mode s = Polling;
  ok_mode : sv_mode s <> Off ->
    exists b, sv_bot s = Some b /\ sv_dispatcher s = true /\ bt_token b = TG_BOT_TOKEN (sv_settings s) /\
      bot_of_token (bt_token b) = Ok (bt_id b);
  ok_webhook : sv_mode s = Webhook ->
    sv_polling s = None /\ nonempty (TG_WEBHOOK_SECRET (sv_settings s)) = true /\
    nonempty (TG_WEBHOOK_URL (sv_settings s)) = true
}.

(** No connection. *)
Definition disconnected (s : service) : Prop :=
  sv_bot s = None /\ sv_dispatcher s = false /\ sv_polling s = None /\ sv_mode s = Off.

Lemma disconnected_ok s : disconnected s -> service_ok s.
Proof. intros (H1 & H2 & H3 & H4). split; [by left|by rewrite H4|by rewrite H4]. Qed.

(** The mode a configuration asks for. *)
Definition mode_of (st : tg_settings) : bot_mode :=
  if nonempty (TG_WEBHOOK_URL st) && nonempty (TG_WEBHOOK_SECRET st) then Webhook else Polling.

Lemma start_total p w : exists p', (start uuid getpid wid p w).1 = Ok p'.
Proof.
  unfold start, acquire_lock, pbind, nextval. cbn -[lock_run].
  match goal with |- context [lock_run ?c ?x] => destruct (lock_run_total c x) as [b ->] end.
  destruct b; cbn -[lock_run]; by eexists.
Qed.

(** How a connection is made from none. *)
Definition connects (st : tg_settings) (s : service) (res : result exn unit * sworld) : Prop :=
  let '(r, (_, s')) := res in
  sv_settings s' = sv_settings s /\ sv_revision s' = sv_revision s /\ sv_runtime_revision s' = sv_runtime_revision s /\
  service_ok s' /\
  (sv_mode s' = Off \/
   r = Ok tt /\ sv_mode s' = mode_of st /\ exists id, bot_of_token (TG_BOT_TOKEN st) = Ok id /\
     sv_bot s' = Some (mk_bot (TG_BOT_TOKEN st) id)) /\
  (r = Ok tt -> sv_mode s' = Off -> sv_bot s' = None).

Lemma sview_inv s s' : same sview s s' ->
  s'.1 = s.1 /\ sv_bot s'.2 = sv_bot s.2 /\ sv_dispatcher s'.2 = sv_dispatcher s.2 /\ sv_polling s'.2 = sv_polling s.2 /\
  sv_mode s'.2 = sv_mode s.2 /\ sv_revision s'.2 = sv_revision s.2 /\
  sv_runtime_revision s'.2 = sv_runtime_revision s.2 /\ sv_settings s'.2 = sv_settings s.2.
Proof. unfold same, sview. intros H. by injection H. Qed.

Lemma off_ok s : sv_polling s = None -> sv_mode s = Off -> service_ok s.
Proof. intros H1 H2. split; [by left|by rewrite H2|by rewrite H2]. Qed.

(** The API's failures are exceptions, not cancellations. *)
Context (Hapi : forall n t c e, bot_api n t c = Raise e -> is_exception e = true).

Lemma api_call_raises token c : raises (fun e => is_exception e = true) (api_call token c).
Proof.
  intros [h s]. unfold api_call, pbind, sv_get, gets, sv_mod, modify, lift_result. cbn.
  destruct (bot_api _ token c) as [[]|e] eqn:E; [done|]. by eapply Hapi.
Qed.

Lemma quietly_ok m s : raises (fun e => is_exception e = true) m -> (quietly m s).1 = Ok tt.
Proof.
  intros H. specialize (H s). unfold quietly, suppress, except. destruct (m s) as [[[]|e] s1]; [done|].
  simpl in H. by rewrite H.
Qed.

(** A quiet call: only the log grows. *)
Lemma quiet_call m s : raises (fun e => is_exception e = true) m -> respects (same sview) m ->
  exists s', quietly m s = (Ok tt, s') /\ same sview s s'.
Proof.
  intros Hr Hf. pose proof (quietly_ok m s Hr) as H1. pose proof (quietly_frame m Hf s) as H2.
  destruct (quietly m s) as [r s']. simpl in *. subst r. by exists s'.
Qed.

Lemma webhook_connects b st s :
  sv_bot s.2 = Some b -> sv_dispatcher s.2 = true -> sv_polling s.2 = None -> sv_mode s.2 = Off ->
  sv_settings s.2 = st -> bt_token b = TG_BOT_TOKEN st -> bot_of_token (bt_token b) = Ok (bt_id b) ->
  mode_of st = Webhook ->
  connects st s.2 (start_webhook b st s).
Proof.
  intros H1 H2 H3 H4 H5 H6 H7 H8. unfold start_webhook. destruct s as [h0 s]. cbn [fst snd] in *. unfold pbind at 1.
  set (m := except _ _). assert (Hm : respects (same sview) m) by (subst m; solve_frame).
  specialize (Hm (h0, s)). destruct (m (h0, s)) as [[ok|e] [h1 s1]]; cbn [snd] in Hm; apply sview_inv in Hm as (K0 & K1 & K2 & K3 & K4 & K5 & K6 & K7); cbn [fst snd] in *.
  - destruct ok; cbn [negb].
    + unfold sv_mod, modify. cbn in *. unfold connects. cbn. rewrite K5, K6, K7. split_and!; [done..| | |].
      * split; cbn; [left; congruence| |].
        -- intros _. exists b. rewrite K7. split_and!; congruence.
        -- intros _. unfold mode_of in H8. rewrite K7, H5. destruct (nonempty (TG_WEBHOOK_URL st)), (nonempty (TG_WEBHOOK_SECRET st)); try done.
           split; [congruence|done].
      * right. split; [done|]. split; [done|]. exists (bt_id b). rewrite <- H6. split; [done|]. rewrite K1, H1. by destruct b.
      * done.
    + unfold pbind. pose proof (quietly_frame _ (api_call_frame (bt_token b) CloseSession) (h1, s1)) as Hq.
      destruct (quietly _ (h1, s1)) as [[[]|e] [h2 s2]]; cbn [snd] in Hq; apply sview_inv in Hq as (L0 & L1 & L2 & L3 & L4 & L5 & L6 & L7); cbn [fst snd] in *.
      * unfold connects. cbn. split_and!; [congruence..| |left; congruence|done]. apply off_ok; cbn; congruence.
      * unfold connects. cbn. split_and!; [congruence..| |left; congruence|done]. apply off_ok; congruence.
  - unfold connects. cbn. split_and!; [congruence..| |left; congruence|done]. apply off_ok; congruence.
Qed.

Lemma polling_connects b st s :
  sv_bot s.2 = Some b -> sv_dispatcher s.2 = true -> sv_polling s.2 = None -> sv_mode s.2 = Off ->
  sv_settings s.2 = st -> bt_token b = TG_BOT_TOKEN st -> bot_of_token (bt_token b) = Ok (bt_id b) ->
  mode_of st = Polling ->
  connects st s.2 (start_polling b s).
Proof.
  intros H1 H2 H3 H4 H5 H6 H7 H8. unfold start_polling. destruct s as [h0 s]. cbn [fst snd] in *. unfold pbind at 1.
  pose proof (quietly_frame _ (api_call_frame (bt_token b) DeleteWebhook) (h0, s)) as Hq.
  destruct (quietly _ (h0, s)) as [[[]|e] [h1 s1]]; cbn [snd] in Hq; apply sview_inv in Hq as (K0 & K1 & K2 & K3 & K4 & K5 & K6 & K7); cbn [fst snd] in *.
  2: { unfold connects. cbn. split_and!; [congruence..| |left; congruence|done]. apply off_ok; congruence. }
  destruct h1 as [[w st1] ts]. cbn in *. unfold pbind, sv_mod, modify, on_world, on_handlers, on_srv, on_bot, srv. cbn.
  destruct (start_total new_poller w) as [p' Hp]. destruct (start uuid getpid wid new_poller w) as [r w']. simpl in Hp. subst r.
  unfold connects. cbn. rewrite K5, K6, K7. split_and!; [done..| | |done].
  - split; cbn; [by right| |done]. intros _. exists b. split_and!; congruence.
  - right. split; [done|]. split; [done|]. exists (bt_id b). rewrite <- H6. split; [done|]. rewrite K1, H1. by destruct b.
Qed.

(** Rewriting with what a quiet step keeps. *)
Ltac kept H := apply sview_inv in H as (?K0 & ?K1 & ?K2 & ?K3 & ?K4 & ?K5 & ?K6 & ?K7); cbn [fst snd] in *.

Lemma stop_connection_run s :
  service_ok s.2 -> exists s', stop_connection s = (Ok tt, s') /\ disconnected s'.2 /\ s'.1.2 = s.1.2 /\
    s'.1.1.2 = s.1.1.2 /\
    sv_settings s'.2 = sv_settings s.2 /\ sv_revision s'.2 = sv_revision s.2 /\
    sv_runtime_revision s'.2 = sv_runtime_revision s.2.
Proof.
  intros Hok. unfold stop_connection. unfold pbind at 1, sv_get, gets. cbn [fst snd].
  set (del := match sv_mode s.2 with Webhook => _ | _ => _ end).
  assert (exists s1, del s = (Ok tt, s1) /\ same sview s s1) as (s1 & E1 & F1).
  { subst del. destruct (sv_mode s.2), (sv_bot s.2) as [b|]; try (by exists s).
    apply quiet_call; [apply api_call_raises|apply api_call_frame]. }
  unfold pbind at 1. rewrite E1. clearbody del. destruct s as [h s], s1 as [h1 s1]. kept F1. subst h1.
  set (rel := match sv_polling s with Some p => _ | None => _ end).
  assert (exists w s2, rel (h, s1) = (Ok tt, (((w, h.1.2), h.2), s2)) /\ sv_polling s2 = None /\ sv_bot s2 = sv_bot s /\
    sv_settings s2 = sv_settings s /\ sv_revision s2 = sv_revision s /\ sv_runtime_revision s2 = sv_runtime_revision s)
    as (w & s2 & E2 & L1 & L2 & L3 & L4 & L5).
  { subst rel. destruct (sv_polling s) as [p|] eqn:Ep.
    - destruct h as [[w st] ts]. unfold pbind, on_world, on_handlers, on_srv, on_bot, srv. cbn [fst snd].
      unfold stop, release_lock, pbind. cbn [po_token]. destruct (po_token p) as [v|].
      + destruct (lock_run_total (CRelease v) w) as [b Hb]. rewrite Hb. cbn. eexists _, _. split; [reflexivity|]. by cbn.
      + cbn. eexists _, _. split; [reflexivity|]. by cbn.
    - destruct h as [[w st] ts]. cbn. eexists w, s1. split; [reflexivity|]. split_and!; congruence. }
  unfold pbind at 1. rewrite E2. clearbody rel.
  assert (Hend : forall s3, sv_polling s3 = None -> sv_bot s3 = None ->
    disconnected (set_sv_mode Off (set_sv_dispatcher false s3))) by (intros s3 ? ?; by split_and!).
  destruct (sv_bot s) as [b|] eqn:Eb.
  - unfold pbind at 1 2. destruct (quiet_call (api_call (bt_token b) CloseSession) (((w, h.1.2), h.2), s2)
      (api_call_raises _ _) (api_call_frame _ _)) as ([h3 s3] & -> & F3). kept F3.
    cbn. eexists. split; [reflexivity|]. cbn. rewrite K0. split_and!; [apply Hend; cbn; congruence|done|done|cbn; congruence..].
  - cbn. eexists. split; [reflexivity|]. cbn. split_and!; [apply Hend; congruence|done|done|cbn; congruence..].
Qed.

Lemma configured_connects s :
  disconnected s.2 -> connects (sv_settings s.2) s.2 (start_configured s).
Proof.
  destruct s as [h s]. cbn [snd]. intros Hd. set (st := sv_settings s). pose proof Hd as (D1 & D2 & D3 & D4).
  assert (Hstay : forall s', sv_bot s' = sv_bot s -> sv_polling s' = sv_polling s -> sv_mode s' = sv_mode s ->
    sv_settings s' = sv_settings s -> sv_revision s' = sv_revision s -> sv_runtime_revision s' = sv_runtime_revision s ->
    forall r h', connects st s (r, (h', s'))).
  { intros s' H1 H2 H3 H4 H5 H6 r h'. unfold connects. split_and!; [done..| |left; congruence|congruence].
    apply off_ok; congruence. }
  unfold start_configured. unfold pbind at 1, sv_get, gets. cbn [snd]. fold st.
  destruct (negb (nonempty (TG_BOT_TOKEN st)) || startswith (TG_BOT_TOKEN st) "123456:"); [by apply Hstay|].
  unfold pbind at 1, lift_result. destruct (bot_of_token (TG_BOT_TOKEN st)) as [id|e] eqn:Ei; [|by apply Hstay].
  unfold pbind at 1. set (m := except _ _). assert (Hm : respects (same sview) m) by (subst m; solve_frame).
  specialize (Hm (h, s)). destruct (m (h, s)) as [[ok|e] [h1 s1]]; cbn [snd] in Hm; kept Hm; [|by apply Hstay].
  destruct ok; cbn [negb].
  2: { pose proof (api_call_frame (TG_BOT_TOKEN st) CloseSession (h1, s1)) as Hc.
       destruct (api_call _ _ (h1, s1)) as [r [h2 s2]]. cbn [snd] in Hc. kept Hc. apply Hstay; congruence. }
  set (b := mk_bot (TG_BOT_TOKEN st) id). unfold pbind at 1, sv_mod, modify. cbn [fst snd].
  unfold pbind at 1. destruct (quiet_call (
      api_call (bt_token b) (SetMyCommands None base_commands) ;;
      for_each (TG_ADMIN_USER_IDS st) (fun admin_id =>
        api_call (bt_token b) (SetMyCommands (Some admin_id) (base_commands ++ ["codex_usage"])%list)))
      (h1, set_sv_dispatcher true (set_sv_bot (Some b) s1))) as ([h2 s2] & E2 & F2).
  { apply raises_bind; [apply api_call_raises|]. intros _. apply raises_for_each. intros i. apply api_call_raises. }
  { solve_frame. }
  unfold register_bot_commands. rewrite E2. kept F2.
  cbn [sv_settings sv_revision sv_runtime_revision sv_bot sv_dispatcher sv_polling sv_mode set_sv_bot set_sv_dispatcher] in *.
  assert (Hrest : forall res, connects st s2 res -> connects st s res).
  { intros [r [h' s']]. unfold connects. intros (H1 & H2 & H3 & H4). split_and!; [congruence..|exact (proj1 H4)|exact (proj1 (proj2 H4))|exact (proj2 (proj2 H4))]. }
  assert (Hst : sv_settings s2 = st) by (unfold st; congruence).
  fold (mode_of st). destruct (nonempty (TG_WEBHOOK_URL st) && nonempty (TG_WEBHOOK_SECRET st)) eqn:Em; apply Hrest.
  - apply (webhook_connects b st (h2, s2)); cbn [fst snd]; try done; try congruence. unfold mode_of. by rewrite Em.
  - apply (polling_connects b st (h2, s2)); cbn [fst snd]; try done; try congruence. unfold mode_of. by rewrite Em.
Qed.

Lemma unseal_same v w : (unseal IE v w).2 = w.
Proof.
  unfold unseal, cipher, pbind. destruct (w_files w !! ie_key_path IE) as [d|]; [|done].
  destruct (ie_fernet_ok IE (strip_bytes d)); [|done]. by destruct (ie_decrypt _ _ _).
Qed.

Lemma on_world_unseal v h s :
  on_world (unseal IE v) (h, s) = ((unseal IE v h.1.1).1, (h, s)).
Proof.
  destruct h as [[w st] ts]. unfold on_world, on_handlers, on_srv, on_bot, srv. cbn [fst snd].
  pose proof (unseal_same v w) as H. destruct (unseal IE v w) as [r w']. simpl in *. by subst.
Qed.

(** What an enabled row decrypts to, under the key of [w]. *)
Definition decrypts (row : integration) (w : world) (st : tg_settings) : Prop :=
  exists options token sealed secret,
    ie_parse_telegram IE (default (JObj []) (assoc "telegram" (in_options row))) = Ok options /\
    (unseal IE (in_secret row) w).1 = Ok token /\
    sealed_webhook_secret row = Ok sealed /\ (unseal IE sealed w).1 = Ok secret /\
    st = mk_tg_settings token secret (to_webhook_url options) (remove_dups (to_admin_ids options)).

Lemma take_settings_run row h s :
  exists r st, take_settings row (h, s) = (r, (h, set_sv_settings st s)) /\
    match r with Ok st' => st' = st /\ decrypts row h.1.1 st | Raise _ => True end.
Proof.
  assert (Hset : s = set_sv_settings (sv_settings s) s) by (by destruct s).
  unfold take_settings. unfold pbind at 1, lift_result.
  destruct (ie_parse_telegram IE _) as [options|e] eqn:E1; [|eexists (Raise e), (sv_settings s); by rewrite <- Hset].
  unfold pbind at 1. rewrite on_world_unseal.
  destruct (unseal IE (in_secret row) h.1.1).1 as [token|e] eqn:E2; [|eexists (Raise e), (sv_settings s); by rewrite <- Hset].
  unfold pbind at 1, sv_mod, modify. cbn [fst snd]. unfold pbind at 1.
  destruct (sealed_webhook_secret row) as [sealed|e] eqn:E3; [|by eexists (Raise e), _].
  unfold pbind at 1. rewrite on_world_unseal.
  destruct (unseal IE sealed h.1.1).1 as [secret|e] eqn:E4; [|by eexists (Raise e), _].
  unfold pbind. cbn. eexists (Ok _), _. split; [reflexivity|]. split; [done|]. by exists options, token, sealed, secret.
Qed.

(** The rows of the table, and the revision of the bot's. *)
Definition stored_rows (s : sworld) : list integration :=
  sort_by (fun x y => ie_collate IE (in_name x) (in_name y)) (db_integrations (w_db s.1.1.1)).
Definition bot_row (s : sworld) : option integration := List.find is_telegram_row (stored_rows s).
Definition row_revision (row : option integration) : revision := (fun r => (in_id r, in_updated_at r)) <$> row.
(** The state after the rows were read. *)
Definition rows_read (s : sworld) : sworld :=
  (((set_hooks [] (set_tx (w_db s.1.1.1) s.1.1.1), s.1.1.2), s.1.2), s.2).

Lemma read_rows_run s : on_world (with_session (integ_list IE)) s = (Ok (stored_rows s), rows_read s).
Proof. by destruct s as [[[w st] ts] s]. Qed.

Lemma find_revision (row : option integration) :
  (fun r => (in_id r, in_updated_at r)) <$> row = row_revision row.
Proof. done. Qed.

(** Until the bot's own row has changed the connection is left alone; so it is when the files
    of the agent cannot be written, for whatever reason, and the error leaves the refresh. *)
Lemma refresh_kept s :
  let '(r1, s1) := refresh_runtime (stored_rows s) (rows_read s) in
  match r1 with
  | Raise e => refresh_settings s = (Raise e, s1)
  | Ok _ => sv_revision s1.2 = Some (row_revision (bot_row s)) -> refresh_settings s = (Ok tt, s1)
  end.
Proof.
  destruct (refresh_runtime (stored_rows s) (rows_read s)) as [[[]|e] s1] eqn:E; [intros Hrev|];
    unfold refresh_settings; unfold pbind at 1; rewrite read_rows_run; unfold pbind at 1; rewrite E; [|done].
  unfold pbind at 1, sv_get, gets. by rewrite bool_decide_eq_true_2.
Qed.

Lemma sync_roles_runs ids h s :
  exists h' r, on_world (with_session (sync_admin_roles ids ;; commit)) (h, s) = (r, (h', s)).
Proof. unfold on_world, on_handlers. destruct (on_srv _ _) as [r h']. by eexists _, _. Qed.

Lemma cancel_turn_total key c h : exists b h', cancel_session_turn key c h = (Ok b, h').
Proof.
  destruct h as [[w st] ts]. unfold cancel_session_turn, pbind at 1, cancel_task. cbn [fst snd].
  destruct (List.find (is_task key) ts) as [[k unwind]|]; [|by eexists _, _].
  destruct (unwind (w, st)) as [r [w1 st1]]. cbn. by eexists _, _.
Qed.

Lemma interrupt_total l n h : exists m h', interrupt_each l n h = (Ok m, h').
Proof.
  revert n h. induction l as [|[key c] l IH]; intros n h; [by eexists _, _|]. cbn [interrupt_each].
  destruct (cancel_turn_total key c h) as (b & h' & E). unfold pbind. rewrite E. apply IH.
Qed.

Lemma interrupt_all_total h : exists n h', interrupt_all_turns h = (Ok n, h').
Proof. destruct h as [[w st] ts]. exact (interrupt_total (rev (ts_sessions st)) 0 ((w, st), ts)). Qed.

Lemma interrupt_run s : exists h' n, interrupt_active_turns s = (Ok n, (h', s.2)).
Proof.
  unfold interrupt_active_turns, on_handlers. destruct (interrupt_all_total s.1) as (n & h' & ->). by eexists _, _.
Qed.

Lemma runtime_keeps rows s s1 :
  refresh_runtime rows s = (Ok tt, s1) -> s1.2 = set_sv_runtime (sv_runtime_revision s1.2) s.2.
Proof.
  destruct s as [h s]. unfold refresh_runtime, pbind, sv_get, gets, on_world, on_handlers, sv_mod, modify. cbn [fst snd].
  case_goal; cbn [fst snd]; [intros [= <-]; by destruct s|].
  destruct (on_srv (materialize IE rows SSH_VAULT_DIR) h) as [[[]|e] h1]; [|done]. intros [= <-]. by destruct s.
Qed.

Lemma ok_runtime x s : service_ok s -> service_ok (set_sv_runtime x s).
Proof. by intros [H1 H2 H3]. Qed.

(** The steps from a changed revision to the configuration. *)
Lemma refresh_steps s s1 :
  service_ok s.2 -> refresh_runtime (stored_rows s) (rows_read s) = (Ok tt, s1) ->
  sv_revision s.2 <> Some (row_revision (bot_row s)) ->
  exists h sv, disconnected sv /\ sv_settings sv = no_settings /\ sv_revision sv = sv_revision s.2 /\
    refresh_settings s =
      match bot_row s with
      | Some r =>
          if in_enabled r then
            (let! st := take_settings r in
             on_world (with_session (sync_admin_roles (TG_ADMIN_USER_IDS st) ;; commit)) ;;
             start_configured ;;
             let! b := sv_get sv_bot in
             match b with
             | None => pret tt
             | Some _ => sv_mod (set_sv_revision (Some (row_revision (bot_row s))))
             end) (h, sv)
          else (Ok tt, (h, set_sv_revision (Some (row_revision (bot_row s))) sv))
      | None => (Ok tt, (h, set_sv_revision (Some (row_revision (bot_row s))) sv))
      end.
Proof.
  intros Hs Hrun Hchanged. pose proof (runtime_keeps _ _ _ Hrun) as Hk. cbn [rows_read snd] in Hk.
  destruct (interrupt_run s1) as (h2 & n & E2).
  destruct (stop_connection_run (h2, s1.2)) as ([h3 sv3] & E3 & D3 & _ & _ & S3 & R3 & T3).
  { cbn [snd]. rewrite Hk. by apply ok_runtime. }
  cbn [fst snd] in *. exists ((on_bot (tg_mod (set_sessions [])) h3).2.1, []), (set_sv_settings no_settings sv3).
  destruct D3 as (D1 & D2 & D3 & D4). split_and!; [by split_and!|done| |].
  { rewrite Hk in R3. exact R3. }
  unfold refresh_settings. unfold pbind at 1. rewrite read_rows_run. unfold pbind at 1. rewrite Hrun.
  unfold pbind at 1, sv_get at 1, gets at 1. rewrite bool_decide_eq_false_2.
  2: { rewrite Hk. cbn. exact Hchanged. }
  unfold pbind at 1. rewrite E2. unfold pbind at 1. rewrite E3. unfold pbind at 1 2. cbn [new_sessions modify sv_mod fst snd].
  unfold new_sessions, modify, sv_mod, modify. cbn [fst snd]. fold (bot_row s). destruct (bot_row s) as [row|]; [|reflexivity].
  destruct (in_enabled row); reflexivity.
Qed.


(** An update is handled exactly when it comes with the secret. A request to the webhook
    without the secret of the present configuration is answered with an error and has
    happened to nothing; so is every request while there is no secret. A request with it is
    handled by the dispatcher of the bot, under that configuration, when the bot is on
    webhook, and dropped when it is not. *)
Theorem webhook_guarded header body s (Hs : service_ok s.2) :
  let secret := TG_WEBHOOK_SECRET (sv_settings s.2) in
  (secret = "" \/ header <> Some secret -> exists e, telegram_webhook header body s = (Raise e, s)) /\
  (secret <> "" -> header = Some secret -> is_ascii secret = true -> forall ev, parse_update body = Ok ev ->
     match sv_mode s.2 with
     | Webhook => exists b, sv_bot s.2 = Some b /\ bt_token b = TG_BOT_TOKEN (sv_settings s.2) /\
         telegram_webhook header body s =
         on_handlers (feed (env_of (sv_settings s.2)) (handle (sv_settings s.2)) read_usage (bt_id b) ev) s
     | _ => telegram_webhook header body s = (Ok tt, s)
     end).
Proof.
  intros secret. split.
  - intros Hno. unfold telegram_webhook. unfold pbind at 1, sv_get at 1, gets at 1. fold secret.
    destruct (nonempty secret) eqn:En; cbn [negb]; [|by eexists]. apply nonempty_true in En.
    unfold pbind at 1, lift_result. unfold compare_digest. destruct (is_ascii _ && is_ascii secret); [|by eexists].
    assert (String.eqb (default "" header) secret = false) as ->; [|by eexists].
    apply String.eqb_neq. intros E. destruct Hno as [?|Hno]; [done|]. apply Hno. destruct header as [x|]; cbn in E; congruence.
  - intros Hne Hh Ha ev Hev. assert (telegram_webhook header body s = feed_update ev s) as ->.
    { unfold telegram_webhook. unfold pbind at 1, sv_get at 1, gets at 1. fold secret.
      assert (nonempty secret = true) as -> by (by apply nonempty_true). cbn [negb].
      unfold pbind at 1, lift_result at 1. unfold compare_digest. rewrite Hh. cbn [default]. unfold id.
      rewrite Ha, String.eqb_refl. cbn [andb negb]. unfold pbind at 1, lift_result at 1. by rewrite Hev. }
    assert (feed_update ev s = match sv_mode s.2, sv_bot s.2, sv_dispatcher s.2 with
      | Webhook, Some b, true => on_handlers (feed (env_of (sv_settings s.2)) (handle (sv_settings s.2)) read_usage (bt_id b) ev) s
      | _, _, _ => (Ok tt, s) end) as ->.
    { unfold feed_update, pbind, sv_get, gets. destruct (sv_mode s.2), (sv_bot s.2), (sv_dispatcher s.2); reflexivity. }
    destruct (sv_mode s.2) eqn:Em; [done| |done].
    destruct (ok_mode _ Hs) as (b & Hb & Hd & Ht & _); [by rewrite Em|]. exists b. by rewrite Hb, Hd.
Qed.

Lemma quietly_call t c h s : quietly (api_call t c) (h, s) = (Ok tt, (h, add_call (t, c) s)).
Proof.
  unfold quietly, suppress, except, api_call, pbind, sv_get, gets, sv_mod, modify, lift_result. cbn.
  destruct (bot_api _ t c) as [[]|e] eqn:E; [done|]. by rewrite (Hapi _ _ _ _ E).
Qed.

(** What one worker's end does to the others: the webhook of the bot is removed last. *)
Lemma stop_removes_webhook h s b :
  sv_mode s = Webhook -> sv_bot s = Some b -> sv_polling s = None ->
  exists s', stop_service (h, s) = (Ok tt, (h, s')) /\
    sv_calls s' = (sv_calls s ++ [(bt_token b, DeleteWebhook); (bt_token b, CloseSession)])%list.
Proof.
  intros Hm Hb Hp. unfold stop_service, stop_connection. unfold pbind at 1, sv_get at 1, gets at 1. cbn [snd].
  rewrite Hm, Hb, Hp. unfold pbind at 1. rewrite quietly_call. unfold pbind at 1. cbn [pret].
  unfold pbind at 1 2. rewrite quietly_call. cbn. eexists. split; [reflexivity|]. cbn. by rewrite <- app_assoc.
Qed.
End Service.

(* ------------------------------------------------------------------ *)
(** * Examples and witnesses *)

(** Telegram answers every call; the bot of any token is bot 9. *)
Definition demo_api (_ : Z) (_ : string) (_ : bot_call) : result exn unit := Ok tt.
Definition demo_bot_of (_ : string) : result exn Z := Ok 9.
Definition bot_input : IntegrationInput :=
  mk_input "bot" IK_TELEGRAM "" "" (Some "9:tok") true (mk_tg_options [] "").
(** Bots of this world have a webhook address. *)
Definition demo_hook_integ : integ_env := {|
  ie_key_path := ie_key_path demo_integ; ie_fernet_ok := ie_fernet_ok demo_integ;
  ie_generate_key := ie_generate_key demo_integ; ie_encrypt := ie_encrypt demo_integ; ie_decrypt := ie_decrypt demo_integ;
  ie_token_urlsafe := ie_token_urlsafe demo_integ; ie_load_key := ie_load_key demo_integ;
  ie_fingerprint := ie_fingerprint demo_integ; ie_get_me := ie_get_me demo_integ;
  ie_provider_get := ie_provider_get demo_integ;
  ie_parse_telegram := fun _ => Ok (mk_tg_options [42] "https://b.example/tg/webhook");
  ie_bracketed_ok := ie_bracketed_ok demo_integ; ie_collate := ie_collate demo_integ;
  ie_dump_tokens := ie_dump_tokens demo_integ |}.

Definition demo_bot_world : world := (save_integration demo_hook_integ bot_input None demo_key_world).2.
Definition demo_fresh (w : world) : sworld := (((w, demo_tg_state), []), new_service).
#[local] Notation demo_refresh := (refresh_settings demo_hook_integ "/vault" str_of_Z (fun _ => 1) 1 demo_api demo_bot_of).

Lemma new_service_ok bot_of : service_ok bot_of new_service.
Proof. by apply disconnected_ok. Defined.


(** A connection to a git host that the key no longer decrypts keeps the bot from starting: the
    refresh ends before it looks at the bot's row. *)
Example other_secret_blocks_bot :
  let broken := set_files {[ "/secrets/key" := "k2" ]} (save_integration demo_hook_integ hub_input None demo_key_world).2 in
  let w := (save_integration demo_hook_integ bot_input None broken).2 in
  let '(r, s') := demo_refresh (demo_fresh w) in
  r = Raise CANNOT_DECRYPT /\ sv_mode s'.2 = Off /\ sv_calls s'.2 = [] /\
  option_map in_enabled (bot_row demo_hook_integ (demo_fresh w)) = Some true.
Proof. vm_compute. by split_and!. Qed.

Definition demo_hooked : service :=
  mk_service (Some (mk_bot "9:tok" 9)) true None Webhook None None
    (mk_tg_settings "9:tok" "s3" "https://b.example/tg/webhook" []) [].

Lemma demo_hooked_ok : service_ok demo_bot_of demo_hooked.
Proof.
  split; [by left|intros _|by intros _].
  exists (mk_bot "9:tok" 9). by split_and!.
Defined.

Definition demo_serving : sworld := (((empty_world, demo_tg_state), []), demo_hooked).
Definition demo_post (header : option string) : result exn unit * sworld :=
  telegram_webhook (fun _ => TgProgress.demo_env) (fun _ _ => pret tt) (fun _ _ _ => pret None)
    (fun _ => Raise (ValueError "")) header "{}" demo_serving.

Lemma webhook_guarded_witness : exists e, demo_post (Some "guess") = (Raise e, demo_serving).
Proof.
  pose proof (webhook_guarded demo_bot_of (fun _ => TgProgress.demo_env) (fun _ _ => pret tt) (fun _ _ _ => pret None)
    (fun _ => Raise (ValueError "")) (Some "guess") "{}" demo_serving demo_hooked_ok) as [H _].
  apply H. right. vm_compute. discriminate.
Defined.
