(* ===== verification/Admin.v ===== *)
(** What administrators and users manage over the RPC and the settings API: invites and
    accounts ([rpc/admin.py]), the guard of the settings routes and the limits
    ([api/settings/router.py]), profiles ([rpc/user.py]), the journal ([rpc/event.py]) and
    the messages of a chat ([rpc/message.py]).

    The times at which the database stamped users, events, messages and turns are functions
    of their identifiers: no operation changes them. *)
From Stdlib Require Import Sorted.
From S2P Require Import Prelude PyStr Json Translate Models World Services RateLimit Auth Integrations.

Open Scope Z_scope.
Open Scope string_scope.

(* ------------------------------------------------------------------ *)
(** * Messages of the protocol *)

Inductive UserRolePb := USER_ROLE_UNSPECIFIED | USER_ROLE_USER | USER_ROLE_ADMIN.

(** [_PB_TO_ROLE] and [_ROLE_TO_PB]. *)
Definition pb_to_role (r : UserRolePb) : option UserRole :=
  match r with
  | USER_ROLE_UNSPECIFIED => None
  | USER_ROLE_USER => Some Role_USER
  | USER_ROLE_ADMIN => Some Role_ADMIN
  end.
Definition role_to_pb (r : UserRole) : UserRolePb :=
  match r with Role_USER => USER_ROLE_USER | Role_ADMIN => USER_ROLE_ADMIN end.

Definition UserRole_value (r : UserRole) : string := match r with Role_USER => "USER" | Role_ADMIN => "ADMIN" end.

Record InvitePb := mk_invite_pb {
  ip_id : Z; ip_token : string; ip_created_by_user_id : Z; ip_expires_at : Z; ip_created_at : Z;
  ip_used_by_user_id : option Z; ip_used_at : option Z
}.

Definition invite_to_pb (i : invite) : InvitePb :=
  mk_invite_pb (i_id i) (i_token i) (i_created_by_user_id i) (i_expires_at i) (i_created_at i)
    (i_used_by_user_id i) (i_used_at i).

Record AdminUserPb := mk_admin_user {
  ap_id : Z; ap_role : UserRolePb; ap_created_at : Z; ap_email : option string; ap_tg_user_id : option Z;
  ap_display_name : option string
}.

Record UserPb := mk_user_pb {
  us_id : Z; us_role : string; us_created_at : Z; us_tg_user_id : option Z; us_email : option string;
  us_display_name : option string
}.

(** The values of the enumeration [EventKind] of the protocol. *)
Definition EVENT_KIND_PB (k : EventKind) : Z :=
  match k with
  | THREAD_OPENED => 1 | THREAD_RESET => 2 | THREAD_LOST => 3 | TURN_STARTED => 4 | TURN_COMPLETED => 5
  | TURN_INTERRUPTED => 6 | TURN_FAILED => 7 | ATTACHMENT_RECEIVED => 8 | AUDIO_TRANSCRIBED => 9
  | EVENT_ERROR => 10
  end.

Definition event_kinds : list EventKind :=
  [THREAD_OPENED; THREAD_RESET; THREAD_LOST; TURN_STARTED; TURN_COMPLETED; TURN_INTERRUPTED; TURN_FAILED;
   ATTACHMENT_RECEIVED; AUDIO_TRANSCRIBED; EVENT_ERROR].

Definition event_kind_from_pb (value : Z) : option EventKind :=
  List.find (fun k => Z.eqb (EVENT_KIND_PB k) value) event_kinds.

(** [payload] and [meta] are the entries of the [Struct]. *)
Record EventPb := mk_event_pb {
  ep_id : Z; ep_kind : Z; ep_created_at : Z; ep_chat_id : option Z; ep_user_id : option Z; ep_payload : option dict
}.

Record MessagePb := mk_message_pb {
  mp_id : Z; mp_chat_id : Z; mp_role : MessageRole; mp_text : string; mp_created_at : Z; mp_meta : option dict
}.

Section Admin.
(** Session tokens, the address validator and the password hash, as in [Auth]. *)
Context (session_decode : string -> string -> Z -> result string dict) (JWT_SECRET : string).
Context (validate_email : string -> option string) (argon_hash : string -> string).
(** Creation times, by identifier. *)
Context (user_created event_created message_created turn_created : Z -> Z).

Notation require_user := (Auth.require_user session_decode JWT_SECRET).
Notation require_admin := (Auth.require_admin session_decode JWT_SECRET).

Definition admin_user_to_pb (u : user) : AdminUserPb :=
  mk_admin_user (u_id u) (role_to_pb (u_role u)) (user_created (u_id u)) (u_email u) (u_tg_user_id u) (u_display_name u).

Definition user_to_pb (u : user) : UserPb :=
  mk_user_pb (u_id u) (UserRole_value (u_role u)) (user_created (u_id u)) (u_tg_user_id u) (u_email u) (u_display_name u).

Definition event_to_pb (e : event_row) : EventPb :=
  mk_event_pb (e_id e) (EVENT_KIND_PB (e_kind e)) (event_created (e_id e)) (e_chat_id e) (e_user_id e) (e_payload e).

Definition message_to_pb (m : message) : MessagePb :=
  mk_message_pb (m_id m) (m_chat_id m) (m_role m) (m_text m) (message_created (m_id m)) (m_meta m).

(* ------------------------------------------------------------------ *)
(** * [rpc/admin.py] *)

(** [fresh] is the random token of the invite. *)
Definition create_invite (token : option string) (fresh : string) (ttl_days : Z) : prog world exn InvitePb :=
  let! admin := require_admin token in
  let! i := with_session (let! i := invite_create fresh (u_id admin) ttl_days in commit ;; pret i) in
  pret (invite_to_pb i).

Definition list_invites (token : option string) (include_used : bool) : prog world exn (list InvitePb) :=
  require_admin token ;;
  let! l := with_session (if include_used then list_all_invites else list_active_invites) in
  pret (map invite_to_pb l).

Definition revoke_invite (token : option string) (invite_id : Z) : prog world exn unit :=
  require_admin token ;;
  with_session (
    let! ok := revoke invite_id in
    if negb ok then praise (ConnectError "not_found" "invite not found or already used") else commit).

(** [db.refresh(user)]. *)
Definition refresh_user (u : user) : prog world exn user :=
  let! found := user_get (u_id u) in
  match found with Some v => pret v | None => praise (OtherException "InvalidRequestError" "") end.

(** The transaction of [create_user], after its checks. *)
Definition save_account (email password : string) (role : UserRole) (display_name : option string) :
    prog world exn user :=
  with_session (
    let! existing := get_by_email email in
    match existing with
    | Some u => if truthy_opt (u_password_hash u) then praise (ConnectError "already_exists" "email already registered")
                else pret tt
    | None => pret tt
    end ;;
    let! u := (match existing with Some u => pret u | None => get_or_create_by_email email display_name end) in
    update_user (u_id u) (with_role role) ;;
    name_user u display_name ;;
    set_password_hash u (argon_hash password) ;;
    commit ;;
    refresh_user u).

Definition create_user (token : option string) (email password : string) (role : UserRolePb) (display_name : string) :
    prog world exn AdminUserPb :=
  require_admin token ;;
  match validate_email (lower (strip email)) with
  | None => praise (ConnectError "invalid_argument" "valid email required")
  | Some address =>
      if (String.length password <? 8)%nat
      then praise (ConnectError "invalid_argument" "password must be ≥ 8 chars")
      else
        let! u := save_account address password (default Role_USER (pb_to_role role)) (none_if_blank display_name) in
        pret (admin_user_to_pb u)
  end.

Definition list_users (token : option string) : prog world exn (list AdminUserPb) :=
  require_admin token ;;
  let! l := with_session list_all in
  pret (map admin_user_to_pb l).

(** The six methods whose work has moved to the settings. *)
Inductive moved_method := AddSshKey | ListSshKeys | DeleteSshKey | AddApiToken | ListApiTokens | DeleteApiToken.

Definition moved_to (m : moved_method) : string :=
  match m with
  | AddSshKey | ListSshKeys | DeleteSshKey => "Use Settings > SSH keys"
  | AddApiToken | ListApiTokens | DeleteApiToken => "Use Settings > Integrations"
  end.

Definition moved (m : moved_method) (token : option string) : prog world exn unit :=
  require_admin token ;; praise (ConnectError "unimplemented" (moved_to m)).

(* ------------------------------------------------------------------ *)
(** * The settings API *)

(** [admin_session]: whether the method is GET, the header x-settings-request, the cookie. *)
Definition admin_session (is_get : bool) (request_header token : option string) : prog world exn user :=
  if negb is_get && negb (bool_decide (request_header = Some "1"))
  then praise (HTTPException 403 "Missing request verification header")
  else
    match token with
    | None => praise (HTTPException 401 "Sign in required")
    | Some t =>
        let! email := except (fun e => if bool_decide (is_Some (raised "InvalidToken" e))
                                       then praise (HTTPException 401 "Session expired") else praise e)
                        (validate_token session_decode JWT_SECRET t) in
        let! found := with_session (get_by_email email) in
        match found with
        | Some u => if bool_decide (u_role u = Role_ADMIN) then pret u
                    else praise (HTTPException 403 "Administrator access required")
        | None => praise (HTTPException 403 "Administrator access required")
        end
    end.

(** A route of the router: its dependency, then its handler. *)
Definition route {A} (is_get : bool) (request_header token : option string) (handler : prog world exn A) :
    prog world exn A :=
  admin_session is_get request_header token ;; handler.

(** [UserProfile]. *)
Record UserProfile := mk_profile { pf_id : string; pf_tg_username : option string; pf_last_active_at : option Z }.

(** MAX(turns.created_at) of a user. *)
Definition last_active (user_id : Z) (turns : list turn) : option Z :=
  foldr (fun t acc => Some (match acc with Some x => Z.max (turn_created (t_id t)) x | None => turn_created (t_id t) end))
    None (List.filter (fun t => Z.eqb (t_user_id t) user_id) turns).

Definition list_profiles : prog world exn (list UserProfile) :=
  sql (fun d => map (fun u => mk_profile (str_of_Z (u_id u)) (u_tg_username u) (last_active (u_id u) (db_turns d)))
                  (order_by u_id (db_users d))).

Definition users : prog world exn (list UserProfile) := with_session list_profiles.

Definition limits : prog world exn RuntimeSettings := with_session settings_load.

Definition update_limits (data : RuntimeSettings) : prog world exn RuntimeSettings :=
  let! saved := with_session (let! s := settings_save data in commit ;; pret s) in
  settings_remember saved ;;
  pret saved.

(* ------------------------------------------------------------------ *)
(** * [rpc/user.py] *)

Definition me (token : option string) : prog world exn UserPb :=
  let! u := require_user token in pret (user_to_pb u).

(** [db.merge(user)]: the values of [u] go over the row, which is inserted if it is gone. *)
Definition merge_user (u : user) : prog world exn unit :=
  let! found := user_get (u_id u) in
  match found with
  | Some _ => update_user (u_id u) (fun _ => u)
  | None => insert_user u
  end.

(** [elsewhere] is what others do between the two transactions. *)
Definition update_me (token : option string) (display_name : string) (elsewhere : world -> world) :
    prog world exn UserPb :=
  let! u := require_user token in
  modify elsewhere ;;
  let! v := with_session (
    merge_user (with_display_name (none_if_blank display_name) u) ;;
    commit ;;
    refresh_user u) in
  pret (user_to_pb v).

(* ------------------------------------------------------------------ *)
(** * [rpc/event.py] and [rpc/message.py] *)

Definition DEFAULT_LIMIT : Z := 100.
Definition MAX_LIMIT : Z := 500.

Definition resolve_limit (limit : Z) : Z := Z.min (if Z.ltb 0 limit then limit else DEFAULT_LIMIT) MAX_LIMIT.

Definition chat_not_found (chat_id : Z) : exn := ConnectError "not_found" ("chat " ++ str_of_Z chat_id ++ " not found").

Definition owns_chat (user_id : Z) (c : option chat) : bool :=
  match c with Some c => Z.eqb (c_user_id c) user_id | None => false end.

Definition ensure_chat_ownership (chat_id user_id : Z) : prog world exn unit :=
  let! c := with_session (chat_get chat_id) in
  if owns_chat user_id c then pret tt else praise (chat_not_found chat_id).

(** The WHERE clauses of [list_events]. *)
Definition event_selected (user_id : Z) (chat_id : option Z) (kind : option EventKind) (e : event_row) : bool :=
  match e_user_id e with Some u => Z.eqb u user_id | None => true end &&
  match chat_id with Some c => bool_decide (e_chat_id e = Some c) | None => true end &&
  match kind with Some k => bool_decide (e_kind e = k) | None => true end.

(** The kind of the request, if it has one. *)
Definition requested_kind (kind : option Z) : prog world exn (option EventKind) :=
  match kind with
  | None => pret None
  | Some value =>
      match event_kind_from_pb value with
      | None => praise (ConnectError "invalid_argument" ("unknown event kind: " ++ str_of_Z value))
      | Some k => pret (Some k)
      end
  end.

Definition list_events (token : option string) (limit offset : Z) (chat_id kind : option Z) :
    prog world exn (list EventPb) :=
  let! u := require_user token in
  match chat_id with Some c => ensure_chat_ownership c (u_id u) | None => pret tt end ;;
  let! k := requested_kind kind in
  let! rows := with_session (sql (fun d =>
    firstn (Z.to_nat (resolve_limit limit)) (skipn (Z.to_nat (Z.max offset 0))
      (order_by (fun e => - e_id e) (List.filter (event_selected (u_id u) chat_id k) (db_events d)))))) in
  pret (map event_to_pb rows).

Definition list_messages (token : option string) (chat_id limit : Z) (before_id : option Z) :
    prog world exn (list MessagePb) :=
  let! u := require_user token in
  let! rows := with_session (
    let! c := chat_get chat_id in
    if owns_chat (u_id u) c then msg_list chat_id (Z.to_nat (resolve_limit limit)) before_id
    else praise (chat_not_found chat_id)) in
  pret (map message_to_pb rows).
End Admin.

(* ------------------------------------------------------------------ *)
(** * Who acts *)

(** A session that was opened and closed without a commit. *)
Definition closed (w : world) : world := set_hooks [] (set_tx (w_db w) w).
Definition untouched (w w' : world) : Prop := w' = w \/ w' = closed w.

Section Guards.
Context (session_decode : string -> string -> Z -> result string dict) (JWT_SECRET : string).
Context (validate_email : string -> option string) (argon_hash : string -> string).
Context (user_created event_created message_created turn_created : Z -> Z).
Notation require_user := (Auth.require_user session_decode JWT_SECRET).
Notation require_admin := (Auth.require_admin session_decode JWT_SECRET).

(** The address a valid session token names. *)
Definition session_email (token : option string) (w : world) : option string :=
  t ← token;
  match session_decode t JWT_SECRET (unix_seconds w) with
  | Ok payload => match get_or_null "sub" payload with JStr s => if nonempty s then Some s else None | _ => None end
  | Raise _ => None
  end.
Definition session_user (token : option string) (w : world) : option user :=
  email ← session_email token w; user_of email (w_db w).
(** The administrator whose session it is. *)
Definition session_admin (token : option string) (w : world) : option user :=
  u ← session_user token w; if bool_decide (u_role u = Role_ADMIN) then Some u else None.

(** The refusals of the RPC guards. *)
Definition denied (e : exn) : Prop :=
  exists msg, e = ConnectError "unauthenticated" msg \/ e = ConnectError "permission_denied" msg.

Lemma token_cases token w :
  match token with
  | None => session_email token w = None
  | Some t =>
      match session_email token w with
      | Some email => validate_token session_decode JWT_SECRET t w = (Ok email, w)
      | None => exists msg, validate_token session_decode JWT_SECRET t w = (Raise (InvalidToken msg), w)
      end
  end.
Proof.
  destruct token as [t|]; [|done]. unfold session_email, validate_token, pbind, gets. cbn.
  destruct (session_decode t JWT_SECRET (unix_seconds w)) as [p|m]; [|by eexists].
  destruct (get_or_null "sub" p); try (by eexists). destruct (nonempty _); [done|by eexists].
Qed.

Lemma require_user_cases token w :
  match session_user token w with
  | Some u => require_user token w = (Ok u, closed w)
  | None => exists msg w', require_user token w = (Raise (ConnectError "unauthenticated" msg), w') /\ untouched w w'
  end.
Proof.
  pose proof (token_cases token w) as H. unfold session_user, Auth.require_user, jwt_subject, except, pbind.
  destruct token as [t|]; [|rewrite H; eexists _, w; split; [reflexivity|by left]].
  destruct (session_email (Some t) w) as [email|].
  - rewrite H. unfold with_session, get_by_email, sql, gets. cbn.
    change (List.find _ (db_users (w_db w))) with (user_of email (w_db w)).
    destruct (user_of email (w_db w)); [done|]. eexists _, (closed w). split; [reflexivity|by right].
  - destruct H as [msg ->]. eexists _, w. split; [reflexivity|by left].
Qed.

Lemma require_admin_cases token w :
  match session_admin token w with
  | Some u => require_admin token w = (Ok u, closed w)
  | None => exists e w', require_admin token w = (Raise e, w') /\ denied e /\ untouched w w'
  end.
Proof.
  pose proof (require_user_cases token w) as H. unfold session_admin, Auth.require_admin, pbind.
  destruct (session_user token w) as [u|].
  - rewrite H. cbn. destruct (bool_decide (u_role u = Role_ADMIN)); [done|].
    eexists _, (closed w). split; [reflexivity|]. split; [eexists; by right|by right].
  - destruct H as (msg & w' & -> & Hw). eexists _, w'. split; [reflexivity|]. split; [eexists; by left|done].
Qed.

Lemma admin_session_cases is_get header token w :
  if negb is_get && negb (bool_decide (header = Some "1")) then
    admin_session session_decode JWT_SECRET is_get header token w =
      (Raise (HTTPException 403 "Missing request verification header"), w)
  else
    match session_admin token w with
    | Some u => admin_session session_decode JWT_SECRET is_get header token w = (Ok u, closed w)
    | None => exists status msg w', In status [401; 403] /\ untouched w w' /\
        admin_session session_decode JWT_SECRET is_get header token w = (Raise (HTTPException status msg), w')
    end.
Proof.
  unfold admin_session. destruct (negb is_get && _); [done|]. pose proof (token_cases token w) as H.
  unfold session_admin, session_user. destruct token as [t|].
  2: { rewrite H. cbn. eexists 401, _, w. split; [by left|]. split; [by left|reflexivity]. }
  unfold pbind, except. destruct (session_email (Some t) w) as [email|].
  - rewrite H. unfold with_session, get_by_email, sql, gets. cbn.
    change (List.find _ (db_users (w_db w))) with (user_of email (w_db w)).
    destruct (user_of email (w_db w)) as [u|]; cbn; [destruct (bool_decide (u_role u = Role_ADMIN)); [done|]|];
      (eexists 403, _, (closed w); split; [by right; left|]; split; [by right|reflexivity]).
  - destruct H as [msg ->]. cbn. eexists 401, _, w. split; [by left|]. split; [by left|reflexivity].
Qed.

(** The methods of the service. *)
Inductive admin_call :=
| CreateInvite (fresh : string) (ttl_days : Z)
| ListInvites (include_used : bool)
| RevokeInvite (invite_id : Z)
| CreateUser (email password : string) (role : UserRolePb) (display_name : string)
| ListUsers
| Moved (m : moved_method).

Definition run_admin (token : option string) (c : admin_call) : prog world exn unit :=
  match c with
  | CreateInvite fresh ttl => create_invite session_decode JWT_SECRET token fresh ttl ;; pret tt
  | ListInvites used => list_invites session_decode JWT_SECRET token used ;; pret tt
  | RevokeInvite id => revoke_invite session_decode JWT_SECRET token id
  | CreateUser email password role name =>
      create_user session_decode JWT_SECRET validate_email argon_hash user_created token email password role name ;; pret tt
  | ListUsers => list_users session_decode JWT_SECRET user_created token ;; pret tt
  | Moved m => moved session_decode JWT_SECRET m token
  end.

(** C25: only administrators administrate. Without a valid session of an account that is an
    administrator now, every method of the admin service and every route of the settings API
    is refused as unauthenticated or forbidden, with whatever arguments, and nothing has
    happened; so is a settings route that is not a GET and lacks the verification header,
    whoever calls it. For an administrator the route's handler runs, on the same state. *)
Theorem admin_only :
  (forall token c w, session_admin token w = None ->
     exists e w', run_admin token c w = (Raise e, w') /\ denied e /\ untouched w w') /\
  (forall A is_get header token (handler : prog world exn A) w,
     (is_get = false /\ header <> Some "1") \/ session_admin token w = None ->
     exists status msg w', route session_decode JWT_SECRET is_get header token handler w =
       (Raise (HTTPException status msg), w') /\ In status [401; 403] /\ untouched w w') /\
  (forall A is_get header token (handler : prog world exn A) w u,
     session_admin token w = Some u -> is_get = true \/ header = Some "1" ->
     route session_decode JWT_SECRET is_get header token handler w = handler (closed w)).
Proof.
  split_and!.
  - intros token c w Hno. pose proof (require_admin_cases token w) as H. rewrite Hno in H.
    destruct H as (e & w' & H & Hd & Hw). exists e, w'. split; [|done].
    destruct c; unfold run_admin, create_invite, list_invites, revoke_invite, create_user, list_users, moved, pbind;
      by rewrite H.
  - intros A is_get header token handler w Hno. pose proof (admin_session_cases is_get header token w) as H.
    unfold route, pbind. destruct (negb is_get && negb (bool_decide (header = Some "1"))) eqn:Eg.
    + rewrite H. eexists 403, _, w. split; [reflexivity|]. split; [by right; left|by left].
    + destruct Hno as [[-> Hh]|Hno]; [by rewrite bool_decide_eq_false_2 in Eg|]. rewrite Hno in H.
      destruct H as (status & msg & w' & Hs & Hw & ->). by exists status, msg, w'.
  - intros A is_get header token handler w u Hu Hg. pose proof (admin_session_cases is_get header token w) as H.
    assert (negb is_get && negb (bool_decide (header = Some "1")) = false) as Eg.
    { destruct Hg as [-> | ->]; [done|]. rewrite bool_decide_eq_true_2 by done. by destruct is_get. }
    rewrite Eg, Hu in H. unfold route, pbind. by rewrite H.
Qed.
End Guards.

(* ------------------------------------------------------------------ *)
(** * Accounts *)

Lemma update_twice {A} (p : A -> bool) f g rows :
  (forall r, p (f r) = p r) -> update_where p g (update_where p f rows) = update_where p (fun r => g (f r)) rows.
Proof.
  intros Hf. unfold update_where. rewrite map_map. apply map_ext. intros r. destruct (p r) eqn:E; rewrite ?Hf, ?E; done.
Qed.

Lemma find_unique (rows : list user) u :
  NoDup (map u_id rows) -> In u rows -> List.find (fun v => Z.eqb (u_id v) (u_id u)) rows = Some u.
Proof.
  intros Hnd Hin. destruct (List.find _ rows) as [v|] eqn:E.
  - destruct (find_some _ _ E) as [Hv Hk%Z.eqb_eq]. f_equal. by apply (unique_key u_id u v rows).
  - pose proof (find_none _ _ E u Hin) as H. cbn in H. by rewrite Z.eqb_refl in H.
Qed.

(** The rows of users: identifiers are unique and below the sequence. *)
Definition users_ok (w : world) : Prop :=
  NoDup (map u_id (db_users (w_db w))) /\ Forall (fun u => u_id u < w_seq w) (db_users (w_db w)).

Section Accounts.
Context (session_decode : string -> string -> Z -> result string dict) (JWT_SECRET : string).
Context (validate_email : string -> option string) (argon_hash : string -> string).
Context (user_created : Z -> Z).
Notation save_account := (save_account argon_hash).
Notation create_user := (create_user session_decode JWT_SECRET validate_email argon_hash user_created).

(** The row an account is given. *)
Definition account_row (u : user) (password : string) (role : UserRole) (name : option string) (v : user) : user :=
  with_password (argon_hash password)
    ((if truthy_opt name && negb (truthy_opt (u_display_name u)) then with_display_name name else fun v => v)
       (with_role role v)).

Lemma account_row_key u password role name v :
  u_id (account_row u password role name v) = u_id v /\ u_email (account_row u password role name v) = u_email v /\
  u_role (account_row u password role name v) = role /\
  u_password_hash (account_row u password role name v) = Some (argon_hash password).
Proof. unfold account_row. destruct (truthy_opt name && _); by split_and!. Qed.

(** The account the transaction works on: the row of the address or a new one. *)
Definition account_base (w : world) (email : string) (name : option string) : user * list user :=
  match user_of email (w_db w) with
  | Some u => (u, db_users (w_db w))
  | None => let u := mk_user (w_seq w) None (Some email) None name None Role_USER in
            (u, (db_users (w_db w) ++ [u])%list)
  end.

Lemma base_ok w email name :
  users_ok w -> let '(u, rows) := account_base w email name in
  NoDup (map u_id rows) /\ In u rows /\ u_email u = Some email /\
  List.find (with_email email) rows = Some u /\
  forall other, other <> email -> List.find (with_email other) rows = user_of other (w_db w).
Proof.
  intros [Hnd Hseq]. unfold account_base. destruct (user_of email (w_db w)) as [u|] eqn:E; unfold user_of in *.
  - destruct (find_some _ _ E) as [Hin He]. apply bool_decide_eq_true in He. by split_and!.
  - set (u := mk_user _ _ _ _ _ _ _). split_and!.
    + rewrite map_app. apply NoDup_app. split_and!; [done| |apply NoDup_singleton].
      intros x Hx Hs. apply list_elem_of_singleton in Hs as ->. apply list_elem_of_fmap in Hx as (v & Hv & Hin).
      rewrite Forall_forall in Hseq. specialize (Hseq v Hin). simpl in Hv. lia.
    + apply in_or_app. right. by left.
    + done.
    + by apply find_app_email.
    + intros other Hne. apply find_app_other. unfold with_email. apply bool_decide_eq_false_2. simpl. congruence.
Qed.

Lemma get_by_email_run email w : get_by_email email w = (Ok (user_of email (w_tx w)), w).
Proof. done. Qed.

(** Whether the address has a password already. *)
Definition taken (email : string) (w : world) : bool :=
  match user_of email (w_db w) with Some u => truthy_opt (u_password_hash u) | None => false end.

Lemma save_account_run email password role name w :
  let '(u, rows) := account_base w email name in
  let rows' := update_where (fun v => Z.eqb (u_id v) (u_id u)) (account_row u password role name) rows in
  exists w', save_account email password role name w =
    (if taken email w then Raise (ConnectError "already_exists" "email already registered")
     else match List.find (fun v => Z.eqb (u_id v) (u_id u)) rows' with
          | Some v => Ok v | None => Raise (OtherException "InvalidRequestError" "") end, w') /\
    w_db w' = if taken email w then w_db w else set_users rows' (w_db w).
Proof.
  unfold account_base, taken.
  unfold Admin.save_account, with_session. unfold pbind at 1. rewrite get_by_email_run. cbn [w_tx set_hooks set_tx].
  destruct (user_of email (w_db w)) as [u|] eqn:E.
  - unfold pbind at 1. destruct (truthy_opt (u_password_hash u)) eqn:Ep; [by eexists|].
    unfold pbind, pret, update_user, sql_write, modify, name_user, set_password_hash, account_row.
    destruct (truthy_opt name && negb (truthy_opt (u_display_name u))); cbn -[update_where]; rewrite !update_twice by done; cbn -[update_where];
      destruct (List.find _ _) as [v|] eqn:Ef; (eexists; split; [reflexivity|done]).
  - unfold pbind at 1 2. cbn [pret]. unfold get_or_create_by_email, pbind at 1, nextval.
    unfold pbind at 1. rewrite get_by_email_run. cbn [w_tx set_seq set_hooks set_tx w_seq].
    rewrite E. unfold pbind, pret, update_user, sql_write, modify, name_user, set_password_hash, account_row. cbn [u_display_name].
    destruct (truthy_opt name && negb (truthy_opt name)); cbn -[update_where]; rewrite !update_twice by done; cbn -[update_where];
      destruct (List.find _ _) as [v|] eqn:Ef; (eexists; split; [reflexivity|done]).
Qed.

(** Argon2 accepts the password it hashed; a hash is not empty. *)
Context (argon_verify : string -> string -> bool) (argon_needs_rehash : string -> bool).
Context (Hargon : forall p, argon_verify p (argon_hash p) = true) (Hhash : forall p, nonempty (argon_hash p) = true).
Context (jwt_encode : dict -> string -> string) (JWT_TTL_HOURS : Z) (COOKIES_SECURE : bool).
Notation login := (Auth.login argon_verify argon_needs_rehash argon_hash jwt_encode JWT_SECRET JWT_TTL_HOURS COOKIES_SECURE).

Lemma login_account raw password w u :
  user_of (lower (strip raw)) (w_db w) = Some u -> u_password_hash u = Some (argon_hash password) ->
  exists r w', login None raw password w = (Ok r, w').
Proof.
  intros Hu Hp. unfold Auth.login. unfold pbind at 1. cbn [check_throttle throttle_check with_ip except pret].
  unfold except, pret. unfold pbind at 1. unfold with_session at 1. unfold pbind at 1. rewrite get_by_email_run.
  cbn [w_tx set_hooks set_tx]. rewrite Hu. unfold verify_password. rewrite Hp, Hhash, Hargon. cbn [andb negb].
  unfold needs_rehash. rewrite Hhash. cbn [andb]. destruct (argon_needs_rehash _).
  - unfold pbind at 1. cbn [set_password_hash sql_write modify].
    match goal with |- context [commit ?x] => pose proof (commit_ok x) as Hc; destruct (commit x) as [rc wc] end.
    simpl in Hc. subst rc. cbn. by eexists _, _.
  - cbn. by eexists _, _.
Qed.

(** C26: an account an administrator creates works. If [CreateUser] is refused nothing in the
    database has changed, and it was refused because the caller is no administrator, the
    address or the password is invalid, or the address has a password already. If it answers,
    the address had none, its account has the role and the password asked for and is what the
    answer shows, every other address has the account it had, and the user can log in with
    the password. *)
Theorem account_created token email password role display_name w (Hw : users_ok w) :
  match create_user token email password role display_name w with
  | (Raise _, w') => w_db w' = w_db w /\
      (session_admin session_decode JWT_SECRET token w = None \/ validate_email (lower (strip email)) = None \/
       (String.length password < 8)%nat \/ exists a, validate_email (lower (strip email)) = Some a /\ taken a w = true)
  | (Ok p, w') => exists address u,
      validate_email (lower (strip email)) = Some address /\ taken address w = false /\
      user_of address (w_db w') = Some u /\ p = admin_user_to_pb user_created u /\
      u_role u = default Role_USER (pb_to_role role) /\ u_password_hash u = Some (argon_hash password) /\
      (forall other, other <> address -> user_of other (w_db w') = user_of other (w_db w)) /\
      forall raw, lower (strip raw) = address -> exists r w2, login None raw password w' = (Ok r, w2)
  end.
Proof.
  unfold Admin.create_user, pbind at 1. pose proof (require_admin_cases session_decode JWT_SECRET token w) as Ha.
  destruct (session_admin session_decode JWT_SECRET token w) as [admin|].
  2: { destruct Ha as (e & w1 & -> & _ & Hu). split; [destruct Hu as [-> | ->]; done|by left]. }
  rewrite Ha. destruct (validate_email (lower (strip email))) as [address|] eqn:Ev; [|split; [done|by right; left]].
  destruct (String.length password <? 8)%nat eqn:El; [split; [done|]; right; right; left; by apply Nat.ltb_lt|].
  unfold pbind. set (name := none_if_blank display_name). set (r := default Role_USER (pb_to_role role)).
  pose proof (save_account_run address password r name (closed w)) as Hs.
  pose proof (base_ok (closed w) address name Hw) as Hb. destruct (account_base (closed w) address name) as [u rows].
  destruct Hs as (w' & -> & Hdb). destruct Hb as (Hnd & Hin & He & Hfind & Hother).
  change (taken address (closed w)) with (taken address w) in *. destruct (taken address w) eqn:Et.
  { split; [exact Hdb|]. right. right. right. by exists address. }
  destruct (account_row_key u password r name u) as (K1 & K2 & K3 & K4).
  assert (Hrow : forall q, (forall v, q (account_row u password r name v) = q v) -> List.find q rows = Some u ->
    List.find q (update_where (fun v => Z.eqb (u_id v) (u_id u)) (account_row u password r name) rows) =
    Some (account_row u password r name u)).
  { intros q Hq Hf. rewrite find_keyed by done. rewrite Hf. simpl. by rewrite Z.eqb_refl. }
  rewrite (Hrow (fun v => Z.eqb (u_id v) (u_id u))); [|intros v; by destruct (account_row_key u password r name v) as [-> _]|by apply find_unique].
  assert (Hemail : forall a v, with_email a (account_row u password r name v) = with_email a v).
  { intros a v. unfold with_email. by destruct (account_row_key u password r name v) as (_ & -> & _). }
  assert (Hu' : user_of address (w_db w') = Some (account_row u password r name u)).
  { rewrite Hdb. unfold user_of. apply Hrow; [apply Hemail|done]. }
  exists address, (account_row u password r name u). split_and!; [done..| |].
  - intros other Hne. rewrite Hdb. unfold user_of at 1. cbn [db_users set_users].
    rewrite find_keyed by (intros; apply Hemail). change (w_db (closed w)) with (w_db w) in Hother.
    rewrite (Hother other Hne). destruct (user_of other (w_db w)) as [v|] eqn:Eo; [|done]. simpl.
    destruct (Z.eqb_spec (u_id v) (u_id u)) as [Ei|]; [|done]. exfalso. apply Hne.
    rewrite <- Hother in Eo by done. destruct (find_some _ _ Eo) as [Hv Hve]. apply bool_decide_eq_true in Hve.
    rewrite (unique_key u_id u v rows Hnd Hin Hv Ei) in Hve. congruence.
  - intros raw Hraw. apply (login_account raw password w' (account_row u password r name u)); [by rewrite Hraw|done].
Qed.
End Accounts.

(* ------------------------------------------------------------------ *)
(** * The journal and the messages *)

Section Reading.
Context (session_decode : string -> string -> Z -> result string dict) (JWT_SECRET : string).
Context (event_created message_created user_created : Z -> Z).
Notation list_events := (list_events session_decode JWT_SECRET event_created).
Notation list_messages := (list_messages session_decode JWT_SECRET message_created).

Lemma resolve_limit_le limit : 0 <= resolve_limit limit <= 500.
Proof. unfold resolve_limit, MAX_LIMIT, DEFAULT_LIMIT. destruct (Z.ltb_spec 0 limit); lia. Qed.

Lemma in_event_page {A} (x : A) n m l : In x (firstn n (skipn m l)) -> In x l.
Proof.
  intros H. rewrite <- (firstn_skipn m l). apply in_or_app. right.
  rewrite <- (firstn_skipn n (skipn m l)). apply in_or_app. by left.
Qed.

Lemma sorted_app {A} (R : A -> A -> Prop) a b :
  Sorted.StronglySorted R (a ++ b) -> Sorted.StronglySorted R a /\ Sorted.StronglySorted R b.
Proof.
  induction a as [|x a IH]; simpl; [split; [constructor|done]|]. inversion_clear 1 as [|? ? Hs Hf].
  destruct (IH Hs) as [Ha Hb]. split; [|done]. constructor; [done|]. by apply Forall_app in Hf as [Hf _].
Qed.

Lemma sorted_page {A} (R : A -> A -> Prop) n m l :
  Sorted.StronglySorted R l -> Sorted.StronglySorted R (firstn n (skipn m l)).
Proof.
  intros H. rewrite <- (firstn_skipn m l) in H. apply sorted_app in H as [_ H].
  rewrite <- (firstn_skipn n (skipn m l)) in H. by apply sorted_app in H as [H _].
Qed.

Lemma sorted_impl {A} (R R' : A -> A -> Prop) l :
  (forall x y, R x y -> R' x y) -> Sorted.StronglySorted R l -> Sorted.StronglySorted R' l.
Proof. intros H. induction 1 as [|x l Hs IH Hf]; constructor; [done|]. eapply Forall_impl; [exact Hf|]. auto. Qed.

(** A page of the journal. *)
Lemma event_page limit offset p rows :
  let l := firstn (Z.to_nat (resolve_limit limit)) (skipn (Z.to_nat (Z.max offset 0))
             (order_by (fun e => - e_id e) (List.filter p rows))) in
  (List.length l <= 500)%nat /\ Sorted.StronglySorted (fun x y => e_id y <= e_id x) l /\
  forall e, In e l -> In e rows /\ p e = true.
Proof.
  intros l. pose proof (resolve_limit_le limit). split_and!.
  - subst l. rewrite length_firstn. lia.
  - apply sorted_page. eapply sorted_impl; [|apply order_by_sorted]. intros x y. simpl. lia.
  - intros e He%in_event_page%in_order_by. by apply filter_In.
Qed.

Lemma sorted_map l :
  Sorted.StronglySorted (fun x y => e_id y <= e_id x) l ->
  Sorted.StronglySorted (fun x y => ep_id y <= ep_id x) (map (event_to_pb event_created) l).
Proof.
  induction 1 as [|e l Hs IH Hf]; simpl; constructor; [done|]. apply Forall_forall.
  intros p Hp. apply list_elem_of_In, in_map_iff in Hp as (x & <- & Hx). rewrite Forall_forall in Hf.
  by apply Hf, list_elem_of_In.
Qed.

(** The chat a listing names, owned by the caller. *)
Definition owned_by (u : user) (chat_id : Z) (d : database) : Prop :=
  exists c, List.find (chat_is chat_id) (db_chats d) = Some c /\ c_user_id c = u_id u.

Lemma chat_check_run chat_id user_id w :
  ensure_chat_ownership chat_id user_id w =
    (if owns_chat user_id (List.find (chat_is chat_id) (db_chats (w_db w))) then Ok tt else Raise (chat_not_found chat_id),
     closed w).
Proof.
  unfold ensure_chat_ownership, pbind, with_session, chat_get, sql, gets. cbn.
  change (List.find (fun c => Z.eqb (c_id c) chat_id) (db_chats (w_db w))) with (List.find (chat_is chat_id) (db_chats (w_db w))).
  by destruct (owns_chat _ _).
Qed.

Lemma owns_chat_true u chat_id d :
  owns_chat (u_id u) (List.find (chat_is chat_id) (db_chats d)) = true -> owned_by u chat_id d.
Proof.
  unfold owns_chat, owned_by. destruct (List.find _ _) as [c|]; [|done]. intros H%Z.eqb_eq. by exists c.
Qed.

Lemma requested_kind_same kind w : (requested_kind kind w).2 = w.
Proof. unfold requested_kind. destruct kind as [v|]; [|done]. by destruct (event_kind_from_pb v). Qed.

(** what is read is the reader's. The journal shows a user at most 500 events, newest
    first, each of them an event of that user or of nobody, of the chat and the kind asked
    for; the messages shown are of the chat asked for. A chat that is named belongs to the
    caller, who has a valid session; otherwise the request is refused. Nothing is written. *)
Theorem reads_are_own token limit w :
  (forall offset chat_id kind,
     match list_events token limit offset chat_id kind w with
     | (Raise _, w') => w_db w' = w_db w
     | (Ok l, w') => w_db w' = w_db w /\ exists u, session_user session_decode JWT_SECRET token w = Some u /\
         (List.length l <= 500)%nat /\ Sorted.StronglySorted (fun x y => ep_id y <= ep_id x) l /\
         (forall c, chat_id = Some c -> owned_by u c (w_db w)) /\
         forall p, In p l -> exists e, In e (db_events (w_db w)) /\ p = event_to_pb event_created e /\
           (e_user_id e = Some (u_id u) \/ e_user_id e = None) /\
           (forall c, chat_id = Some c -> e_chat_id e = Some c) /\
           (forall v, kind = Some v -> EVENT_KIND_PB (e_kind e) = v)
     end) /\
  (forall chat_id before_id,
     match list_messages token chat_id limit before_id w with
     | (Raise _, w') => w_db w' = w_db w
     | (Ok l, w') => w_db w' = w_db w /\ exists u, session_user session_decode JWT_SECRET token w = Some u /\
         owned_by u chat_id (w_db w) /\ (List.length l <= 500)%nat /\
         forall p, In p l -> exists m, In m (db_messages (w_db w)) /\ p = message_to_pb message_created m /\
           m_chat_id m = chat_id
     end).
Proof.
  pose proof (require_user_cases session_decode JWT_SECRET token w) as Hu.
  split; [intros offset chat_id kind|intros chat_id before_id];
    unfold Admin.list_events, Admin.list_messages; unfold pbind at 1;
    (destruct (session_user session_decode JWT_SECRET token w) as [u|];
     [rewrite Hu|destruct Hu as (msg & w1 & -> & [-> | ->]); done]).
  - assert (Hown : exists r, (match chat_id with Some c => ensure_chat_ownership c (u_id u) | None => pret tt end) (closed w)
        = (r, closed w) /\ (r = Ok tt -> forall c, chat_id = Some c -> owned_by u c (w_db w))).
    { destruct chat_id as [c|]; [|by exists (Ok tt)]. rewrite chat_check_run. eexists. split; [reflexivity|].
      change (w_db (closed w)) with (w_db w). destruct (owns_chat _ _) eqn:Eo; [|done].
      intros _ ? [= <-]. by apply owns_chat_true. }
    destruct Hown as (r & Hr & Hown). unfold pbind at 1. rewrite Hr. destruct r as [[]|e]; [|done].
    unfold pbind. pose proof (requested_kind_same kind (closed w)) as Hk.
    destruct (requested_kind kind (closed w)) as [[k|e] w1] eqn:Ek; cbn [snd] in Hk; subst w1; [|done].
    unfold with_session, sql, gets. cbn [w_tx set_hooks set_tx closed w_db]. split; [done|]. exists u.
    split; [done|]. destruct (event_page limit offset (event_selected (u_id u) chat_id k) (db_events (w_db w)))
      as (P1 & P2 & P3). split_and!; [by rewrite length_map|by apply sorted_map|by apply Hown|].
    intros p (e & <- & He)%in_map_iff. destruct (P3 e He) as [Hin Hsel]. exists e.
    unfold event_selected in Hsel. apply andb_true_iff in Hsel as [[H1 H2]%andb_true_iff H3]. split_and!; [done..| | |].
    + destruct (e_user_id e) as [x|]; [left; by apply Z.eqb_eq in H1 as ->|by right].
    + intros c ->. by apply bool_decide_eq_true in H2.
    + intros v ->. unfold requested_kind in Ek. destruct (event_kind_from_pb v) as [k'|] eqn:Ev; [|discriminate Ek]. injection Ek as <-.
      apply bool_decide_eq_true in H3. destruct (find_some _ _ Ev) as [_ Hv%Z.eqb_eq]. congruence.
  - unfold pbind, with_session, chat_get, sql, gets. cbn [w_tx set_hooks set_tx closed w_db].
    change (List.find (fun c => Z.eqb (c_id c) chat_id) (db_chats (w_db w))) with (List.find (chat_is chat_id) (db_chats (w_db w))).
    destruct (owns_chat (u_id u) _) eqn:Eo; [|done]. cbn. split; [done|]. exists u. split_and!; [done|by apply owns_chat_true| |].
    + rewrite length_map. destruct (last_page_split (Z.to_nat (resolve_limit limit))
        (List.filter (fun m => Z.eqb (m_chat_id m) chat_id &&
           match before_id with Some b => Z.ltb (m_id m) b | None => true end) (db_messages (w_db w)))) as (older & _ & ->).
      pose proof (resolve_limit_le limit). lia.
    + intros p (m & <- & Hm)%in_map_iff. exists m. unfold last_page in Hm.
      apply in_rev, (in_event_page m _ 0) in Hm. rewrite <- in_rev, in_order_by in Hm.
      apply filter_In in Hm as [Hm1 [Hm2%Z.eqb_eq _]%andb_true_iff]. done.
Qed.
End Reading.

(* ------------------------------------------------------------------ *)
(** * Examples and witnesses *)

Definition demo_decode (raw _ : string) (_ : Z) : result string dict := Ok [("sub", JStr raw)].
Definition demo_admin : user := mk_user 1 None (Some "r@b") (Some "#secret12") None None Role_ADMIN.
Definition demo_admin_world : world := set_seq 2 (set_db (set_users [demo_admin] empty_db) empty_world).

(** Another administrator takes the role away while the caller changes a name: the merge of
    the row read before writes the old role back. *)
Example stale_role_restored :
  let demote w := set_db (set_users (map (with_role Role_USER) (db_users (w_db w))) (w_db w)) w in
  map (fun u => (u_display_name u, u_role u)) (db_users (w_db
    (update_me demo_decode "k" (fun _ => 0) (Some "r@b") "Root" demote demo_admin_world).2)) =
  [(Some "Root", Role_ADMIN)].
Proof. vm_compute. reflexivity. Qed.

Example non_admin_refused :
  (list_users demo_decode "k" (fun _ => 0) (Some "x@y") demo_admin_world).1 =
  Raise (ConnectError "unauthenticated" "user not found").
Proof. vm_compute. reflexivity. Qed.

Lemma demo_argon p : demo_verify p (demo_hash p) = true.
Proof. apply String.eqb_refl. Qed.

Lemma account_created_witness :
  exists w', (create_user demo_decode "k" demo_email demo_hash (fun _ => 0) (Some "r@b") " C@d" "secret12"
      USER_ROLE_ADMIN "Cy" demo_admin_world).2 = w' /\
    option_map u_role (user_of "c@d" (w_db w')) = Some Role_ADMIN /\
    exists r w2, login demo_verify (fun _ => false) demo_hash demo_session_encode "k" 24 true None "C@D " "secret12" w' =
      (Ok r, w2).
Proof.
  assert (Hok : users_ok demo_admin_world).
  { split; [apply NoDup_singleton|]. repeat constructor. }
  pose proof (account_created demo_decode "k" demo_email demo_hash (fun _ => 0) demo_verify (fun _ => false)
    demo_argon (fun _ => eq_refl) demo_session_encode 24 true (Some "r@b") " C@d" "secret12" USER_ROLE_ADMIN "Cy"
    demo_admin_world Hok) as H.
  destruct (create_user _ _ _ _ _ _ _ _ _ _ _) as [[p|e] w'] eqn:E; [|exfalso; vm_compute in E; discriminate].
  exists w'. split; [reflexivity|]. destruct H as (a & u & Ha & _ & Hu & _ & Hr & _ & _ & Hl).
  assert (a = "c@d") as -> by (vm_compute in Ha; congruence).
  split; [rewrite Hu; cbn; by rewrite Hr|]. apply Hl. vm_compute. reflexivity.
Defined.
