(* ===== verification/Errors.v ===== *)
(** Errors: what reaches the error tracker and what of it the agent sees. The [before_send]
    filter ([services/errors/scrub.py]), the client of the tracker's API
    ([services/errors/bugsink_client.py]), the agent's tools [list_errors] and [get_error]
    ([mcp/tools/errors.py], [mcp/schemas/errors.py]), and the tool [show_image]
    ([mcp/tools/show_image.py]).

    The tracker is a parameter: its answer to a request may depend on all requests before
    it. Pydantic's coercions are parameters as elsewhere. *)
From S2P Require Import Prelude PyStr PyLib Json Models Events World Translate Services McpAuthz Auth Notes Uploads Usage.

Open Scope Z_scope.
Open Scope string_scope.

(* ------------------------------------------------------------------ *)
(** * [services/errors/scrub.py] *)

Definition REDACTED : string := "[redacted]".
Definition SENSITIVE_HEADERS : list string :=
  ["authorization"; "cookie"; "set-cookie"; "x-api-key"; "x-auth-token"; "proxy-authorization"].
Definition DROP_LOG_PATTERNS : list string := ["Failed to fetch updates"].

Definition sensitive (key : string) : bool := existsb (String.eqb (lower key)) SENSITIVE_HEADERS.

Definition scrub_headers (payload : json) : json :=
  match payload with
  | JObj o => JObj (map (fun kv => if sensitive kv.1 then (kv.1, JStr REDACTED) else kv) o)
  | _ => payload
  end.

(** The value at [k], a dict's only one, changed in place. *)
Definition update_field (k : string) (f : json -> json) (o : dict) : dict :=
  map (fun kv => if String.eqb kv.1 k then (kv.1, f kv.2) else kv) o.

(** The text looked at for [_DROP_LOG_PATTERNS]. *)
Definition event_message (event : dict) : string :=
  let raw := match get_or_null "logentry" event with JObj o => get_or_null "message" o | _ => JNull end in
  let raw := if truthy raw then raw else get_or_null "message" event in
  default "" (as_str raw).

Definition scrub_request (request : json) : json :=
  match request with
  | JObj o =>
      JObj (update_field "env" scrub_headers
             (update_field "data" (fun _ => JStr REDACTED)
               (update_field "cookies" scrub_headers (update_field "headers" scrub_headers o))))
  | _ => request
  end.

Definition scrub_crumb (crumb : json) : json :=
  match crumb with JObj o => JObj (update_field "data" scrub_headers o) | _ => crumb end.

(** The value of [values]: iterating over a number raises, the characters of a text and the
    keys of a dict are no crumbs. *)
Definition scrub_values (values : json) : json :=
  match values with JArr l => JArr (map scrub_crumb l) | _ => values end.
Definition iterable (values : json) : bool :=
  negb (truthy values) || match values with JArr _ | JStr _ | JObj _ => true | _ => false end.

Definition scrub_crumbs (crumbs : json) : json :=
  match crumbs with JObj o => JObj (update_field "values" scrub_values o) | _ => crumbs end.

(** The event to send; [None] drops it. *)
Definition scrub_event (event : dict) : result exn (option dict) :=
  if existsb (fun p => str_contains p (event_message event)) DROP_LOG_PATTERNS then Ok None
  else
    let event := update_field "request" scrub_request event in
    let values := match get_or_null "breadcrumbs" event with
                  | JObj o => default (JArr []) (assoc "values" o)
                  | _ => JArr []
                  end in
    if iterable values then Ok (Some (update_field "breadcrumbs" scrub_crumbs event))
    else Raise (OtherException "TypeError" "object is not iterable").

(* ------------------------------------------------------------------ *)
(** * [services/errors/bugsink_client.py] *)

Definition BASE : string := "/api/canonical/0".

Definition HTTPError (msg : string) : exn := OtherException "HTTPError" msg.
Definition AttributeError : exn := OtherException "AttributeError" "".
Definition TypeError : exn := OtherException "TypeError" "".
Definition KeyError (msg : string) : exn := OtherException "KeyError" msg.

(** A GET of the client: its path and query. *)
Definition request : Type := string * dict.
(** No answer, or a status and the JSON of the body, if it is any. *)
Inductive http_answer :=
| HttpFailure (msg : string)
| HttpAnswer (status : Z) (body : option json).

(** [BugsinkClient]: [bc_open] tells whether [_client] exists. *)
Record BugsinkClient := mk_client { bc_base : string; bc_headers : list (string * string); bc_open : bool }.

(** A process: the world, [_project_id_cache], the client and its requests so far. *)
Record estate := mk_estate {
  es_world : world;
  es_cache : gmap (option string) Z;
  es_client : BugsinkClient;
  es_requests : list request
}.
Definition set_es_world w s := mk_estate w (es_cache s) (es_client s) (es_requests s).
Definition set_es_cache c s := mk_estate (es_world s) c (es_client s) (es_requests s).
Definition set_es_open b s :=
  mk_estate (es_world s) (es_cache s) (mk_client (bc_base (es_client s)) (bc_headers (es_client s)) b) (es_requests s).
Definition add_request r s := mk_estate (es_world s) (es_cache s) (es_client s) (es_requests s ++ [r])%list.

Definition eprog (A : Type) : Type := prog estate exn A.

Definition on_es_world {A} (m : prog world exn A) : eprog A :=
  fun s => let '(r, w) := m (es_world s) in (r, set_es_world w s).

Definition new_client (base_url auth_token : string) : BugsinkClient :=
  mk_client (rstrip_chars (fun c => Ascii.eqb c "/") base_url)
    (if nonempty auth_token then [("Authorization", "Bearer " ++ auth_token)] else []) false.

Definition aclose : eprog unit := modify (set_es_open false).

(** [urlsplit(url).query], where the URL is well formed. *)
Definition url_query (url : string) : string :=
  let url := lstrip_chars (fun c => code c <=? 32)%nat url in
  let url := filter_chars (fun c => negb (existsb (Nat.eqb (code c)) [9; 10; 13]%nat)) url in
  let url := (partition_char "#" url).1.1 in
  (partition_char "?" url).2.

Definition plus_to_space (s : string) : string :=
  map_chars (fun c => if Ascii.eqb c "+" then " "%char else c) s.

(** [parse_qs(query).get(name)], its first value; empty values do not count. An escape is
    decoded to its byte. *)
Definition query_value (name query : string) : option string :=
  snd <$> List.find (fun kv => String.eqb kv.1 name && nonempty kv.2)
    (map (fun field => let '(k, _, v) := partition_char "=" field in
                       (unquote (plus_to_space k), unquote (plus_to_space v)))
         (split_char "&" query)).

Section Client.
Context (bracketed_ok : string -> bool).
(** The tracker's answer to the last of the requests made to it. *)
Context (bugsink : list request -> http_answer).
(** The text of the exception of [raise_for_status]. *)
Context (status_text : Z -> string).

Definition extract_cursor (next_url : json) : result exn string :=
  if negb (truthy next_url) then Ok ""
  else match next_url with
       | JStr url =>
           match url_scheme bracketed_ok url with
           | None => Raise (ValueError "Invalid IPv6 URL")
           | Some _ => Ok (default "" (query_value "cursor" (url_query url)))
           end
       | _ => Raise AttributeError
       end.

(** [self._http.get(..)], [raise_for_status] and [resp.json()]. *)
Definition http_get (path : string) (params : dict) : eprog json :=
  modify (set_es_open true) ;;
  modify (add_request (path, params)) ;;
  let! requests := gets es_requests in
  match bugsink requests with
  | HttpFailure msg => praise (HTTPError msg)
  | HttpAnswer status body =>
      if negb (between_z 200 299 status) then praise (HTTPError (status_text status))
      else match body with Some j => pret j | None => praise (OtherException "JSONDecodeError" "") end
  end.

(** [_page]. *)
Definition page (url cursor : string) (params : dict) : eprog dict :=
  let q := if nonempty cursor then assoc_set "cursor" (JStr cursor) params else params in
  let! body := http_get url q in
  match body with
  | JObj o =>
      let! cursor := lift_result (extract_cursor (get_or_null "next" o)) in
      pret (assoc_set "_next_cursor" (JStr cursor) o)
  | _ => praise AttributeError
  end.

Definition list_projects (cursor : string) : eprog dict := page (BASE ++ "/projects/") cursor [].
Definition list_issues (project : Z) (sort order cursor : string) : eprog dict :=
  page (BASE ++ "/issues/") cursor [("project", JNum project); ("sort", JStr sort); ("order", JStr order)].
Definition get_issue (issue_id : string) : eprog json := http_get (BASE ++ "/issues/" ++ issue_id ++ "/") [].
Definition list_events (issue order cursor : string) : eprog dict :=
  page (BASE ++ "/events/") cursor [("issue", JStr issue); ("order", JStr order)].
Definition get_event (event_id : string) : eprog json := http_get (BASE ++ "/events/" ++ event_id ++ "/") [].

(* ------------------------------------------------------------------ *)
(** * [mcp/schemas/errors.py] *)

Context (pyd_int : json -> option Z) (pyd_bool : json -> option bool).

Record IssueSummary := mk_issue {
  is_id : string; is_type : option string; is_message : option string; is_events : option Z;
  is_last_seen : option string; is_resolved : option bool
}.

(** [IssueSummary.model_validate]; [None] is a [ValidationError]. *)
Definition issue_validate (j : json) : option IssueSummary :=
  d ← as_obj j;
  id ← assoc "id" d ≫= as_str;
  type ← opt_field "calculated_type" as_str d;
  message ← opt_field "calculated_value" as_str d;
  events ← opt_field "stored_event_count" pyd_int d;
  last_seen ← opt_field "last_seen" as_str d;
  resolved ← opt_field "is_resolved" pyd_bool d;
  Some (mk_issue id type message events last_seen resolved).

(** Tags are a dict or a list. *)
Record EventDetail := mk_event_detail {
  ed_issue_id : string; ed_event_id : string; ed_timestamp : option string; ed_stacktrace : string;
  ed_platform : option string; ed_level : option string; ed_logger : option string;
  ed_environment : option string; ed_release : option string; ed_transaction : option string;
  ed_tags : option json
}.

Definition as_tags (j : json) : option json := match j with JObj _ | JArr _ => Some j | _ => None end.

(* ------------------------------------------------------------------ *)
(** * [mcp/tools/errors.py] *)

(** [str] of a float, a list or a dict. *)
Context (str_repr : json -> string).
(** [require_identity] with its settings. *)
Context (require_identity : list (string * string) -> prog world exn McpIdentity).

Definition require_admin (headers : list (string * string)) : eprog unit :=
  let! identity := on_es_world (require_identity headers) in
  if bool_decide (mi_role identity = Mcp_ADMIN) then pret tt
  else praise (ToolError "error tools are available to the administrator only").

(** [except httpx.HTTPError as exc: raise ToolError(...)]. *)
Definition api_errors {A} (m : eprog A) : eprog A :=
  except (fun e => match raised "HTTPError" e with
                   | Some msg => praise (ToolError ("bugsink_api_error: " ++ msg))
                   | None => praise e
                   end) m.

(** [j\[k\]] for a text [k], and [j\[0\]]. *)
Definition subscript (k : string) (j : json) : result exn json :=
  match j with
  | JObj o => match assoc k o with Some v => Ok v | None => Raise (KeyError k) end
  | _ => Raise TypeError
  end.
Definition first_item (j : json) : result exn json :=
  match j with
  | JArr (x :: _) => Ok x
  | JArr [] | JStr "" => Raise (OtherException "IndexError" "")
  | JStr (String c _) => Ok (JStr (String c ""))
  | JObj _ => Raise (KeyError "0")
  | _ => Raise TypeError
  end.

(** [int(v)]. *)
Definition int_of (j : json) : result exn Z :=
  match j with
  | JNum z => Ok z
  | JBool b => Ok (if b then 1 else 0)
  | JFloat m e => Ok (if Z.leb 0 e then m * 10 ^ e else Z.quot m (10 ^ (- e)))
  | JStr s => match py_int s with Some z => Ok z | None => Raise (ValueError "invalid literal for int()") end
  | _ => Raise TypeError
  end.

(** [next((p for p in projects if ...), None)]. *)
Fixpoint find_project (slug : string) (projects : list json) : result exn (option json) :=
  match projects with
  | [] => Ok None
  | JObj o :: rest =>
      if existsb (json_eqb (JStr slug)) [get_or_null "slug" o; get_or_null "name" o]
      then Ok (Some (JObj o)) else find_project slug rest
  | _ :: _ => Raise AttributeError
  end.

Definition match_project (slug : string) (projects : json) : result exn (option json) :=
  match projects with
  | JArr l => find_project slug l
  | JObj _ | JStr _ => Raise AttributeError
  | _ => Raise TypeError
  end.

Definition results_of (body : dict) : json := default (JArr []) (assoc "results" body).

Definition resolve_project_id (slug : option string) : eprog Z :=
  let! cached := gets (fun s => es_cache s !! slug) in
  match cached with
  | Some pid => pret pid
  | None =>
      let! body := api_errors (list_projects "") in
      let projects := results_of body in
      if negb (truthy projects) then praise (ToolError "no_bugsink_projects_configured")
      else
        let! project :=
          match slug with
          | None => lift_result (first_item projects)
          | Some slug =>
              let! found := lift_result (match_project slug projects) in
              match found with
              | None => praise (ToolError ("project_not_found: " ++ slug))
              | Some p => pret p
              end
          end in
        let! id := lift_result (subscript "id" project) in
        let! pid := lift_result (int_of id) in
        modify (fun s => set_es_cache (<[slug := pid]> (es_cache s)) s) ;;
        pret pid
  end.

(** [results\[:limit\]], a list's or a text's characters. *)
Definition take_items (limit : Z) (j : json) : result exn (list json) :=
  match j with
  | JArr l => Ok (firstn (Z.to_nat limit) l)
  | JStr s => Ok (firstn (Z.to_nat limit) (map (fun c => JStr (String c "")) (list_ascii_of_string s)))
  | JObj _ => Raise (KeyError "slice")
  | _ => Raise TypeError
  end.

Definition list_errors (headers : list (string * string)) (project_slug : option string) (limit : Z) :
    eprog (list IssueSummary) :=
  (if between_z 1 100 limit then pret tt else praise ValidationError) ;;
  require_admin headers ;;
  let! project_id := resolve_project_id project_slug in
  let! body := api_errors (list_issues project_id "last_seen" "desc" "") in
  let! items := lift_result (take_items limit (results_of body)) in
  match mapM issue_validate items with
  | Some issues => pret issues
  | None => praise ValidationError
  end.

(** [detail.get(..) or {}] and the [EventDetail] of [get_error]. *)
Definition event_detail (issue_id : string) (detail : json) : result exn EventDetail :=
  match detail with
  | JObj d =>
      let data := get_or_null "data" d in
      let data := if truthy data then data else JObj [] in
      match assoc "id" d, data with
      | None, _ => Raise (KeyError "id")
      | Some event_id, JObj data =>
          match
            (event_id ← as_str event_id;
             timestamp ← opt_field "timestamp" as_str d;
             stacktrace ← as_str (default (JStr "") (assoc "stacktrace_md" d));
             platform ← opt_field "platform" as_str data;
             level ← opt_field "level" as_str data;
             logger ← opt_field "logger" as_str data;
             environment ← opt_field "environment" as_str data;
             release ← opt_field "release" as_str data;
             transaction ← opt_field "transaction" as_str data;
             tags ← opt_field "tags" as_tags data;
             Some (mk_event_detail issue_id event_id timestamp stacktrace platform level logger
                     environment release transaction tags))
          with
          | Some e => Ok e
          | None => Raise ValidationError
          end
      | Some _, _ => Raise AttributeError
      end
  | _ => Raise AttributeError
  end.

Definition get_error (headers : list (string * string)) (issue_id : string) : eprog EventDetail :=
  require_admin headers ;;
  let! events := api_errors (list_events issue_id "desc" "") in
  let results := results_of events in
  if negb (truthy results) then praise (ToolError ("no_events_for_issue: " ++ issue_id))
  else
    let! first := lift_result (first_item results) in
    let! event_id := lift_result (subscript "id" first) in
    let! detail := get_event (py_str str_repr event_id) in
    lift_result (event_detail issue_id detail).
End Client.

(* ------------------------------------------------------------------ *)
(** * [mcp/tools/show_image.py] *)

Record ImageDelivery := mk_delivery { id_path : string; id_filename : string; id_caption : option string; id_delivered : bool }.

Section ShowImage.
Context (E : upload_env).
Context (require_identity : list (string * string) -> prog world exn McpIdentity).

Definition show_image (headers : list (string * string)) (path : string) (caption : option string) :
    prog world exn ImageDelivery :=
  (if match caption with Some c => (String.length c <=? 500)%nat | None => true end
   then pret tt else praise ValidationError) ;;
  require_identity headers ;;
  let! local_path := resolve_trusted_local_path E path in
  match local_path with
  | None => praise (ToolError ("file_not_found_or_untrusted: " ++ path))
  | Some p => pret (mk_delivery p (path_name p) caption true)
  end.
End ShowImage.

(* ------------------------------------------------------------------ *)
(** * What the filter hides *)

(** Two dicts with the same keys in the same order, whose values are related key by key;
    two values that are such dicts or the same. *)
Definition fields_rel (R : string -> json -> json -> Prop) : dict -> dict -> Prop :=
  Forall2 (fun p q => p.1 = q.1 /\ R p.1 p.2 q.2).
Definition obj_rel (R : string -> json -> json -> Prop) (a b : json) : Prop :=
  match a, b with JObj o, JObj o' => fields_rel R o o' | _, _ => a = b end.
Definition arr_rel (R : json -> json -> Prop) (a b : json) : Prop :=
  match a, b with JArr l, JArr l' => Forall2 R l l' | _, _ => a = b end.

(** The relation [R] at the key [k], and [S] at the others. *)
Definition at_key (k : string) (R : json -> json -> Prop) (S : string -> json -> json -> Prop) :
    string -> json -> json -> Prop :=
  fun k' a b => if String.eqb k' k then R a b else S k' a b.
Definition same_value (_ : string) (a b : json) : Prop := a = b.

(** Events that differ in the values of sensitive headers, of the request's body and of
    sensitive data of breadcrumbs only. *)
Definition same_headers : json -> json -> Prop := obj_rel (fun k a b => sensitive k = true \/ a = b).
Definition same_request : json -> json -> Prop :=
  obj_rel (at_key "env" same_headers (at_key "data" (fun _ _ => True)
            (at_key "cookies" same_headers (at_key "headers" same_headers same_value)))).
Definition same_crumb : json -> json -> Prop := obj_rel (at_key "data" same_headers same_value).
Definition same_crumbs : json -> json -> Prop := obj_rel (at_key "values" (arr_rel same_crumb) same_value).
Definition same_public : dict -> dict -> Prop :=
  fields_rel (at_key "breadcrumbs" same_crumbs (at_key "request" same_request same_value)).

(** A change of related values that keeps them related and makes them equal. *)
Definition collapses (R : json -> json -> Prop) (f : json -> json) : Prop :=
  (forall a b, R a b -> f a = f b) /\ (forall a, R a (f a)).

Definition map_fields (F : string -> json -> json) (o : dict) : dict := map (fun kv => (kv.1, F kv.1 kv.2)) o.
Definition map_obj (F : string -> json -> json) (j : json) : json :=
  match j with JObj o => JObj (map_fields F o) | _ => j end.
Definition on_key (k : string) (f : json -> json) (k' : string) (v : json) : json :=
  if String.eqb k' k then f v else v.

Lemma update_field_map k f o : update_field k f o = map_fields (on_key k f) o.
Proof. apply map_ext. intros [k' v]. unfold on_key. simpl. by destruct (String.eqb k' k). Qed.

Lemma map_fields_fuse F G o : map_fields F (map_fields G o) = map_fields (fun k v => F k (G k v)) o.
Proof. unfold map_fields. rewrite map_map. done. Qed.

Lemma collapses_fields R F :
  (forall k, collapses (R k) (F k)) ->
  (forall o o', fields_rel R o o' -> map_fields F o = map_fields F o') /\
  (forall o, fields_rel R o (map_fields F o)).
Proof.
  intros H. split.
  - induction 1 as [|[k a] [k' b] o o' [Hk Hr] _ IH]; [done|]. simpl in *. subst k'.
    f_equal; [|exact IH]. f_equal. by apply H.
  - intros o. apply Forall2_fmap_r, Forall_Forall2_diag, Forall_forall. intros [k v] _. split; [done|]. apply H.
Qed.

Lemma collapses_obj R F : (forall k, collapses (R k) (F k)) -> collapses (obj_rel R) (map_obj F).
Proof.
  intros H. destruct (collapses_fields R F H) as [H1 H2]. split.
  - intros a b. destruct a, b; simpl; try (by intros [=]; subst). intros Hr. f_equal. by apply H1.
  - intros []; simpl; done || apply H2.
Qed.

Lemma collapses_arr R f :
  collapses R f -> collapses (arr_rel R) (fun j => match j with JArr l => JArr (map f l) | _ => j end).
Proof.
  intros [H1 H2]. split.
  - intros a b. destruct a, b; simpl; try (by intros [=]; subst). intros Hr. f_equal.
    induction Hr as [|x y l l' Hxy _ IH]; simpl; [done|]. by rewrite (H1 _ _ Hxy), IH.
  - intros []; simpl; try done. apply Forall2_fmap_r, Forall_Forall2_diag, Forall_forall. intros x _. apply H2.
Qed.

Lemma collapses_ext R f g : (forall a, f a = g a) -> collapses R g -> collapses R f.
Proof. intros H [H1 H2]. split; intros; rewrite !H; auto. Qed.

Lemma collapses_same : collapses eq (fun v => v).
Proof. by split. Qed.

Lemma headers_collapse : collapses same_headers scrub_headers.
Proof.
  apply (collapses_ext _ _ (map_obj (fun k v => if sensitive k then JStr REDACTED else v))).
  - intros []; try done. simpl. f_equal. apply map_ext. intros [k v]. simpl. by destruct (sensitive k).
  - apply collapses_obj. intros k. destruct (sensitive k); split; auto. by intros a b [|].
Qed.

Lemma data_collapse : collapses (fun _ _ => True) (fun _ => JStr REDACTED).
Proof. by split. Qed.

(** The relation and the change at a key, decided by its name. *)
Ltac collapse_at k l :=
  unfold at_key, on_key;
  match l with
  | ?x :: ?l' => destruct (String.eqb_spec k x) as [->|]; [|collapse_at k l']
  | [] => idtac
  end.

Definition request_fields (k : string) (v : json) : json :=
  on_key "env" scrub_headers k (on_key "data" (fun _ => JStr REDACTED) k
    (on_key "cookies" scrub_headers k (on_key "headers" scrub_headers k v))).

Lemma request_collapse : collapses same_request scrub_request.
Proof.
  apply (collapses_ext _ _ (map_obj request_fields)).
  - intros []; try done. simpl. rewrite !update_field_map, !map_fields_fuse. f_equal.
  - apply collapses_obj. intros k. unfold request_fields. collapse_at k ["env"; "data"; "cookies"; "headers"];
      [apply headers_collapse|apply data_collapse|apply headers_collapse..|apply collapses_same].
Qed.

Lemma crumb_collapse : collapses same_crumb scrub_crumb.
Proof.
  apply (collapses_ext _ _ (map_obj (on_key "data" scrub_headers))).
  - intros []; try done. simpl. by rewrite update_field_map.
  - apply collapses_obj. intros k. collapse_at k ["data"]; [apply headers_collapse|apply collapses_same].
Qed.

Lemma crumbs_collapse : collapses same_crumbs scrub_crumbs.
Proof.
  apply (collapses_ext _ _ (map_obj (on_key "values" scrub_values))).
  - intros []; try done. simpl. by rewrite update_field_map.
  - apply collapses_obj. intros k. collapse_at k ["values"]; [|apply collapses_same].
    by apply (collapses_arr same_crumb scrub_crumb), crumb_collapse.
Qed.

Definition event_fields (k : string) (v : json) : json :=
  on_key "breadcrumbs" scrub_crumbs k (on_key "request" scrub_request k v).

Lemma event_collapse k :
  collapses (at_key "breadcrumbs" same_crumbs (at_key "request" same_request same_value) k) (event_fields k).
Proof.
  unfold event_fields. collapse_at k ["breadcrumbs"; "request"];
    [apply crumbs_collapse|apply request_collapse|apply collapses_same].
Qed.

Lemma fields_assoc R k o o' :
  fields_rel R o o' ->
  match assoc k o, assoc k o' with Some a, Some b => R k a b | None, None => True | _, _ => False end.
Proof.
  induction 1 as [|[k1 a] [k2 b] o o' [Hk Hr] _ IH]; [done|]. simpl in *. subst k2.
  by destruct (String.eqb_spec k k1) as [->|].
Qed.

Lemma fields_null R k o o' : R k JNull JNull -> fields_rel R o o' -> R k (get_or_null k o) (get_or_null k o').
Proof.
  intros Hn H%(fields_assoc _ k). unfold get_or_null. by destruct (assoc k o), (assoc k o').
Qed.

Lemma same_message e e' : same_public e e' -> event_message e = event_message e'.
Proof.
  intros H. unfold event_message.
  pose proof (fields_null _ "logentry" _ _ eq_refl H) as H1. pose proof (fields_null _ "message" _ _ eq_refl H) as H2.
  unfold at_key, same_value in H1, H2. simpl in H1, H2. by rewrite H1, H2.
Qed.

(** The crumbs iterated over. *)
Definition crumb_values (event : dict) : json :=
  match get_or_null "breadcrumbs" event with JObj o => default (JArr []) (assoc "values" o) | _ => JArr [] end.

Lemma same_iterable e e' : same_public e e' -> iterable (crumb_values e) = iterable (crumb_values e').
Proof.
  intros H. pose proof (fields_null _ "breadcrumbs" _ _ eq_refl H) as Hb. unfold at_key in Hb. simpl in Hb.
  unfold crumb_values. unfold same_crumbs, obj_rel in Hb.
  destruct (get_or_null "breadcrumbs" e), (get_or_null "breadcrumbs" e'); try done.
  apply (fields_assoc _ "values") in Hb. unfold at_key in Hb. simpl in Hb.
  destruct (assoc "values" _) as [a|], (assoc "values" _) as [b|]; try done. simpl.
  destruct a, b; simpl in Hb; try done; try (by injection Hb; intros; subst).
  unfold iterable. by rewrite !orb_true_r.
Qed.

Lemma scrub_event_run e :
  scrub_event e =
    if existsb (fun p => str_contains p (event_message e)) DROP_LOG_PATTERNS then Ok None
    else if iterable (crumb_values e) then Ok (Some (map_fields event_fields e))
    else Raise (OtherException "TypeError" "object is not iterable").
Proof.
  unfold scrub_event. destruct (existsb _ _); [done|].
  rewrite !update_field_map, map_fields_fuse. fold event_fields. unfold crumb_values.
  assert (get_or_null "breadcrumbs" (map_fields (on_key "request" scrub_request) e) = get_or_null "breadcrumbs" e) as ->;
    [|done].
  unfold get_or_null. induction e as [|[k v] e IH]; [done|]. cbn [map_fields map assoc fst snd].
  destruct (String.eqb_spec "breadcrumbs" k) as [<-|]; [done|exact IH].
Qed.

(** C22: the error tracker learns nothing from the values the filter is to hide: two events
    that differ only in the values of sensitive headers (whatever their case), of the
    request's body and of sensitive data of breadcrumbs are sent as the same event, dropped
    both or refused both; what is sent differs from the event only there, and a filtered
    event is left as it is. *)
Theorem scrub_hides_secrets :
  (forall e e', same_public e e' -> scrub_event e = scrub_event e') /\
  (forall e e', scrub_event e = Ok (Some e') -> same_public e e' /\ scrub_event e' = Ok (Some e')).
Proof.
  destruct (collapses_fields _ _ event_collapse) as [H1 H2].
  assert (Hs : forall e e', same_public e e' -> scrub_event e = scrub_event e').
  { intros e e' H. by rewrite !scrub_event_run, (same_message _ _ H), (same_iterable _ _ H), (H1 _ _ H). }
  split; [exact Hs|]. intros e e' H. assert (Hp : same_public e e').
  { rewrite scrub_event_run in H. destruct (existsb _ _); [done|]. destruct (iterable _); [|done].
    injection H as <-. apply H2. }
  split; [done|]. by rewrite <- (Hs _ _ Hp).
Qed.

(** The filter's list holds names of headers: a session cookie passes it. *)
Example session_cookie_kept :
  scrub_event [("request", JObj [("cookies", JObj [("codex_jwt", JStr "secret")]);
                                 ("headers", JObj [("Cookie", JStr "codex_jwt=secret"); ("Accept", JStr "*")]);
                                 ("data", JStr "prompt")])] =
  Ok (Some [("request", JObj [("cookies", JObj [("codex_jwt", JStr "secret")]);
                              ("headers", JObj [("Cookie", JStr REDACTED); ("Accept", JStr "*")]);
                              ("data", JStr REDACTED)])]).
Proof. reflexivity. Qed.

(* ------------------------------------------------------------------ *)
(** * The tools *)

Section Tools.
Context (bracketed_ok : string -> bool) (status_text : Z -> string).
Context (pyd_int : json -> option Z) (pyd_bool : json -> option bool) (str_repr : json -> string).
Context (authz_decode : string -> string -> string -> Z -> option dict) (MCP_AUTHZ_SECRET : string).

Notation require_identity := (McpAuthz.require_identity authz_decode pyd_int MCP_AUTHZ_SECRET).
Notation require_admin := (require_admin require_identity).
Notation resolve_project_id b := (resolve_project_id bracketed_ok b status_text).
Notation list_errors b := (list_errors bracketed_ok b status_text pyd_int pyd_bool require_identity).
Notation get_error b := (get_error bracketed_ok b status_text str_repr require_identity).

(** The headers are those of an administrator, by the database. *)
Definition admin_call (headers : list (string * string)) (w : world) : Prop :=
  exists identity u, (require_identity headers w).1 = Ok identity /\ mi_role identity = Mcp_ADMIN /\
    In u (db_users (w_db w)) /\ u_id u = mi_user_id identity /\ u_role u = Role_ADMIN.

(** A process that did nothing but read. *)
Definition idle (s s' : estate) : Prop :=
  es_cache s' = es_cache s /\ es_client s' = es_client s /\ es_requests s' = es_requests s /\
  w_db (es_world s') = w_db (es_world s).

Lemma require_admin_run headers s :
  (admin_call headers (es_world s) /\ exists s', require_admin headers s = (Ok tt, s') /\ idle s s') \/
  (~ admin_call headers (es_world s) /\ exists e s', require_admin headers s = (Raise e, s') /\ idle s s').
Proof.
  unfold Errors.require_admin, pbind, on_es_world.
  destruct (require_identity_same authz_decode pyd_int MCP_AUTHZ_SECRET headers (es_world s)) as [Hd _].
  destruct (require_identity headers (es_world s)) as [[i|e] w] eqn:E; simpl in *.
  - case_bool_decide as Hr; [left|right].
    + split; [|by eexists]. destruct (admin_identity_in_db _ _ _ _ _ _ _ E Hr) as (u & ?). exists i, u. by rewrite E.
    + split; [|by eexists _, _]. intros (i' & u & H & Hi & _). rewrite E in H. injection H as <-. done.
  - right. split; [|eexists _, _; by split]. intros (i & u & H & _). by rewrite E in H.
Qed.

(** Only an administrator's thread reaches the error tracker: a call with other headers
    raises, makes no request, and leaves the database and the cache of projects as they are. *)
Theorem errors_for_admins bugsink headers (slug : option string) (limit : Z) (issue_id : string) s :
  ~ admin_call headers (es_world s) ->
  (exists e s', list_errors bugsink headers slug limit s = (Raise e, s') /\ idle s s') /\
  (exists e s', get_error bugsink headers issue_id s = (Raise e, s') /\ idle s s').
Proof.
  intros Hn. destruct (require_admin_run headers s) as [[H _]|(_ & e & s' & H & Hi)]; [done|].
  split.
  - unfold Errors.list_errors, pbind at 1. destruct (between_z 1 100 limit); [|by exists ValidationError, s].
    unfold pret at 1. unfold pbind at 1. rewrite H. by exists e, s'.
  - unfold Errors.get_error, pbind at 1. rewrite H. by exists e, s'.
Qed.

(** ** The cache of project ids *)

Lemma http_get_log bugsink path params s :
  let s' := (http_get bugsink status_text path params s).2 in
  es_cache s' = es_cache s /\ es_requests s' = (es_requests s ++ [(path, params)])%list.
Proof.
  unfold http_get, pbind, modify, gets. simpl. destruct (bugsink _) as [|status body]; [done|].
  destruct (negb _); [done|]. by destruct body.
Qed.

Lemma page_log bugsink url cursor params s :
  let s' := (page bracketed_ok bugsink status_text url cursor params s).2 in
  es_cache s' = es_cache s /\ exists q, es_requests s' = (es_requests s ++ [(url, q)])%list.
Proof.
  unfold page, pbind. set (q := if nonempty cursor then _ else _).
  pose proof (http_get_log bugsink url q s) as H. destruct (http_get _ _ _ _ s) as [[j|e] s']; simpl in *;
    destruct H as [H1 H2]; [|simpl; split; [done|by exists q]].
  destruct j; simpl; try (split; [done|by exists q]). unfold lift_result.
  destruct (extract_cursor _ _); (split; [done|by exists q]).
Qed.

(** A project's id is asked for once: a success is cached, costs at most one request, and
    whenever the cache has kept it the same id comes back without one; a failure leaves the
    cache as it is. *)
Theorem project_resolved_once bugsink slug s :
  match resolve_project_id bugsink slug s with
  | (Ok pid, s') =>
      es_cache s' = <[slug := pid]> (es_cache s) /\
      (List.length (es_requests s') <= S (List.length (es_requests s)))%nat /\
      (forall later s2, es_cache s' ⊆ es_cache s2 -> resolve_project_id later slug s2 = (Ok pid, s2))
  | (Raise _, s') => es_cache s' = es_cache s
  end.
Proof.
  assert (Hhit : forall b pid s2, es_cache s2 !! slug = Some pid -> resolve_project_id b slug s2 = (Ok pid, s2)).
  { intros b pid s2 H. unfold Errors.resolve_project_id, pbind, gets. by rewrite H. }
  destruct (es_cache s !! slug) as [pid|] eqn:Ec.
  { rewrite (Hhit _ pid) by done. rewrite insert_id by done. split_and!; [done|lia|].
    intros later s2 Hs. apply Hhit. by eapply lookup_weaken. }
  unfold Errors.resolve_project_id. unfold pbind at 1, gets at 1. rewrite Ec. unfold pbind at 1.
  pose proof (page_log bugsink (BASE ++ "/projects/") "" [] s) as Hp. unfold api_errors, except, list_projects.
  destruct (page _ _ _ _ _ _ s) as [[body|e] s1]; simpl in Hp; destruct Hp as [Hc [q Hq]].
  2: { by destruct (raised _ e). }
  destruct (negb _); [done|]. unfold pbind at 1.
  match goal with |- context [match ?m s1 with _ => _ end] => set (pick := m s1) end.
  assert (pick.2 = s1) as Hs1.
  { unfold pick. destruct slug as [slug|]; [|done]. unfold pbind, lift_result.
    destruct (match_project slug _) as [[p|]|e]; done. }
  destruct pick as [[project|e] s2]; simpl in Hs1; subst s2; [|done].
  unfold pbind at 1, lift_result at 1. destruct (subscript "id" project) as [id|]; [|done].
  unfold pbind at 1, lift_result at 1. destruct (int_of id) as [pid|]; [|done].
  simpl. rewrite Hc, Hq, length_app. split_and!; [done|simpl; lia|].
  intros later s2 Hs. apply Hhit. eapply lookup_weaken; [|exact Hs]. by rewrite lookup_insert_eq.
Qed.
(** ** What the agent sees of an event *)

Definition shown_detail : list string := ["id"; "timestamp"; "stacktrace_md"].
Definition shown_data : list string :=
  ["platform"; "level"; "logger"; "environment"; "release"; "transaction"; "tags"].

(** Dicts and events that agree on the fields shown. *)
Definition agree_on (keys : list string) (d d' : dict) : Prop := Forall (fun k => assoc k d = assoc k d') keys.
Definition data_agree (a b : json) : Prop :=
  match a, b with JObj o, JObj o' => agree_on shown_data o o' | _, _ => a = b end.
Definition detail_agree (a b : json) : Prop :=
  match a, b with
  | JObj d, JObj d' => agree_on shown_detail d d' /\ data_agree (get_or_null "data" d) (get_or_null "data" d')
  | _, _ => a = b
  end.
Definition answer_agree (a b : http_answer) : Prop :=
  match a, b with
  | HttpAnswer st (Some j), HttpAnswer st' (Some j') => st = st' /\ detail_agree j j'
  | _, _ => a = b
  end.

(** Trackers that answer alike but for the hidden fields of events. *)
Definition same_shown (b1 b2 : list request -> http_answer) : Prop := forall log path params,
  let log := (log ++ [(path, params)])%list in
  if startswith path (BASE ++ "/events/") && negb (String.eqb path (BASE ++ "/events/"))
  then answer_agree (b1 log) (b2 log) else b1 log = b2 log.

Lemma data_agree_refl a : data_agree a a.
Proof. destruct a; simpl; try done. by apply Forall_forall. Qed.

Lemma data_or_empty a b :
  data_agree a b -> data_agree (if truthy a then a else JObj []) (if truthy b then b else JObj []).
Proof.
  intros H. destruct a, b; simpl in H; try discriminate H; try apply data_agree_refl;
    try (rewrite H; apply data_agree_refl).
  destruct o, o0; apply H.
Qed.

Lemma event_detail_agree issue_id a b : detail_agree a b -> event_detail issue_id a = event_detail issue_id b.
Proof.
  destruct a, b; simpl; try (by intros; congruence). intros [Hd Hs%data_or_empty].
  unfold agree_on, shown_detail in Hd. repeat setoid_rewrite Forall_cons in Hd. destruct Hd as (H1 & H2 & H3 & _).
  unfold opt_field. rewrite H1, H2, H3. destruct (assoc "id" o0); [|done].
  destruct (if truthy (get_or_null "data" o) then _ else _), (if truthy (get_or_null "data" o0) then _ else _);
    simpl in Hs; try done.
  unfold agree_on, shown_data in Hs. repeat setoid_rewrite Forall_cons in Hs.
  destruct Hs as (G1 & G2 & G3 & G4 & G5 & G6 & G7 & _). by rewrite G1, G2, G3, G4, G5, G6, G7.
Qed.

Lemma event_path id : startswith (BASE ++ "/events/" ++ id ++ "/") (BASE ++ "/events/")
  && negb (String.eqb (BASE ++ "/events/" ++ id ++ "/") (BASE ++ "/events/")) = true.
Proof. unfold startswith. simpl. by destruct id. Qed.

Lemma http_get_run b path params s :
  http_get b status_text path params s =
  let s' := add_request (path, params) (set_es_open true s) in
  (match b (es_requests s ++ [(path, params)])%list with
   | HttpFailure msg => Raise (HTTPError msg)
   | HttpAnswer status body =>
       if negb (between_z 200 299 status) then Raise (HTTPError (status_text status))
       else match body with Some j => Ok j | None => Raise (OtherException "JSONDecodeError" "") end
   end, s').
Proof.
  unfold http_get, pbind, modify, gets. cbn -[between_z]. destruct (b _) as [|st []]; try done; by destruct (negb _).
Qed.

Lemma pbind_agree {A B} (m m' : eprog A) (k k' : A -> eprog B) s :
  m s = m' s -> (forall a s', k a s' = k' a s') -> pbind m k s = pbind m' k' s.
Proof. unfold pbind. intros -> H. destruct (m' s) as [[a|e] s']; [apply H|reflexivity]. Qed.

(** Of a stored event the agent sees the fields of [EventDetail] only: whatever two
    trackers hold in an event's other fields (the request's body and headers, breadcrumbs,
    local variables), the tool's answer is the same, and so are its requests. *)
Theorem get_error_hides b1 b2 headers issue_id s (H : same_shown b1 b2) :
  get_error b1 headers issue_id s = get_error b2 headers issue_id s.
Proof.
  apply pbind_agree; [reflexivity|intros [] s1]. apply pbind_agree.
  { unfold api_errors, except, list_events, page, pbind. rewrite !http_get_run.
    rewrite (H (es_requests s1) (BASE ++ "/events/") _ : b1 _ = b2 _). reflexivity. }
  intros events s2. cbv beta zeta. destruct (negb _); [reflexivity|].
  apply pbind_agree; [reflexivity|intros first s3]. apply pbind_agree; [reflexivity|intros event_id s4].
  unfold pbind, get_event. rewrite !http_get_run.
  pose proof (H (es_requests s4) (BASE ++ "/events/" ++ py_str str_repr event_id ++ "/") []) as Ha.
  cbv zeta in *. rewrite event_path in Ha. unfold answer_agree in Ha.
  destruct (b1 _) as [|st [j|]], (b2 _) as [|st' [j'|]]; try discriminate Ha; try (injection Ha; intros; subst; reflexivity).
  destruct Ha as [<- Ha]. destruct (negb _); [reflexivity|]. unfold lift_result.
  by rewrite (event_detail_agree _ _ _ Ha).
Qed.
End Tools.

Section ShowImageProperties.
Context (E : upload_env) (require_identity : list (string * string) -> prog world exn McpIdentity).

(** A delivered image is a file that exists under a trusted root, shown under its own name;
    only callers with an identity get one. *)
Lemma show_image_trusted headers path caption w d w' :
  show_image E require_identity headers path caption w = (Ok d, w') ->
  (exists i, (require_identity headers w).1 = Ok i) /\
  is_inside_trusted_root E (id_path d) = true /\ is_Some (w_files w' !! id_path d) /\
  id_filename d = path_name (id_path d) /\ id_caption d = caption.
Proof.
  unfold show_image, pbind at 1. destruct (match caption with Some c => _ | None => _ end); [|done].
  unfold pret at 1, pbind. destruct (require_identity headers w) as [[i|e] w1]; [|done].
  destruct (resolve_trusted_local_path E path w1) as [[[p|]|e] w2] eqn:Er; try done.
  apply trusted_path_inv in Er as (-> & Ht & Hf). intros [= <- <-]. split_and!; try done. by exists i.
Qed.
End ShowImageProperties.

(* ------------------------------------------------------------------ *)
(** * Witnesses *)

Definition demo_event (secret : string) : dict :=
  [("message", JStr "Boom");
   ("request", JObj [("headers", JObj [("Authorization", JStr secret); ("Accept", JStr "*")]); ("data", JStr secret)]);
   ("breadcrumbs", JObj [("values", JArr [JObj [("data", JObj [("X-API-Key", JStr secret)])]])])].

Lemma scrub_hides_secrets_witness :
  same_public (demo_event "a") (demo_event "b") /\
  scrub_event (demo_event "a") = scrub_event (demo_event "b").
Proof.
  assert (H : same_public (demo_event "a") (demo_event "b")).
  { unfold same_public, fields_rel, demo_event. repeat first [by left | by right | constructor]. }
  split; [exact H|]. exact (proj1 scrub_hides_secrets _ _ H).
Defined.

(** A tracker with one issue and one event, whose request body is [body]. *)
Definition demo_tracker (body : string) (log : list request) : http_answer :=
  let path := default "" (fst <$> last log) in
  if startswith path (BASE ++ "/events/") && negb (String.eqb path (BASE ++ "/events/"))
  then HttpAnswer 200 (Some (JObj [("id", JStr "e1"); ("stacktrace_md", JStr "Boom");
         ("data", JObj [("level", JStr "error"); ("request", JObj [("data", JStr body)])])]))
  else HttpAnswer 200 (Some (JObj [("results", JArr [JObj [("id", JStr "e1")]])])).

Definition demo_estate : estate :=
  mk_estate demo_users_world ∅ (new_client "http://bugsink:8000/" "token") [].
Definition demo_get_error (body issue : string) : result exn EventDetail * estate :=
  get_error (fun _ => true) (demo_tracker body) (fun _ => "") (fun _ => "")
    (McpAuthz.require_identity demo_jwt_decode demo_int "k") [("x-codex-authz", demo_token)] issue demo_estate.

Lemma get_error_hides_witness :
  same_shown (demo_tracker "prompt") (demo_tracker "password") /\
  demo_get_error "prompt" "i1" = demo_get_error "password" "i1".
Proof.
  assert (H : same_shown (demo_tracker "prompt") (demo_tracker "password")).
  { intros log path params. unfold demo_tracker. cbv zeta. rewrite last_snoc. cbn [fmap option_fmap option_map default fst id].
    destruct (startswith path _ && _); [|done]. split; [done|]. split; [|simpl]; by repeat constructor. }
  split; [exact H|].
  exact (get_error_hides (fun _ => true) (fun _ => "") demo_int (fun _ => "") demo_jwt_decode "k" _ _ _ _ _ H).
Defined.

Example error_shown :
  (demo_get_error "prompt" "i1").1 =
    Ok (mk_event_detail "i1" "e1" None "Boom" None (Some "error") None None None None None) /\
  es_requests (demo_get_error "prompt" "i1").2 =
    [(BASE ++ "/events/", [("issue", JStr "i1"); ("order", JStr "desc")]); (BASE ++ "/events/e1/", [])].
Proof. by vm_compute. Qed.

(** [get_event] is outside the handler of HTTP errors: its failure leaves the tool as it is. *)
Example late_failure_escapes :
  let tracker log := if (List.length log <? 2)%nat then demo_tracker "" log else HttpFailure "timeout" in
  (get_error (fun _ => true) tracker (fun _ => "") (fun _ => "")
     (McpAuthz.require_identity demo_jwt_decode demo_int "k") [("x-codex-authz", demo_token)] "i1" demo_estate).1 =
  Raise (HTTPError "timeout").
Proof. by vm_compute. Qed.

Example cursor_of_next :
  extract_cursor (fun _ => true) (JStr "http://b/api/?x=1&cursor=cD0x%3D&cursor=2#f") = Ok "cD0x=".
Proof. by vm_compute. Qed.
