(* ===== verification/Process.v ===== *)
(** The processes: the dispatch of RPC paths ([rpc/router.py]), the readiness check
    ([rpc/health.py], [healthcheck.py], [api/health.py]), the heartbeat of the worker
    processes and its check ([worker.py], [healthcheck_worker.py]), and the start and the
    shutdown of the server ([main.py]).

    Argon2, Fernet and Telegram are parameters as in [Auth], [Integrations] and [TgService]. *)
From S2P Require Import Prelude PyStr PyLib Json Models World TurnStore Lease Recovery Services Auth CodexRemote TgTurn TgHandlers TgPolling.
From S2P Require Import Uploads Integrations TgService Admin.

Open Scope Z_scope.
Open Scope string_scope.

(* ------------------------------------------------------------------ *)
(** * [rpc/router.py] *)

(** What the router does with a scope: nothing, hand it to every service, to one of them, or
    answer 404. *)
Inductive routed := Ignored | Broadcast (services : list string) | Routed (service : string) | NotFound.

(** [path.removeprefix(root) if root and path.startswith(root) else path]. *)
Definition relative_path (root path : string) : string :=
  if nonempty root && startswith path root then str_drop (String.length root) path else path.

(** [ConnectRouter.__call__]; a service is its [path]. *)
Definition connect_router (services : list string) (scope_type : string) (root_path : option string) (path : string) :
    routed :=
  if negb (existsb (String.eqb scope_type) ["http"; "lifespan"]) then Ignored
  else if String.eqb scope_type "lifespan" then Broadcast services
  else
    let relative := relative_path (default "" root_path) path in
    match List.find (fun s => String.eqb relative s || startswith relative (s ++ "/")) services with
    | Some s => Routed s
    | None => NotFound
    end.

(** The services of [connect_router] in [main.py], in its order. *)
Definition connect_services : list string :=
  map (fun name => "/codex.v1." ++ name)
    ["AuthService"; "AdminService"; "HealthService"; "UserService"; "ChatService"; "CodexService"; "MessageService";
     "EventService"; "NotesService"; "UploadsService"].

(* ------------------------------------------------------------------ *)
(** * Readiness *)

Inductive serving_status := SERVING | NOT_SERVING.

(** [with contextlib.suppress(...): ...; return v] before [return False]. *)
Definition suppressed (caught : exn -> bool) (r : result exn bool) : result exn bool :=
  match r with Raise e => if caught e then Ok false else Raise e | Ok b => Ok b end.

(** The probes, over what the statement, the ping and the handshake end with. *)
Definition probe_postgres (r : result exn unit) : result exn bool :=
  suppressed (fun e => is_sql_error e || is_oserror e) (match r with Ok _ => Ok true | Raise e => Raise e end).
Definition probe_redis (r : result exn bool) : result exn bool :=
  suppressed (fun e => match e with RedisError => true | _ => is_oserror e end) r.
Definition probe_codex_sidecar (r : result exn unit) : result exn bool :=
  suppressed (fun e => match e with WebSocketException _ => true | _ => is_oserror e end)
    (match r with Ok _ => Ok true | Raise e => Raise e end).

(** A task of the group: when it ends and with what, or never. *)
Inductive task (A : Type) := Ends (at_ : Z) (r : A) | Hangs.
Arguments Ends {A} at_ r.
Arguments Hangs {A}.

Definition task_map {A B} (f : A -> B) (t : task A) : task B :=
  match t with Ends at_ r => Ends at_ (f r) | Hangs => Hangs end.

(** Ends before the deadline, with an exception or a value. *)
Definition fails_by {A} (deadline : Z) (t : task (result exn A)) : bool :=
  match t with Ends at_ (Raise _) => Z.ltb at_ deadline | _ => false end.
Definition value_by {A} (deadline : Z) (t : task (result exn A)) : option A :=
  match t with Ends at_ (Ok a) => if Z.ltb at_ deadline then Some a else None | _ => None end.

(** [async with asyncio.timeout(deadline), asyncio.TaskGroup()]: a task that fails cancels
    the others and ends the group with an [ExceptionGroup]; the deadline cancels what runs. *)
Definition task_group {A} (deadline : Z) (tasks : list (task (result exn A))) : result exn (list A) :=
  if existsb (fails_by deadline) tasks then Raise (OtherException "ExceptionGroup" "")
  else match mapM (value_by deadline) tasks with Some l => Ok l | None => Raise TimeoutError end.

Definition HEALTH_PROBE_TIMEOUT : Z := seconds 3.

(** [HealthRPC.check]. *)
Definition health_check (pg : task (result exn unit)) (rd : task (result exn bool)) (cx : task (result exn unit)) :
    result exn serving_status :=
  let probes := [task_map probe_postgres pg; task_map probe_redis rd; task_map probe_codex_sidecar cx] in
  match task_group HEALTH_PROBE_TIMEOUT probes with
  | Ok results =>
      Ok (if negb (Nat.eqb (List.length results) 0) && forallb (fun b => b) results then SERVING else NOT_SERVING)
  | Raise TimeoutError => Ok NOT_SERVING
  | Raise e => Raise e
  end.

(** [healthcheck.main]: the exit code for the answer, or for the client's failure. *)
Definition client_error (e : exn) : bool :=
  match e with
  | ConnectError _ _ => true
  | _ => is_oserror e || bool_decide (is_Some (raised "HTTPError" e))
  end.
Definition healthcheck_main (answer : result exn serving_status) : result exn Z :=
  match answer with
  | Ok SERVING => Ok 0
  | Ok NOT_SERVING => Ok 1
  | Raise e => if client_error e then Ok 1 else Raise e
  end.

(** [GET /health]. *)
Definition health : list (string * json) := [("status", JStr "ok"); ("service", JStr "codex-api")].

(* ------------------------------------------------------------------ *)
(** * The heartbeat of the workers *)

Definition WORKER_HEARTBEAT_KEY_PREFIX : string := "worker:heartbeat:".
Definition WORKER_HEARTBEAT_INTERVAL_S : Z := 30.
Definition WORKER_HEARTBEAT_TTL_S : Z := 90.

(** Redis' patterns, of literal characters, [?] and [*]. *)
Fixpoint glob (pattern : string) : string -> bool :=
  match pattern with
  | EmptyString => fun s => String.eqb s ""
  | String c p =>
      if Ascii.eqb c "*" then
        fix star (s : string) : bool :=
          glob p s || match s with EmptyString => false | String _ s' => star s' end
      else fun s => match s with
                    | EmptyString => false
                    | String d s' => (Ascii.eqb c "?" || Ascii.eqb c d) && glob p s'
                    end
  end.

(** [SCAN MATCH pattern] to its end: the live keys, each once. *)
Definition redis_scan (pattern : string) (w : world) : list string * world :=
  (List.filter (fun k => bool_decide (is_Some (live w k)) && glob pattern k) (map fst (map_to_list (w_redis w))), w).

Section Worker.
(** The environment variable [HOSTNAME], or its default. *)
Context (HOSTNAME : string).

Definition worker_heartbeat_key (pid : Z) : string := WORKER_HEARTBEAT_KEY_PREFIX ++ HOSTNAME ++ ":" ++ str_of_Z pid.
Definition worker_heartbeat_pattern : string := WORKER_HEARTBEAT_KEY_PREFIX ++ HOSTNAME ++ ":*".

(** One turn of the loop's body before its sleep. *)
Definition heartbeat (pid : Z) : prog world exn unit :=
  redis_default tt (redis_op (set_ex (worker_heartbeat_key pid) "alive" WORKER_HEARTBEAT_TTL_S)).

(** [_worker_heartbeat_loop]: a sleep is what the rest of the world does meanwhile; the task
    is cancelled in the sleep after the last. *)
Fixpoint worker_heartbeat_loop (pid : Z) (sleeps : list (world -> world)) : prog world exn unit :=
  heartbeat pid ;;
  match sleeps with
  | [] => pret tt
  | sleep :: rest => modify sleep ;; worker_heartbeat_loop pid rest
  end.

(** A worker process with [_runtime]: no task, or one that runs ([false]) or is done. *)
Definition wworld : Type := world * option bool.

Definition start_worker_heartbeat : prog wworld exn unit :=
  let! task := gets snd in
  match task with
  | None | Some true => modify (fun s => (s.1, Some false))
  | Some false => pret tt
  end.

Definition on_worker {A} (m : prog world exn A) : prog wworld exn A :=
  fun s => let '(r, w) := m s.1 in (r, (w, s.2)).

Definition stop_worker_heartbeat (pid : Z) : prog wworld exn unit :=
  modify (fun s => (s.1, None)) ;;
  on_worker release_all_local ;;
  on_worker (redis_default tt (redis_op (redis_del (worker_heartbeat_key pid)))).

(** [healthcheck_worker._check]: the exit code. *)
Definition worker_check (EXPECTED_WORKERS : Z) : prog world exn Z :=
  redis_default 1
    (let! keys := redis_op (redis_scan worker_heartbeat_pattern) in
     pret (if Z.leb EXPECTED_WORKERS (Z.of_nat (List.length keys)) then 0 else 1)).
End Worker.

(* ------------------------------------------------------------------ *)
(** * The start and the shutdown of the server *)

Section Lifespan.
Context (ADMIN_EMAIL ADMIN_PASSWORD : string).
Context (argon_verify : string -> string -> bool) (argon_hash : string -> string).
Context (IE : integ_env) (SSH_VAULT_DIR : string).
Context (uuid : Z -> string) (getpid : Z -> Z) (wid : Z).
Context (bot_api : Z -> string -> bot_call -> result exn unit) (bot_of_token : string -> result exn Z).

(** [_sync_admin_account]. *)
Definition sync_admin_account : prog world exn unit :=
  let email := lower (strip ADMIN_EMAIL) in
  if negb (nonempty email) || negb (nonempty ADMIN_PASSWORD) then pret tt
  else
    let! admin := get_or_create_by_email email None in
    when (negb (verify_password argon_verify ADMIN_PASSWORD (u_password_hash admin)))
      (set_password_hash admin (argon_hash ADMIN_PASSWORD)) ;;
    when (negb (bool_decide (u_role admin = Role_ADMIN))) (update_user (u_id admin) (with_role Role_ADMIN)).

(** [_bootstrap_users]. *)
Definition bootstrap_users : prog world exn unit :=
  with_session (
    sync_admin_account ;;
    commit ;;
    let! rows := integ_list IE in
    match rows with
    | [] => ensure_key IE ;; pret tt
    | _ => pret tt
    end).

(** What [lifespan] does to the tables before it starts the bot. *)
Definition prepare_tables : prog world exn Z :=
  bootstrap_users ;;
  reconcile_stale_turns.

(** [lifespan] up to its [yield], the background tasks apart, and after it. *)
Definition lifespan_startup : prog sworld exn unit :=
  on_world prepare_tables ;;
  refresh_settings IE SSH_VAULT_DIR uuid getpid wid bot_api bot_of_token.
Definition lifespan_shutdown : prog sworld exn unit :=
  interrupt_active_turns ;;
  stop_service bot_api.
End Lifespan.

(* ------------------------------------------------------------------ *)
(** * The router *)

(** A path of one segment. *)
Definition one_segment (s : string) : Prop := exists name, s = String "/" name /\ free_of "/" name.

Lemma first_segment a b m m' :
  one_segment a -> one_segment b -> a ++ String "/" m = b ++ String "/" m' -> a = b.
Proof.
  intros (x & -> & Hx) (y & -> & Hy) H. injection H as H. f_equal.
  apply (f_equal (partition_char "/")) in H. rewrite !partition_char_app in H by done. by injection H.
Qed.

Lemma not_below a b m : one_segment a -> one_segment b -> a ++ String "/" m <> b.
Proof.
  intros (x & -> & Hx) (y & -> & Hy) H. injection H as <-. apply free_of_app in Hy as [_ Hy]. discriminate.
Qed.

Lemma relative_path_root root path : relative_path root (root ++ path) = path.
Proof.
  unfold relative_path. destruct (nonempty root) eqn:E; [by rewrite startswith_app, str_drop_app|].
  by apply nonempty_false in E as ->.
Qed.

(** The request is the service's or one of its methods'. *)
Definition serves (relative s : string) : Prop := relative = s \/ exists m, relative = s ++ String "/" m.

Lemma serves_iff relative s :
  String.eqb relative s || startswith relative (s ++ "/") = true <-> serves relative s.
Proof.
  rewrite orb_true_iff, String.eqb_eq, startswith_iff. unfold serves.
  split; (intros [H|[m H]]; [by left|right; exists m]); subst; by rewrite <- append_assoc.
Qed.

Lemma serves_unique relative a b : one_segment a -> one_segment b -> serves relative a -> serves relative b -> a = b.
Proof.
  intros Ha Hb [->|[m ->]] [H|[m' H]]; [done|by destruct (not_below b a m')|by destruct (not_below a b m)|].
  by eapply first_segment.
Qed.

(** Under any mount point a request reaches exactly the service of its first path segment:
    a path below a service's is handed to that service and no other, and 404 is answered
    exactly when no service has it. *)
Theorem router_exact services root relative (Hseg : Forall one_segment services) :
  match connect_router services "http" (Some root) (root ++ relative) with
  | Routed s => In s services /\ serves relative s /\ forall s', In s' services -> serves relative s' -> s' = s
  | NotFound => forall s, In s services -> ~ serves relative s
  | _ => False
  end.
Proof.
  unfold connect_router. cbn [existsb String.eqb default orb negb Ascii.eqb Bool.eqb].
  rewrite relative_path_root. destruct (List.find _ services) as [s|] eqn:E.
  - apply find_some in E as [Hin Hs%serves_iff]. split_and!; [done|done|]. rewrite Forall_forall in Hseg.
    intros s' Hin' Hs'. apply (serves_unique relative); try done; by apply Hseg, list_elem_of_In.
  - intros s Hin Hs%serves_iff. by rewrite (find_none _ _ E s Hin) in Hs.
Qed.

(* ------------------------------------------------------------------ *)
(** * Readiness *)

(** What a probe has found by the deadline. *)
Definition ready {A} (deadline : Z) (t : task (result exn A)) (a : A) : Prop :=
  exists at_, t = Ends at_ (Ok a) /\ at_ < deadline.

Lemma value_by_ready {A} deadline (t : task (result exn A)) a : value_by deadline t = Some a <-> ready deadline t a.
Proof.
  unfold ready. destruct t as [at_ [b|e]|]; simpl; [|by split; [|intros (? & [=] & _)]..].
  destruct (Z.ltb_spec at_ deadline); split; try done; [intros [= ->]; by eexists|by intros (? & [= <- ->] & _)|].
  intros (? & [= <- ->] & ?). lia.
Qed.

(** The server calls itself ready exactly when the three probes end before the deadline
    with success; an exception no probe expects leaves the handler, and everything else is
    NOT_SERVING. *)
Theorem health_exact pg rd cx :
  let probes := [task_map probe_postgres pg; task_map probe_redis rd; task_map probe_codex_sidecar cx] in
  match health_check pg rd cx with
  | Ok SERVING => Forall (fun t => ready HEALTH_PROBE_TIMEOUT t true) probes
  | Ok NOT_SERVING => ~ Forall (fun t => ready HEALTH_PROBE_TIMEOUT t true) probes
  | Raise _ => Exists (fun t => fails_by HEALTH_PROBE_TIMEOUT t = true) probes
  end.
Proof.
  intros probes. unfold health_check. fold probes. unfold task_group.
  destruct (existsb (fails_by HEALTH_PROBE_TIMEOUT) probes) eqn:Ef.
  { apply Exists_exists. apply existsb_exists in Ef as (t & Hin & Ht). exists t. by rewrite list_elem_of_In. }
  destruct (mapM (value_by HEALTH_PROBE_TIMEOUT) probes) as [l|] eqn:E.
  - apply mapM_Some in E. assert (List.length l = 3%nat) as Hl by (rewrite <- (Forall2_length _ _ _ E); done).
    rewrite Hl. simpl (negb _ && _). destruct (forallb _ l) eqn:Eb.
    + rewrite forallb_forall in Eb. clear Hl Ef. induction E as [|t b ts l Ht E IH]; constructor.
      * apply value_by_ready. rewrite Ht. f_equal. apply Eb. by left.
      * apply IH. intros x Hx. apply Eb. by right.
    + intros Hall. apply not_true_iff_false in Eb. apply Eb, forallb_forall. clear Hl Ef Eb.
      induction E as [|t b ts l Ht E IH]; [done|]. apply Forall_cons in Hall as [H1 H2].
      apply value_by_ready in H1. intros x [<-|Hx]; [congruence|by apply IH].
  - intros Hall. apply mapM_None in E. apply Exists_exists in E as (t & Hin & Ht).
    rewrite Forall_forall in Hall. apply Hall, value_by_ready in Hin. congruence.
Qed.

(** An unexpected exception of a probe is not caught. *)
Example bug_escapes :
  health_check (Ends 5 (Raise (OtherException "AttributeError" ""))) (Ends 5 (Ok true)) (Ends 5 (Ok tt)) =
  Raise (OtherException "ExceptionGroup" "").
Proof. reflexivity. Qed.

(* ------------------------------------------------------------------ *)
(** * The heartbeat *)

Section WorkerProperties.
Context (HOSTNAME : string).
Notation key := (worker_heartbeat_key HOSTNAME).

(** The command of the next beat reaches Redis. *)
Definition delivered (w : world) : bool := match w_faults w with LostRequest :: _ => false | _ => true end.

(** A sleep of at most the interval in which nobody else writes the worker's key. *)
Definition gentle (pid : Z) (sleep : world -> world) : Prop := forall w,
  w_now w <= w_now (sleep w) <= w_now w + seconds WORKER_HEARTBEAT_INTERVAL_S /\
  w_redis (sleep w) !! key pid = w_redis w !! key pid.

(** Along the run of the loop, no three commands in a row are lost; [missed] were before. *)
Fixpoint seldom_lost (pid : Z) (missed : Z) (sleeps : list (world -> world)) (w : world) : Prop :=
  let missed := if delivered w then 0 else missed + 1 in
  missed <= 2 /\
  match sleeps with
  | [] => True
  | sleep :: rest => seldom_lost pid missed rest (sleep (heartbeat HOSTNAME pid w).2)
  end.

(** The key outlasts the sleep after the beat by what [missed] beats have left. *)
Definition beats_left (pid missed : Z) (w : world) : Prop :=
  exists until, w_redis w !! key pid = Some (mk_entry (RStr "alive") (Some until)) /\
    w_now w + seconds (WORKER_HEARTBEAT_TTL_S - WORKER_HEARTBEAT_INTERVAL_S * missed) <= until.

Lemma heartbeat_run pid w :
  (heartbeat HOSTNAME pid w).1 = Ok tt /\ w_now (heartbeat HOSTNAME pid w).2 = w_now w /\
  w_redis (heartbeat HOSTNAME pid w).2 !! key pid =
    if delivered w then Some (mk_entry (RStr "alive") (Some (w_now w + seconds WORKER_HEARTBEAT_TTL_S)))
    else w_redis w !! key pid.
Proof.
  unfold heartbeat, redis_default, except, redis_op, delivered, set_ex, put_key.
  destruct (w_faults w) as [|[] fs]; cbn; rewrite ?lookup_insert_eq; done.
Qed.

Lemma beat_left pid missed w :
  (delivered w = false -> beats_left pid (missed + 1) w) ->
  beats_left pid (if delivered w then 0 else missed + 1) (heartbeat HOSTNAME pid w).2.
Proof.
  destruct (heartbeat_run pid w) as (_ & Hn & Hr). unfold beats_left in *. rewrite Hn, Hr.
  destruct (delivered w); [|auto]. intros _. eexists. split; [done|]. unfold seconds. lia.
Qed.

Lemma sleep_left pid missed sleep w :
  gentle pid sleep -> beats_left pid missed w -> beats_left pid (missed + 1) (sleep w).
Proof.
  intros Hg (u & Hu & Hle). destruct (Hg w) as [Ht Hr]. exists u. rewrite Hr. split; [done|].
  unfold seconds, WORKER_HEARTBEAT_INTERVAL_S in *. lia.
Qed.

Lemma loop_left pid sleeps : forall missed w,
  Forall (gentle pid) sleeps -> seldom_lost pid missed sleeps w ->
  (delivered w = false -> beats_left pid (missed + 1) w) ->
  (worker_heartbeat_loop HOSTNAME pid sleeps w).1 = Ok tt /\
  beats_left pid 2 (worker_heartbeat_loop HOSTNAME pid sleeps w).2.
Proof.
  induction sleeps as [|sleep rest IH]; intros missed w Hg Hl H; cbn [worker_heartbeat_loop seldom_lost] in *;
    unfold pbind; pose proof (beat_left pid missed w H) as Hb; destruct (heartbeat_run pid w) as (Hok & _);
    destruct (heartbeat HOSTNAME pid w) as [r w1]; cbn [fst snd] in *; subst r; destruct Hl as [Hm Hl].
  - cbn. split; [done|]. destruct Hb as (u & Hu & Hle). exists u. split; [done|].
    unfold seconds, WORKER_HEARTBEAT_INTERVAL_S in *. lia.
  - apply Forall_cons in Hg as [Hg1 Hg]. unfold modify. apply (IH _ _ Hg Hl).
    intros _. by apply sleep_left.
Qed.


(** ** The check *)

(** A host name without characters special to Redis' patterns. *)
Definition plain (s : string) : Prop := all_chars (fun c => negb (char_in c "*?[\")) s = true.

Lemma glob_star s : glob "*" s = true.
Proof. simpl. induction s as [|c s IH]; [done|]. simpl. exact IH. Qed.

Lemma glob_prefix p s : plain p -> glob (p ++ "*") s = startswith s p.
Proof.
  revert s. induction p as [|c p IH]; intros s Hp; [by rewrite glob_star; destruct s|].
  apply andb_true_iff in Hp as [Hc Hp]. cbn [String.append glob].
  assert (Ascii.eqb c "*" = false /\ Ascii.eqb c "?" = false) as [-> H2].
  { unfold char_in in Hc. cbn in Hc. destruct (Ascii.eqb c "*"); [done|]. by destruct (Ascii.eqb c "?"). }
  destruct s as [|d s]; [done|]. rewrite H2. unfold startswith in *. cbn.
  rewrite <- (IH s Hp). destruct (Ascii.eqb_spec c d) as [->|Hne]; [by destruct (ascii_dec d d)|by destruct (ascii_dec c d)].
Qed.

(** The live keys of the host's workers. *)
Definition worker_keys (w : world) : list string :=
  List.filter (fun k => bool_decide (is_Some (live w k)) && startswith k (WORKER_HEARTBEAT_KEY_PREFIX ++ HOSTNAME ++ ":"))
    (map fst (map_to_list (w_redis w))).

Lemma worker_keys_NoDup w : NoDup (worker_keys w).
Proof. eapply sublist_NoDup; [|apply filter_sublist]. apply (NoDup_fst_map_to_list (w_redis w)). Qed.

Lemma in_worker_keys w pid : In (key pid) (worker_keys w) <-> is_Some (live w (key pid)).
Proof.
  unfold worker_keys. rewrite filter_In, andb_true_iff, bool_decide_eq_true. split; [tauto|]. intros H. split_and!.
  - unfold live in H. destruct (w_redis w !! key pid) as [e|] eqn:E; [|by destruct H].
    apply in_map_iff. exists (key pid, e). split; [done|]. by apply list_elem_of_In, elem_of_map_to_list.
  - done.
  - apply startswith_iff. exists (str_of_Z pid). unfold worker_heartbeat_key. by rewrite !append_assoc.
Qed.

Lemma key_inj pid pid' : key pid = key pid' -> pid = pid'.
Proof. unfold worker_heartbeat_key. intros H. do 3 apply append_inj_l in H. by apply str_of_Z_inj. Qed.

Lemma check_run expected w :
  plain HOSTNAME -> (worker_check HOSTNAME expected w).1 =
    if delivered w && match w_faults w with LostReply :: _ => false | _ => true end
    then Ok (if Z.leb expected (Z.of_nat (List.length (worker_keys w))) then 0 else 1) else Ok 1.
Proof.
  intros Hp. assert (forall w', w_redis w' = w_redis w -> w_now w' = w_now w ->
    (redis_scan (worker_heartbeat_pattern HOSTNAME) w').1 = worker_keys w) as H.
  { intros w' Hr Hn. unfold redis_scan, worker_keys, live. rewrite Hr, Hn. cbn [fst].
    apply List.filter_ext. intros k. f_equal.
    assert (worker_heartbeat_pattern HOSTNAME = (WORKER_HEARTBEAT_KEY_PREFIX ++ HOSTNAME ++ ":") ++ "*") as ->
      by (unfold worker_heartbeat_pattern; by rewrite <- !append_assoc).
    apply glob_prefix. unfold plain in *. by rewrite !all_chars_app, Hp. }
  unfold worker_check, redis_default, except, pbind, redis_op, delivered.
  destruct (w_faults w) as [|[] fs]; cbn -[redis_scan]; try done.
  - rewrite <- (H w) by done. by destruct (redis_scan _ w).
  - rewrite <- (H (set_faults fs w)) by done. by destruct (redis_scan _ _).
Qed.

(** The check tells the healthy container: with Redis up it exits with 0 as soon as the keys of
    the expected number of worker processes are there, and with 1 when all that are there
    belong to fewer processes; when Redis cannot be asked it exits with 1. *)
Theorem worker_check_exact (expected : nat) pids w (Hplain : plain HOSTNAME) (Hpids : NoDup pids) :
  ((forall pid, In pid pids -> is_Some (live w (key pid))) -> (expected <= List.length pids)%nat -> w_faults w = [] ->
   (worker_check HOSTNAME (Z.of_nat expected) w).1 = Ok 0) /\
  ((forall k, In k (worker_keys w) -> In k (map key pids)) -> (List.length pids < expected)%nat ->
   (worker_check HOSTNAME (Z.of_nat expected) w).1 = Ok 1).
Proof.
  rewrite (check_run _ _ Hplain). split.
  - intros Hlive Hn Hf. unfold delivered. rewrite Hf. cbn [andb].
    assert (List.length (map key pids) <= List.length (worker_keys w))%nat as Hle.
    { apply NoDup_incl_length; [|by intros k (pid & <- & Hin)%in_map_iff; apply in_worker_keys, Hlive].
      apply NoDup_ListNoDup, NoDup_fmap_2; [intros ? ?; apply key_inj|done]. }
    rewrite length_map in Hle. destruct (Z.leb_spec (Z.of_nat expected) (Z.of_nat (List.length (worker_keys w)))); [done|lia].
  - intros Hin Hn. destruct (delivered w && _); [|done].
    assert (List.length (worker_keys w) <= List.length (map key pids))%nat as Hle.
    { apply NoDup_incl_length; [|exact Hin]. apply NoDup_ListNoDup, worker_keys_NoDup. }
    rewrite length_map in Hle. destruct (Z.leb_spec (Z.of_nat expected) (Z.of_nat (List.length (worker_keys w)))); [lia|done].
Qed.
End WorkerProperties.

(* ------------------------------------------------------------------ *)
(** * Start-up *)

Section LifespanProperties.
Context (ADMIN_EMAIL ADMIN_PASSWORD : string).
Context (argon_verify : string -> string -> bool) (argon_hash : string -> string) (IE : integ_env).
(** Argon2 accepts the password it hashed; a hash is not empty. *)
Context (Hargon : forall p, argon_verify p (argon_hash p) = true) (Hhash : forall p, nonempty (argon_hash p) = true).

Notation sync_admin_account := (sync_admin_account ADMIN_EMAIL ADMIN_PASSWORD argon_verify argon_hash).
Notation bootstrap_users := (bootstrap_users ADMIN_EMAIL ADMIN_PASSWORD argon_verify argon_hash IE).
Notation prepare_tables := (prepare_tables ADMIN_EMAIL ADMIN_PASSWORD argon_verify argon_hash IE).
Notation verifies u := (verify_password argon_verify ADMIN_PASSWORD (u_password_hash u)).

Definition admin_email : string := lower (strip ADMIN_EMAIL).

(** The account of the configuration works and is an administrator's. *)
Definition admin_ready (d : database) : Prop :=
  exists u, user_of admin_email d = Some u /\ u_role u = Role_ADMIN /\ verifies u = true.

(** What the synchronisation makes of the row it found. *)
Definition admin_row (u v : user) : user :=
  (if negb (bool_decide (u_role u = Role_ADMIN)) then with_role Role_ADMIN else fun v => v)
    ((if negb (verifies u) then with_password (argon_hash ADMIN_PASSWORD) else fun v => v) v).

Lemma admin_row_key u v : u_id (admin_row u v) = u_id v /\ u_email (admin_row u v) = u_email v.
Proof. unfold admin_row. by destruct (negb _), (negb _). Qed.

Lemma admin_row_ready u : u_role (admin_row u u) = Role_ADMIN /\ verifies (admin_row u u) = true.
Proof.
  unfold admin_row. destruct (verifies u) eqn:Ev; case_bool_decide; cbn; rewrite ?Ev; split; try done;
    unfold verify_password; by rewrite Hhash, Hargon.
Qed.

Lemma when_update (b : bool) (p : user -> bool) f w :
  when b (sql_write (fun d => set_users (update_where p f (db_users d)) d)) w =
  (Ok tt, set_tx (set_users (update_where p (if b then f else fun v => v) (db_users (w_tx w))) (w_tx w)) w).
Proof.
  destruct b; [done|]. unfold when, pret, update_where. do 2 f_equal.
  rewrite (map_ext _ (fun v => v)) by (intros v; by destruct (p v)). rewrite map_id.
  destruct w as [? []]; reflexivity.
Qed.

Context (Hemail : nonempty admin_email = true) (Hpassword : nonempty ADMIN_PASSWORD = true).

Lemma sync_admin_run w :
  w_tx w = w_db w ->
  let '(u, rows) := account_base w admin_email None in
  exists w', sync_admin_account w = (Ok tt, w') /\
    w_tx w' = set_users (update_where (fun v => Z.eqb (u_id v) (u_id u)) (admin_row u) rows) (w_db w) /\
    w_seq w' = w_seq w + 1 /\ w_files w' = w_files w /\ w_now w' = w_now w.
Proof.
  intros Htx. unfold account_base, Process.sync_admin_account. fold admin_email. rewrite Hemail, Hpassword. cbn [negb orb].
  unfold get_or_create_by_email, pbind, nextval. rewrite get_by_email_run. cbn [w_tx set_seq]. rewrite Htx.
  destruct (user_of admin_email (w_db w)) as [u|]; cbn [pret sql_write modify];
    unfold set_password_hash, update_user; rewrite when_update; rewrite when_update;
    (eexists; split; [reflexivity|]); cbn -[update_where]; rewrite ?Htx; cbn -[update_where];
    (rewrite update_twice by (intros v; by repeat case_match)); split_and!; done.
Qed.

(** The rows after the synchronisation. *)
Lemma admin_rows_ready w : users_ok w ->
  let '(u, rows) := account_base w admin_email None in
  let d := set_users (update_where (fun v => Z.eqb (u_id v) (u_id u)) (admin_row u) rows) (w_db w) in
  admin_ready d /\ forall other, other <> admin_email -> user_of other d = user_of other (w_db w).
Proof.
  intros Hok. pose proof (base_ok w admin_email None Hok) as Hb. destruct (account_base w admin_email None) as [u rows].
  destruct Hb as (Hnd & Hin & He & Hf & Ho).
  assert (Hrow : forall a, user_of a (set_users (update_where (fun v => Z.eqb (u_id v) (u_id u)) (admin_row u) rows) (w_db w)) =
    (fun v => if Z.eqb (u_id v) (u_id u) then admin_row u v else v) <$> List.find (with_email a) rows).
  { intros a. unfold user_of. cbn [db_users set_users]. apply find_keyed. intros v. unfold with_email.
    by destruct (admin_row_key u v) as [_ ->]. }
  split.
  - exists (admin_row u u). rewrite Hrow, Hf. cbn. rewrite Z.eqb_refl. split; [done|apply admin_row_ready].
  - intros other Hne. rewrite Hrow, <- Ho by done. destruct (List.find (with_email other) rows) as [v|] eqn:E; [|done].
    cbn. destruct (Z.eqb_spec (u_id v) (u_id u)) as [Hid|]; [|done]. apply find_some in E as [Hv Hve].
    rewrite (unique_key u_id u v rows Hnd Hin Hv Hid) in Hve. unfold with_email in Hve. apply bool_decide_eq_true in Hve.
    congruence.
Qed.
Lemma admin_kept w : admin_ready (w_db w) -> w_tx w = w_db w ->
  (sync_admin_account w).2 = set_seq (w_seq w + 1) w.
Proof.
  intros (u & Hu & Hr & Hv) Htx. unfold Process.sync_admin_account. fold admin_email. rewrite Hemail, Hpassword. cbn [negb orb].
  unfold get_or_create_by_email, pbind, nextval. rewrite get_by_email_run. cbn [w_tx set_seq]. rewrite Htx, Hu. cbn [pret].
  rewrite Hv, Hr. by rewrite bool_decide_true.
Qed.

(** What the session does after its commit: it reads, and may write the key file. *)
Lemma ensure_if_none w :
  let m := (let! rows := integ_list IE in match rows with [] => ensure_key IE ;; pret tt | _ => pret tt end) in
  w_db (m w).2 = w_db w /\ w_now (m w).2 = w_now w /\ w_seq w <= w_seq (m w).2.
Proof.
  unfold integ_list, sql, gets, pbind, ensure_key, nextval, Uploads.write_file, modify. cbn.
  destruct (sort_by _ _); [|cbn; split_and!; done || lia].
  destruct (w_files w !! _); [destruct (ie_fernet_ok _ _)|]; cbn; (split_and!; done || lia).
Qed.

Lemma bootstrap_run w :
  let '(u, rows) := account_base w admin_email None in
  let '(_, w') := bootstrap_users w in
  w_db w' = set_users (update_where (fun v => Z.eqb (u_id v) (u_id u)) (admin_row u) rows) (w_db w) /\
  w_now w' = w_now w /\ w_seq w <= w_seq w'.
Proof.
  set (w0 := set_hooks [] (set_tx (w_db w) w)).
  pose proof (sync_admin_run w0 eq_refl) as Hs. change (account_base w0 admin_email None) with (account_base w admin_email None) in Hs.
  destruct (account_base w admin_email None) as [u rows]. destruct Hs as (w1 & E1 & Htx & Hseq & _ & Hnow).
  unfold Process.bootstrap_users, with_session. fold w0. unfold pbind at 1. rewrite E1. unfold pbind at 1.
  pose proof (commit_ok w1) as Hc. pose proof (commit_sqlview w1) as Hv. destruct (commit w1) as [r w2]. simpl in Hc. subst r.
  unfold sqlview in Hv. injection Hv as V1 V2 _ V3 V4.
  destruct (ensure_if_none w2) as (D1 & D2 & D3). destruct ((let! rows0 := integ_list IE in _) w2) as [r w3]. cbn in *.
  rewrite D1, D2, V1, V4, Htx, Hnow. split_and!; [done|done|lia].
Qed.

Lemma reconcile_db w : TurnStore.world_wf w ->
  w_db (reconcile_stale_turns w).2 = set_turns (turns (reconcile_stale_turns w).2) (w_db w).
Proof.
  intros Hwf. unfold reconcile_stale_turns, with_session, pbind at 1 3.
  cbn [find_stale_active pbind now gets sql w_now set_hooks set_tx w_tx fst snd].
  set (w0 := set_hooks [] (set_tx (w_db w) w)). set (l := List.filter _ _).
  destruct (finalize_orphans_tx l w0) as (Hr & Htx & _ & Hs & Hn).
  unfold pbind. destruct (for_each l finalize_orphan w0) as [r w1]. simpl in *. subst r.
  pose proof (commit_ok w1) as Hc. pose proof (commit_sqlview w1) as Hv.
  destruct (commit w1) as [rc w2]. simpl in *. subst rc.
  unfold sqlview in Hv. injection Hv as H1 _ _ _ _. unfold turns. simpl. by rewrite H1, Htx.
Qed.

(** The tables the server starts with. Whatever the users table held, the account of
    the configured address is there, an administrator's, and accepts the configured password,
    and every other address has the account it had; when the start goes on, exactly the
    active turns without a heartbeat for two minutes have been failed, and when it does
    not, no turn has changed. *)
Theorem startup_prepares w (Husers : users_ok w) (Hturns : TurnStore.world_wf w) :
  let '(r, w') := prepare_tables w in
  let stale := stale_row (w_now w - STALE_THRESHOLD) in
  admin_ready (w_db w') /\
  (forall other, other <> admin_email -> user_of other (w_db w') = user_of other (w_db w)) /\
  match r with
  | Ok n => n = Z.of_nat (rowcount stale (turns w)) /\ turns w' = update_where stale (orphaned (w_now w)) (turns w)
  | Raise _ => turns w' = turns w
  end.
Proof.
  pose proof (admin_rows_ready w Husers) as Ha. pose proof (bootstrap_run w) as Hb.
  destruct (account_base w admin_email None) as [u rows]. destruct Ha as [Ha Ho].
  unfold Process.prepare_tables, pbind. destruct (bootstrap_users w) as [r w1]. destruct Hb as (Hdb & Hnow & Hseq).
  rewrite <- Hdb in Ha, Ho.
  assert (Ht : turns w1 = turns w) by (unfold turns; by rewrite Hdb).
  destruct r as [[]|e]; [|done].
  assert (Hwf : TurnStore.world_wf w1).
  { unfold TurnStore.world_wf. rewrite Ht. destruct Hturns as [H1 H2 H3 H4 H5]. split; try done.
    intros t Hin. specialize (H2 t Hin). lia. }
  pose proof (reconcile_db w1 Hwf) as Hd. destruct (reconcile_spec w1 Hwf) as (Hr & Hts & _).
  destruct (reconcile_stale_turns w1) as [r w2]. cbn [fst snd] in *. subst r. rewrite Hts, Hnow, Ht.
  unfold admin_ready, user_of in *. rewrite Hd. cbn [db_users set_turns]. by split_and!.
Qed.

(** A restart changes no account. *)
Lemma restart_keeps_users w : admin_ready (w_db w) -> db_users (w_db (bootstrap_users w).2) = db_users (w_db w).
Proof.
  intros Ha. unfold Process.bootstrap_users, with_session, pbind at 1. set (w0 := set_hooks [] (set_tx (w_db w) w)).
  pose proof (admin_kept w0 Ha eq_refl) as Hs. pose proof (sync_admin_run w0 eq_refl) as Hr.
  destruct (account_base w0 admin_email None) as [u rows]. destruct Hr as (w1 & E & _). rewrite E in *. cbn [snd] in Hs. subst w1.
  unfold pbind at 1. match goal with |- context [commit ?x] => pose proof (commit_ok x) as Hc; pose proof (commit_sqlview x) as Hv;
    destruct (commit x) as [r w2] end. simpl in Hc. subst r. unfold sqlview in Hv. injection Hv as V1 _ _ _ _.
  destruct (ensure_if_none w2) as (D1 & _). destruct ((let! rows0 := integ_list IE in _) w2) as [r w3]. cbn in *.
  by rewrite D1, V1.
Qed.
End LifespanProperties.

Section ShutdownProperties.
Context (bot_api : Z -> string -> bot_call -> result exn unit) (bot_of_token : string -> result exn Z).
Context (Hapi : forall n t c e, bot_api n t c = Raise e -> is_exception e = true).

(** The shutdown always ends, with the bot disconnected and off. *)
Lemma shutdown_disconnects s : service_ok bot_of_token s.2 ->
  exists s', lifespan_shutdown bot_api s = (Ok tt, s') /\ disconnected s'.2.
Proof.
  intros Hok. unfold lifespan_shutdown, stop_service, pbind. destruct (interrupt_run s) as (h' & n & ->).
  destruct (stop_connection_run bot_api bot_of_token Hapi (h', s.2) Hok) as (s' & E & Hd & _). by exists s'.
Qed.
End ShutdownProperties.

(* ------------------------------------------------------------------ *)
(** * Witnesses *)

Lemma connect_services_segments : Forall one_segment connect_services.
Proof.
  assert (forall s, one_segment (String "/" s) <-> free_of "/" s) as H.
  { intros s. split; [by intros (n & [= <-] & Hn)|]. intros Hs. by exists s. }
  unfold connect_services. cbn [map String.append]. repeat (constructor; [by apply H|]). constructor.
Qed.

Lemma router_exact_witness :
  Forall one_segment connect_services /\
  In "/codex.v1.ChatService" connect_services.
Proof.
  split; [exact connect_services_segments|].
  pose proof (router_exact connect_services "/api" "/codex.v1.ChatService/RunTurn" connect_services_segments) as H.
  vm_compute in H. apply H.
Defined.

Definition half_minute (w : world) : world := set_now (w_now w + 30000) w.
Definition flaky_world : world := set_faults [NoFault; LostRequest; LostRequest; LostReply; LostRequest] empty_world.


Lemma startup_prepares_witness :
  let w' := (prepare_tables " Admin@b.org" "pw" demo_verify demo_hash demo_hook_integ stale_world).2 in
  admin_ready " Admin@b.org" "pw" demo_verify (w_db w').
Proof.
  pose proof (startup_prepares " Admin@b.org" "pw" demo_verify demo_hash demo_hook_integ demo_argon (fun _ => eq_refl) eq_refl eq_refl
    stale_world) as H.
  destruct (prepare_tables _ _ _ _ _ _) as [r w']. apply H; [split; constructor|exact stale_world_wf].
Defined.
