(* ===== verification/Speech.v ===== *)
(** Speech: the backends that read answers aloud ([services/tts]) and write recordings down
    ([services/stt]), each behind an interface with its laws, and the voice reply that is
    attached to a message after its turn ([rpc/chat/tts.py]).

    The answers of Google and of Speechmatics, the language classifier and the decoding of
    malformed base64 are parameters. *)
From S2P Require Import Prelude PyStr PyLib Json Models Events World Translate TurnStore Services Integrations Uploads.
From Stdlib Require Import QArith.

Open Scope Z_scope.
Open Scope string_scope.

(* ------------------------------------------------------------------ *)
(** * [services/tts/base.py] *)

Definition SpeechSynthesisError (msg : string) : exn := OtherException "SpeechSynthesisError" msg.

(** [TTSBackend]: the text, the output path, the language and the encoding. *)
Class TTSBackend := {
  tts_enabled : bool;
  synthesize : string -> string -> option string -> option string -> prog world exn string
}.

(** Nothing but the file [path] may differ. *)
Definition only_writes (path : string) (w w' : world) : Prop :=
  exists files, w' = set_files files w /\ forall p, p <> path -> files !! p = w_files w !! p.

(** What a backend promises: it writes its output file only, and a success has written it. *)
Class TTSLaws (B : TTSBackend) := {
  tts_writes : forall text out lang enc w, only_writes out w (synthesize text out lang enc w).2;
  tts_output : forall text out lang enc w p w',
    synthesize text out lang enc w = (Ok p, w') -> p = out /\ is_Some (w_files w' !! out)
}.

#[export] Instance NullTTS : TTSBackend := {|
  tts_enabled := false;
  synthesize := fun _ _ _ _ => praise (SpeechSynthesisError "no TTS backend configured")
|}.

(* ------------------------------------------------------------------ *)
(** * [services/tts/lang.py] and [google.py] *)

Definition VOICE_BY_LANGUAGE : list (string * string) :=
  [("uk-UA", "uk-UA-Chirp3-HD-Kore"); ("ru-RU", "ru-RU-Chirp3-HD-Kore"); ("en-US", "en-US-Chirp3-HD-Kore")].
Definition LANGID_TO_BCP47 : list (string * string) := [("uk", "uk-UA"); ("ru", "ru-RU"); ("en", "en-US")].
Definition DEFAULT_LANGUAGE_CODE : string := "uk-UA".
(** The binary64 number [0.55]. *)
Definition CONFIDENCE_THRESHOLD : Q := 2476979795053773 # 4503599627370496.

Definition ENDPOINT : string := "https://texttospeech.googleapis.com/v1/text:synthesize".

(** A response: its status, its text, and the JSON of it if it is any. *)
Record tts_response := mk_tts_response { tr_status : Z; tr_text : string; tr_json : option json }.

Section Google.
(** [LanguageIdentifier.classify] and [resp] for a payload; [httpx] failures are [HTTPError]s. *)
Context (classify : string -> string * Q) (post : world -> dict -> result exn tts_response).
(** [str] of a float, a list or a dict, and [b64decode] of malformed text. *)
Context (str_repr : json -> string) (b64_malformed : string -> result exn string).
(** [settings.GOOGLE_TTS_API_KEY] and [GOOGLE_TTS_AUDIO_ENCODING]. *)
Context (API_KEY AUDIO_ENCODING : string).

Definition detect_language_code (text : string) : string :=
  let sample := str_take 500 (strip text) in
  if negb (nonempty sample) then DEFAULT_LANGUAGE_CODE
  else
    let '(lang, confidence) := classify sample in
    if negb (Qle_bool CONFIDENCE_THRESHOLD confidence) then DEFAULT_LANGUAGE_CODE
    else default DEFAULT_LANGUAGE_CODE (assoc lang LANGID_TO_BCP47).

Definition voice_for_language (language_code : string) : option string := assoc language_code VOICE_BY_LANGUAGE.

Definition google_enabled : bool := nonempty (strip API_KEY).

Definition tts_payload (text language encoding : string) : dict :=
  let voice := match voice_for_language language with
               | Some name => [("languageCode", JStr language); ("name", JStr name)]
               | None => [("languageCode", JStr language)]
               end in
  [("input", JObj [("text", JStr text)]); ("voice", JObj voice); ("audioConfig", JObj [("audioEncoding", JStr encoding)])].

(** [resp.json().get(..)]. *)
Definition json_get (k : string) (j : option json) : result exn json :=
  match j with
  | None => Raise (ValueError "not JSON")
  | Some (JObj o) => Ok (get_or_null k o)
  | Some _ => Raise (OtherException "AttributeError" "")
  end.

(** [_extract_error]. *)
Definition extract_error (resp : tts_response) : result exn string :=
  match tr_json resp with
  | None => Ok (str_take 300 (tr_text resp))
  | Some (JObj body) =>
      let err := get_or_null "error" body in
      match (if truthy err then err else JObj []) with
      | JObj o =>
          let message := get_or_null "message" o in
          Ok (str_take 300 (py_str str_repr (if truthy message then message else JObj body)))
      | _ => Raise (OtherException "AttributeError" "")
      end
  | Some _ => Raise (OtherException "AttributeError" "")
  end.

Definition b64_bytes (j : json) : result exn string :=
  match j with
  | JStr s => match b64decode s with Some data => Ok data | None => b64_malformed s end
  | _ => Raise (OtherException "TypeError" "")
  end.

(** [x or d] for texts. *)
Definition text_or (s d : string) : string := if nonempty s then s else d.

Definition google_synthesize (text out_path : string) (language_code audio_encoding : option string) :
    prog world exn string :=
  if negb google_enabled then praise (SpeechSynthesisError "GOOGLE_TTS_API_KEY is not set")
  else if negb (nonempty (strip text)) then praise (SpeechSynthesisError "text is empty")
  else
    let language := or_else language_code (detect_language_code text) in
    let encoding := text_or (strip (or_else audio_encoding (text_or (strip AUDIO_ENCODING) "MP3"))) "MP3" in
    let! w := get in
    match post w (tts_payload text language encoding) with
    | Raise e =>
        match raised "HTTPError" e with
        | Some msg => praise (SpeechSynthesisError ("Google TTS request failed: " ++ msg))
        | None => praise e
        end
    | Ok resp =>
        if negb (Z.eqb (tr_status resp) 200)
        then let! err := lift_result (extract_error resp) in
             praise (SpeechSynthesisError ("Google TTS HTTP " ++ str_of_Z (tr_status resp) ++ ": " ++ err))
        else
          let! audio := lift_result (json_get "audioContent" (tr_json resp)) in
          if negb (truthy audio) then praise (SpeechSynthesisError "Google TTS returned no audioContent")
          else
            let! data := lift_result (b64_bytes audio) in
            write_file out_path data ;;
            pret out_path
    end.

#[export] Instance GoogleTTS : TTSBackend := {|
  tts_enabled := google_enabled;
  synthesize := google_synthesize
|}.

(** [services/tts/default.py]. *)
Definition tts_build : TTSBackend := if google_enabled then GoogleTTS else NullTTS.
End Google.

(* ------------------------------------------------------------------ *)
(** * [rpc/chat/tts.py] *)

(** [NamedTemporaryFile(suffix=..., delete=False)]: a new empty file. *)
Definition temporary_file (suffix : string) : prog world exn string :=
  let! name := fresh_name in
  let path := "/tmp/tmp" ++ name ++ suffix in
  write_file path "" ;;
  pret path.

Section Attach.
Context (E : upload_env) (B : TTSBackend).

(** [db.refresh(upload)] and [upload.id]. *)
Definition refresh_upload_id (u : upload) : prog world exn Z :=
  let! found := sql (fun d => List.find (fun v => Z.eqb (ul_id v) (ul_id u)) (db_uploads d)) in
  match found with Some v => pret (ul_id v) | None => praise (OtherException "InvalidRequestError" "") end.

Definition store_reply (data : string) (chat_id user_id : Z) : prog world exn Z :=
  with_session (
    let! u := persist_chunks E user_id (Some chat_id) "reply.ogg" "audio/ogg" [data] in
    commit ;;
    refresh_upload_id u).

(** [_synthesize_reply] up to the deletion of its file: the audio, if any. *)
Definition spoken (text path : string) : prog world exn (option string) :=
  let! done := except (fun e => match raised "SpeechSynthesisError" e with
                                | Some _ => pret false
                                | None => praise e
                                end)
                 (synthesize text path None (Some "OGG_OPUS") ;; pret true) in
  if done : bool then let! data := read_file path in pret (Some data) else pret None.

Definition synthesize_reply (text : string) (chat_id user_id : Z) : prog world exn (option Z) :=
  if negb tts_enabled then pret None
  else
    let! path := temporary_file ".ogg" in
    let! data := finally (unlink path) (spoken text path) in
    match data with
    | None => pret None
    | Some data => let! id := store_reply data chat_id user_id in pret (Some id)
    end.

(** [meta\["audio_upload_ids"\]] with one more. *)
Definition audio_ids (meta : dict) : result exn (list json) :=
  match assoc "audio_upload_ids" meta with
  | None => Ok []
  | Some (JArr l) => Ok l
  | Some (JStr s) => Ok (map (fun c => JStr (String c "")) (list_ascii_of_string s))
  | Some (JObj o) => Ok (map (fun kv => JStr kv.1) o)
  | Some _ => Raise (OtherException "TypeError" "")
  end.

Definition with_meta (meta : dict) (m : message) : message :=
  mk_message (m_id m) (m_chat_id m) (m_role m) (m_text m) (Some meta).

Definition attach_upload (message_id upload_id : Z) : prog world exn unit :=
  with_session (
    let! found := sql (fun d => List.find (fun m => Z.eqb (m_id m) message_id) (db_messages d)) in
    match found with
    | None => pret tt
    | Some msg =>
        let meta := default [] (m_meta msg) in
        let! existing := lift_result (audio_ids meta) in
        let meta := assoc_set "audio_upload_ids" (JArr (existing ++ [JNum upload_id])%list) meta in
        sql_write (fun d => set_messages
          (update_where (fun m => Z.eqb (m_id m) message_id) (with_meta meta) (db_messages d)) d) ;;
        commit
    end).

Definition attach_failure (e : exn) : bool := is_oserror e || is_sql_error e || boto_error e.

Definition attach_tts_to_message (message_id : Z) (final_text : string) (chat_id user_id : Z) : prog world exn unit :=
  let! id := except (fun e => if attach_failure e then pret None else praise e)
               (synthesize_reply final_text chat_id user_id) in
  match id with
  | None => pret tt
  | Some id => attach_upload message_id id
  end.
End Attach.

(* ------------------------------------------------------------------ *)
(** * [services/stt] *)

Definition AudioTranscriptionError (msg : string) : exn := OtherException "AudioTranscriptionError" msg.

(** [STTBackend]: the bytes of the recording and its name. *)
Class STTBackend := {
  stt_enabled : bool;
  transcribe : string -> string -> prog world exn string
}.

#[export] Instance NullSTT : STTBackend := {| stt_enabled := false; transcribe := fun _ _ => pret "" |}.

(** What a job ends with: a value, a [JobError], or another exception; or the client does not
    come up. *)
Inductive job_outcome :=
| JobText (text : json)
| JobRejected (msg : string)
| JobRaises (e : exn)
| ClientFails (e : exn).

Definition NO_SPEECH_MARKERS : list string := ["no speech"; "language identification"].
Definition is_no_speech (msg : string) : bool := existsb (fun m => str_contains m (lower msg)) NO_SPEECH_MARKERS.

Section Speechmatics.
(** The job for a language, an operating point and the file's bytes; the SDK's operating points. *)
Context (job : world -> string -> string -> string -> job_outcome) (operating_point_ok : string -> bool).
Context (API_KEY LANGUAGE OPERATING_POINT : string).

(** The classes of the SDK in the second [except]. *)
Definition sdk_error (e : exn) : bool :=
  is_oserror e ||
  existsb (fun c => bool_decide (is_Some (raised c e)))
    ["BatchError"; "AuthenticationError"; "ConfigurationError"; "SpeechmaticsConnectionError";
     "SpeechmaticsTimeoutError"; "TransportError"].

Definition speechmatics_enabled : bool := nonempty (strip API_KEY).

(** The text of the job, [""] without speech. *)
Definition run_job (data : string) : prog world exn json :=
  let! w := get in
  match job w (text_or (strip LANGUAGE) "auto") (text_or (strip OPERATING_POINT) "enhanced") data with
  | JobText text => pret text
  | JobRejected msg => if is_no_speech msg then pret (JStr "")
                       else praise (AudioTranscriptionError ("Speechmatics job failed: " ++ msg))
  | JobRaises e => if sdk_error e then praise (AudioTranscriptionError ("Speechmatics transcription failed: " ++ exn_str e))
                   else praise e
  | ClientFails e => praise e
  end.

Definition speechmatics_transcribe (audio filename : string) : prog world exn string :=
  if negb speechmatics_enabled then pret ""
  else
    let! path := temporary_file (text_or (path_suffix filename) ".bin") in
    write_file path audio ;;
    if negb (operating_point_ok (text_or (strip OPERATING_POINT) "enhanced"))
    then praise (ValueError "is not a valid OperatingPoint")
    else
      let! text := finally (unlink path) (run_job audio) in
      pret (match text with JStr s => strip s | _ => "" end).

#[export] Instance SpeechmaticsSTT : STTBackend := {|
  stt_enabled := speechmatics_enabled;
  transcribe := speechmatics_transcribe
|}.

(** [services/stt/default.py]. *)
Definition stt_build : STTBackend := if speechmatics_enabled then SpeechmaticsSTT else NullSTT.
End Speechmatics.

(* ------------------------------------------------------------------ *)
(** * The laws of the backends *)

Lemma only_writes_none path w : only_writes path w w.
Proof. exists (w_files w). by destruct w. Qed.

Lemma only_writes_file path data w : only_writes path w (set_files (<[path := data]> (w_files w)) w).
Proof. eexists. split; [done|]. intros p Hp. by rewrite lookup_insert_ne. Qed.

#[export] Instance NullLaws : TTSLaws NullTTS.
Proof. split; [intros; apply only_writes_none|done]. Qed.

Section GoogleLaws.
Context (classify : string -> string * Q) (post : world -> dict -> result exn tts_response).
Context (str_repr : json -> string) (b64_malformed : string -> result exn string) (API_KEY AUDIO_ENCODING : string).
Notation google := (google_synthesize classify post str_repr b64_malformed API_KEY AUDIO_ENCODING).

(** Google's backend writes the output or nothing. *)
Lemma google_run text out lang enc w :
  match google text out lang enc w with
  | (Raise _, w') => w' = w
  | (Ok p, w') => p = out /\ exists data, w' = set_files (<[out := data]> (w_files w)) w
  end.
Proof.
  unfold google_synthesize. destruct (negb (google_enabled API_KEY)); [done|]. destruct (negb _); [done|].
  unfold pbind at 1, get. destruct (post w _) as [resp|e]; [|by destruct (raised _ e)].
  unfold pbind, lift_result, write_file, modify, praise, pret.
  destruct (negb _); [by destruct (extract_error _ _)|]. destruct (json_get _ _) as [audio|e]; [|done].
  destruct (negb _); [done|]. destruct (b64_bytes _ _) as [data|e]; [|done]. split; [done|by exists data].
Qed.

#[export] Instance GoogleLaws : TTSLaws (GoogleTTS classify post str_repr b64_malformed API_KEY AUDIO_ENCODING).
Proof.
  split; intros text out lang enc w; cbn [synthesize GoogleTTS]; pose proof (google_run text out lang enc w) as H;
    destruct (google text out lang enc w) as [[p|e] w1].
  - destruct H as (_ & data & ->). apply only_writes_file.
  - subst w1. apply only_writes_none.
  - intros p' w' [= <- <-]. destruct H as (-> & data & ->). split; [done|]. eexists. cbn. apply lookup_insert_eq.
  - done.
Qed.

#[export] Instance built_laws : TTSLaws (tts_build classify post str_repr b64_malformed API_KEY AUDIO_ENCODING).
Proof. unfold tts_build. destruct (google_enabled API_KEY); typeclasses eauto. Qed.
End GoogleLaws.

(* ------------------------------------------------------------------ *)
(** * The voice reply *)

(** No file has a temporary name that is still to be given out. *)
Definition tmp_free (suffix : string) (w : world) : Prop :=
  forall n, w_seq w <= n -> w_files w !! ("/tmp/tmp" ++ str_of_Z n ++ suffix) = None.

Lemma tmp_restored (path body : string) (files : gmap string string) :
  files !! path = None -> delete path (<[path := body]> files) = files.
Proof. intros H. by rewrite delete_insert_eq, delete_id. Qed.

Section AttachProperties.
Context (E : upload_env) (B : TTSBackend) {L : TTSLaws B}.

(** The upload is committed with its object, the temporary file gone, or nothing is. *)
Lemma store_reply_run data chat_id user_id w : tmp_free ".ogg" w ->
  let '(r, w') := store_reply E data chat_id user_id w in
  w_files w' = w_files w /\
  match r with
  | Ok id => exists u, ul_id u = id /\ ul_user_id u = user_id /\ ul_chat_id u = Some chat_id /\
      ul_size u = Z.of_nat (String.length data) /\ w_db w' = set_uploads (db_uploads (w_db w) ++ [u])%list (w_db w)
  | Raise e => attach_failure e = true /\ w_db w' = w_db w
  end.
Proof.
  intros Hfree. unfold store_reply, with_session. set (w0 := set_hooks [] (set_tx (w_db w) w)).
  unfold pbind at 1. pose proof (persist_chunks_spec E user_id (Some chat_id) "reply.ogg" "audio/ogg" [data] w0) as H.
  cbv zeta in H. change (path_suffix "reply.ogg") with ".ogg" in H. cbn [String.concat] in H.
  destruct (persist_chunks _ _ _ _ _ _ w0) as [[u|e] w1].
  - destruct H as (fs & _ & Hu & Hw1). unfold pbind at 1.
    pose proof (commit_ok w1) as Hc. pose proof (commit_files w1) as Hf. destruct (commit_effect w1) as (C1 & C2 & _).
    destruct (commit w1) as [r w2]. simpl in Hc, Hf, C1, C2. subst r.
    assert (Htx : w_tx w1 = set_uploads (db_uploads (w_db w) ++ [u])%list (w_db w)) by (rewrite Hw1; done).
    unfold refresh_upload_id, pbind, sql, gets. rewrite C2, Htx. cbn [db_uploads set_uploads].
    assert (exists v, List.find (fun v => Z.eqb (ul_id v) (ul_id u)) (db_uploads (w_db w) ++ [u])%list = Some v /\ ul_id v = ul_id u)
      as (v & -> & Hv).
    { destruct (List.find _ _) as [v|] eqn:Ev; [exists v; split; [done|]; by apply find_some in Ev as [_ Ev%Z.eqb_eq]|].
      pose proof (find_none _ _ Ev u) as Hn. cbn in Hn. rewrite Z.eqb_refl in Hn. discriminate Hn.
      apply in_or_app. right. by left. }
    cbn. rewrite Hf, C1, Htx. split; [|exists u; rewrite Hv, Hu; by split_and!].
    rewrite Hw1. cbn. apply tmp_restored. apply (Hfree (w_seq w)). lia.
  - destruct H as (He & w2 & (fs & objs & seq & Hw2 & _) & ->). cbn. split.
    + rewrite Hw2. cbn. apply tmp_restored. apply (Hfree (w_seq w)). lia.
    + split; [|by rewrite Hw2]. unfold persist_failure in He. unfold attach_failure, is_oserror, is_sql_error.
      destruct e; try done; rewrite ?He, ?orb_true_r; done.
Qed.

(** A backend's failure that is no [SpeechSynthesisError] goes on. *)
Definition unexpected (e : exn) : Prop := attach_failure e = false.

Lemma spoken_run text path w : w_files w !! path = Some "" ->
  let '(r, w') := spoken B text path w in only_writes path w w' /\ (forall e, r = Raise e -> raised "SpeechSynthesisError" e = None).
Proof.
  intros Hp. unfold spoken, pbind, except. pose proof (tts_writes text path None (Some "OGG_OPUS") w) as Hw.
  pose proof (tts_output text path None (Some "OGG_OPUS") w) as Ho.
  destruct (synthesize text path None (Some "OGG_OPUS") w) as [[p|e] w1]; cbn [snd] in Hw.
  - cbn. destruct (Ho p w1 eq_refl) as [_ [data Hd]]. unfold read_file. rewrite Hd. cbn. split; [done|by intros ?].
  - destruct (raised "SpeechSynthesisError" e) eqn:Ee; cbn; split; try done. by intros e' [= <-].
Qed.

Lemma tmp_free_step suffix w w' :
  tmp_free suffix w -> w_seq w <= w_seq w' -> w_files w' = w_files w -> tmp_free suffix w'.
Proof. intros H Hs Hf n Hn. rewrite Hf. apply H. lia. Qed.

Lemma temporary_file_run suffix w :
  temporary_file suffix w =
  let path := "/tmp/tmp" ++ str_of_Z (w_seq w) ++ suffix in
  (Ok path, set_files (<[path := ""]> (w_files w)) (set_seq (w_seq w + 1) w)).
Proof. done. Qed.

(** The reply's file is gone afterwards whatever happened. *)
Lemma synthesize_reply_run text chat_id user_id w : tmp_free ".ogg" w ->
  let '(r, w') := synthesize_reply E B text chat_id user_id w in
  w_files w' = w_files w /\
  match r with
  | Ok (Some id) => exists u, ul_id u = id /\ ul_user_id u = user_id /\ ul_chat_id u = Some chat_id /\
      w_db w' = set_uploads (db_uploads (w_db w) ++ [u])%list (w_db w)
  | _ => w_db w' = w_db w
  end.
Proof.
  intros Hfree. unfold synthesize_reply. destruct (negb tts_enabled); [done|].
  unfold pbind at 1. rewrite temporary_file_run. cbv zeta.
  set (path := "/tmp/tmp" ++ str_of_Z (w_seq w) ++ ".ogg").
  set (w1 := set_files (<[path := ""]> (w_files w)) (set_seq (w_seq w + 1) w)).
  assert (Hpath : w_files w !! path = None) by (apply (Hfree (w_seq w)); lia).
  pose proof (spoken_run text path w1) as Hs. unfold pbind at 1, finally.
  destruct (spoken B text path w1) as [r w2]. destruct Hs as [(files & -> & Hf) _]; [apply lookup_insert_eq|].
  assert (Hdel : delete path files = w_files w).
  { apply map_eq. intros q. destruct (decide (q = path)) as [->|Hq]; [by rewrite lookup_delete_eq, Hpath|].
    rewrite lookup_delete_ne, Hf by done. unfold w1. cbn. by rewrite lookup_insert_ne. }
  unfold unlink, modify. cbn [w_files set_files]. rewrite Hdel. destruct r as [[data|]|e]; [|done..].
  set (w3 := set_files (w_files w) (set_files files w1)).
  assert (Hfree3 : tmp_free ".ogg" w3) by (apply (tmp_free_step _ w); [done|cbn; lia|done]).
  pose proof (store_reply_run data chat_id user_id w3 Hfree3) as H.
  unfold pbind. destruct (store_reply E data chat_id user_id w3) as [[id|e] w4]; destruct H as [H1 H2]; (split; [exact H1|]).
  - destruct H2 as (u & ? & ? & ? & _ & Hd). by exists u.
  - apply H2.
Qed.

(** Attaching a voice reply changes nothing but the message it is for: whatever the
    backend, the bucket and the message's metadata do, no temporary file stays behind and
    either the tables are as before, or a new audio upload of the user in the chat is
    there, and then the message's metadata lists it after the ones it had or the messages
    are as before. *)
Theorem voice_attached message_id text chat_id user_id w (Hfree : tmp_free ".ogg" w) :
  let '(r, w') := attach_tts_to_message E B message_id text chat_id user_id w in
  w_files w' = w_files w /\
  (w_db w' = w_db w \/
   exists u, ul_user_id u = user_id /\ ul_chat_id u = Some chat_id /\
     let d := set_uploads (db_uploads (w_db w) ++ [u])%list (w_db w) in
     w_db w' = d \/
     exists m existing, List.find (fun m => Z.eqb (m_id m) message_id) (db_messages (w_db w)) = Some m /\
       audio_ids (default [] (m_meta m)) = Ok existing /\ r = Ok tt /\
       w_db w' = set_messages (update_where (fun m => Z.eqb (m_id m) message_id)
         (with_meta (assoc_set "audio_upload_ids" (JArr (existing ++ [JNum (ul_id u)])%list) (default [] (m_meta m))))
         (db_messages (w_db w))) d).
Proof.
  unfold attach_tts_to_message, pbind at 1, except. pose proof (synthesize_reply_run text chat_id user_id w Hfree) as H.
  destruct (synthesize_reply E B text chat_id user_id w) as [[[id|]|e] w1]; destruct H as [Hf H].
  2: { cbn. split; [done|by left]. }
  2: { destruct (attach_failure e); cbn; (split; [done|by left]). }
  destruct H as (u & <- & Hu & Hc & Hd). unfold attach_upload, with_session, pbind at 1, sql, gets.
  cbn [w_tx set_hooks set_tx]. rewrite Hd. cbn [db_messages set_uploads].
  destruct (List.find _ (db_messages (w_db w))) as [m|] eqn:Em.
  2: { cbn. split; [done|]. right. exists u. rewrite Hd. by split_and!; [..|left]. }
  unfold pbind at 1, lift_result. destruct (audio_ids (default [] (m_meta m))) as [existing|e] eqn:Ea.
  2: { cbn. split; [done|]. right. exists u. rewrite Hd. by split_and!; [..|left]. }
  unfold pbind, sql_write, modify. match goal with |- context [commit ?x] => set (w2 := x) end.
  pose proof (commit_ok w2) as Hok. pose proof (commit_files w2) as Hf2. destruct (commit_effect w2) as (C1 & _).
  destruct (commit w2) as [r w3]. simpl in Hok, Hf2, C1. subst r. cbn. split; [by rewrite Hf2|].
  right. exists u. split_and!; [done..|]. right. exists m, existing. split_and!; [done..|]. rewrite C1.
  reflexivity.
Qed.
End AttachProperties.

(* ------------------------------------------------------------------ *)
(** * Transcription *)

Section TranscribeProperties.
Context (job : world -> string -> string -> string -> job_outcome) (operating_point_ok : string -> bool).
Context (API_KEY LANGUAGE OPERATING_POINT : string).
Notation transcribe := (speechmatics_transcribe job operating_point_ok API_KEY LANGUAGE OPERATING_POINT).
Notation run_job := (run_job job LANGUAGE OPERATING_POINT).

Lemma run_job_run data w :
  let '(r, w') := run_job data w in
  w' = w /\ match job w (text_or (strip LANGUAGE) "auto") (text_or (strip OPERATING_POINT) "enhanced") data with
            | JobText text => r = Ok text
            | JobRejected msg => r = if is_no_speech msg then Ok (JStr "")
                                     else Raise (AudioTranscriptionError ("Speechmatics job failed: " ++ msg))
            | JobRaises e => exists e', r = Raise e' /\ (sdk_error e = true -> is_Some (raised "AudioTranscriptionError" e'))
            | ClientFails e => r = Raise e
            end.
Proof.
  unfold Speech.run_job, pbind, get. destruct (job w _ _ data) as [text|msg|e|e]; [done| | |done].
  - by destruct (is_no_speech msg).
  - destruct (sdk_error e); (split; [done|]); eexists; by split.
Qed.

(** A recording is written down without traces: with a valid operating point no
    temporary file stays behind, a text is the job's without the white space around it, a
    recording without speech gives none, and the SDK's errors become transcription errors. *)
Theorem transcribe_clean audio filename w
    (Hfree : tmp_free (text_or (path_suffix filename) ".bin") w)
    (Hpoint : operating_point_ok (text_or (strip OPERATING_POINT) "enhanced") = true) :
  let '(r, w') := transcribe audio filename w in
  w_files w' = w_files w /\ w_db w' = w_db w /\
  if speechmatics_enabled API_KEY then
    exists w1, match job w1 (text_or (strip LANGUAGE) "auto") (text_or (strip OPERATING_POINT) "enhanced") audio with
    | JobText (JStr s) => r = Ok (strip s)
    | JobText _ => r = Ok ""
    | JobRejected msg => if is_no_speech msg then r = Ok ""
                         else exists text, r = Raise (AudioTranscriptionError text)
    | JobRaises e => exists e', r = Raise e' /\ (sdk_error e = true -> is_Some (raised "AudioTranscriptionError" e'))
    | ClientFails e => r = Raise e
    end
  else r = Ok "".
Proof.
  unfold speechmatics_transcribe. destruct (speechmatics_enabled API_KEY); [|done]. cbn [negb].
  unfold pbind at 1. rewrite temporary_file_run. cbv zeta. set (suffix := text_or (path_suffix filename) ".bin") in *.
  set (path := "/tmp/tmp" ++ str_of_Z (w_seq w) ++ suffix). unfold pbind at 1, write_file, modify. cbn [w_files set_files set_seq].
  rewrite Hpoint. cbn [negb]. unfold pbind, finally. match goal with |- context [run_job audio ?x] => set (w1 := x) end.
  pose proof (run_job_run audio w1) as H. destruct (run_job audio w1) as [r w2]. destruct H as [-> H].
  assert (Hd : delete path (w_files w1) = w_files w).
  { unfold w1. cbn. rewrite insert_insert_eq. apply tmp_restored. apply (Hfree (w_seq w)). lia. }
  unfold unlink, modify. rewrite Hd. destruct r as [text|e]; cbn -[is_no_speech strip]; (split; [done|]; split; [done|]; exists w1);
    destruct (job w1 _ _ audio) as [j|msg|e'|e'].
  - injection H as ->. by destruct j.
  - destruct (is_no_speech msg); [by injection H as ->|done].
  - by destruct H as (? & ? & _).
  - done.
  - done.
  - destruct (is_no_speech msg); [done|]. injection H as ->. by eexists.
  - destruct H as (e1 & [= ->] & H). by exists e1.
  - by injection H as ->.
Qed.
End TranscribeProperties.

(* ------------------------------------------------------------------ *)
(** * Witnesses *)

(** An operating point the SDK does not know leaves the recording in the temporary directory. *)
Example bad_point_leaks :
  w_files (speechmatics_transcribe (fun _ _ _ _ => JobText (JStr "hi")) (fun p => String.eqb p "enhanced") "key" "" "best"
             "OggS" "voice.ogg" empty_world).2 = {[ "/tmp/tmp1.ogg" := "OggS" ]}.
Proof. vm_compute. reflexivity. Qed.

Lemma transcribe_clean_witness :
  (speechmatics_transcribe (fun _ _ _ _ => JobText (JStr " hi ")) (fun p => String.eqb p "enhanced") "key" "" "" "OggS"
     "voice.ogg" empty_world).1 = Ok "hi".
Proof.
  pose proof (transcribe_clean (fun _ _ _ _ => JobText (JStr " hi ")) (fun p => String.eqb p "enhanced") "key" "" "" "OggS"
    "voice.ogg" empty_world (fun n _ => eq_refl) eq_refl) as H.
  destruct (speechmatics_transcribe _ _ _ _ _ _ _ _) as [r w']. destruct H as (_ & _ & w1 & H). exact H.
Defined.

Definition demo_post (_ : world) (payload : dict) : result exn tts_response :=
  Ok (mk_tts_response 200 "" (Some (JObj [("audioContent", JStr "aGk=")]))).
Definition demo_backend : TTSBackend :=
  tts_build (fun _ => ("uk", 1%Q)) demo_post (fun _ => "") (fun _ => Raise (ValueError "Incorrect padding")) "key" "".
#[export] Instance demo_laws : TTSLaws demo_backend.
Proof. unfold demo_backend. typeclasses eauto. Qed.

Definition demo_message : message := mk_message 3 7 Msg_ASSISTANT "hi" (Some [("audio_upload_ids", JArr [JNum 1])]).
Definition demo_chat_world : world := set_db (set_messages [demo_message] empty_db) empty_world.

Lemma voice_attached_witness :
  let w' := (attach_tts_to_message demo_env demo_backend 3 "hi" 7 5 demo_chat_world).2 in
  w_files w' = ∅ /\
  map m_meta (db_messages (w_db w')) = [Some [("audio_upload_ids", JArr [JNum 1; JNum 4])]].
Proof.
  pose proof (voice_attached demo_env demo_backend 3 "hi" 7 5 demo_chat_world (fun n _ => eq_refl)) as H. cbv zeta.
  split; [|vm_compute; reflexivity]. destruct (attach_tts_to_message _ _ _ _ _ _ _) as [r w']. apply H.
Defined.
