(* ===== verification/SessionStore.v ===== *)
(** The store of chat sessions ([services/sessions/store.py]): concurrent tasks that open the
    session of a chat share one future per key. The state machine interleaves tasks at their
    awaits; what runs under the store's lock awaits nothing and is one step. *)
From S2P Require Import Prelude Models World TgProgress.

Open Scope Z_scope.
Open Scope list_scope.

(* ------------------------------------------------------------------ *)
(** * Store *)

Inductive future :=
| Pending
| Result (s : chat_session)
| Exception (e : exn)
| FutureCancelled.

(** [_sessions], with the futures it (and the tasks) refer to. *)
Record store := mk_store {
  sessions : gmap session_key nat;
  futures : list future
}.

Definition InvalidStateError : exn := OtherException "InvalidStateError" "invalid state".

Definition set_future (f : nat) (x : future) (st : store) : store :=
  mk_store (sessions st) (<[f := x]> (futures st)).

(** [future.exception()] of a done future; it raises on a cancelled one. *)
Definition exception_of (x : future) : result exn (option exn) :=
  match x with
  | Exception e => Ok (Some e)
  | FutureCancelled => Raise CancelledError
  | _ => Ok None
  end.

Definition new_slot (k : session_key) (st : store) : result exn (nat * bool) * store :=
  (Ok (List.length (futures st), true),
   mk_store (<[k := List.length (futures st)]> (sessions st)) (futures st ++ [Pending])).

(** [_claim_slot], with [_failed_attempt]. *)
Definition claim_slot (k : session_key) (st : store) : result exn (nat * bool) * store :=
  match sessions st !! k with
  | None => new_slot k st
  | Some f =>
      match futures st !! f with
      | Some x =>
          match exception_of x with
          | Raise e => (Raise e, st)
          | Ok (Some _) => new_slot k st
          | Ok None => (Ok (f, false), st)
          end
      | None => (Ok (f, false), st)
      end
  end.

(** [set_result] and [set_exception]. *)
Definition settle (f : nat) (x : future) (st : store) : result exn unit * store :=
  match futures st !! f with
  | Some Pending => (Ok tt, set_future f x st)
  | _ => (Raise InvalidStateError, st)
  end.

(** [_fulfil_slot], given how [_build_session] ends. *)
Definition fulfil_slot (f : nat) (k : session_key) (outcome : result exn chat_session) (st : store) :
    result exn unit * store :=
  match outcome with
  | Ok s => settle f (Result s) st
  | Raise e =>
      if is_exception e then
        let st := if bool_decide (sessions st !! k = Some f)
                  then mk_store (delete k (sessions st)) (futures st) else st in
        match settle f (Exception e) st with
        | (Ok _, st') => (Raise e, st')
        | (Raise e', st') => (Raise e', st')
        end
      else (Raise e, st)
  end.

(** [get]. *)
Definition get (k : session_key) (st : store) : result exn (option chat_session) :=
  match sessions st !! k with
  | None => Ok None
  | Some f =>
      match futures st !! f with
      | Some (Result s) => Ok (Some s)
      | Some FutureCancelled => Raise CancelledError
      | _ => Ok None
      end
  end.

(** The first half of [reset]: the slot is dropped; what follows awaits its future. *)
Definition drop_slot (k : session_key) (st : store) : option nat * store :=
  (sessions st !! k, mk_store (delete k (sessions st)) (futures st)).

(* ------------------------------------------------------------------ *)
(** * Tasks *)

(** A task in [_get_or_open]: building the session as the slot's creator, awaiting the
    future, or done. *)
Inductive task :=
| Opening (k : session_key) (f : nat)
| Waiting (f : nat)
| Done (r : result exn chat_session).

Record system := mk_system { sy_store : store; sy_tasks : gmap nat task }.

Definition no_tasks : system := mk_system (mk_store ∅ []) ∅.

(** What can happen next: a new task calls [_get_or_open], a creator's [_build_session]
    ends, a task finds its future done, a task that awaits a future is cancelled ([cancel]
    of a task cancels the future it awaits), a slot is reset. A creator that is cancelled
    is one whose [_build_session] ends with [CancelledError]. *)
Inductive label :=
| Call (t : nat) (k : session_key)
| Built (t : nat) (outcome : result exn chat_session)
| Wake (t : nat)
| CancelWaiter (t : nat)
| Reset (k : session_key).

Definition put_task (t : nat) (x : task) (st : store) (s : system) : system :=
  mk_system st (<[t := x]> (sy_tasks s)).

Definition step (l : label) (s : system) : option system :=
  match l with
  | Call t k =>
      match sy_tasks s !! t with
      | Some _ => None
      | None =>
          Some match claim_slot k (sy_store s) with
               | (Ok (f, true), st) => put_task t (Opening k f) st s
               | (Ok (f, false), st) => put_task t (Waiting f) st s
               | (Raise e, st) => put_task t (Done (Raise e)) st s
               end
      end
  | Built t outcome =>
      match sy_tasks s !! t with
      | Some (Opening k f) =>
          Some match fulfil_slot f k outcome (sy_store s) with
               | (Ok _, st) => put_task t (Waiting f) st s
               | (Raise e, st) => put_task t (Done (Raise e)) st s
               end
      | _ => None
      end
  | Wake t =>
      match sy_tasks s !! t with
      | Some (Waiting f) =>
          match futures (sy_store s) !! f with
          | Some (Result r) => Some (put_task t (Done (Ok r)) (sy_store s) s)
          | Some (Exception e) => Some (put_task t (Done (Raise e)) (sy_store s) s)
          | Some FutureCancelled => Some (put_task t (Done (Raise CancelledError)) (sy_store s) s)
          | _ => None
          end
      | _ => None
      end
  | CancelWaiter t =>
      match sy_tasks s !! t with
      | Some (Waiting f) =>
          match futures (sy_store s) !! f with
          | Some Pending => Some (put_task t (Done (Raise CancelledError)) (set_future f FutureCancelled (sy_store s)) s)
          | _ => None
          end
      | _ => None
      end
  | Reset k => Some (mk_system (drop_slot k (sy_store s)).2 (sy_tasks s))
  end.

Fixpoint run (ls : list label) (s : system) : option system :=
  match ls with
  | [] => Some s
  | l :: ls' => match step l s with Some s' => run ls' s' | None => None end
  end.

(** Steps that cancel no task. *)
Definition uncancelled (l : label) : bool :=
  match l with
  | CancelWaiter _ => false
  | Built _ (Raise e) => is_exception e
  | _ => true
  end.

(* ------------------------------------------------------------------ *)
(** * Lemmas *)

Definition usable (x : future) : Prop := match x with Pending | Result _ => True | _ => False end.

(** What holds as long as no task is cancelled. *)
Record sound (s : system) : Prop := {
  so_slot : forall k f, sessions (sy_store s) !! k = Some f -> exists x, futures (sy_store s) !! f = Some x /\ usable x;
  so_waiting : forall t f, sy_tasks s !! t = Some (Waiting f) -> is_Some (futures (sy_store s) !! f);
  so_pending : forall f, futures (sy_store s) !! f = Some Pending -> exists t k, sy_tasks s !! t = Some (Opening k f);
  so_opening : forall t k f, sy_tasks s !! t = Some (Opening k f) -> futures (sy_store s) !! f = Some Pending;
  so_creator : forall t t' k k' f, sy_tasks s !! t = Some (Opening k f) -> sy_tasks s !! t' = Some (Opening k' f) -> t = t';
  so_key : forall t k k' f, sy_tasks s !! t = Some (Opening k f) -> sessions (sy_store s) !! k' = Some f -> k' = k
}.

Lemma sound_start : sound no_tasks.
Proof.
  split; unfold no_tasks; simpl.
  - intros k f. by rewrite lookup_empty.
  - intros t f. by rewrite lookup_empty.
  - done.
  - intros t k f. by rewrite lookup_empty.
  - intros t t' k k' f. by rewrite lookup_empty.
  - intros t k k' f. by rewrite lookup_empty.
Qed.

(** A finished or waiting task changes nothing else. *)
Lemma sound_put_idle s t x :
  sound s -> (forall k f, sy_tasks s !! t <> Some (Opening k f)) ->
  match x with Opening _ _ => False | Waiting f => is_Some (futures (sy_store s) !! f) | Done _ => True end ->
  sound (put_task t x (sy_store s) s).
Proof.
  intros [H1 H2 H3 H4 H5 H6] Ht Hx. split; cbn [put_task sy_store sy_tasks]; [exact H1| | | | |].
  - intros t' f. destruct (decide (t' = t)) as [->|Hne];
      [rewrite lookup_insert_eq; intros [= ->]; exact Hx|rewrite lookup_insert_ne by done; apply H2].
  - intros f Hf. destruct (H3 f Hf) as (t' & k & Ht'). exists t', k.
    rewrite lookup_insert_ne; [done|]. intros ->. by apply (Ht k f).
  - intros t' k f. destruct (decide (t' = t)) as [->|Hne];
      [rewrite lookup_insert_eq; by intros [= ->]|rewrite lookup_insert_ne by done; apply H4].
  - intros t1 t2 k1 k2 f. destruct (decide (t1 = t)) as [->|Hn1]; [rewrite lookup_insert_eq; by intros [= ->]|].
    destruct (decide (t2 = t)) as [->|Hn2]; [rewrite (lookup_insert_eq _ t); by intros ? [= ->]|].
    rewrite !lookup_insert_ne by done. apply H5.
  - intros t' k k' f. destruct (decide (t' = t)) as [->|Hne]; [rewrite lookup_insert_eq; by intros [= ->]|].
    rewrite lookup_insert_ne by done. apply H6.
Qed.

(** A new slot with its creator. *)
Lemma sound_new_slot s t k :
  sound s -> sy_tasks s !! t = None ->
  sound (put_task t (Opening k (List.length (futures (sy_store s)))) (new_slot k (sy_store s)).2 s).
Proof.
  intros [H1 H2 H3 H4 H5 H6] Ht. set (n := List.length _).
  assert (Hold : forall f x, futures (sy_store s) !! f = Some x -> (futures (sy_store s) ++ [Pending]) !! f = Some x)
    by (intros f x Hf; by apply lookup_app_l_Some).
  assert (Hn : (futures (sy_store s) ++ [Pending]) !! n = Some Pending) by by apply list_lookup_middle.
  assert (Hinv : forall f x, (futures (sy_store s) ++ [Pending]) !! f = Some x -> f = n \/ futures (sy_store s) !! f = Some x).
  { intros f x [Hf|[Hge Hf]]%lookup_app_Some; [by right|]. left. apply list_lookup_singleton_Some in Hf as [Hf _].
    unfold n. lia. }
  assert (Hfresh : forall t' k', sy_tasks s !! t' <> Some (Opening k' n)).
  { intros t' k' Hop. apply H4 in Hop. apply lookup_lt_Some in Hop. unfold n in Hop. lia. }
  split; cbn [put_task new_slot snd sy_store sy_tasks sessions futures]; fold n.
  - intros k' f. destruct (decide (k' = k)) as [->|Hne].
    + rewrite lookup_insert_eq. intros [= <-]. by exists Pending.
    + rewrite lookup_insert_ne by done. intros Hk. destruct (H1 k' f Hk) as (x & Hx & Hu). eauto.
  - intros t' f. destruct (decide (t' = t)) as [->|Hne]; [rewrite lookup_insert_eq; by intros [=]|].
    rewrite lookup_insert_ne by done. intros Hw. destruct (H2 t' f Hw) as [x Hx]. rewrite (Hold f x Hx). by eexists.
  - intros f [->|Hf]%Hinv; [exists t, k; by rewrite lookup_insert_eq|].
    destruct (H3 f Hf) as (t' & k' & Ht'). exists t', k'. rewrite lookup_insert_ne; [done|]. congruence.
  - intros t' k' f. destruct (decide (t' = t)) as [->|Hne].
    + rewrite lookup_insert_eq. intros [= <- <-]. exact Hn.
    + rewrite lookup_insert_ne by done. intros Hop. by apply Hold, (H4 t' k').
  - intros t1 t2 k1 k2 f. destruct (decide (t1 = t)) as [->|Hn1]; destruct (decide (t2 = t)) as [->|Hn2]; try done.
    + rewrite lookup_insert_eq, lookup_insert_ne by done. intros [= <- <-] Hop. by destruct (Hfresh t2 k2).
    + rewrite lookup_insert_eq, lookup_insert_ne by done. intros Hop [= <- <-]. by destruct (Hfresh t1 k1).
    + rewrite !lookup_insert_ne by done. apply H5.
  - assert (Hold_slot : forall k' f, sessions (sy_store s) !! k' = Some f -> (f < n)%nat).
    { intros k' f Hk'. destruct (H1 k' f Hk') as (x & Hx & _). by apply lookup_lt_Some in Hx. }
    intros t' k1 k2 f. destruct (decide (t' = t)) as [->|Hne]; [rewrite lookup_insert_eq; intros [= <- <-]|
      rewrite lookup_insert_ne by done; intros Hop]; (destruct (decide (k2 = k)) as [->|Hk2];
      [rewrite lookup_insert_eq|rewrite lookup_insert_ne by done]); intros Hk; try done.
    + apply Hold_slot in Hk. lia.
    + injection Hk as <-. by destruct (Hfresh t' k1).
    + by eapply H6.
Qed.

(** The creator settles its future. *)
Lemma sound_settle s t k f x y st :
  sound s -> sy_tasks s !! t = Some (Opening k f) -> x <> Pending ->
  sessions st ⊆ sessions (sy_store s) -> futures st = futures (sy_store s) ->
  (usable x \/ forall k', sessions st !! k' <> Some f) ->
  match y with Opening _ _ => False | Waiting f' => f' = f | Done _ => True end ->
  sound (put_task t y (set_future f x st) s).
Proof.
  intros [H1 H2 H3 H4 H5 H6] Ht Hx Hsub Hfut Huse Hy. pose proof (H4 t k f Ht) as Hf.
  assert (Hlt : (f < List.length (futures (sy_store s)))%nat) by by eapply lookup_lt_Some.
  assert (Hat : <[f := x]> (futures (sy_store s)) !! f = Some x) by by apply list_lookup_insert_eq.
  assert (Hne : forall f', f' <> f -> <[f := x]> (futures (sy_store s)) !! f' = futures (sy_store s) !! f')
    by (intros f' Hd; by apply list_lookup_insert_ne).
  split; cbn [put_task set_future sy_store sy_tasks sessions futures]; rewrite ?Hfut.
  - intros k' f' Hk'. destruct (decide (f' = f)) as [->|Hd].
    + exists x. split; [exact Hat|]. destruct Huse as [Hu|Hu]; [exact Hu|]. by destruct (Hu k').
    + rewrite Hne by done. apply (H1 k' f'). by eapply lookup_weaken.
  - intros t' f'. destruct (decide (f' = f)) as [->|Hd]; [by eexists|]. rewrite Hne by done.
    destruct (decide (t' = t)) as [->|Ht']; [rewrite lookup_insert_eq; intros [= ->]; congruence|].
    rewrite lookup_insert_ne by done. apply H2.
  - intros f'. destruct (decide (f' = f)) as [->|Hd]; [rewrite Hat; congruence|]. rewrite Hne by done.
    intros Hp. destruct (H3 f' Hp) as (t' & k' & Ht'). exists t', k'. rewrite lookup_insert_ne; [done|]. congruence.
  - intros t' k' f'. destruct (decide (t' = t)) as [->|Ht']; [rewrite lookup_insert_eq; by intros [= ->]|].
    rewrite lookup_insert_ne by done. intros Hop. rewrite Hne; [by eapply H4|].
    intros ->. by apply Ht', (H5 t' t k' k f).
  - intros t1 t2 k1 k2 f'. destruct (decide (t1 = t)) as [->|Hn1]; [rewrite lookup_insert_eq; by intros [= ->]|].
    destruct (decide (t2 = t)) as [->|Hn2]; [rewrite (lookup_insert_eq _ t); by intros ? [= ->]|].
    rewrite !lookup_insert_ne by done. apply H5.
  - intros t' k1 k2 f'. destruct (decide (t' = t)) as [->|Ht']; [rewrite lookup_insert_eq; by intros [= ->]|].
    rewrite lookup_insert_ne by done. intros Hop Hk2. apply (H6 t' k1 k2 f' Hop). by eapply lookup_weaken.
Qed.

Lemma sound_step l s s' : uncancelled l = true -> sound s -> step l s = Some s' -> sound s'.
Proof.
  intros Hl Hs. pose proof Hs as [H1 H2 H3 H4 H5 H6]. destruct l as [t k|t outcome|t|t|k]; cbn [step].
  - destruct (sy_tasks s !! t) eqn:Et; [done|]. intros [= <-]. unfold claim_slot.
    assert (Hidle : forall k' f, sy_tasks s !! t <> Some (Opening k' f)) by congruence.
    destruct (sessions (sy_store s) !! k) as [f|] eqn:Ek; [|by apply sound_new_slot].
    destruct (H1 k f Ek) as (x & Hx & Hu). rewrite Hx.
    destruct x; try done; cbn [exception_of]; by apply sound_put_idle.
  - destruct (sy_tasks s !! t) as [[k f|f|r]|] eqn:Et; try done. intros [= <-].
    pose proof (H4 t k f Et) as Hf. unfold fulfil_slot, settle. destruct outcome as [r|e].
    + rewrite Hf. apply (sound_settle s t k f (Result r)); try done. by left.
    + cbn [uncancelled] in Hl. rewrite Hl.
      set (st := if bool_decide _ then _ else _).
      assert (Hst : futures st = futures (sy_store s)) by (unfold st; by destruct (bool_decide _)).
      rewrite Hst, Hf. apply (sound_settle s t k f (Exception e)); try done.
      * unfold st. destruct (bool_decide _); [apply delete_subseteq|done].
      * right. intros k' Hk'. unfold st in Hk'. destruct (decide (sessions (sy_store s) !! k = Some f)) as [Hd|Hd].
        -- rewrite bool_decide_eq_true_2 in Hk' by done. cbn [sessions] in Hk'.
           apply lookup_delete_Some in Hk' as [Hne Hk']. by rewrite (H6 t k k' f Et Hk') in Hne.
        -- rewrite bool_decide_eq_false_2 in Hk' by done. by rewrite (H6 t k k' f Et Hk') in Hk'.
  - destruct (sy_tasks s !! t) as [[k f|f|r]|] eqn:Et; try done.
    destruct (futures (sy_store s) !! f) as [[]|]; try done; intros [= <-]; apply sound_put_idle; try done; congruence.
  - done.
  - intros [= <-]. split; cbn [sy_store drop_slot snd sessions futures]; try done.
    + intros k' f [_ Hk']%lookup_delete_Some. by apply (H1 k' f).
    + intros t k1 k2 f Hop [_ Hk']%lookup_delete_Some. by eapply H6.
Qed.

Lemma sound_run ls s s' : forallb uncancelled ls = true -> sound s -> run ls s = Some s' -> sound s'.
Proof.
  revert s. induction ls as [|l ls IH]; simpl; intros s Hu Hs; [by intros [= <-]|].
  apply andb_true_iff in Hu as [Hl Hu]. destruct (step l s) as [s1|] eqn:Es; [|done].
  by apply IH, (sound_step l s).
Qed.

(** A key is blocked at a future that nobody will resolve: it was cancelled or is still
    pending, and its creator is gone. *)
Definition blocked (k : session_key) (f : nat) (s : system) : Prop :=
  sessions (sy_store s) !! k = Some f /\
  (futures (sy_store s) !! f = Some FutureCancelled \/ futures (sy_store s) !! f = Some Pending) /\
  (forall t k', sy_tasks s !! t <> Some (Opening k' f)).

(** A step that leaves the slot and its future alone. *)
Lemma blocked_put k f s st t x :
  blocked k f s -> sessions st !! k = Some f -> futures st !! f = futures (sy_store s) !! f ->
  (forall k', x <> Opening k' f) -> blocked k f (put_task t x st s).
Proof.
  intros (H1 & H2 & H3) Hk Hf Hx. split_and!; [exact Hk|cbn [put_task sy_store]; by rewrite Hf|].
  intros t' k'. cbn [put_task sy_tasks]. destruct (decide (t' = t)) as [->|Hne];
    [rewrite lookup_insert_eq; intros [= Hxe]; by apply (Hx k')|].
  rewrite lookup_insert_ne by done. apply H3.
Qed.

Lemma settle_other f f' x st :
  f' <> f -> futures (settle f' x st).2 !! f = futures st !! f /\ sessions (settle f' x st).2 = sessions st.
Proof.
  intros Hne. unfold settle. destruct (futures st !! f') as [[]|]; try done. cbn [snd set_future futures sessions].
  by rewrite list_lookup_insert_ne.
Qed.

Lemma fulfil_other f k f' k' outcome st :
  f' <> f -> sessions st !! k = Some f ->
  futures (fulfil_slot f' k' outcome st).2 !! f = futures st !! f /\
  sessions (fulfil_slot f' k' outcome st).2 !! k = Some f.
Proof.
  intros Hne Hk. unfold fulfil_slot. destruct outcome as [r|e].
  - destruct (settle_other f f' (Result r) st Hne) as [H1 H2]. by rewrite H2.
  - destruct (is_exception e); [|done]. set (st' := if bool_decide _ then _ else _).
    assert (Hs : futures st' = futures st /\ sessions st' !! k = Some f).
    { unfold st'. destruct (bool_decide (sessions st !! k' = Some f')) eqn:Ed; [|done].
      apply bool_decide_eq_true in Ed. cbn [futures sessions]. split; [done|].
      rewrite lookup_delete_ne; [done|]. congruence. }
    destruct Hs as [Hf Hs]. destruct (settle_other f f' (Exception e) st' Hne) as [H1 H2].
    destruct (settle f' (Exception e) st') as [[v|e'] st2]; cbn [snd] in *; by rewrite H1, H2, Hf.
Qed.

Lemma blocked_claim k f s k0 :
  blocked k f s ->
  let '(r, st) := claim_slot k0 (sy_store s) in
  sessions st !! k = Some f /\ futures st !! f = futures (sy_store s) !! f /\
  (forall f0, r = Ok (f0, true) -> f0 <> f) /\
  (k0 = k -> st = sy_store s /\ (r = Ok (f, false) \/ r = Raise CancelledError)).
Proof.
  intros (H1 & H2 & H3).
  assert (Hlt : (f < List.length (futures (sy_store s)))%nat) by (by destruct H2 as [H2|H2]; apply lookup_lt_Some in H2).
  assert (Hnew : k0 <> k -> sessions (new_slot k0 (sy_store s)).2 !! k = Some f /\
    futures (new_slot k0 (sy_store s)).2 !! f = futures (sy_store s) !! f /\
    (forall f0, (new_slot k0 (sy_store s)).1 = Ok (f0, true) -> f0 <> f)).
  { intros Hne. unfold new_slot. cbn [fst snd sessions futures]. split_and!.
    - by rewrite lookup_insert_ne.
    - by rewrite lookup_app_l.
    - intros f0 [= <-]. lia. }
  unfold claim_slot. destruct (decide (k0 = k)) as [->|Hne].
  - rewrite H1. destruct H2 as [H2|H2]; rewrite H2; cbn [exception_of]; split_and!; eauto; intros ? [=].
  - specialize (Hnew Hne). destruct (sessions (sy_store s) !! k0) as [f0|].
    + destruct (futures (sy_store s) !! f0) as [x|]; [|by split_and!].
      destruct (exception_of x) as [[e|]|e]; [|by split_and!..].
      destruct (new_slot k0 (sy_store s)) as [r st]. destruct Hnew as (A & B & C). by split_and!.
    + destruct (new_slot k0 (sy_store s)) as [r st]. destruct Hnew as (A & B & C). by split_and!.
Qed.

Lemma blocked_step l k f s s' : l <> Reset k -> blocked k f s -> step l s = Some s' -> blocked k f s'.
Proof.
  intros Hl Hb. pose proof Hb as (H1 & H2 & H3). destruct l as [t k0|t outcome|t|t|k0]; cbn [step].
  - destruct (sy_tasks s !! t); [done|]. intros [= <-]. pose proof (blocked_claim k f s k0 Hb) as Hc.
    destruct (claim_slot k0 (sy_store s)) as [[[f0 []]|e] st]; destruct Hc as (A & B & C & _);
      apply blocked_put; try done. intros k' [= _ ->]. by apply (C f).
  - destruct (sy_tasks s !! t) as [[k0 f0|f0|r]|] eqn:Et; try done. intros [= <-].
    assert (Hne : f0 <> f) by (intros ->; by apply (H3 t k0)).
    destruct (fulfil_other f k f0 k0 outcome (sy_store s) Hne H1) as [A B].
    destruct (fulfil_slot f0 k0 outcome (sy_store s)) as [[v|e] st]; by apply blocked_put.
  - destruct (sy_tasks s !! t) as [[k0 f0|f0|r]|] eqn:Et; try done.
    destruct (futures (sy_store s) !! f0) as [[]|]; try done; intros [= <-]; by apply blocked_put.
  - destruct (sy_tasks s !! t) as [[k0 f0|f0|r]|] eqn:Et; try done.
    destruct (futures (sy_store s) !! f0) as [[]|] eqn:Ef; try done. intros [= <-].
    destruct (decide (f0 = f)) as [->|Hne].
    + split_and!; [exact H1|left; by apply list_lookup_insert_eq, (lookup_lt_Some _ _ Pending)|].
      intros t' k'. cbn [put_task sy_tasks]. destruct (decide (t' = t)) as [->|Hd];
        [rewrite lookup_insert_eq; by intros [=]|rewrite lookup_insert_ne by done; apply H3].
    + apply blocked_put; try done. cbn [set_future futures]. by apply list_lookup_insert_ne.
  - intros [= <-]. split_and!; [|exact H2|exact H3]. cbn [drop_slot snd sy_store sessions].
    rewrite lookup_delete_ne; [exact H1|]. congruence.
Qed.

Lemma blocked_run ls k f s s' :
  Forall (fun l => l <> Reset k) ls -> blocked k f s -> run ls s = Some s' -> blocked k f s'.
Proof.
  intros Hls. revert s. induction Hls as [|l ls Hl Hls IH]; simpl; intros s Hb; [by intros [= <-]|].
  destruct (step l s) as [s1|] eqn:Es; [|done]. apply IH. by eapply blocked_step.
Qed.

(* ------------------------------------------------------------------ *)
(** * Properties *)

(** while no task is cancelled, no call is stuck and no session is built twice: in any
    interleaving of calls, failed and successful builds and resets, a task that awaits a
    future either finds it done or has exactly one creator still at work for it, and a
    slot never refers to a failed future. *)
Theorem waiters_have_creator ls s
    (Hu : forallb uncancelled ls = true) (Hrun : run ls no_tasks = Some s) :
  (forall t f, sy_tasks s !! t = Some (Waiting f) ->
     is_Some (step (Wake t) s) \/
     exists t' k, sy_tasks s !! t' = Some (Opening k f) /\
       forall t'' k'', sy_tasks s !! t'' = Some (Opening k'' f) -> t'' = t') /\
  (forall k f, sessions (sy_store s) !! k = Some f ->
     exists x, futures (sy_store s) !! f = Some x /\ usable x).
Proof.
  pose proof (sound_run ls no_tasks s Hu sound_start Hrun) as [H1 H2 H3 H4 H5 H6]. split; [|exact H1].
  intros t f Ht. destruct (H2 t f Ht) as [x Hx]. destruct x.
  - right. destruct (H3 f Hx) as (t' & k & Ht'). exists t', k. split; [exact Ht'|].
    intros t'' k'' Ht''. by apply (H5 t'' t' k'' k f).
  - left. cbn [step]. rewrite Ht, Hx. by eexists.
  - left. cbn [step]. rewrite Ht, Hx. by eexists.
  - left. cbn [step]. rewrite Ht, Hx. by eexists.
Qed.

(** one cancellation at the wrong moment blocks a chat: once the creator of a slot is
    gone without settling its future, or another waiter's cancellation has cancelled it,
    then until the slot is reset, whatever else happens, every call for the key waits
    for ever or is itself cancelled. *)
Theorem cancelled_slot_blocks ls k f s s'
    (Hblocked : blocked k f s) (Hls : Forall (fun l => l <> Reset k) ls) (Hrun : run ls s = Some s') :
  (forall t s'', step (Call t k) s' = Some s'' ->
     sy_tasks s'' !! t = Some (Waiting f) \/ sy_tasks s'' !! t = Some (Done (Raise CancelledError))) /\
  (forall t s'', sy_tasks s' !! t = Some (Waiting f) -> step (Wake t) s' = Some s'' ->
     sy_tasks s'' !! t = Some (Done (Raise CancelledError))).
Proof.
  pose proof (blocked_run ls k f s s' Hls Hblocked Hrun) as Hb. split.
  - intros t s''. cbn [step]. destruct (sy_tasks s' !! t); [done|]. intros [= <-].
    pose proof (blocked_claim k f s' k Hb) as Hc.
    destruct (claim_slot k (sy_store s')) as [r st]. destruct Hc as (_ & _ & _ & Hr).
    destruct (Hr eq_refl) as [_ [->| ->]]; [left|right]; apply lookup_insert_eq.
  - intros t s'' Ht. cbn [step]. rewrite Ht. destruct Hb as (_ & [H2|H2] & _); rewrite H2; [|done].
    intros [= <-]. apply lookup_insert_eq.
Qed.

(* ------------------------------------------------------------------ *)
(** * Witnesses *)

Definition demo_key : session_key := (42, None).
Definition demo_chat_session : chat_session := mk_chat_session 7 1 false.

(** Two messages of a new chat at once: the second waits for the first one's task, which
    builds the session for both. *)
Lemma waiters_have_creator_witness :
  exists s, run [Call 1 demo_key; Call 2 demo_key] no_tasks = Some s /\
    (is_Some (step (Wake 2) s) \/
     exists t' k, sy_tasks s !! t' = Some (Opening k 0) /\
       forall t'' k'', sy_tasks s !! t'' = Some (Opening k'' 0) -> t'' = t') /\
    exists s', run [Built 1 (Ok demo_chat_session); Wake 2; Wake 1] s = Some s' /\
      sy_tasks s' !! 1%nat = Some (Done (Ok demo_chat_session)) /\
      sy_tasks s' !! 2%nat = Some (Done (Ok demo_chat_session)).
Proof.
  eexists. split; [reflexivity|]. split.
  - lazymatch goal with |- is_Some (step _ ?s) \/ _ =>
      exact (proj1 (waiters_have_creator [Call 1 demo_key; Call 2 demo_key] s eq_refl eq_refl) 2%nat 0%nat eq_refl)
    end.
  - eexists. split; [reflexivity|]. split; reflexivity.
Defined.

(** The creator is cancelled, and the next message of the chat waits for ever. *)
Lemma cancelled_slot_blocks_witness :
  exists s, run [Call 1 demo_key; Built 1 (Raise CancelledError)] no_tasks = Some s /\
    forall s'', step (Call 2 demo_key) s = Some s'' ->
      sy_tasks s'' !! 2%nat = Some (Waiting 0) \/ sy_tasks s'' !! 2%nat = Some (Done (Raise CancelledError)).
Proof.
  exists (mk_system (mk_store {[demo_key := 0%nat]} [Pending]) {[1%nat := Done (Raise CancelledError)]}).
  split; [vm_compute; reflexivity|]. intros s'' Hs.
  eapply (cancelled_slot_blocks [] demo_key 0%nat); [|constructor|reflexivity|exact Hs].
  split_and!; [reflexivity|right; reflexivity|]. intros t k'. cbn [sy_tasks].
  destruct (decide (t = 1%nat)) as [->|Hne]; [by rewrite lookup_singleton_eq|by rewrite lookup_singleton_ne].
Defined.
